(* ===== verification/_CoqProject ===== *)
-Q . S2P
Prelude.v
Mem.v
KString.v
Params.v
Asm.v
Kernel.v
Spinlock.v
Kalloc.v
Sched.v
Handoff.v
Wakeup.v
Sleeplock.v
Virtio.v
Bio.v
Bcache.v
Log.v
LogCrash.v
User.v
Print.v
Uprintf.v
Ulib.v
Grep.v
Utools.v
Umalloc.v
Sh.v
Shparse.v
Shprint.v
Shrun.v
Vm.v
Uvm.v
Uvmfree.v
Ucopy.v
Pipe.v
Fs.v
Fstx.v
Fsblock.v
Fsfile.v
Fsio.v
Fsinode.v
Mkfs.v
Mkimage.v
Console.v
File.v
Fsop.v
Fsmain.v
Proc.v
Exec.v
Syscall.v
Trap.v
