(* ===== verification/Prelude.v ===== *)
(** * A verification of xv6 for RISC-V

    The repository is an operating system of the xv6 family: a kernel in C and
    assembly (kernel/), user programs and a C library (user/), and the program
    that makes the first file-system image (mkfs/).  The development translates
    that code into executable Rocq functions and proves what the parts promise
    each other and their users.

    ** How the code is modelled

    A C function is a computation in the monad [M S] below: it takes the
    schedule of the other agents and a state, and ends as [Ret] (a value, the
    rest of the schedule, the new state), [Panic] with the message the code
    prints, [Blocked] when it waits and the schedule is used up, [Stuck] for a
    null or wild pointer, or [Diverge] when a loop runs out of fuel.  The
    schedule is a list of state transformers: each time the code sleeps, spins
    or is switched out, the next one runs, and theorems state what they assume
    of it.  A loop is [loop] with 2^64 turns of fuel, more than any loop of the
    program can take on its bounded data; every theorem that says a function
    returns proves that fuel suffices, by a decreasing measure
    ([loop_measure]).  Integers are [Z] with the wrap-around of their C type
    written out (Prelude: [u8], [u32], [i32], [u64], ...); memory is a map from
    addresses to bytes (Mem), a disk block the list of its bytes.

    ** The kernel, bottom up

    - Prelude, Mem, KString, Params: the monad and its tactics, bytes and
      words, kernel/string.c, and the constants of param.h, memlayout.h, fs.h,
      riscv.h and fcntl.h.
    - Asm: swtch.S, trampoline.S, kernelvec.S and entry.S as instruction lists
      on a hart.  A switched-out context resumes where it left off, a trap
      brings back every register, kernel interrupts and timer interrupts are
      transparent.
    - Kernel: the state of the kernel as one record, [kstate], with its setters.
    - Spinlock, Sched, Handoff, Wakeup, Sleeplock: spinlock.c, the scheduling
      half of proc.c and sleeplock.c.  Sequentially: any use of the locks keeps
      nesting and interrupt state consistent or panics; the scheduler runs
      exactly the processes it finds RUNNABLE, in the order of the table, and
      passes none over; [sleep], with other harts contending for its locks,
      keeps the caller's lock until it has the process lock; [acquiresleep]
      waits for the holder.  As interleavings of the harts' memory accesses: mutual
      exclusion of the spin lock, and no wake-up is lost.
    - Kalloc, Vm, Uvm, Uvmfree, Ucopy: kalloc.c and vm.c.  Page tables are
      bytes of memory, related by [pt_rep] to a tree and by [vm_inv] to the
      free list.  No page is owned twice; [uvmalloc] and [uvmcopy] map every
      page or, when memory runs out, none (page-table pages they added stay in
      the tree); [uvmfree] returns everything; [copyin], [copyout] and
      [copyinstr] move exactly the user's bytes.
    - Virtio, Bio, Bcache, Log, LogCrash: virtio_disk.c, bio.c, log.c.  The
      device is the parameter [VirtioDev] with the law [VirtioOk], the
      documented behaviour of the queue.  The driver transfers the block, the
      cache implements a map of blocks, and a transaction is atomic under
      crashes at any disk write, also during recovery.
    - Fs, with Fstx, Fsblock, Fsfile, Fsio, Fsinode for its theory: fs.c.  Fstx
      is the interface between the log and the file system: inside a
      transaction the disk is a map of blocks.  On it are proved block
      allocation, [bmap], [readi], [writei] and [iupdate].
    - Console, File, Pipe, with Fsop and Fsmain for the theory of files:
      console.c, uart.c, printf.c, file.c, pipe.c.  A pipe is a FIFO queue;
      [filewrite] survives crashes with a prefix of the data and all other
      files intact, [fileread] returns exactly the bytes of the file, and what
      was written is read back.
    - Proc, Exec, Syscall, Trap: the rest of proc.c, exec.c, syscall.c,
      sysproc.c, sysfile.c, trap.c, plic.c, start.c and main.c, as executable
      definitions over the parts above.

    The addresses that the linker fixes are the parameter [Linker] with the
    law [LinkerOk].

    ** The first image

    - Mkfs, with Mkimage for its theory: mkfs.c, on an image that is the map of
      its sectors.  The image that [main] leaves satisfies the predicates the
      theorems about fs.c start from ([layout], [fsys], [solid], [apart]), holds
      the bytes of every file, and marks in use exactly the blocks that belong
      to a file.

    ** User programs

    - User: the system calls a program sees, with oracles for short reads and
      writes.  Print, Uprintf, Ulib: printf.c and ulib.c.  Grep, Utools: grep.c,
      cat.c, wc.c, echo.c.  [match] decides the meaning of the pattern, grep
      prints the matching lines however the reads are cut, up to the first
      line that does not fit its buffer.
    - Umalloc: umalloc.c on the bytes of the heap.  Objects never overlap, keep
      their contents, and no memory is lost.
    - Sh, with Shparse, Shprint, Shrun for its theory: sh.c.  The parser
      terminates on every line, gives well-formed trees and parses printed
      commands back; [runcmd] and [main], as trees of system calls, create
      the processes the lines stand for, with the right descriptors, and wait
      and report as they must, also when a [fork] fails.

    ** What the theorems are

    Each file says at its top what it holds.  The main theorems are marked with
    a claim number in their comment; next to each one with hypotheses stands a
    witness that applies it to a concrete state.

    ** Fuel and bounds

    [loop] has 2^64 turns; the parser of the shell has 4 n + 4 for a line of n
    bytes, which [parsecmd_total] proves enough; [freewalk] has the three
    levels of a page table; the page-table walks recurse on the level.  The
    schedules in theorems about waiting are as long as the [dev_env] of their
    hypotheses says, one entry for every disk request.

    ** Not modelled

    The test programs (usertests, grind, forktest, stressfs), the small programs
    init, ls, kill, ln, mkdir, rm and zombie, the generated system call stubs,
    initcode.S, the build files, and ramdisk.c, which is not linked into the
    kernel.  Of riscv.h the register accesses that the code uses are modelled,
    as fields of the state.  The nesting depth [noff] of the interrupt
    disabling is an unbounded integer; it would take 2^31 nested [push_off] to
    overflow the code's int.  Caches and weak memory are not: the fences of
    acquire and release are the reason the interleavings are sequentially
    consistent.  The theorems about the file system are about one process using
    the disk at a time; other processes appear through the schedule. *)

From stdpp Require Export base numbers strings functions gmap sets list list_numbers.

Open Scope Z_scope.

(** * Machine integers *)

Definition u8 (x : Z) : Z := x mod 2 ^ 8.
Definition u16 (x : Z) : Z := x mod 2 ^ 16.
Definition u32 (x : Z) : Z := x mod 2 ^ 32.
Definition u64 (x : Z) : Z := x mod 2 ^ 64.

(** Two's complement conversion to a signed [w]-bit integer. *)
Definition swrap (w x : Z) : Z := (x + 2 ^ (w - 1)) mod 2 ^ w - 2 ^ (w - 1).
Definition i16 (x : Z) : Z := swrap 16 x.
Definition i32 (x : Z) : Z := swrap 32 x.

(** Values in range are unchanged. *)
Lemma u32_id x : 0 ≤ x < 2 ^ 32 → u32 x = x.
Proof. apply Z.mod_small. Qed.

Lemma u64_id x : 0 ≤ x < 18446744073709551616 → u64 x = x.
Proof. apply Z.mod_small. Qed.

Lemma i32_id x : - 2 ^ 31 ≤ x < 2 ^ 31 → i32 x = x.
Proof. intros H. unfold i32, swrap. change (32 - 1) with 31. rewrite Z.mod_small by lia. lia. Qed.
Lemma i16_mod x : - 2 ^ 15 ≤ x < 2 ^ 15 → i16 (x mod 2 ^ 16) = x.
Proof. intros H. unfold i16, swrap. change (16 - 1) with 15. rewrite Z.add_mod_idemp_l, Z.mod_small by lia. lia. Qed.

(** * The kernel monad

    A computation runs on a state, under a schedule: the list of what the
    rest of the machine (other harts, other processes, devices) does each
    time this thread of control has to wait. *)

Inductive outcome (S A : Type) : Type :=
| Ret (a : A) (e : list (S → S)) (s : S)
| Panic (msg : string) (s : S)
| Blocked (s : S)
| Stuck
| Diverge.
Arguments Ret {S A} _ _ _.
Arguments Panic {S A} _ _.
Arguments Blocked {S A} _.
Arguments Stuck {S A}.
Arguments Diverge {S A}.

Definition M (S A : Type) : Type := list (S → S) → S → outcome S A.

Definition ret {S A} (a : A) : M S A := λ e s, Ret a e s.
Definition bind {S A B} (m : M S A) (k : A → M S B) : M S B := λ e s,
  match m e s with
  | Ret a e' s' => k a e' s'
  | Panic msg s' => Panic msg s'
  | Blocked s' => Blocked s'
  | Stuck => Stuck
  | Diverge => Diverge
  end.
Definition panic {S A} (msg : string) : M S A := λ _ s, Panic msg s.
Definition stuck {S A} : M S A := λ _ _, Stuck.
Definition get {S} : M S S := λ e s, Ret s e s.
Definition gets {S A} (f : S → A) : M S A := λ e s, Ret (f s) e s.
Definition modify {S} (f : S → S) : M S unit := λ e s, Ret tt e (f s).

(** Dereferencing a null pointer or indexing out of bounds is stuck. *)
Definition deref {S A} (o : option A) : M S A :=
  match o with Some a => ret a | None => stuck end.

(** Give the processor (or a lock) to the others and wait to be resumed. *)
Definition wait_env {S} : M S unit := λ e s,
  match e with [] => Blocked s | f :: e' => Ret tt e' (f s) end.

Declare Scope monad_scope.
Delimit Scope monad_scope with monad.
Notation "x <- c1 ;; c2" := (bind c1 (λ x, c2))
  (at level 100, c1 at next level, right associativity) : monad_scope.
Notation "c1 ;;; c2" := (bind c1 (λ _, c2))
  (at level 100, right associativity) : monad_scope.
Open Scope monad_scope.

Definition when {S} (b : bool) (c : M S unit) : M S unit := if b then c else ret tt.

(** [for(x in l) body], left as soon as the body returns a value. *)
Fixpoint for_in {S A R} (l : list A) (body : A → M S (option R)) : M S (option R) :=
  match l with
  | [] => ret None
  | x :: l' =>
      r <- body x ;;
      match r with Some v => ret (Some v) | None => for_in l' body end
  end.

(** [while] loops: [body] returns [inl] to go round again and [inr] to leave.
    The fuel is binary, so that a bound of 2^64 turns costs nothing. *)
Fixpoint iter_fuel {S X R} (p : positive) (body : X → M S (X + R)) (x : X) : M S (X + R) :=
  match p with
  | xH => body x
  | xO q =>
      r <- iter_fuel q body x ;;
      match r with inl x' => iter_fuel q body x' | inr v => ret (inr v) end
  | xI q =>
      r <- body x ;;
      match r with
      | inl x' =>
          r' <- iter_fuel q body x' ;;
          match r' with inl x'' => iter_fuel q body x'' | inr v => ret (inr v) end
      | inr v => ret (inr v)
      end
  end.

Definition loop_bound : positive := 18446744073709551616.

Definition loop {S X R} (body : X → M S (X + R)) (x : X) : M S R := λ e s,
  match iter_fuel loop_bound body x e s with
  | Ret (inr v) e' s' => Ret v e' s'
  | Ret (inl _) _ _ => Diverge
  | Panic msg s' => Panic msg s'
  | Blocked s' => Blocked s'
  | Stuck => Stuck
  | Diverge => Diverge
  end.

(** [for(i = 0; i < bound; i++) body(i)], the bound being read on every turn. *)
Definition for_upto {S} (bound : M S Z) (body : Z → M S unit) : M S unit :=
  loop (λ i, n <- bound ;; if i <? n then body i ;;; ret (inl (i + 1)) else ret (inr tt)) 0.

(** ** Running computations *)

Section monad_laws.
Context {S : Type}.

Lemma bind_Ret {A B} (m : M S A) (k : A → M S B) a e e' s s' :
  m e s = Ret a e' s' → bind m k e s = k a e' s'.
Proof. intros H. unfold bind. by rewrite H. Qed.

Lemma bind_Panic {A B} (m : M S A) (k : A → M S B) msg e s s' :
  m e s = Panic msg s' → bind m k e s = Panic msg s'.
Proof. intros H. unfold bind. by rewrite H. Qed.

Lemma bind_assoc {A B C} (m : M S A) (k : A → M S B) (h : B → M S C) e s :
  bind (bind m k) h e s = bind m (λ a, bind (k a) h) e s.
Proof. unfold bind. by destruct (m e s). Qed.

(** One step of a computation whose first action is a primitive. *)
Lemma bind_ret {A B} (a : A) (k : A → M S B) e s : bind (ret a) k e s = k a e s.
Proof. done. Qed.
Lemma bind_get {B} (k : S → M S B) e s : bind get k e s = k s e s.
Proof. done. Qed.
Lemma bind_gets {A B} (f : S → A) (k : A → M S B) e s : bind (gets f) k e s = k (f s) e s.
Proof. done. Qed.
Lemma bind_modify {B} (f : S → S) (k : unit → M S B) e s : bind (modify f) k e s = k tt e (f s).
Proof. done. Qed.
Lemma bind_deref {A B} (a : A) (k : A → M S B) e s : bind (deref (Some a)) k e s = k a e s.
Proof. done. Qed.
Lemma bind_when_true {B} c (k : unit → M S B) e s : bind (when true c) k e s = bind c k e s.
Proof. done. Qed.
Lemma bind_when_false {B} c (k : unit → M S B) e s : bind (when false c) k e s = k tt e s.
Proof. done. Qed.

Lemma bind_ext {A B} (m : M S A) (k k' : A → M S B) e s :
  (∀ a e s, k a e s = k' a e s) → bind m k e s = bind m k' e s.
Proof. intros H. unfold bind. destruct (m e s); auto. Qed.
End monad_laws.

Section loops.
Context {S X R : Type}.
Implicit Types body : X → M S (X + R).

(** [iter_fuel] counts in unary, whatever the shape of its fuel. *)
Definition then_iter (k : X → M S (X + R)) (r : X + R) : M S (X + R) :=
  match r with inl x => k x | inr v => ret (inr v) end.

Fixpoint iter_nat (n : nat) body (x : X) : M S (X + R) :=
  match n with
  | O => ret (inl x)
  | Datatypes.S n' => bind (body x) (then_iter (iter_nat n' body))
  end.

Lemma iter_nat_S body n x e s :
  iter_nat (Datatypes.S n) body x e s = bind (body x) (then_iter (iter_nat n body)) e s.
Proof. done. Qed.

Lemma iter_nat_add m n body x e s :
  iter_nat (m + n) body x e s = bind (iter_nat m body x) (then_iter (iter_nat n body)) e s.
Proof.
  revert x e s. induction m as [|m IH]; intros x e s; [done|].
  cbn [Nat.add iter_nat]. rewrite bind_assoc. apply bind_ext.
  intros [x'|v] e' s'; cbn [then_iter]; [apply IH|done].
Qed.

Lemma iter_fuel_nat p body x e s :
  iter_fuel p body x e s = iter_nat (Pos.to_nat p) body x e s.
Proof.
  revert x e s. induction p as [p IH|p IH|]; intros x e s; cbn [iter_fuel].
  - replace (Pos.to_nat p~1) with (1 + (Pos.to_nat p + Pos.to_nat p))%nat by lia.
    cbn [Nat.add iter_nat]. apply bind_ext. intros [x1|v] e1 s1; cbn [then_iter]; [|done].
    rewrite iter_nat_add. unfold bind. rewrite IH.
    destruct (iter_nat (Pos.to_nat p) body x1 e1 s1) as [[x2|v] e2 s2| | | |]; auto.
  - replace (Pos.to_nat p~0) with (Pos.to_nat p + Pos.to_nat p)%nat by lia.
    rewrite iter_nat_add. unfold bind. rewrite IH.
    destruct (iter_nat (Pos.to_nat p) body x e s) as [[x2|v] e2 s2| | | |]; auto.
  - change (Pos.to_nat 1) with 1%nat. cbn [iter_nat]. unfold bind, then_iter.
    by destruct (body x e s) as [[]| | | |].
Qed.

(** Total correctness of a loop: an invariant, and a measure below the bound
    that every further turn decreases. *)
Lemma iter_nat_measure body (m : X → list (S → S) → S → Z) (I : X → list (S → S) → S → Prop)
    (Q : R → list (S → S) → S → Prop) n x e s :
  (∀ x e s, I x e s → 0 ≤ m x e s ∧
     ∃ r e' s', body x e s = Ret r e' s' ∧
     match r with inl x' => I x' e' s' ∧ m x' e' s' < m x e s | inr v => Q v e' s' end) →
  I x e s → m x e s < Z.of_nat n →
  ∃ v e' s', iter_nat n body x e s = Ret (inr v) e' s' ∧ Q v e' s'.
Proof.
  intros Hb. revert x e s. induction n as [|n IH]; intros x e s HI Hm.
  - destruct (Hb _ _ _ HI) as [? _]. lia.
  - destruct (Hb _ _ _ HI) as (Hpos & [x'|v] & e' & s' & Heq & H); cbn [iter_nat];
      erewrite bind_Ret by exact Heq; cbn [then_iter].
    + destruct H as [HI' Hlt]. apply IH; [done|lia].
    + exists v, e', s'. done.
Qed.

Lemma iter_fuel_measure body (m : X → list (S → S) → S → Z) (I : X → list (S → S) → S → Prop)
    (Q : R → list (S → S) → S → Prop) p x e s :
  (∀ x e s, I x e s → 0 ≤ m x e s ∧
     ∃ r e' s', body x e s = Ret r e' s' ∧
     match r with inl x' => I x' e' s' ∧ m x' e' s' < m x e s | inr v => Q v e' s' end) →
  I x e s → m x e s < Z.pos p →
  ∃ v e' s', iter_fuel p body x e s = Ret (inr v) e' s' ∧ Q v e' s'.
Proof.
  intros Hb HI Hm. setoid_rewrite iter_fuel_nat.
  apply (iter_nat_measure body m I); [done|done|lia].
Qed.

(** A loop whose body leaves at once. *)
Lemma loop_exit body x v e e' s s' :
  body x e s = Ret (inr v) e' s' → loop body x e s = Ret v e' s'.
Proof.
  intros H. unfold loop. rewrite iter_fuel_nat.
  pose proof (Pos2Nat.is_pos loop_bound) as Hp. revert Hp.
  generalize (Pos.to_nat loop_bound). intros [|n] Hn; [lia|]. cbn [iter_nat].
  by rewrite (bind_Ret _ _ _ _ _ _ _ H).
Qed.

(** A loop that leaves within [n] turns, for a small [n]. *)
Lemma iter_nat_more n m body x v e e' s s' :
  iter_nat n body x e s = Ret (inr v) e' s' → iter_nat (n + m) body x e s = Ret (inr v) e' s'.
Proof. intros H. rewrite iter_nat_add. by rewrite (bind_Ret _ _ _ _ _ _ _ H). Qed.

Lemma loop_iter n body x v e e' s s' :
  iter_nat n body x e s = Ret (inr v) e' s' → (n ≤ 1000)%nat → loop body x e s = Ret v e' s'.
Proof.
  intros H Hn. unfold loop. rewrite iter_fuel_nat.
  assert (Hb : (1000 ≤ Pos.to_nat loop_bound)%nat) by (unfold loop_bound; lia).
  revert Hb. generalize (Pos.to_nat loop_bound). intros k Hk.
  replace k with (n + (k - n))%nat by lia. by rewrite (iter_nat_more _ _ _ _ _ _ _ _ _ H).
Qed.

Lemma loop_measure body (m : X → list (S → S) → S → Z) (I : X → list (S → S) → S → Prop)
    (Q : R → list (S → S) → S → Prop) x e s :
  (∀ x e s, I x e s → 0 ≤ m x e s ∧
     ∃ r e' s', body x e s = Ret r e' s' ∧
     match r with inl x' => I x' e' s' ∧ m x' e' s' < m x e s | inr v => Q v e' s' end) →
  I x e s → m x e s < 2 ^ 64 →
  ∃ v e' s', loop body x e s = Ret v e' s' ∧ Q v e' s'.
Proof.
  intros Hb HI Hm.
  destruct (iter_fuel_measure body m I Q loop_bound x e s Hb HI Hm)
    as (v & e' & s' & Heq & HQ).
  exists v, e', s'. unfold loop. by rewrite Heq.
Qed.
End loops.

(** A counted loop whose bound does not change. *)
Lemma for_upto_ok {S} (bound : M S Z) body (I : nat → list (S → S) → S → Prop) (n : nat) e s :
  Z.of_nat n < 2 ^ 63 →
  (∀ i e s, (i ≤ n)%nat → I i e s → bound e s = Ret (Z.of_nat n) e s) →
  (∀ i e s, (i < n)%nat → I i e s → ∃ e' s', body (Z.of_nat i) e s = Ret tt e' s' ∧ I (Datatypes.S i) e' s') →
  I 0%nat e s → ∃ e' s', for_upto bound body e s = Ret tt e' s' ∧ I n e' s'.
Proof.
  intros Hn Hbound Hbody H0. unfold for_upto.
  match goal with |- context [loop ?b _] =>
    destruct (loop_measure b (λ i _ _, Z.of_nat n - i)
      (λ i e s, 0 ≤ i ≤ Z.of_nat n ∧ I (Z.to_nat i) e s) (λ _ e s, I n e s) 0 e s)
      as ([] & e' & s' & Hr & HI) end; [|split; [lia|done]|lia|eauto].
  intros i e1 s1 [Hi HI]. split; [lia|]. rewrite (bind_Ret _ _ _ _ _ _ _ (Hbound (Z.to_nat i) e1 s1 ltac:(lia) HI)).
  destruct (Z.ltb_spec i (Z.of_nat n)) as [Hlt|Hge].
  - destruct (Hbody (Z.to_nat i) e1 s1) as (e2 & s2 & Hr & HI2); [lia|done|].
    rewrite Z2Nat.id in Hr by lia. rewrite (bind_Ret _ _ _ _ _ _ _ Hr).
    exists (inl (i + 1)), e2, s2. split; [done|]. rewrite Z2Nat.inj_add by lia. cbn.
    rewrite Nat.add_1_r. split; [|lia]. split; [lia|done].
  - exists (inr tt), e1, s1. split; [done|]. by replace n with (Z.to_nat i) by lia.
Qed.

Section for_loops.
Context {S R : Type}.

(** A [for] loop over an index range: each turn leaves with a value
    satisfying [Q] or keeps the invariant. *)
Lemma for_seq_inv (body : nat → M S (option R)) (I : nat → list (S → S) → S → Prop)
    (Q : R → list (S → S) → S → Prop) k n e s :
  (∀ i e s, (k ≤ i < k + n)%nat → I i e s →
     ∃ r e' s', body i e s = Ret r e' s' ∧
     match r with None => I (Datatypes.S i) e' s' | Some v => Q v e' s' end) →
  I k e s →
  ∃ r e' s', for_in (seq k n) body e s = Ret r e' s' ∧
    match r with None => I (k + n)%nat e' s' | Some v => Q v e' s' end.
Proof.
  revert k e s. induction n as [|n IH]; intros k e s Hb HI; cbn [seq for_in].
  - exists None, e, s. by rewrite Nat.add_0_r.
  - destruct (Hb k e s ltac:(lia) HI) as (r & e1 & s1 & Hr & H).
    rewrite (bind_Ret _ _ _ _ _ _ _ Hr). destruct r as [v|].
    + exists (Some v), e1, s1. done.
    + rewrite Nat.add_succ_r, <-Nat.add_succ_l. apply IH; [|done].
      intros i e2 s2 Hi. apply Hb. lia.
Qed.

(** A [for] loop that always runs through its range. *)
Lemma for_seq_all (body : nat → M S (option R)) (I : nat → list (S → S) → S → Prop) k n e s :
  (∀ i e s, (k ≤ i < k + n)%nat → I i e s →
     ∃ e' s', body i e s = Ret None e' s' ∧ I (Datatypes.S i) e' s') →
  I k e s →
  ∃ e' s', for_in (seq k n) body e s = Ret None e' s' ∧ I (k + n)%nat e' s'.
Proof.
  intros Hb HI. destruct (for_seq_inv body I (λ _ _ _, False) k n e s) as ([v|] & e' & s' & H);
    [|done|naive_solver|naive_solver].
  intros i e1 s1 Hi H1. destruct (Hb i e1 s1 Hi H1) as (e2 & s2 & H2 & H3).
  by exists None, e2, s2.
Qed.
End for_loops.

(** Overwriting a segment of a list. *)
Lemma inserts_splice {A} (i : nat) (k l : list A) :
  (i + length k ≤ length l)%nat → list_inserts i k l = take i l ++ k ++ drop (i + length k) l.
Proof.
  intros H. rewrite <-(take_drop i l) at 1. rewrite <-(take_drop (length k) (drop i l)), drop_drop.
  assert (Hi : length (take i l) = i) by (rewrite length_take; lia).
  rewrite <-Hi at 1. rewrite <-(Nat.add_0_r (length (take i l))), list_inserts_app_r. f_equal.
  rewrite list_inserts_0_r; [done|]. rewrite length_take, length_drop. lia.
Qed.

(** Run the primitive actions at the head of a computation. *)
Ltac mstep :=
  repeat first
    [ rewrite bind_ret | rewrite bind_gets | rewrite bind_modify | rewrite bind_get
    | rewrite bind_deref | rewrite bind_when_true | rewrite bind_when_false
    | rewrite bind_assoc ]; cbv beta iota.

(** Run the action at the head of a computation by its specification [H]. *)
Tactic Notation "mrun" constr(H) := rewrite (bind_Ret _ _ _ _ _ _ _ H); cbv beta iota.
