(* ===== verification/Mem.v ===== *)
(** Byte-addressed memory and little-endian integers.

    The kernel stores integers, page-table entries, on-disk inodes and
    directory entries as little-endian bytes; this file has the codec
    ([le_bytes], [le_val]), physical memory as a map from addresses to bytes
    ([ldb], [stb], [ld64], [st64], [read_bytes], [write_bytes]) and the lemmas
    the components use to read back what they wrote. *)

From S2P Require Import Prelude.

(** * Little-endian integers *)

Fixpoint le_bytes (n : nat) (z : Z) : list Z :=
  match n with
  | O => []
  | S n' => z mod 256 :: le_bytes n' (z / 256)
  end.

Fixpoint le_val (l : list Z) : Z :=
  match l with
  | [] => 0
  | b :: l' => b + 256 * le_val l'
  end.

Definition is_byte (b : Z) : Prop := 0 ≤ b < 256.

Lemma length_le_bytes n z : length (le_bytes n z) = n.
Proof. revert z. induction n; intros; cbn; auto. Qed.

Lemma le_bytes_is_byte n z : Forall is_byte (le_bytes n z).
Proof.
  revert z. induction n; intros; cbn; constructor; auto.
  apply Z.mod_pos_bound. lia.
Qed.

Lemma le_val_bytes n z : le_val (le_bytes n z) = z mod 256 ^ Z.of_nat n.
Proof.
  revert z. induction n as [|n IH]; intros z; cbn [le_bytes le_val].
  - by rewrite Z.mod_1_r.
  - rewrite IH, Nat2Z.inj_succ, Z.pow_succ_r by lia.
    rewrite Z.rem_mul_r by lia. lia.
Qed.

Lemma le_val_bytes_small n z :
  0 ≤ z < 256 ^ Z.of_nat n → le_val (le_bytes n z) = z.
Proof. intros. rewrite le_val_bytes. by apply Z.mod_small. Qed.

Lemma le_bytes_val l : Forall is_byte l → le_bytes (length l) (le_val l) = l.
Proof.
  unfold is_byte. induction 1 as [|b l Hb Hl IH]; cbn [length le_val le_bytes]; [done|].
  replace (b + 256 * le_val l) with (le_val l * 256 + b) by lia.
  f_equal.
  - rewrite Z.add_comm, Z.mod_add by lia. by apply Z.mod_small.
  - rewrite Z.div_add_l by lia. rewrite (Z.div_small b) by done. by rewrite Z.add_0_r.
Qed.

Lemma le_val_zero n : le_val (replicate n 0) = 0.
Proof. induction n as [|n IH]; [done|]. cbn [replicate le_val]. lia. Qed.
Lemma le_val_range l : Forall is_byte l → 0 ≤ le_val l < 256 ^ Z.of_nat (length l).
Proof.
  unfold is_byte. induction 1 as [|b l Hb Hl IH]; cbn [length le_val]; [done|].
  rewrite Nat2Z.inj_succ, Z.pow_succ_r by lia. lia.
Qed.

(** * Physical memory *)

Abbreviation mem := (gmap Z Z).

Definition ldb (m : mem) (a : Z) : Z := default 0 (m !! a).
Definition stb (m : mem) (a v : Z) : mem := <[a := u8 v]> m.

Fixpoint write_bytes (m : mem) (a : Z) (bs : list Z) : mem :=
  match bs with
  | [] => m
  | b :: bs' => write_bytes (<[a := b]> m) (a + 1) bs'
  end.
Definition read_bytes (m : mem) (a : Z) (n : nat) : list Z :=
  (λ i : nat, ldb m (a + Z.of_nat i)) <$> seq 0 n.

Definition ld64 (m : mem) (a : Z) : Z := le_val (read_bytes m a 8).
Definition st64 (m : mem) (a v : Z) : mem := write_bytes m a (le_bytes 8 v).

(** Every cell holds a byte. *)
Definition mem_ok (m : mem) : Prop := ∀ a, is_byte (ldb m a).

Lemma ldb_insert m a v x : ldb (<[a := v]> m) x = if decide (a = x) then v else ldb m x.
Proof. unfold ldb. rewrite lookup_insert. by case_decide. Qed.

Lemma ldb_write_bytes m a bs x :
  ldb (write_bytes m a bs) x =
  if decide (a ≤ x < a + Z.of_nat (length bs)) then nth (Z.to_nat (x - a)) bs 0 else ldb m x.
Proof.
  revert m a. induction bs as [|b bs IH]; intros m a; cbn [write_bytes length].
  - rewrite decide_False by lia. done.
  - rewrite IH, ldb_insert. destruct (decide (a = x)) as [->|Hne].
    + rewrite decide_False, decide_True by lia. by replace (x - x) with 0 by lia.
    + destruct (decide (a + 1 ≤ x < a + 1 + Z.of_nat (length bs))).
      * rewrite decide_True by lia.
        replace (Z.to_nat (x - a)) with (S (Z.to_nat (x - (a + 1)))) by lia. done.
      * rewrite decide_False by lia. done.
Qed.

Lemma length_read_bytes m a n : length (read_bytes m a n) = n.
Proof. unfold read_bytes. by rewrite length_fmap, length_seq. Qed.

Lemma read_bytes_shift m m' a b n :
  (∀ i, 0 ≤ i < Z.of_nat n → ldb m (a + i) = ldb m' (b + i)) →
  read_bytes m a n = read_bytes m' b n.
Proof.
  intros H. unfold read_bytes. apply list_fmap_ext. intros i x Hx.
  apply lookup_seq in Hx as [-> Hi]. apply H. lia.
Qed.

Lemma read_bytes_ext m m' a n :
  (∀ x, a ≤ x < a + Z.of_nat n → ldb m x = ldb m' x) → read_bytes m a n = read_bytes m' a n.
Proof. intros H. apply read_bytes_shift. intros. apply H. lia. Qed.

Lemma read_bytes_S m a n : read_bytes m a (S n) = ldb m a :: read_bytes m (a + 1) n.
Proof.
  unfold read_bytes. cbn [seq fmap list_fmap]. f_equal; [f_equal; lia|].
  rewrite <-fmap_S_seq, <-list_fmap_compose. apply list_fmap_ext.
  intros i x _. cbn. f_equal. lia.
Qed.

Lemma read_bytes_app m a n k : read_bytes m a (n + k) = read_bytes m a n ++ read_bytes m (a + Z.of_nat n) k.
Proof.
  revert a. induction n as [|n IH]; intros a; [cbn; by rewrite Z.add_0_r|].
  rewrite Nat.add_succ_l, !read_bytes_S, IH. cbn [app]. do 3 f_equal. lia.
Qed.
Lemma read_bytes_take m a n k : (k ≤ n)%nat → take k (read_bytes m a n) = read_bytes m a k.
Proof.
  intros H. replace n with (k + (n - k))%nat by lia. rewrite read_bytes_app. by rewrite take_app_length' by (by rewrite length_read_bytes).
Qed.
Lemma read_bytes_drop m a n k : (k ≤ n)%nat → drop k (read_bytes m a n) = read_bytes m (a + Z.of_nat k) (n - k).
Proof.
  intros H. replace n with (k + (n - k))%nat at 1 by lia. rewrite read_bytes_app. by rewrite drop_app_length' by (by rewrite length_read_bytes).
Qed.
Lemma write_bytes_app m a bs1 bs2 :
  write_bytes m a (bs1 ++ bs2) = write_bytes (write_bytes m a bs1) (a + Z.of_nat (length bs1)) bs2.
Proof.
  revert m a. induction bs1 as [|b bs1 IH]; intros m a; cbn [app write_bytes length]; [by rewrite Z.add_0_r|].
  rewrite IH. f_equal. lia.
Qed.

Lemma read_write_bytes_eq m a bs : read_bytes (write_bytes m a bs) a (length bs) = bs.
Proof.
  revert m a. induction bs as [|b bs IH]; intros m a; [done|].
  cbn [length write_bytes]. rewrite read_bytes_S. f_equal; [|apply IH].
  rewrite ldb_write_bytes, decide_False, ldb_insert, decide_True by lia. done.
Qed.

Lemma read_write_bytes_ne m a bs x n :
  x + Z.of_nat n ≤ a ∨ a + Z.of_nat (length bs) ≤ x →
  read_bytes (write_bytes m a bs) x n = read_bytes m x n.
Proof.
  intros H. apply read_bytes_ext. intros y Hy. rewrite ldb_write_bytes, decide_False by lia. done.
Qed.

Lemma read_bytes_byte m a n : mem_ok m → Forall is_byte (read_bytes m a n).
Proof.
  intros H. unfold read_bytes. apply Forall_fmap, Forall_true. intros i. apply H.
Qed.

Lemma mem_ok_write_bytes m a bs : mem_ok m → Forall is_byte bs → mem_ok (write_bytes m a bs).
Proof.
  intros Hm Hbs x. rewrite ldb_write_bytes. case_decide as Hx; [|apply Hm].
  destruct (nth_lookup_or_length bs (Z.to_nat (x - a)) 0) as [Hl|Hl]; [|lia].
  rewrite Forall_lookup in Hbs. eauto.
Qed.

(** ** 64-bit words *)

Lemma ld64_st64_eq m a v : ld64 (st64 m a v) a = u64 v.
Proof.
  unfold ld64, st64. pose proof (read_write_bytes_eq m a (le_bytes 8 v)) as H.
  rewrite length_le_bytes in H. rewrite H, le_val_bytes. done.
Qed.

Lemma ld64_st64_ne m a v x : x + 8 ≤ a ∨ a + 8 ≤ x → ld64 (st64 m a v) x = ld64 m x.
Proof.
  intros H. unfold ld64, st64. rewrite read_write_bytes_ne; [done|].
  rewrite length_le_bytes. lia.
Qed.

Lemma ld64_ext m m' a : (∀ x, a ≤ x < a + 8 → ldb m x = ldb m' x) → ld64 m a = ld64 m' a.
Proof. intros H. unfold ld64. f_equal. apply read_bytes_ext. intros. apply H. lia. Qed.

Lemma ld64_all_zero m a : (∀ x, a ≤ x < a + 8 → ldb m x = 0) → ld64 m a = 0.
Proof.
  intros H. unfold ld64. replace (read_bytes m a 8) with (replicate 8 0); [done|].
  cbn. rewrite !H by lia. done.
Qed.

Lemma ld64_range m a : mem_ok m → 0 ≤ ld64 m a < 2 ^ 64.
Proof.
  intros H. unfold ld64. pose proof (le_val_range _ (read_bytes_byte m a 8 H)) as Hr.
  rewrite length_read_bytes in Hr. exact Hr.
Qed.

Lemma ldb_st64_ne m a v x : x < a ∨ a + 8 ≤ x → ldb (st64 m a v) x = ldb m x.
Proof.
  intros H. unfold st64. rewrite ldb_write_bytes, length_le_bytes, decide_False by lia. done.
Qed.

Lemma mem_ok_st64 m a v : mem_ok m → mem_ok (st64 m a v).
Proof. intros. apply mem_ok_write_bytes; [done|apply le_bytes_is_byte]. Qed.

Lemma mem_ok_stb m a v : mem_ok m → mem_ok (stb m a v).
Proof.
  intros Hm x. unfold stb. rewrite ldb_insert. case_decide; [|apply Hm].
  apply Z.mod_pos_bound. lia.
Qed.

Create HintDb mem.
#[export] Hint Resolve mem_ok_st64 mem_ok_stb mem_ok_write_bytes le_bytes_is_byte read_bytes_byte : mem.

#[global] Opaque ld64 st64 read_bytes write_bytes.

(** * Integers in a block of bytes *)

Definition blk_get (n : nat) (off : nat) (d : list Z) : Z := le_val (take n (drop off d)).
Definition blk_put (n : nat) (off : nat) (v : Z) (d : list Z) : list Z :=
  list_inserts off (le_bytes n v) d.

Lemma length_blk_put n off v d : length (blk_put n off v d) = length d.
Proof. apply length_inserts. Qed.

(** The bytes of a block after some were replaced. *)
Lemma take_drop_inserts_eq off (bs d : list Z) :
  (off + length bs ≤ length d)%nat → take (length bs) (drop off (list_inserts off bs d)) = bs.
Proof.
  intros H. apply list_eq. intros i. destruct (decide (i < length bs)%nat).
  - rewrite lookup_take_lt, lookup_drop, list_lookup_inserts by lia. f_equal. lia.
  - rewrite lookup_take_ge by lia. symmetry. apply lookup_ge_None_2. lia.
Qed.
Lemma take_drop_inserts_ne n off off' (bs d : list Z) :
  (off' + n ≤ off)%nat ∨ (off + length bs ≤ off')%nat →
  take n (drop off' (list_inserts off bs d)) = take n (drop off' d).
Proof.
  intros H. apply list_eq. intros i. destruct (decide (i < n)%nat).
  - rewrite !lookup_take_lt, !lookup_drop by lia.
    destruct H; [apply list_lookup_inserts_lt; lia|apply list_lookup_inserts_ge; lia].
  - by rewrite !lookup_take_ge by lia.
Qed.

Lemma blk_get_put_eq n off v d :
  (off + n ≤ length d)%nat → blk_get n off (blk_put n off v d) = v mod 256 ^ Z.of_nat n.
Proof.
  intros H. unfold blk_get, blk_put. rewrite <-(length_le_bytes n v) at 1.
  rewrite take_drop_inserts_eq by (by rewrite length_le_bytes). apply le_val_bytes.
Qed.
Lemma blk_get_put_ne n n' off off' v d :
  (off' + n' ≤ off)%nat ∨ (off + n ≤ off')%nat → blk_get n' off' (blk_put n off v d) = blk_get n' off' d.
Proof.
  intros H. unfold blk_get, blk_put. rewrite take_drop_inserts_ne; [done|]. by rewrite length_le_bytes.
Qed.
