(* ===== verification/KString.v ===== *)
(** kernel/string.c: the memory and string routines the kernel is built on.

    [memset], [memcmp], [memmove] and [memcpy] act on physical memory; the
    string routines take a [char*] as the list of the bytes from the pointer
    on, where the end of the list reads as the terminating NUL. A [char] is
    unsigned on RISC-V. *)

From S2P Require Import Prelude Mem.

(** * Memory *)

(** [for(i = 0; i < n; i++) cdst[i] = c;] *)
Definition memset (m : mem) (dst c n : Z) : mem :=
  foldl (λ m i, stb m (dst + i) c) m (seqZ 0 n).

Fixpoint memcmp (m : mem) (s1 s2 : Z) (n : nat) : Z :=
  match n with
  | O => 0
  | S n' =>
      if ldb m s1 =? ldb m s2 then memcmp m (s1 + 1) (s2 + 1) n'
      else ldb m s1 - ldb m s2
  end.

(** [while(n-- > 0) *d++ = *s++;] *)
Fixpoint copy_up (m : mem) (d s : Z) (n : nat) : mem :=
  match n with
  | O => m
  | S n' => copy_up (<[d := ldb m s]> m) (d + 1) (s + 1) n'
  end.

(** [while(n-- > 0) *--d = *--s;] *)
Fixpoint copy_down (m : mem) (d s : Z) (n : nat) : mem :=
  match n with
  | O => m
  | S n' => copy_down (<[d - 1 := ldb m (s - 1)]> m) (d - 1) (s - 1) n'
  end.

Definition memmove (m : mem) (dst src : Z) (n : Z) : mem :=
  if (src <? dst) && (dst <? src + n)
  then copy_down m (dst + n) (src + n) (Z.to_nat n)
  else copy_up m dst src (Z.to_nat n).

Definition memcpy (m : mem) (dst src n : Z) : mem := memmove m dst src n.

(** * Strings *)

Fixpoint strncmp (p q : list Z) (n : nat) : Z :=
  match n with
  | O => 0
  | S n' =>
      if negb (hd 0 p =? 0) && (hd 0 p =? hd 0 q)
      then strncmp (tail p) (tail q) n'
      else hd 0 p - hd 0 q
  end.

(** The bytes [strncpy] stores: [t] up to and with its NUL, then NULs. *)
Fixpoint strncpy_bytes (t : list Z) (n : nat) : list Z :=
  match n with
  | O => []
  | S n' => if hd 0 t =? 0 then 0 :: replicate n' 0 else hd 0 t :: strncpy_bytes (tail t) n'
  end.

Definition strncpy (s t : list Z) (n : Z) : list Z :=
  strncpy_bytes t (Z.to_nat n) ++ drop (Z.to_nat n) s.

(** The bytes [safestrcpy] stores, given room for [n > 0] of them. *)
Fixpoint safestrcpy_bytes (t : list Z) (n : nat) : list Z :=
  match n with
  | O => []
  | S O => [0]
  | S n' => hd 0 t :: (if hd 0 t =? 0 then [0] else safestrcpy_bytes (tail t) n')
  end.

Definition safestrcpy (s t : list Z) (n : Z) : list Z :=
  if n <=? 0 then s
  else
    let w := safestrcpy_bytes t (Z.to_nat n) in
    w ++ drop (length w) s.

Fixpoint strlen (s : list Z) : Z :=
  match s with
  | [] => 0
  | c :: s' => if c =? 0 then 0 else 1 + strlen s'
  end.

(** * Specifications *)

(** The string a [char*] denotes when at most [n] bytes of it are looked at. *)
Fixpoint cstr (p : list Z) (n : nat) {struct n} : list Z :=
  match n, p with
  | S n', c :: p' => if c =? 0 then [] else c :: cstr p' n'
  | _, _ => []
  end.

Lemma ldb_memset m dst c n x :
  ldb (memset m dst c n) x = if decide (dst ≤ x < dst + n) then u8 c else ldb m x.
Proof.
  unfold memset. destruct (Z_lt_le_dec 0 n) as [Hn|Hn].
  2: { rewrite seqZ_nil by lia. cbn. by rewrite decide_False by lia. }
  assert (H : ∀ k i m, ldb (foldl (λ m i, stb m (dst + i) c) m (seqZ i (Z.of_nat k))) x
    = if decide (dst + i ≤ x < dst + i + Z.of_nat k) then u8 c else ldb m x).
  { clear. induction k as [|k IH]; intros i m.
    - rewrite seqZ_nil by lia. cbn. by rewrite decide_False by lia.
    - rewrite seqZ_cons by lia. cbn [foldl].
      replace (Z.pred (Z.of_nat (S k))) with (Z.of_nat k) by lia.
      rewrite IH. unfold stb. rewrite ldb_insert.
      repeat case_decide; try done; lia. }
  specialize (H (Z.to_nat n) 0 m). rewrite Z2Nat.id in H by lia. rewrite H.
  by rewrite Z.add_0_r.
Qed.

Lemma ldb_copy_up m d s n x :
  (d ≤ s ∨ s + Z.of_nat n ≤ d) →
  ldb (copy_up m d s n) x =
  if decide (d ≤ x < d + Z.of_nat n) then ldb m (s + (x - d)) else ldb m x.
Proof.
  revert m d s. induction n as [|n IH]; intros m d s H; cbn [copy_up].
  - by rewrite decide_False by lia.
  - rewrite IH by lia. rewrite !ldb_insert.
    repeat case_decide; try (f_equal; lia); lia.
Qed.

Lemma ldb_copy_down m d s n x :
  s ≤ d →
  ldb (copy_down m d s n) x =
  if decide (d - Z.of_nat n ≤ x < d) then ldb m (s + (x - d)) else ldb m x.
Proof.
  revert m d s. induction n as [|n IH]; intros m d s H; cbn [copy_down].
  - by rewrite decide_False by lia.
  - rewrite IH by lia. rewrite !ldb_insert.
    repeat case_decide; try (f_equal; lia); lia.
Qed.

Lemma ldb_memmove m dst src n x :
  0 ≤ n →
  ldb (memmove m dst src n) x =
  if decide (dst ≤ x < dst + n) then ldb m (src + (x - dst)) else ldb m x.
Proof.
  intros Hn. unfold memmove.
  destruct (Z.ltb_spec src dst), (Z.ltb_spec dst (src + n)); cbn [andb].
  2-4: rewrite ldb_copy_up by lia; rewrite Z2Nat.id by lia; done.
  rewrite ldb_copy_down by lia. rewrite Z2Nat.id by lia.
  repeat case_decide; try (f_equal; lia); lia.
Qed.

Lemma memcmp_zero m s1 s2 n :
  memcmp m s1 s2 n = 0 ↔ read_bytes m s1 n = read_bytes m s2 n.
Proof.
  revert s1 s2. induction n as [|n IH]; intros s1 s2; cbn [memcmp]; [done|].
  rewrite !read_bytes_S. destruct (Z.eqb_spec (ldb m s1) (ldb m s2)) as [Heq|Hne].
  - rewrite IH, Heq. split; [by intros ->|by intros [=]].
  - split; [lia|by intros [= ? ?]].
Qed.

Lemma length_strncpy_bytes t n : length (strncpy_bytes t n) = n.
Proof.
  revert t. induction n as [|n IH]; intros t; cbn; [done|].
  destruct (_ =? _); cbn; [by rewrite length_replicate|by rewrite IH].
Qed.

Lemma cstr_nil n : cstr [] n = [].
Proof. by destruct n. Qed.

Lemma cstr_hd p n :
  cstr p (S n) = if hd 0 p =? 0 then [] else hd 0 p :: cstr (tail p) n.
Proof. destruct p as [|c p]; [done|]. reflexivity. Qed.

Lemma cstr_replicate_0 k n : cstr (replicate k 0) n = [].
Proof. destruct k; [apply cstr_nil|]. by destruct n. Qed.

Lemma cstr_strncpy t n l : cstr (strncpy_bytes t n ++ l) n = cstr t n.
Proof.
  revert t. induction n as [|n IH]; intros t; [done|].
  rewrite (cstr_hd t), (cstr_hd (_ ++ l)). cbn [strncpy_bytes].
  destruct (hd 0 t =? 0) eqn:Hz; cbn [app hd tail]; [done|]. by rewrite Hz, IH.
Qed.

Lemma length_safestrcpy_bytes t n : (length (safestrcpy_bytes t n) ≤ n)%nat.
Proof.
  revert t. induction n as [|n IH]; intros t; [done|].
  cbn [safestrcpy_bytes]. destruct n as [|n]; [done|].
  cbn [length]. destruct (hd 0 t =? 0); [cbn; lia|]. specialize (IH (tail t)). lia.
Qed.

(** The stored bytes are the string, cut to leave room for its NUL. *)
Lemma cstr_safestrcpy_bytes t n l k :
  (S n ≤ k)%nat → cstr (safestrcpy_bytes t (S n) ++ l) k = cstr t n.
Proof.
  revert t k. induction n as [|n IH]; intros t k Hk.
  - destruct k; [lia|]. done.
  - destruct k as [|k]; [lia|].
    change (safestrcpy_bytes t (S (S n))) with
      (hd 0 t :: (if hd 0 t =? 0 then [0] else safestrcpy_bytes (tail t) (S n))).
    rewrite cstr_hd, (cstr_hd t n). cbn [app hd tail].
    destruct (hd 0 t =? 0); [done|]. f_equal. apply IH. lia.
Qed.

Lemma strlen_cstr p n : strlen p ≤ Z.of_nat n → cstr p n = take (Z.to_nat (strlen p)) p.
Proof.
  revert n. induction p as [|c p IH]; intros n Hn; [by rewrite cstr_nil, take_nil|].
  cbn [strlen] in *. destruct (Z.eqb_spec c 0) as [->|Hc]; [by destruct n|].
  assert (0 ≤ strlen p) as Hp.
  { clear. induction p as [|c p IH]; cbn; [done|]. destruct (_ =? _); lia. }
  destruct n as [|n]; [lia|]. rewrite cstr_hd. cbn [hd tail].
  destruct (Z.eqb_spec c 0); [done|].
  replace (Z.to_nat (1 + strlen p)) with (S (Z.to_nat (strlen p))) by lia.
  cbn [take]. f_equal. apply IH. lia.
Qed.

Lemma length_cstr p n : (length (cstr p n) ≤ n)%nat.
Proof.
  revert p. induction n as [|n IH]; intros [|c p]; cbn; try lia.
  destruct (_ =? _); cbn; [lia|]. specialize (IH p). lia.
Qed.

Lemma strlen_lt_cstr p n :
  (length (cstr p n) < n)%nat → strlen p = Z.of_nat (length (cstr p n)).
Proof.
  revert n. induction p as [|c p IH]; intros n Hn; [by rewrite cstr_nil|].
  destruct n as [|n]; [cbn in Hn; lia|]. cbn [strlen cstr] in *.
  destruct (_ =? _); [done|]. cbn [length] in *. rewrite (IH n) by lia. lia.
Qed.

(** ** Properties of the routines *)

(** C22: [memmove] copies [n] bytes from [src] to [dst] as if through a
    temporary buffer, whether or not and however the two ranges overlap, and
    changes nothing outside the destination. *)
Theorem memmove_overlap m dst src n :
  0 ≤ n →
  read_bytes (memmove m dst src n) dst (Z.to_nat n) = read_bytes m src (Z.to_nat n) ∧
  ∀ x, x < dst ∨ dst + n ≤ x → ldb (memmove m dst src n) x = ldb m x.
Proof.
  intros Hn. split.
  - apply read_bytes_shift. intros i Hi. rewrite ldb_memmove, decide_True by lia. f_equal. lia.
  - intros x Hx. rewrite ldb_memmove, decide_False by lia. done.
Qed.

Lemma memmove_overlap_witness :
  read_bytes (memmove (write_bytes ∅ 100 [1; 2; 3; 4; 5]) 102 100 5) 102 5 = [1; 2; 3; 4; 5].
Proof.
  rewrite (proj1 (memmove_overlap (write_bytes ∅ 100 [1; 2; 3; 4; 5]) 102 100 5 ltac:(lia))).
  vm_compute. reflexivity.
Defined.

(** [strncmp] returns 0 exactly when the two strings agree on their
    first [n] bytes or up to a common terminating NUL before that. *)
Lemma strncmp_zero p q n : strncmp p q n = 0 ↔ cstr p n = cstr q n.
Proof.
  revert p q. induction n as [|n IH]; intros p q; cbn [strncmp]; [done|].
  rewrite !cstr_hd.
  destruct (Z.eqb_spec (hd 0 p) 0) as [Hp|Hp], (Z.eqb_spec (hd 0 p) (hd 0 q)) as [Hpq|Hpq];
    cbn [negb andb]; try rewrite <-Hpq; rewrite ?Hp; cbn [Z.eqb].
  - split; [done|lia].
  - destruct (Z.eqb_spec (hd 0 q) 0); [lia|]. split; [lia|done].
  - rewrite IH. destruct (Z.eqb_spec (hd 0 p) 0); [done|].
    split; [by intros ->|by intros [=]].
  - destruct (Z.eqb_spec (hd 0 q) 0); split; try lia; try done. by intros [=].
Qed.

(** C23: [safestrcpy] into an array of [n] bytes always leaves a NUL-terminated
    string there: the source cut to at most [n - 1] bytes; the array keeps its
    length. *)
Theorem safestrcpy_terminates s t n :
  0 < n → Z.of_nat (length s) = n →
  length (safestrcpy s t n) = length s ∧
  strlen (safestrcpy s t n) < n ∧
  cstr (safestrcpy s t n) (length s) = cstr t (Z.to_nat n - 1).
Proof.
  intros Hn Hlen. unfold safestrcpy. destruct (Z.leb_spec n 0) as [|_]; [lia|]. cbv zeta.
  pose proof (length_safestrcpy_bytes t (Z.to_nat n)) as Hw.
  assert (Hc : cstr (safestrcpy_bytes t (Z.to_nat n) ++
                     drop (length (safestrcpy_bytes t (Z.to_nat n))) s) (length s)
               = cstr t (Z.to_nat n - 1)).
  { replace (Z.to_nat n) with (S (Z.to_nat n - 1)) by lia.
    rewrite cstr_safestrcpy_bytes by lia. f_equal; lia. }
  split_and!; [rewrite length_app, length_drop; lia| |done].
  pose proof (length_cstr t (Z.to_nat n - 1)) as Hlt.
  rewrite (strlen_lt_cstr _ (length s)); rewrite Hc; lia.
Qed.

Lemma safestrcpy_terminates_witness :
  strlen (safestrcpy (replicate 4 7) [104; 101; 108; 108; 111] 4) < 4.
Proof.
  apply (proj1 (proj2 (safestrcpy_terminates (replicate 4 7) [104; 101; 108; 108; 111] 4
    ltac:(lia) ltac:(reflexivity)))).
Defined.

(** Proofs reason about these through the lemmas above. *)
#[global] Opaque memset memmove memcmp.
