(* ===== verification/Params.v ===== *)
(** Constants and address arithmetic: kernel/param.h, kernel/fs.h,
    kernel/memlayout.h and the paging macros of kernel/riscv.h. *)

From S2P Require Import Prelude.

(** * kernel/param.h *)

Definition NPROC : Z := 64.
Definition NCPU : Z := 8.
Definition NOFILE : Z := 16.
Definition NFILE : Z := 100.
Definition NINODE : Z := 50.
Definition NDEV : Z := 10.
Definition ROOTDEV : Z := 1.
Definition MAXARG : Z := 32.
Definition MAXOPBLOCKS : Z := 10.
Definition LOGSIZE : Z := MAXOPBLOCKS * 3.
Definition NBUF : Z := MAXOPBLOCKS * 3.
Definition FSSIZE : Z := 1000.
Definition MAXPATH : Z := 128.

(** * kernel/fs.h *)

Definition ROOTINO : Z := 1.
Definition BSIZE : Z := 1024.
Definition FSMAGIC : Z := 0x10203040.
Definition NDIRECT : Z := 12.
Definition NINDIRECT : Z := BSIZE / 4.
Definition MAXFILE : Z := NDIRECT + NINDIRECT.
Definition DINODE_SIZE : Z := 64.
Definition IPB : Z := BSIZE / DINODE_SIZE.
Definition BPB : Z := BSIZE * 8.
Definition DIRSIZ : Z := 14.

(** * kernel/riscv.h *)

Definition PGSIZE : Z := 4096.
Definition PGSHIFT : Z := 12.

Definition PGROUNDUP (sz : Z) : Z := Z.land (u64 (sz + PGSIZE - 1)) (Z.lnot (PGSIZE - 1)).
Definition PGROUNDDOWN (a : Z) : Z := Z.land a (Z.lnot (PGSIZE - 1)).

Definition PTE_V : Z := Z.shiftl 1 0.
Definition PTE_R : Z := Z.shiftl 1 1.
Definition PTE_W : Z := Z.shiftl 1 2.
Definition PTE_X : Z := Z.shiftl 1 3.
Definition PTE_U : Z := Z.shiftl 1 4.

Definition PA2PTE (pa : Z) : Z := u64 (Z.shiftl (Z.shiftr (u64 pa) 12) 10).
Definition PTE2PA (pte : Z) : Z := u64 (Z.shiftl (Z.shiftr pte 10) 12).
Definition PTE_FLAGS (pte : Z) : Z := Z.land pte 0x3FF.

Definition PXMASK : Z := 0x1FF.
Definition PXSHIFT (level : Z) : Z := PGSHIFT + 9 * level.
Definition PX (level va : Z) : Z := Z.land (Z.shiftr (u64 va) (PXSHIFT level)) PXMASK.

Definition MAXVA : Z := Z.shiftl 1 (9 + 9 + 9 + 12 - 1).

(** * kernel/memlayout.h *)

Definition UART0 : Z := 0x10000000.
Definition VIRTIO0 : Z := 0x10001000.
Definition PLIC : Z := 0x0c000000.
Definition KERNBASE : Z := 0x80000000.
Definition PHYSTOP : Z := KERNBASE + 128 * 1024 * 1024.
Definition TRAMPOLINE : Z := MAXVA - PGSIZE.
Definition KSTACK (p : Z) : Z := TRAMPOLINE - (p + 1) * 2 * PGSIZE.
Definition TRAPFRAME : Z := TRAMPOLINE - PGSIZE.

(** kernel/fcntl.h *)
Definition O_RDONLY : Z := 0x000.
Definition O_WRONLY : Z := 0x001.
Definition O_RDWR : Z := 0x002.
Definition O_CREATE : Z := 0x200.
Definition O_TRUNC : Z := 0x400.

(** * Arithmetic of the macros *)

Lemma land_lnot_ones a k : 0 ≤ k → Z.land a (Z.lnot (2 ^ k - 1)) = a - a mod 2 ^ k.
Proof.
  intros Hk. replace (2 ^ k - 1) with (Z.ones k) by (rewrite Z.ones_equiv; lia).
  rewrite <-Z.ldiff_land, Z.ldiff_ones_r by lia.
  rewrite Z.shiftl_mul_pow2, Z.shiftr_div_pow2 by lia.
  pose proof (Z_div_mod_eq_full a (2 ^ k)). lia.
Qed.

Lemma PGROUNDDOWN_spec a : PGROUNDDOWN a = a - a mod PGSIZE.
Proof. apply (land_lnot_ones a 12). lia. Qed.

Lemma PGROUNDUP_spec sz :
  0 ≤ sz → sz + PGSIZE ≤ 2 ^ 64 → PGROUNDUP sz = (sz + PGSIZE - 1) / PGSIZE * PGSIZE.
Proof.
  unfold PGSIZE. intros H0 H1. unfold PGROUNDUP, PGSIZE, u64. rewrite Z.mod_small by lia.
  rewrite (land_lnot_ones _ 12) by lia.
  pose proof (Z_div_mod_eq_full (sz + 4096 - 1) 4096). change (2 ^ 12) with 4096. lia.
Qed.

Lemma land_ones_mod a k : 0 ≤ k → Z.land a (2 ^ k - 1) = a mod 2 ^ k.
Proof.
  intros. rewrite <-Z.land_ones by lia. f_equal. rewrite Z.ones_equiv. lia.
Qed.

Lemma PX_spec level va :
  0 ≤ level → 0 ≤ va < 2 ^ 64 → PX level va = va / 2 ^ PXSHIFT level mod 512.
Proof.
  intros Hl Hva. unfold PX, PXMASK, u64. rewrite Z.mod_small by lia.
  rewrite Z.shiftr_div_pow2 by (unfold PXSHIFT, PGSHIFT; lia).
  apply (land_ones_mod _ 9). lia.
Qed.

Lemma PX_range level va : 0 ≤ level → 0 ≤ va < 2 ^ 64 → 0 ≤ PX level va < 512.
Proof. intros. rewrite PX_spec by done. apply Z.mod_pos_bound. lia. Qed.

Lemma lor_low a b k : 0 ≤ k → 0 ≤ b < 2 ^ k → Z.lor (a * 2 ^ k) b = a * 2 ^ k + b.
Proof.
  intros Hk Hb. rewrite <-Z.add_lor_land.
  replace (Z.land (a * 2 ^ k) b) with 0; [lia|]. symmetry. apply Z.bits_inj'. intros n Hn.
  rewrite Z.land_spec, Z.bits_0. destruct (Z_lt_le_dec n k).
  - by rewrite Z.mul_pow2_bits_low by lia.
  - rewrite <-(Z.mod_small b (2 ^ k)), Z.mod_pow2_bits_high by lia. apply andb_false_r.
Qed.

Lemma PA2PTE_spec pa : 0 ≤ pa < 2 ^ 64 → PA2PTE pa = pa / 4096 * 1024.
Proof.
  intros Hpa. unfold PA2PTE, u64. rewrite (Z.mod_small pa) by lia.
  rewrite Z.shiftl_mul_pow2, Z.shiftr_div_pow2 by lia.
  change (2 ^ 12) with 4096. change (2 ^ 10) with 1024.
  apply Z.mod_small. pose proof (Z_div_mod_eq_full pa 4096).
  pose proof (Z.mod_pos_bound pa 4096). pose proof (Z.div_pos pa 4096). lia.
Qed.

Lemma PTE2PA_spec pte : 0 ≤ pte < 2 ^ 54 → PTE2PA pte = pte / 1024 * 4096.
Proof.
  intros Hp. unfold PTE2PA, u64. rewrite Z.shiftl_mul_pow2, Z.shiftr_div_pow2 by lia.
  change (2 ^ 12) with 4096. change (2 ^ 10) with 1024.
  apply Z.mod_small. pose proof (Z_div_mod_eq_full pte 1024).
  pose proof (Z.mod_pos_bound pte 1024). pose proof (Z.div_pos pte 1024). lia.
Qed.

Lemma PTE_FLAGS_spec pte : PTE_FLAGS pte = pte mod 1024.
Proof. apply (land_ones_mod pte 10). lia. Qed.

(** A page-aligned address and flag bits packed into an entry. *)
Lemma PTE_pack pa fl :
  0 ≤ pa < 2 ^ 64 → 0 ≤ fl < 1024 → Z.lor (PA2PTE pa) fl = pa / 4096 * 1024 + fl.
Proof. intros. rewrite PA2PTE_spec by done. by apply (lor_low _ _ 10). Qed.

Lemma PTE2PA_pack pa fl :
  0 ≤ pa < 2 ^ 56 → pa mod PGSIZE = 0 → 0 ≤ fl < 1024 →
  PTE2PA (Z.lor (PA2PTE pa) fl) = pa.
Proof.
  unfold PGSIZE. intros Hpa Hal Hfl. rewrite PTE_pack by lia.
  pose proof (Z_div_mod_eq_full pa 4096). pose proof (Z.div_pos pa 4096).
  rewrite PTE2PA_spec by lia.
  rewrite Z.div_add_l, (Z.div_small fl) by lia. lia.
Qed.

Lemma PTE_FLAGS_pack pa fl :
  0 ≤ pa < 2 ^ 64 → 0 ≤ fl < 1024 → PTE_FLAGS (Z.lor (PA2PTE pa) fl) = fl.
Proof.
  intros. rewrite PTE_pack, PTE_FLAGS_spec by done.
  rewrite Z.add_comm, Z.mod_add by lia. by apply Z.mod_small.
Qed.
