(* ===== verification/Asm.v ===== *)
(** kernel/swtch.S, kernel/trampoline.S, kernel/kernelvec.S and
    kernel/entry.S: the assembly of the kernel, on a hart with registers,
    control registers, a privilege mode and memory.

    The code is the source's instruction by instruction. Address translation
    is a parameter: [tr satp va] is the physical address of [va] under the
    page table named by [satp]; machine mode does not translate. In this file
    a device register is a location of memory. *)

From S2P Require Import Prelude Mem Params.

Module Asm.

(** * The hart *)

Inductive reg : Type :=
| ra | sp | gp | tp | t0 | t1 | t2 | s0 | s1 | a0 | a1 | a2 | a3 | a4 | a5 | a6 | a7
| s2 | s3 | s4 | s5 | s6 | s7 | s8 | s9 | s10 | s11 | t3 | t4 | t5 | t6.
#[global] Instance reg_eq_dec : EqDecision reg.
Proof. solve_decision. Defined.

Inductive mode : Type := User | Supervisor | Machine.

Record hartst : Type := mkhartst {
  gpr : reg → Z;
  csrs : string → Z;
  priv : mode;
  hmem : mem
}.

Definition set_gpr (r : reg) (v : Z) (h : hartst) : hartst :=
  mkhartst (<[r := v]> (gpr h)) (csrs h) (priv h) (hmem h).
Definition set_csr (c : string) (v : Z) (h : hartst) : hartst :=
  mkhartst (gpr h) (<[c := v]> (csrs h)) (priv h) (hmem h).
Definition set_priv (m : mode) (h : hartst) : hartst := mkhartst (gpr h) (csrs h) m (hmem h).
Definition set_hmem (m : mem) (h : hartst) : hartst := mkhartst (gpr h) (csrs h) (priv h) m.

Inductive instr : Type :=
| SD (rs : reg) (off : Z) (rb : reg)
| LD (rd : reg) (off : Z) (rb : reg)
| ADDI (rd rs : reg) (imm : Z)
| ADD (rd rs rt : reg)
| MUL (rd rs rt : reg)
| LI (rd : reg) (imm : Z)
| CSRRW (rd : reg) (c : string) (rs : reg)
| CSRR (rd : reg) (c : string)
| CSRW (c : string) (rs : reg)
| SFENCE
| CALL (f : hartst → hartst)
| JR (rs : reg)
| RET
| SRET
| MRET.

Section run.
Context (tr : Z → Z → Z).

Definition phys (m : mode) (satp a : Z) : Z := match m with Machine => a | _ => tr satp a end.
Definition addr (h : hartst) (rb : reg) (off : Z) : Z := phys (priv h) (csrs h "satp") (u64 (gpr h rb + off)).

(** RISC-V privileged architecture, 3.1.6.1 and 3.3.2: the return
    instructions restore the mode and the interrupt flag that were saved. *)
Definition do_sret (h : hartst) : hartst :=
  let x := csrs h "sstatus" in
  let x' := Z.ldiff (Z.lor (Z.ldiff x 2) (if Z.testbit x 5 then 2 else 0)) 256 in
  set_priv (if Z.testbit x 8 then Supervisor else User) (set_csr "sstatus" (Z.lor x' 32) h).
Definition do_mret (h : hartst) : hartst :=
  let x := csrs h "mstatus" in
  let x' := Z.ldiff (Z.lor (Z.ldiff x 8) (if Z.testbit x 7 then 8 else 0)) (Z.shiftl 3 11) in
  set_priv (match Z.land (Z.shiftr x 11) 3 with 0 => User | 1 => Supervisor | _ => Machine end)
    (set_csr "mstatus" (Z.lor x' 128) h).

Definition step (i : instr) (h : hartst) : hartst :=
  match i with
  | SD rs off rb => set_hmem (st64 (hmem h) (addr h rb off) (gpr h rs)) h
  | LD rd off rb => set_gpr rd (ld64 (hmem h) (addr h rb off)) h
  | ADDI rd rs imm => set_gpr rd (u64 (gpr h rs + imm)) h
  | ADD rd rs rt => set_gpr rd (u64 (gpr h rs + gpr h rt)) h
  | MUL rd rs rt => set_gpr rd (u64 (gpr h rs * gpr h rt)) h
  | LI rd imm => set_gpr rd imm h
  | CSRRW rd c rs => set_gpr rd (csrs h c) (set_csr c (gpr h rs) h)
  | CSRR rd c => set_gpr rd (csrs h c) h
  | CSRW c rs => set_csr c (gpr h rs) h
  | SFENCE => h
  | CALL f => f h
  | JR _ | RET => h
  | SRET => do_sret h
  | MRET => do_mret h
  end.

(** Where an instruction jumps, if it does. *)
Definition target (i : instr) (h : hartst) : option Z :=
  match i with
  | JR rs => Some (gpr h rs)
  | RET => Some (gpr h ra)
  | SRET => Some (csrs h "sepc")
  | MRET => Some (csrs h "mepc")
  | _ => None
  end.

Fixpoint run (code : list instr) (h : hartst) : hartst * option Z :=
  match code with
  | [] => (h, None)
  | i :: code' =>
      match target i h with
      | Some pc => (step i h, Some pc)
      | None => run code' (step i h)
      end
  end.
End run.

(** * The code *)

Definition swtch : list instr :=
  [SD ra 0 a0; SD sp 8 a0; SD s0 16 a0; SD s1 24 a0; SD s2 32 a0; SD s3 40 a0; SD s4 48 a0;
   SD s5 56 a0; SD s6 64 a0; SD s7 72 a0; SD s8 80 a0; SD s9 88 a0; SD s10 96 a0; SD s11 104 a0;
   LD ra 0 a1; LD sp 8 a1; LD s0 16 a1; LD s1 24 a1; LD s2 32 a1; LD s3 40 a1; LD s4 48 a1;
   LD s5 56 a1; LD s6 64 a1; LD s7 72 a1; LD s8 80 a1; LD s9 88 a1; LD s10 96 a1; LD s11 104 a1;
   RET].

Definition uservec : list instr :=
  [CSRRW a0 "sscratch" a0;
   SD ra 40 a0; SD sp 48 a0; SD gp 56 a0; SD tp 64 a0; SD t0 72 a0; SD t1 80 a0; SD t2 88 a0;
   SD s0 96 a0; SD s1 104 a0; SD a1 120 a0; SD a2 128 a0; SD a3 136 a0; SD a4 144 a0;
   SD a5 152 a0; SD a6 160 a0; SD a7 168 a0; SD s2 176 a0; SD s3 184 a0; SD s4 192 a0;
   SD s5 200 a0; SD s6 208 a0; SD s7 216 a0; SD s8 224 a0; SD s9 232 a0; SD s10 240 a0;
   SD s11 248 a0; SD t3 256 a0; SD t4 264 a0; SD t5 272 a0; SD t6 280 a0;
   CSRR t0 "sscratch"; SD t0 112 a0;
   LD sp 8 a0;
   LD tp 32 a0;
   LD t0 16 a0;
   LD t1 0 a0; CSRW "satp" t1; SFENCE;
   JR t0].

Definition userret : list instr :=
  [CSRW "satp" a1; SFENCE;
   LD t0 112 a0; CSRW "sscratch" t0;
   LD ra 40 a0; LD sp 48 a0; LD gp 56 a0; LD tp 64 a0; LD t0 72 a0; LD t1 80 a0; LD t2 88 a0;
   LD s0 96 a0; LD s1 104 a0; LD a1 120 a0; LD a2 128 a0; LD a3 136 a0; LD a4 144 a0;
   LD a5 152 a0; LD a6 160 a0; LD a7 168 a0; LD s2 176 a0; LD s3 184 a0; LD s4 192 a0;
   LD s5 200 a0; LD s6 208 a0; LD s7 216 a0; LD s8 224 a0; LD s9 232 a0; LD s10 240 a0;
   LD s11 248 a0; LD t3 256 a0; LD t4 264 a0; LD t5 272 a0; LD t6 280 a0;
   CSRRW a0 "sscratch" a0;
   SRET].

(** The call is to the function of kernel/trap.c. *)
Definition kernelvec (kerneltrap : hartst → hartst) : list instr :=
  [ADDI sp sp (-256);
   SD ra 0 sp; SD sp 8 sp; SD gp 16 sp; SD tp 24 sp; SD t0 32 sp; SD t1 40 sp; SD t2 48 sp;
   SD s0 56 sp; SD s1 64 sp; SD a0 72 sp; SD a1 80 sp; SD a2 88 sp; SD a3 96 sp; SD a4 104 sp;
   SD a5 112 sp; SD a6 120 sp; SD a7 128 sp; SD s2 136 sp; SD s3 144 sp; SD s4 152 sp;
   SD s5 160 sp; SD s6 168 sp; SD s7 176 sp; SD s8 184 sp; SD s9 192 sp; SD s10 200 sp;
   SD s11 208 sp; SD t3 216 sp; SD t4 224 sp; SD t5 232 sp; SD t6 240 sp;
   CALL kerneltrap;
   LD ra 0 sp; LD sp 8 sp; LD gp 16 sp; LD t0 32 sp; LD t1 40 sp; LD t2 48 sp;
   LD s0 56 sp; LD s1 64 sp; LD a0 72 sp; LD a1 80 sp; LD a2 88 sp; LD a3 96 sp; LD a4 104 sp;
   LD a5 112 sp; LD a6 120 sp; LD a7 128 sp; LD s2 136 sp; LD s3 144 sp; LD s4 152 sp;
   LD s5 160 sp; LD s6 168 sp; LD s7 176 sp; LD s8 184 sp; LD s9 192 sp; LD s10 200 sp;
   LD s11 208 sp; LD t3 216 sp; LD t4 224 sp; LD t5 232 sp; LD t6 240 sp;
   ADDI sp sp 256;
   SRET].

Definition timervec : list instr :=
  [CSRRW a0 "mscratch" a0;
   SD a1 0 a0; SD a2 8 a0; SD a3 16 a0;
   LD a1 24 a0;
   LD a2 32 a0;
   LD a3 0 a1;
   ADD a3 a3 a2;
   SD a3 0 a1;
   LI a1 2;
   CSRW "sip" a1;
   LD a3 16 a0; LD a2 8 a0; LD a1 0 a0;
   CSRRW a0 "mscratch" a0;
   MRET].

(** [stack0] is in kernel/start.c, and the call is to its [start]. *)
Definition entry (stack0 : Z) (start : hartst → hartst) : list instr :=
  [LI sp stack0;
   LI a0 (1024 * 4);
   CSRR a1 "mhartid";
   ADDI a1 a1 1;
   MUL a0 a0 a1;
   ADD sp sp a0;
   CALL start].

(** * Blocks of saves and restores *)

Abbreviation table := (list (reg * Z)).
Definition saves (rb : reg) (t : table) : list instr := (λ '(r, off), SD r off rb) <$> t.
Definition restores (rb : reg) (t : table) : list instr := (λ '(r, off), LD r off rb) <$> t.

(** The slots of a table, in ascending order between [lo] and [n]. *)
Fixpoint slots (lo n : Z) (t : table) : bool :=
  match t with
  | [] => true
  | (_, off) :: t' => (lo <=? off) && (off + 8 <=? n) && slots (off + 8) n t'
  end.

Lemma slots_between lo n t : slots lo n t = true → Forall (λ x, lo ≤ x.2 ∧ x.2 + 8 ≤ n) t.
Proof.
  revert lo. induction t as [|[r off] t IH]; intros lo H; [constructor|]. cbn in H.
  apply andb_true_iff in H as [[H1%Z.leb_le H2%Z.leb_le]%andb_true_iff H3].
  constructor; [done|]. eapply Forall_impl; [exact (IH _ H3)|]. cbn. lia.
Qed.

Lemma slots_outside lo n t pa a :
  slots lo n t = true → a + 8 ≤ pa + lo ∨ pa + n ≤ a → Forall (λ x, a + 8 ≤ pa + x.2 ∨ pa + x.2 + 8 ≤ a) t.
Proof. intros H Ha. eapply Forall_impl; [exact (slots_between _ _ _ H)|]. cbn. lia. Qed.

(** Under [satp] in mode [md] the [n] bytes at virtual address [va] are at
    physical address [pa]. *)
Definition frame_at (tr : Z → Z → Z) (md : mode) (satp va pa n : Z) : Prop :=
  ∀ off, 0 ≤ off → off + 8 ≤ n → phys tr md satp (u64 (va + off)) = pa + off.

(** The frame in [m] at [pa] holds the values of [g]. *)
Definition holds (m : mem) (pa : Z) (g : reg → Z) (t : table) : Prop :=
  Forall (λ x, ld64 m (pa + x.2) = g x.1) t.

(** Two memories agree on the words of a table. *)
Definition same_frame (m m' : mem) (pa : Z) (t : table) : Prop :=
  Forall (λ x, ld64 m (pa + x.2) = ld64 m' (pa + x.2)) t.

Lemma holds_same m m' pa g t : same_frame m' m pa t → holds m pa g t → holds m' pa g t.
Proof.
  intros Hs Hh. apply Forall_forall. intros x Hx.
  rewrite (proj1 (Forall_forall _ _) Hs x Hx). exact (proj1 (Forall_forall _ _) Hh x Hx).
Qed.

(** Two sets of registers with the same saved values agree. *)
Lemma holds_agree m pa g g' t r : holds m pa g t → holds m pa g' t → r ∈ t.*1 → g r = g' r.
Proof.
  intros H1 H2 Hr. apply list_elem_of_fmap in Hr as (x & -> & Hx).
  by rewrite <-(proj1 (Forall_forall _ _) H1 x Hx), <-(proj1 (Forall_forall _ _) H2 x Hx).
Qed.

Lemma holds_cons m pa g r off t : holds m pa g ((r, off) :: t) ↔ ld64 m (pa + off) = g r ∧ holds m pa g t.
Proof. unfold holds. by rewrite Forall_cons. Qed.

Lemma holds_in m pa g t r off : holds m pa g t → (r, off) ∈ t → ld64 m (pa + off) = g r.
Proof. intros H Hin. exact (proj1 (Forall_forall _ _) H _ Hin). Qed.

(** Every register of the machine fits in 64 bits. *)
Definition regs_ok (h : hartst) : Prop := ∀ r, 0 ≤ gpr h r < 2 ^ 64.

Ltac hdec := apply (bool_decide_unpack _); vm_compute; exact I.
Ltac hlookup := repeat first [rewrite fn_lookup_insert | rewrite fn_lookup_insert_ne by done].
Ltac hsimp :=
  cbn [gpr csrs priv hmem set_gpr set_csr set_hmem set_priv]; hlookup.

Section blocks.
Context (tr : Z → Z → Z).

Lemma run_cons i code h : target i h = None → run tr (i :: code) h = run tr code (step tr i h).
Proof. intros H. cbn [run]. by rewrite H. Qed.

Lemma addr_frame h rb off pa n :
  frame_at tr (priv h) (csrs h "satp") (gpr h rb) pa n → 0 ≤ off → off + 8 ≤ n → addr tr h rb off = pa + off.
Proof. intros Hf. apply Hf. Qed.

Lemma run_saves rb t code pa lo n h :
  frame_at tr (priv h) (csrs h "satp") (gpr h rb) pa n → slots lo n t = true → 0 ≤ lo → regs_ok h →
  ∃ m, run tr (saves rb t ++ code) h = run tr code (set_hmem m h) ∧
    holds m pa (gpr h) t ∧
    (∀ a, Forall (λ x, a + 8 ≤ pa + x.2 ∨ pa + x.2 + 8 ≤ a) t → ld64 m a = ld64 (hmem h) a).
Proof.
  revert lo h. induction t as [|[r off] t IH]; intros lo h Hf Hs Hlo Hg.
  { exists (hmem h). split; [by destruct h|]. split; [by constructor|done]. }
  cbn in Hs. apply andb_true_iff in Hs as [[H1%Z.leb_le H2%Z.leb_le]%andb_true_iff Hs].
  change (saves rb ((r, off) :: t)) with (SD r off rb :: saves rb t). cbn [app run target step].
  rewrite (addr_frame h rb off pa n) by (done || lia).
  destruct (IH (off + 8) (set_hmem (st64 (hmem h) (pa + off) (gpr h r)) h)) as (m & Hrun & Hold & Hout); [done|done|lia|done|].
  exists m. split; [by rewrite Hrun|]. cbn [gpr hmem set_hmem] in *. split.
  - constructor; [|exact Hold]. cbn [fst snd]. rewrite Hout, ld64_st64_eq; [apply u64_id, Hg|].
    eapply Forall_impl; [exact (slots_between _ _ _ Hs)|]. intros x Hx; cbn in Hx. lia.
  - intros a Ha. rewrite Forall_cons in Ha. cbn [snd] in Ha.
    rewrite Hout by tauto. rewrite ld64_st64_ne; [done|]. lia.
Qed.

Lemma run_restores rb t code pa lo n h :
  frame_at tr (priv h) (csrs h "satp") (gpr h rb) pa n → slots lo n t = true → 0 ≤ lo → rb ∉ t.*1 → NoDup t.*1 →
  ∃ g, run tr (restores rb t ++ code) h = run tr code (mkhartst g (csrs h) (priv h) (hmem h)) ∧
    holds (hmem h) pa g t ∧ ∀ r, r ∉ t.*1 → g r = gpr h r.
Proof.
  revert lo h. induction t as [|[r off] t IH]; intros lo h Hf Hs Hlo Hrb Hnd.
  { exists (gpr h). split; [by destruct h|]. split; [by constructor|done]. }
  cbn in Hs. apply andb_true_iff in Hs as [[H1%Z.leb_le H2%Z.leb_le]%andb_true_iff Hs].
  cbn [fmap list_fmap fst] in *.
  apply not_elem_of_cons in Hrb as [Hne Hrb]. apply NoDup_cons in Hnd as [Hr Hnd].
  change (restores rb ((r, off) :: t)) with (LD r off rb :: restores rb t). cbn [app run target step].
  rewrite (addr_frame h rb off pa n) by (done || lia).
  destruct (IH (off + 8) (set_gpr r (ld64 (hmem h) (pa + off)) h)) as (g & Hrun & Hold & Hout); [|done|lia|done..|].
  { unfold set_gpr. cbn [gpr priv csrs]. rewrite fn_lookup_insert_ne by done. exact Hf. }
  exists g. split; [by rewrite Hrun|]. split.
  - constructor; [|exact Hold]. cbn [fst snd]. rewrite Hout by done. cbn. by rewrite fn_lookup_insert.
  - intros r' Hr'. apply not_elem_of_cons in Hr' as [? ?]. rewrite Hout by done. cbn. by rewrite fn_lookup_insert_ne.
Qed.
End blocks.

(** * Context switch *)

(** [struct context]. *)
Definition ctx_table : table :=
  [(ra, 0); (sp, 8); (s0, 16); (s1, 24); (s2, 32); (s3, 40); (s4, 48); (s5, 56); (s6, 64);
   (s7, 72); (s8, 80); (s9, 88); (s10, 96); (s11, 104)].

Section swtch.
Context (tr : Z → Z → Z).

Lemma swtch_ok h pold pnew :
  frame_at tr (priv h) (csrs h "satp") (gpr h a0) pold 112 →
  frame_at tr (priv h) (csrs h "satp") (gpr h a1) pnew 112 →
  pold + 112 ≤ pnew ∨ pnew + 112 ≤ pold → regs_ok h →
  ∃ h', run tr swtch h = (h', Some (ld64 (hmem h) pnew)) ∧
    holds (hmem h') pold (gpr h) ctx_table ∧ holds (hmem h) pnew (gpr h') ctx_table ∧
    (∀ r, r ∉ ctx_table.*1 → gpr h' r = gpr h r) ∧ csrs h' = csrs h ∧ priv h' = priv h ∧
    (∀ a, a + 8 ≤ pold ∨ pold + 112 ≤ a → ld64 (hmem h') a = ld64 (hmem h) a).
Proof.
  intros Hold Hnew Hd Hok.
  change swtch with (saves a0 ctx_table ++ restores a1 ctx_table ++ [RET]).
  destruct (run_saves tr a0 ctx_table (restores a1 ctx_table ++ [RET]) pold 0 112 h Hold eq_refl (Z.le_refl 0) Hok) as (m & -> & Hs & Hm).
  assert (Hout : ∀ a, a + 8 ≤ pold ∨ pold + 112 ≤ a → ld64 m a = ld64 (hmem h) a).
  { intros a Ha. apply Hm, (slots_outside 0 112); [done|lia]. }
  destruct (run_restores tr a1 ctx_table [RET] pnew 0 112 (set_hmem m h)) as (g & -> & Hg & Hr);
    [exact Hnew|done|done|hdec|hdec|].
  assert (Hg' : holds (hmem h) pnew g ctx_table).
  { eapply holds_same; [|exact Hg]. cbn [hmem set_hmem].
    eapply Forall_impl; [exact (slots_between 0 112 ctx_table eq_refl)|]. intros x Hx; cbn in Hx. symmetry. apply Hout. lia. }
  eexists. split.
  - cbn [run target step]. f_equal. f_equal. cbn [gpr]. symmetry.
    rewrite <-(holds_in _ _ _ _ ra 0 Hg'); [f_equal; lia|by left].
  - cbn [gpr csrs priv hmem set_hmem]. split_and!; done.
Qed.

(** C30: A thread that calls [swtch] is resumed as if the call had returned: once
    its context has been saved, whoever switches to that context, on whatever
    hart and with whatever registers, continues at the return address of the
    first call with its stack pointer and callee-saved registers; nothing but
    the context it saves is written. *)
Theorem swtch_resumes h pold pnew h2 pcur :
  frame_at tr (priv h) (csrs h "satp") (gpr h a0) pold 112 →
  frame_at tr (priv h) (csrs h "satp") (gpr h a1) pnew 112 →
  pold + 112 ≤ pnew ∨ pnew + 112 ≤ pold → regs_ok h →
  frame_at tr (priv h2) (csrs h2 "satp") (gpr h2 a0) pcur 112 →
  frame_at tr (priv h2) (csrs h2 "satp") (gpr h2 a1) pold 112 →
  pcur + 112 ≤ pold ∨ pold + 112 ≤ pcur → regs_ok h2 →
  same_frame (hmem h2) (hmem (run tr swtch h).1) pold ctx_table →
  (run tr swtch h2).2 = Some (gpr h ra) ∧
  (∀ r, r ∈ ctx_table.*1 → gpr (run tr swtch h2).1 r = gpr h r) ∧
  (∀ a, a + 8 ≤ pold ∨ pold + 112 ≤ a → ld64 (hmem (run tr swtch h).1) a = ld64 (hmem h) a).
Proof.
  intros H1 H2 Hd Hok H3 H4 Hd2 Hok2 Hsame.
  destruct (swtch_ok h pold pnew H1 H2 Hd Hok) as (h' & Hr & Hs & _ & _ & _ & _ & Hout).
  destruct (swtch_ok h2 pcur pold H3 H4 Hd2 Hok2) as (h2' & Hr2 & _ & Hl & _).
  rewrite Hr in *. rewrite Hr2. cbn [fst snd] in *. pose proof (holds_same _ _ _ _ _ Hsame Hs) as Hh.
  split_and!; [|by intros r Hin; eapply holds_agree|done].
  f_equal. rewrite <-(holds_in _ _ _ _ ra 0 Hh); [f_equal; lia|by left].
Qed.
End swtch.

(** A hart whose registers are small numbers, in machine mode. *)
Definition small_hart (a b : Z) (m : mem) : hartst :=
  mkhartst (<[a0 := a]> (<[a1 := b]> (λ _, 7))) (λ _, 0) Machine m.

Lemma small_frame tr md a n : 0 ≤ a → 0 ≤ n → a + n < 2 ^ 64 → md = Machine → frame_at tr md 0 a a n.
Proof. intros ? ? ? -> off ? ?. cbn. apply u64_id. lia. Qed.

Lemma small_regs a b m : 0 ≤ a < 2 ^ 64 → 0 ≤ b < 2 ^ 64 → regs_ok (small_hart a b m).
Proof.
  intros Ha Hb r. unfold small_hart. cbn [gpr]. unfold insert, fn_insert.
  destruct (decide (a0 = r)); [done|]. destruct (decide (a1 = r)); [done|]. lia.
Qed.

Lemma swtch_resumes_witness :
  let h := small_hart 0 200 ∅ in
  let h2 := small_hart 400 0 (hmem (run (λ _ a, a) swtch h).1) in
  (run (λ _ a, a) swtch h2).2 = Some 7.
Proof.
  intros h h2. refine (proj1 (swtch_resumes (λ _ a, a) h 0 200 h2 400 _ _ _ _ _ _ _ _ _)).
  1, 2, 5, 6: by apply small_frame.
  1, 3: cbn; lia.
  1, 2: apply small_regs; lia.
  apply Forall_forall. done.
Defined.

(** * Between user and kernel *)

(** The user registers in [struct trapframe], but for a0. *)
Definition tf_table : table :=
  [(ra, 40); (sp, 48); (gp, 56); (tp, 64); (t0, 72); (t1, 80); (t2, 88); (s0, 96); (s1, 104);
   (a1, 120); (a2, 128); (a3, 136); (a4, 144); (a5, 152); (a6, 160); (a7, 168); (s2, 176);
   (s3, 184); (s4, 192); (s5, 200); (s6, 208); (s7, 216); (s8, 224); (s9, 232); (s10, 240);
   (s11, 248); (t3, 256); (t4, 264); (t5, 272); (t6, 280)].

Lemma tf_table_all r : r ≠ a0 → r ∈ tf_table.*1.
Proof. intros Hr. apply (bool_decide_unpack _). by destruct r; vm_compute. Qed.

Lemma tf_table_gap : Forall (λ x, (x.2 + 8 ≤ 112 ∨ 120 ≤ x.2) ∧ x.1 ≠ a0) tf_table.
Proof. hdec. Qed.

Section trampoline.
Context (tr : Z → Z → Z).

Lemma uservec_ok h tf :
  frame_at tr (priv h) (csrs h "satp") (csrs h "sscratch") tf 288 → regs_ok h → 0 ≤ csrs h "sscratch" < 2 ^ 64 →
  ∃ h', run tr uservec h = (h', Some (ld64 (hmem h) (tf + 16))) ∧
    gpr h' sp = ld64 (hmem h) (tf + 8) ∧ gpr h' tp = ld64 (hmem h) (tf + 32) ∧
    csrs h' "satp" = ld64 (hmem h) tf ∧ priv h' = priv h ∧
    holds (hmem h') tf (gpr h) tf_table ∧ ld64 (hmem h') (tf + 112) = gpr h a0 ∧
    (∀ a, a + 8 ≤ tf + 40 ∨ tf + 288 ≤ a → ld64 (hmem h') a = ld64 (hmem h) a).
Proof.
  intros Hf Hok Hss.
  set (tail := [CSRR t0 "sscratch"; SD t0 112 a0; LD sp 8 a0; LD tp 32 a0; LD t0 16 a0; LD t1 0 a0;
                CSRW "satp" t1; SFENCE; JR t0]).
  change uservec with (CSRRW a0 "sscratch" a0 :: saves a0 tf_table ++ tail). cbn [run target step].
  set (h1 := set_gpr a0 _ _).
  assert (Hf1 : frame_at tr (priv h1) (csrs h1 "satp") (gpr h1 a0) tf 288).
  { unfold h1. hsimp. exact Hf. }
  destruct (run_saves tr a0 tf_table tail tf 40 288 h1 Hf1 eq_refl) as (m & -> & Hs & Hm); [lia| |].
  { intros r. unfold h1. cbn. destruct (decide (r = a0)) as [->|Hr]; [by rewrite fn_lookup_insert|].
    by rewrite fn_lookup_insert_ne. }
  assert (Hout : ∀ a, a + 8 ≤ tf + 40 ∨ tf + 288 ≤ a → ld64 m a = ld64 (hmem h) a).
  { intros a Ha. by apply Hm, (slots_outside 40 288). }
  assert (Ha : ∀ g h', priv h' = priv h → csrs h' "satp" = csrs h "satp" → gpr h' a0 = csrs h "sscratch" →
    0 ≤ g → g + 8 ≤ 288 → addr tr h' a0 g = tf + g).
  { intros g h' E1 E2 E3 ? ?. apply (addr_frame tr h' a0 g tf 288); [by rewrite E1, E2, E3|done..]. }
  unfold tail. cbn [run target step].
  repeat (rewrite Ha by (unfold h1; hsimp; done || lia)).
  assert (Hw : ∀ off v, 0 ≤ off → off + 8 ≤ 40 → ld64 (st64 m (tf + 112) v) (tf + off) = ld64 (hmem h) (tf + off)).
  { intros off v ? ?. rewrite ld64_st64_ne by lia. apply Hout. lia. }
  unfold h1 in *. hsimp. rewrite !Hw by lia. rewrite Z.add_0_r. eexists. split; [reflexivity|]. hsimp.
  rewrite ld64_st64_eq, (u64_id _ (Hok a0)). split_and!; try done.
  - apply Forall_forall. intros x Hx. destruct (proj1 (Forall_forall _ _) tf_table_gap x Hx) as [Hg Hne].
    rewrite ld64_st64_ne by lia. rewrite (proj1 (Forall_forall _ _) Hs x Hx). cbn. by rewrite fn_lookup_insert_ne.
  - intros a Ho. rewrite ld64_st64_ne by lia. by apply Hout.
Qed.

Lemma userret_ok h tf :
  frame_at tr (priv h) (gpr h a1) (gpr h a0) tf 288 →
  ∃ h', run tr userret h = (h', Some (csrs h "sepc")) ∧
    holds (hmem h) tf (gpr h') tf_table ∧ gpr h' a0 = ld64 (hmem h) (tf + 112) ∧
    csrs h' "satp" = gpr h a1 ∧ csrs h' "sscratch" = gpr h a0 ∧ hmem h' = hmem h ∧
    priv h' = (if Z.testbit (csrs h "sstatus") 8 then Supervisor else User).
Proof.
  intros Hf. set (tail := [CSRRW a0 "sscratch" a0; SRET]).
  change userret with ([CSRW "satp" a1; SFENCE; LD t0 112 a0; CSRW "sscratch" t0] ++ restores a0 tf_table ++ tail).
  cbn [app run target step]. rewrite (addr_frame tr _ a0 112 tf 288) by (hsimp; done). hsimp.
  match goal with |- context [run tr (restores a0 tf_table ++ tail) ?h0] => set (h1 := h0) end.
  destruct (run_restores tr a0 tf_table tail tf 40 288 h1) as (g & -> & Hg & Hr).
  1: unfold h1; hsimp; done.
  1: done.
  1: lia.
  1, 2: hdec.
  assert (Hga0 : g a0 = gpr h a0).
  { rewrite Hr by hdec. unfold h1. by hsimp. }
  unfold tail. cbn [run target step]. unfold do_sret, h1 in *. eexists. hsimp. split; [reflexivity|]. hsimp.
  split_and!; try done.
  apply Forall_forall. intros x Hx. destruct (proj1 (Forall_forall _ _) tf_table_gap x Hx) as [_ Hne].
  rewrite fn_lookup_insert_ne by done. exact (proj1 (Forall_forall _ _) Hg x Hx).
Qed.

(** C31: A trap from user space and the return from it keep the user's
    registers. [uservec], entered with sscratch pointing at the trapframe,
    saves all of them there, touches no other memory and enters the kernel at
    kernel_trap with the kernel's stack, page table and hart number. However
    long the kernel takes, and on whatever hart it returns, [userret] then
    gives the user back every register, with a0 what the trapframe says, the
    page table it was asked for, sscratch again at the trapframe, and user
    mode. *)
Theorem trap_keeps_registers h tf h2 :
  frame_at tr (priv h) (csrs h "satp") (csrs h "sscratch") tf 288 → regs_ok h → 0 ≤ csrs h "sscratch" < 2 ^ 64 →
  frame_at tr (priv h2) (gpr h2 a1) (gpr h2 a0) tf 288 →
  same_frame (hmem h2) (hmem (run tr uservec h).1) tf tf_table →
  Z.testbit (csrs h2 "sstatus") 8 = false →
  let k := run tr uservec h in
  let u := run tr userret h2 in
  k.2 = Some (ld64 (hmem h) (tf + 16)) ∧
  gpr k.1 sp = ld64 (hmem h) (tf + 8) ∧ gpr k.1 tp = ld64 (hmem h) (tf + 32) ∧ csrs k.1 "satp" = ld64 (hmem h) tf ∧
  ld64 (hmem k.1) (tf + 112) = gpr h a0 ∧
  (∀ a, a + 8 ≤ tf + 40 ∨ tf + 288 ≤ a → ld64 (hmem k.1) a = ld64 (hmem h) a) ∧
  u.2 = Some (csrs h2 "sepc") ∧ (∀ r, r ≠ a0 → gpr u.1 r = gpr h r) ∧
  gpr u.1 a0 = ld64 (hmem h2) (tf + 112) ∧
  csrs u.1 "satp" = gpr h2 a1 ∧ csrs u.1 "sscratch" = gpr h2 a0 ∧ priv u.1 = User.
Proof.
  intros Hf Hok Hss Hf2 Hsame Hspp k u.
  destruct (uservec_ok h tf Hf Hok Hss) as (h' & Hr & Hsp & Htp & Hsatp & _ & Hs & Ha & Hout).
  destruct (userret_ok h2 tf Hf2) as (u' & Hu & Hl & Hua & Husatp & Huss & _ & Hup).
  unfold k, u. rewrite Hr in *. rewrite Hu. cbn [fst snd] in *.
  split_and!; try done; [|by rewrite Hup, Hspp].
  intros r Hne. eapply holds_agree; [exact Hl|by eapply holds_same|by apply tf_table_all].
Qed.
End trampoline.

Lemma trap_keeps_registers_witness :
  let h := mkhartst (λ _, 7) (λ _, 0) Supervisor ∅ in
  let k := run (λ _ a, a) uservec h in
  let h2 := mkhartst (λ _, 0) (λ _, 0) Supervisor (hmem k.1) in
  gpr (run (λ _ a, a) userret h2).1 s5 = 7.
Proof.
  intros h k h2.
  assert (Hf : frame_at (λ _ a, a) Supervisor 0 0 0 288).
  { intros off ? ?. cbn. apply u64_id. lia. }
  destruct (trap_keeps_registers (λ _ a, a) h 0 h2) as (_ & _ & _ & _ & _ & _ & _ & Hr & _).
  - exact Hf.
  - intros r. cbn. lia.
  - cbn. lia.
  - exact Hf.
  - apply Forall_forall. done.
  - done.
  - exact (Hr s5 ltac:(done)).
Defined.

(** * Traps in the kernel *)

Definition kv_table : table :=
  [(ra, 0); (sp, 8); (gp, 16); (tp, 24); (t0, 32); (t1, 40); (t2, 48); (s0, 56); (s1, 64);
   (a0, 72); (a1, 80); (a2, 88); (a3, 96); (a4, 104); (a5, 112); (a6, 120); (a7, 128); (s2, 136);
   (s3, 144); (s4, 152); (s5, 160); (s6, 168); (s7, 176); (s8, 184); (s9, 192); (s10, 200);
   (s11, 208); (t3, 216); (t4, 224); (t5, 232); (t6, 240)].
(** What is restored once the stack pointer is. *)
Definition kv_rest : table := filter (λ x, x.1 ≠ tp ∧ x.1 ≠ ra ∧ x.1 ≠ sp) kv_table.

(** What the C function does to the caller's frame at [pa]: it keeps the stack
    pointer, the address space, sepc and the frame. *)
Definition keeps_frame (f : hartst → hartst) (pa : Z) : Prop := ∀ h,
  gpr (f h) sp = gpr h sp ∧ priv (f h) = priv h ∧ csrs (f h) "satp" = csrs h "satp" ∧
  csrs (f h) "sepc" = csrs h "sepc" ∧ same_frame (hmem (f h)) (hmem h) pa kv_table.

Section kernelvec.
Context (tr : Z → Z → Z).

Lemma holds_sub m pa g t t' : t' ⊆ t → holds m pa g t → holds m pa g t'.
Proof. intros Hsub H. apply Forall_forall. intros x Hx. exact (proj1 (Forall_forall _ _) H x (Hsub _ Hx)). Qed.

(** The second half: the registers are those of the frame. *)
Lemma kernelvec_restores h pa g :
  frame_at tr (priv h) (csrs h "satp") (gpr h sp) pa 256 → holds (hmem h) pa g kv_table → g sp = gpr h sp →
  ∃ h', run tr ([LD ra 0 sp; LD sp 8 sp] ++ restores sp kv_rest ++ [ADDI sp sp 256; SRET]) h =
      (h', Some (csrs h "sepc")) ∧
    (∀ r, r ≠ tp → r ≠ sp → gpr h' r = g r) ∧ gpr h' sp = u64 (g sp + 256) ∧ hmem h' = hmem h.
Proof.
  intros Hf Hg Hsp. cbn [app run target step].
  rewrite (addr_frame tr h sp 0 pa 256) by (done || lia).
  rewrite (addr_frame tr _ sp 8 pa 256) by (hsimp; done || lia). hsimp.
  rewrite (holds_in _ _ _ _ ra 0 Hg), (holds_in _ _ _ _ sp 8 Hg) by hdec.
  match goal with |- context [run tr (restores sp kv_rest ++ ?tl) ?h0] => set (tail := tl); set (h1 := h0) end.
  destruct (run_restores tr sp kv_rest tail pa 0 256 h1) as (g' & -> & Hg' & Hr).
  1: unfold h1; hsimp; by rewrite Hsp.
  1: done.
  1: lia.
  1, 2: hdec.
  cbn [tail run target step]. unfold do_sret, h1 in *. eexists. hsimp. split; [reflexivity|]. hsimp.
  assert (Hsp' : g' sp = g sp) by (rewrite Hr by hdec; by hsimp).
  split_and!; [|by rewrite Hsp'|done].
  intros r Htp Hnsp. rewrite fn_lookup_insert_ne by done. destruct (decide (r = ra)) as [->|Hra].
  - rewrite Hr by hdec. by hsimp.
  - eapply holds_agree; [exact Hg'|eapply (holds_sub _ _ _ kv_table); [|exact Hg]|].
    + intros x [_ Hx]%list_elem_of_filter. exact Hx.
    + apply (bool_decide_unpack _). by destruct r; vm_compute.
Qed.

(** C32: An interrupt in the kernel is transparent: whatever [kerneltrap] does to
    the registers, as long as it follows the calling convention for the frame
    that [kernelvec] pushes, the interrupted code resumes where it was with
    every register it had, except tp, which names the hart it now runs on. *)
Theorem kernelvec_transparent kerneltrap h pa :
  let h1 := set_gpr sp (u64 (gpr h sp - 256)) h in
  frame_at tr (priv h) (csrs h "satp") (gpr h1 sp) pa 256 → regs_ok h → keeps_frame kerneltrap pa →
  (run tr (kernelvec kerneltrap) h).2 = Some (csrs h "sepc") ∧
  ∀ r, r ≠ tp → gpr (run tr (kernelvec kerneltrap) h).1 r = gpr h r.
Proof.
  intros h1 Hf Hok Hk.
  set (back := [LD ra 0 sp; LD sp 8 sp] ++ restores sp kv_rest ++ [ADDI sp sp 256; SRET]).
  change (kernelvec kerneltrap) with (ADDI sp sp (-256) :: saves sp kv_table ++ CALL kerneltrap :: back).
  cbn [run target step]. change (gpr h sp + -256) with (gpr h sp - 256). fold h1.
  destruct (run_saves tr sp kv_table (CALL kerneltrap :: back) pa 0 256 h1 Hf eq_refl) as (m & -> & Hs & _); [lia| |].
  { intros r. unfold h1. cbn. destruct (decide (r = sp)) as [->|Hr].
    - rewrite fn_lookup_insert. unfold u64. apply Z.mod_pos_bound. lia.
    - rewrite fn_lookup_insert_ne by done. apply Hok. }
  cbn [run target step]. destruct (Hk (set_hmem m h1)) as (Ksp & Kp & Ksatp & Kpc & Kf).
  destruct (kernelvec_restores (kerneltrap (set_hmem m h1)) pa (gpr h1)) as (h' & Hrun & Hr & Hrsp & _).
  - by rewrite Kp, Ksatp, Ksp.
  - by eapply holds_same.
  - by rewrite Ksp.
  - unfold back. rewrite Hrun, Kpc. cbn [fst snd]. split; [done|]. intros r Htp.
    destruct (decide (r = sp)) as [->|Hnsp].
    + rewrite Hrsp. unfold h1. hsimp. pose proof (Hok sp). unfold u64. rewrite Zplus_mod_idemp_l.
      replace (gpr h sp - 256 + 256) with (gpr h sp) by lia. apply Z.mod_small. lia.
    + rewrite Hr by done. unfold h1. by hsimp.
Qed.
End kernelvec.

Lemma kernelvec_transparent_witness :
  gpr (run (λ _ a, a) (kernelvec (λ h, set_gpr t3 5 (set_gpr tp 1 (set_gpr a0 9 h)))) (small_hart 1 2 ∅)).1 a0 = 1.
Proof.
  refine (proj2 (kernelvec_transparent (λ _ a, a) _ (small_hart 1 2 ∅) (2 ^ 64 - 249) _ _ _) a0 _).
  - intros off ? ?. cbn. apply u64_id. lia.
  - apply small_regs; lia.
  - intros h. hsimp. split_and!; try done. apply Forall_forall. done.
  - done.
Defined.

(** * The timer interrupt *)

Definition timer_tail : list instr :=
  [LD a1 24 a0; LD a2 32 a0; LD a3 0 a1; ADD a3 a3 a2; SD a3 0 a1; LI a1 2; CSRW "sip" a1;
   LD a3 16 a0; LD a2 8 a0; LD a1 0 a0; CSRRW a0 "mscratch" a0; MRET].

(** After the three saves. *)
Lemma timer_tail_ok tr g c m sc cmp :
  g a0 = sc → 0 ≤ sc → sc + 40 < 2 ^ 64 → 0 ≤ cmp < 2 ^ 64 → cmp + 8 ≤ sc ∨ sc + 40 ≤ cmp →
  ld64 m (sc + 24) = cmp →
  let m' := st64 m cmp (u64 (ld64 m cmp + ld64 m (sc + 32))) in
  ∃ g' c', run tr timer_tail (mkhartst g c Machine m) = (do_mret (mkhartst g' c' Machine m'), Some (c "mepc")) ∧
    g' a0 = c "mscratch" ∧ g' a1 = ld64 m (sc + 0) ∧ g' a2 = ld64 m (sc + 8) ∧ g' a3 = ld64 m (sc + 16) ∧
    (∀ r, r ∉ [a0; a1; a2; a3] → g' r = g r) ∧ c' "mscratch" = sc ∧ c' "sip" = 2.
Proof.
  intros Ha0 H0 H1 Hc Hd Hcmp m'. unfold timer_tail.
  assert (Hfr : ∀ c g m off, g a0 = sc → 0 ≤ off → off + 8 ≤ 40 →
    addr tr (mkhartst g c Machine m) a0 off = sc + off).
  { intros c0 g0 m0 off E ? ?. unfold addr. cbn. rewrite E. apply u64_id. lia. }
  assert (Hcm : ∀ c g m, g a1 = cmp → addr tr (mkhartst g c Machine m) a1 0 = cmp).
  { intros c0 g0 m0 E. unfold addr. cbn. rewrite E, Z.add_0_r. by apply u64_id. }
  assert (Hsv : ∀ off, 0 ≤ off → off + 8 ≤ 40 → ld64 m' (sc + off) = ld64 m (sc + off)).
  { intros off ? ?. apply ld64_st64_ne. lia. }
  repeat (rewrite run_cons by done;
    cbv beta iota delta [step set_hmem set_gpr set_csr gpr csrs priv hmem];
    rewrite ?Hfr by (lia || by hlookup); rewrite ?Hcmp;
    rewrite ?Hcm by (by hlookup); hlookup; fold m'; rewrite ?Hsv by lia).
  cbn [run target step csrs]. hlookup. do 2 eexists. split; [reflexivity|].
  hlookup. split_and!; try done.
  intros r Hr. rewrite !not_elem_of_cons in Hr. destruct Hr as (? & ? & ? & ? & _). by hlookup.
Qed.

(** C33: The timer interrupt, taken in machine mode between any two instructions,
    keeps every register and mscratch, moves the hart's compare register on by
    the interval that [timerinit] left in the scratch area, raises a supervisor
    software interrupt, and resumes the interrupted code. *)
Theorem timervec_ticks tr h :
  let sc := csrs h "mscratch" in
  let cmp := ld64 (hmem h) (sc + 24) in
  priv h = Machine → regs_ok h → 0 ≤ sc → sc + 40 < 2 ^ 64 → 0 ≤ cmp < 2 ^ 64 →
  cmp + 8 ≤ sc ∨ sc + 40 ≤ cmp →
  ∃ h', run tr timervec h = (h', Some (csrs h "mepc")) ∧
    (∀ r, gpr h' r = gpr h r) ∧ csrs h' "mscratch" = sc ∧ csrs h' "sip" = 2 ∧
    ld64 (hmem h') cmp = u64 (ld64 (hmem h) cmp + ld64 (hmem h) (sc + 32)) ∧
    (∀ a, a + 8 ≤ cmp ∨ cmp + 8 ≤ a → a + 8 ≤ sc ∨ sc + 24 ≤ a → ld64 (hmem h') a = ld64 (hmem h) a).
Proof.
  destruct h as [g cs p mm]. intros sc cmp Hm Hok H0 H1 Hc Hd. cbn [gpr csrs priv hmem] in *. subst p.
  change timervec with (CSRRW a0 "mscratch" a0 :: saves a0 [(a1, 0); (a2, 8); (a3, 16)] ++ timer_tail).
  rewrite run_cons by done.
  cbv beta iota delta [step set_gpr set_csr gpr csrs priv hmem].
  destruct (run_saves tr a0 [(a1, 0); (a2, 8); (a3, 16)] timer_tail sc 0 24
    (mkhartst (<[a0:=sc]> g) (<["mscratch":=g a0]> cs) Machine mm)) as (m & Hrun & Hs & Ho).
  { intros off ? ?. cbn. rewrite fn_lookup_insert. apply u64_id. lia. }
  1: done.
  1: lia.
  { intros r. cbn [gpr]. destruct (decide (r = a0)) as [->|Hr]; hlookup; [lia|apply Hok]. }
  assert (Hout : ∀ a, a + 8 ≤ sc ∨ sc + 24 ≤ a → ld64 m a = ld64 mm a).
  { intros a Ha. apply Ho, (slots_outside 0 24); [done|lia]. }
  rewrite !holds_cons in Hs. cbn [gpr fst snd] in Hs. revert Hs. hlookup. intros (S1 & S2 & S3 & _).
  destruct (timer_tail_ok tr (<[a0:=sc]> g) (<["mscratch":=g a0]> cs) m sc cmp) as
    (g' & c' & Ht & G0 & G1 & G2 & G3 & Gr & C1 & C2); [by hlookup|done..|apply Hout; lia|].
  fold sc. rewrite Hrun. unfold set_hmem. cbn [gpr csrs priv]. rewrite Ht. eexists. split; [by hlookup|].
  unfold do_mret, set_priv, set_csr. cbn [gpr csrs hmem]. hlookup.
  rewrite (Hout cmp), (Hout (sc + 32)) by lia. split_and!; try done.
  - intros r. destruct (decide (r ∈ [a0; a1; a2; a3])) as [Hin|Hin].
    + rewrite !elem_of_cons in Hin. destruct Hin as [->|[->|[->|[->|[]%elem_of_nil]]]]; congruence || (rewrite G0; by hlookup).
    + rewrite Gr by done. rewrite not_elem_of_cons in Hin. destruct Hin. by hlookup.
  - rewrite ld64_st64_eq. unfold u64. by rewrite Z.mod_mod.
  - intros a Ha Ha'. rewrite ld64_st64_ne by lia. by apply Hout.
Qed.

Lemma timervec_ticks_witness :
  let h := mkhartst (λ _, 7) (λ _, 0) Machine (st64 (st64 ∅ 24 100) 32 5) in
  ∃ h', run (λ _ a, a) timervec h = (h', Some 0) ∧ gpr h' a2 = 7 ∧ ld64 (hmem h') 100 = 5.
Proof.
  intros h. assert (Hc : ld64 (hmem h) (0 + 24) = 100).
  { cbn [h hmem]. rewrite ld64_st64_ne by lia. by rewrite ld64_st64_eq. }
  destruct (timervec_ticks (λ _ a, a) h) as (h' & Hr & Hg & _ & _ & Hv & _).
  - done.
  - intros r. cbn. lia.
  - cbn. lia.
  - cbn. lia.
  - change (csrs h "mscratch") with 0. rewrite Hc. lia.
  - change (csrs h "mscratch") with 0. rewrite Hc. lia.
  - exists h'. split; [exact Hr|]. split; [exact (Hg a2)|]. change (csrs h "mscratch") with 0 in Hv. rewrite Hc in Hv. etransitivity; [exact Hv|].
    cbn [h hmem csrs]. change (0 + 32) with 32. rewrite ld64_st64_eq, !ld64_st64_ne by lia.
    rewrite ld64_all_zero by (intros; apply lookup_empty || done). done.
Defined.

(** * The first instructions *)

(** Each hart enters [start] with the stack pointer at the top of its own 4096
    bytes of [stack0]. *)
Lemma entry_stack tr stack0 start h :
  0 ≤ stack0 → stack0 + 4096 * NCPU < 2 ^ 64 → 0 ≤ csrs h "mhartid" < NCPU →
  (∀ h', gpr (start h') sp = gpr h' sp) →
  gpr (run tr (entry stack0 start) h).1 sp = stack0 + 4096 * (csrs h "mhartid" + 1).
Proof.
  unfold NCPU. intros H0 H1 Hh Hs. cbn [entry run target step fst]. rewrite Hs. hsimp.
  rewrite (u64_id (csrs h "mhartid" + 1)) by lia. rewrite (u64_id (1024 * 4 * _)) by lia. rewrite u64_id by lia. lia.
Qed.

End Asm.
