(* ===== verification/Kernel.v ===== *)
(** The kernel's state: the structures of kernel/spinlock.h,
    kernel/sleeplock.h, kernel/proc.h, kernel/buf.h, kernel/log.c, kernel/fs.h,
    kernel/file.h, kernel/pipe.c, kernel/console.c and kernel/uart.c, gathered in one record [kstate], and the monad [K] the kernel's functions run in.

    A C object that is only ever reached through a global (a lock, a wait
    channel) is named by a constructor instead of an address; arrays are lists
    and pointers into them are indices; a null pointer is [None]. *)

From S2P Require Import Prelude Mem KString Params.

(** * Names of kernel objects *)

(** The sleep-locks: one per buffer and one per in-memory inode. *)
Inductive sleepid : Type :=
| SL_buf (i : nat)
| SL_inode (i : nat).

(** The spin-locks, by the C object they live in. *)
Inductive lockid : Type :=
| L_kmem | L_pid | L_wait | L_bcache | L_log | L_itable | L_ftable
| L_cons | L_uart | L_ticks | L_pr | L_vdisk
| L_proc (i : nat)
| L_sleep (sl : sleepid)
| L_pipe (pa : Z).

(** The addresses [sleep] and [wakeup] are called with. *)
Inductive chan : Type :=
| Ch_proc (i : nat)
| Ch_sleep (sl : sleepid)
| Ch_log | Ch_ticks | Ch_cons_r | Ch_uart_tx_r | Ch_disk_free
| Ch_buf (i : nat)
| Ch_pipe_nread (pa : Z)
| Ch_pipe_nwrite (pa : Z).

#[export] Instance sleepid_eq_dec : EqDecision sleepid.
Proof. solve_decision. Defined.
#[export] Instance lockid_eq_dec : EqDecision lockid.
Proof. solve_decision. Defined.
#[export] Instance chan_eq_dec : EqDecision chan.
Proof. solve_decision. Defined.

Definition sleepid_code (sl : sleepid) : nat + nat :=
  match sl with SL_buf i => inl i | SL_inode i => inr i end.
Definition sleepid_decode (c : nat + nat) : sleepid :=
  match c with inl i => SL_buf i | inr i => SL_inode i end.
#[export] Instance sleepid_countable : Countable sleepid.
Proof. apply (inj_countable' sleepid_code sleepid_decode). by intros []. Defined.

Definition lockid_code (lk : lockid) : nat * (nat + (sleepid + Z)) :=
  match lk with
  | L_kmem => (0%nat, inl 0%nat) | L_pid => (1%nat, inl 0%nat) | L_wait => (2%nat, inl 0%nat)
  | L_bcache => (3%nat, inl 0%nat) | L_log => (4%nat, inl 0%nat)
  | L_itable => (5%nat, inl 0%nat) | L_ftable => (6%nat, inl 0%nat)
  | L_cons => (7%nat, inl 0%nat) | L_uart => (8%nat, inl 0%nat)
  | L_ticks => (9%nat, inl 0%nat) | L_pr => (10%nat, inl 0%nat)
  | L_vdisk => (11%nat, inl 0%nat)
  | L_proc i => (12%nat, inl i)
  | L_sleep sl => (13%nat, inr (inl sl))
  | L_pipe pa => (14%nat, inr (inr pa))
  end.
Definition lockid_decode (c : nat * (nat + (sleepid + Z))) : lockid :=
  match c with
  | (_, inr (inl sl)) => L_sleep sl
  | (_, inr (inr pa)) => L_pipe pa
  | (n, inl i) =>
      match n with
      | 0 => L_kmem | 1 => L_pid | 2 => L_wait | 3 => L_bcache | 4 => L_log | 5 => L_itable
      | 6 => L_ftable | 7 => L_cons | 8 => L_uart | 9 => L_ticks | 10 => L_pr | 11 => L_vdisk
      | _ => L_proc i
      end%nat
  end.
#[export] Instance lockid_countable : Countable lockid.
Proof. apply (inj_countable' lockid_code lockid_decode). by intros []. Defined.

(** * Locks and processors *)

(** kernel/spinlock.h; [sl_cpu] is the hart holding the lock. *)
Record spinlock : Type := mkspin {
  sl_locked : Z;
  sl_name : string;
  sl_cpu : option nat
}.

(** kernel/sleeplock.h, whose [lk] field is the spin-lock [L_sleep]. *)
Record sleeplock : Type := mksleep {
  sll_locked : Z;
  sll_name : string;
  sll_pid : Z
}.

(** Zero-initialised static storage. *)
Definition zero_spinlock : spinlock := mkspin 0 EmptyString None.
Definition zero_sleeplock : sleeplock := mksleep 0 EmptyString 0.

(** kernel/proc.h, the per-CPU state. *)
(** The processor's fields; its saved context belongs to the scheduler. *)
Record cpu : Type := mkcpu {
  c_proc : option nat;
  c_noff : Z;
  c_intena : bool
}.

Definition set_c_proc (v : option nat) (s : cpu) : cpu :=
  mkcpu v (c_noff s) (c_intena s).
Definition set_c_noff (v : Z) (s : cpu) : cpu :=
  mkcpu (c_proc s) v (c_intena s).
Definition set_c_intena (v : bool) (s : cpu) : cpu :=
  mkcpu (c_proc s) (c_noff s) v.

(** What a lock operation can read and write: the running hart, its interrupt
    enable bit, the per-CPU structures and the spin-locks. *)
(** The processor side of the kernel state. *)
Record core : Type := mkcore {
  hart : nat;
  intr : bool;
  cpus : list cpu;
  spin : gmap lockid spinlock
}.

Definition set_hart (v : nat) (s : core) : core :=
  mkcore v (intr s) (cpus s) (spin s).
Definition set_intr (v : bool) (s : core) : core :=
  mkcore (hart s) v (cpus s) (spin s).
Definition set_cpus (v : list cpu) (s : core) : core :=
  mkcore (hart s) (intr s) v (spin s).
Definition set_spin (v : gmap lockid spinlock) (s : core) : core :=
  mkcore (hart s) (intr s) (cpus s) v.

(** * Processes *)

Inductive procstate : Type := UNUSED | USED | SLEEPING | RUNNABLE | RUNNING | ZOMBIE.
#[export] Instance procstate_eq_dec : EqDecision procstate.
Proof. solve_decision. Defined.

(** kernel/proc.h, the registers [swtch] saves; [ctx_s] is s0 to s11. *)
Record context : Type := mkcontext {
  ctx_ra : Z;
  ctx_sp : Z;
  ctx_s : list Z
}.

(** kernel/proc.h, per-process state; the lock is [L_proc]. *)
Record proc : Type := mkproc {
  p_state : procstate;
  p_chan : option chan;
  p_killed : Z;
  p_xstate : Z;
  p_pid : Z;
  p_parent : option nat;
  p_kstack : Z;
  p_sz : Z;
  p_pagetable : Z;
  p_trapframe : Z;
  p_context : context;
  p_ofile : list (option nat);
  p_cwd : option nat;
  p_name : list Z
}.

Definition set_p_state (v : procstate) (s : proc) : proc :=
  mkproc v (p_chan s) (p_killed s) (p_xstate s) (p_pid s) (p_parent s) (p_kstack s) (p_sz s)
    (p_pagetable s) (p_trapframe s) (p_context s) (p_ofile s) (p_cwd s) (p_name s).
Definition set_p_chan (v : option chan) (s : proc) : proc :=
  mkproc (p_state s) v (p_killed s) (p_xstate s) (p_pid s) (p_parent s) (p_kstack s) (p_sz s)
    (p_pagetable s) (p_trapframe s) (p_context s) (p_ofile s) (p_cwd s) (p_name s).
Definition set_p_killed (v : Z) (s : proc) : proc :=
  mkproc (p_state s) (p_chan s) v (p_xstate s) (p_pid s) (p_parent s) (p_kstack s) (p_sz s)
    (p_pagetable s) (p_trapframe s) (p_context s) (p_ofile s) (p_cwd s) (p_name s).
Definition set_p_xstate (v : Z) (s : proc) : proc :=
  mkproc (p_state s) (p_chan s) (p_killed s) v (p_pid s) (p_parent s) (p_kstack s) (p_sz s)
    (p_pagetable s) (p_trapframe s) (p_context s) (p_ofile s) (p_cwd s) (p_name s).
Definition set_p_pid (v : Z) (s : proc) : proc :=
  mkproc (p_state s) (p_chan s) (p_killed s) (p_xstate s) v (p_parent s) (p_kstack s) (p_sz s)
    (p_pagetable s) (p_trapframe s) (p_context s) (p_ofile s) (p_cwd s) (p_name s).
Definition set_p_parent (v : option nat) (s : proc) : proc :=
  mkproc (p_state s) (p_chan s) (p_killed s) (p_xstate s) (p_pid s) v (p_kstack s) (p_sz s)
    (p_pagetable s) (p_trapframe s) (p_context s) (p_ofile s) (p_cwd s) (p_name s).
Definition set_p_kstack (v : Z) (s : proc) : proc :=
  mkproc (p_state s) (p_chan s) (p_killed s) (p_xstate s) (p_pid s) (p_parent s) v (p_sz s)
    (p_pagetable s) (p_trapframe s) (p_context s) (p_ofile s) (p_cwd s) (p_name s).
Definition set_p_sz (v : Z) (s : proc) : proc :=
  mkproc (p_state s) (p_chan s) (p_killed s) (p_xstate s) (p_pid s) (p_parent s) (p_kstack s) v
    (p_pagetable s) (p_trapframe s) (p_context s) (p_ofile s) (p_cwd s) (p_name s).
Definition set_p_pagetable (v : Z) (s : proc) : proc :=
  mkproc (p_state s) (p_chan s) (p_killed s) (p_xstate s) (p_pid s) (p_parent s) (p_kstack s)
    (p_sz s) v (p_trapframe s) (p_context s) (p_ofile s) (p_cwd s) (p_name s).
Definition set_p_trapframe (v : Z) (s : proc) : proc :=
  mkproc (p_state s) (p_chan s) (p_killed s) (p_xstate s) (p_pid s) (p_parent s) (p_kstack s)
    (p_sz s) (p_pagetable s) v (p_context s) (p_ofile s) (p_cwd s) (p_name s).
Definition set_p_context (v : context) (s : proc) : proc :=
  mkproc (p_state s) (p_chan s) (p_killed s) (p_xstate s) (p_pid s) (p_parent s) (p_kstack s)
    (p_sz s) (p_pagetable s) (p_trapframe s) v (p_ofile s) (p_cwd s) (p_name s).
Definition set_p_ofile (v : list (option nat)) (s : proc) : proc :=
  mkproc (p_state s) (p_chan s) (p_killed s) (p_xstate s) (p_pid s) (p_parent s) (p_kstack s)
    (p_sz s) (p_pagetable s) (p_trapframe s) (p_context s) v (p_cwd s) (p_name s).
Definition set_p_cwd (v : option nat) (s : proc) : proc :=
  mkproc (p_state s) (p_chan s) (p_killed s) (p_xstate s) (p_pid s) (p_parent s) (p_kstack s)
    (p_sz s) (p_pagetable s) (p_trapframe s) (p_context s) (p_ofile s) v (p_name s).
Definition set_p_name (v : list Z) (s : proc) : proc :=
  mkproc (p_state s) (p_chan s) (p_killed s) (p_xstate s) (p_pid s) (p_parent s) (p_kstack s)
    (p_sz s) (p_pagetable s) (p_trapframe s) (p_context s) (p_ofile s) (p_cwd s) v.

(** * Disk blocks *)

(** A pointer into the buffer list: [None] is [&bcache.head]. *)
Abbreviation bptr := (option nat) (only parsing).

(** kernel/buf.h; the sleep-lock is [SL_buf]. *)
Record buf : Type := mkbuf {
  b_valid : Z;
  b_disk : Z;
  b_dev : Z;
  b_blockno : Z;
  b_refcnt : Z;
  b_prev : bptr;
  b_next : bptr;
  b_data : list Z
}.

Definition set_b_valid (v : Z) (s : buf) : buf :=
  mkbuf v (b_disk s) (b_dev s) (b_blockno s) (b_refcnt s) (b_prev s) (b_next s) (b_data s).
Definition set_b_disk (v : Z) (s : buf) : buf :=
  mkbuf (b_valid s) v (b_dev s) (b_blockno s) (b_refcnt s) (b_prev s) (b_next s) (b_data s).
Definition set_b_dev (v : Z) (s : buf) : buf :=
  mkbuf (b_valid s) (b_disk s) v (b_blockno s) (b_refcnt s) (b_prev s) (b_next s) (b_data s).
Definition set_b_blockno (v : Z) (s : buf) : buf :=
  mkbuf (b_valid s) (b_disk s) (b_dev s) v (b_refcnt s) (b_prev s) (b_next s) (b_data s).
Definition set_b_refcnt (v : Z) (s : buf) : buf :=
  mkbuf (b_valid s) (b_disk s) (b_dev s) (b_blockno s) v (b_prev s) (b_next s) (b_data s).
Definition set_b_prev (v : bptr) (s : buf) : buf :=
  mkbuf (b_valid s) (b_disk s) (b_dev s) (b_blockno s) (b_refcnt s) v (b_next s) (b_data s).
Definition set_b_next (v : bptr) (s : buf) : buf :=
  mkbuf (b_valid s) (b_disk s) (b_dev s) (b_blockno s) (b_refcnt s) (b_prev s) v (b_data s).
Definition set_b_data (v : list Z) (s : buf) : buf :=
  mkbuf (b_valid s) (b_disk s) (b_dev s) (b_blockno s) (b_refcnt s) (b_prev s) (b_next s) v.

(** The buffer cache of kernel/bio.c: the buffers and the two links of the list head. *)
Record bufcache : Type := mkbcache {
  bc_buf : list buf;
  bc_hprev : bptr;
  bc_hnext : bptr
}.

Definition set_bc_buf (v : list buf) (s : bufcache) : bufcache :=
  mkbcache v (bc_hprev s) (bc_hnext s).
Definition set_bc_hprev (v : bptr) (s : bufcache) : bufcache :=
  mkbcache (bc_buf s) v (bc_hnext s).
Definition set_bc_hnext (v : bptr) (s : bufcache) : bufcache :=
  mkbcache (bc_buf s) (bc_hprev s) v.

(** * The disk's queue *)

(** What a descriptor's [addr] points to. *)
Inductive daddr : Type :=
| DA_null
| DA_op (i : nat)       (* &disk.ops[i] *)
| DA_data (b : nat)     (* bcache.buf[b].data *)
| DA_status (i : nat).  (* &disk.info[i].status *)

(** kernel/virtio.h, a descriptor. *)
Record virtq_desc : Type := mkdesc {
  d_addr : daddr;
  d_len : Z;
  d_flags : Z;
  d_next : Z
}.

Definition set_d_addr (v : daddr) (s : virtq_desc) : virtq_desc :=
  mkdesc v (d_len s) (d_flags s) (d_next s).
Definition set_d_len (v : Z) (s : virtq_desc) : virtq_desc :=
  mkdesc (d_addr s) v (d_flags s) (d_next s).
Definition set_d_flags (v : Z) (s : virtq_desc) : virtq_desc :=
  mkdesc (d_addr s) (d_len s) v (d_next s).
Definition set_d_next (v : Z) (s : virtq_desc) : virtq_desc :=
  mkdesc (d_addr s) (d_len s) (d_flags s) v.

(** kernel/virtio.h, the first part of a disk request. *)
Record virtio_blk_req : Type := mkreq {
  r_type : Z;
  r_reserved : Z;
  r_sector : Z
}.

Definition set_r_type (v : Z) (s : virtio_blk_req) : virtio_blk_req :=
  mkreq v (r_reserved s) (r_sector s).
Definition set_r_reserved (v : Z) (s : virtio_blk_req) : virtio_blk_req :=
  mkreq (r_type s) v (r_sector s).
Definition set_r_sector (v : Z) (s : virtio_blk_req) : virtio_blk_req :=
  mkreq (r_type s) (r_reserved s) v.

(** kernel/virtio_disk.c, the entries of [disk.info]. *)
Record disk_info : Type := mkinfo {
  i_b : option nat;
  i_status : Z
}.

Definition set_i_b (v : option nat) (s : disk_info) : disk_info :=
  mkinfo v (i_status s).
Definition set_i_status (v : Z) (s : disk_info) : disk_info :=
  mkinfo (i_b s) v.

(** kernel/virtio_disk.c, [struct disk]; the ring sizes and flags that never change are left out. *)
Record vdisk : Type := mkvdisk {
  v_desc : list virtq_desc;
  v_avail_idx : Z;
  v_avail_ring : list Z;
  v_dev_idx : Z;
  v_dev_ring : list Z;
  v_free : list Z;
  v_used_idx : Z;
  v_info : list disk_info;
  v_ops : list virtio_blk_req
}.

Definition set_v_desc (v : list virtq_desc) (s : vdisk) : vdisk :=
  mkvdisk v (v_avail_idx s) (v_avail_ring s) (v_dev_idx s) (v_dev_ring s) (v_free s) (v_used_idx
    s) (v_info s) (v_ops s).
Definition set_v_avail_idx (v : Z) (s : vdisk) : vdisk :=
  mkvdisk (v_desc s) v (v_avail_ring s) (v_dev_idx s) (v_dev_ring s) (v_free s) (v_used_idx s)
    (v_info s) (v_ops s).
Definition set_v_avail_ring (v : list Z) (s : vdisk) : vdisk :=
  mkvdisk (v_desc s) (v_avail_idx s) v (v_dev_idx s) (v_dev_ring s) (v_free s) (v_used_idx s)
    (v_info s) (v_ops s).
Definition set_v_dev_idx (v : Z) (s : vdisk) : vdisk :=
  mkvdisk (v_desc s) (v_avail_idx s) (v_avail_ring s) v (v_dev_ring s) (v_free s) (v_used_idx s)
    (v_info s) (v_ops s).
Definition set_v_dev_ring (v : list Z) (s : vdisk) : vdisk :=
  mkvdisk (v_desc s) (v_avail_idx s) (v_avail_ring s) (v_dev_idx s) v (v_free s) (v_used_idx s)
    (v_info s) (v_ops s).
Definition set_v_free (v : list Z) (s : vdisk) : vdisk :=
  mkvdisk (v_desc s) (v_avail_idx s) (v_avail_ring s) (v_dev_idx s) (v_dev_ring s) v (v_used_idx
    s) (v_info s) (v_ops s).
Definition set_v_used_idx (v : Z) (s : vdisk) : vdisk :=
  mkvdisk (v_desc s) (v_avail_idx s) (v_avail_ring s) (v_dev_idx s) (v_dev_ring s) (v_free s) v
    (v_info s) (v_ops s).
Definition set_v_info (v : list disk_info) (s : vdisk) : vdisk :=
  mkvdisk (v_desc s) (v_avail_idx s) (v_avail_ring s) (v_dev_idx s) (v_dev_ring s) (v_free s)
    (v_used_idx s) v (v_ops s).
Definition set_v_ops (v : list virtio_blk_req) (s : vdisk) : vdisk :=
  mkvdisk (v_desc s) (v_avail_idx s) (v_avail_ring s) (v_dev_idx s) (v_dev_ring s) (v_free s)
    (v_used_idx s) (v_info s) v.

(** kernel/log.c: [struct log] with its in-memory header. *)
Record logst : Type := mklog {
  log_start : Z;
  log_size : Z;
  log_outstanding : Z;
  log_committing : Z;
  log_dev : Z;
  lh_n : Z;
  lh_block : list Z
}.

Definition set_log_start (v : Z) (s : logst) : logst :=
  mklog v (log_size s) (log_outstanding s) (log_committing s) (log_dev s) (lh_n s) (lh_block s).
Definition set_log_size (v : Z) (s : logst) : logst :=
  mklog (log_start s) v (log_outstanding s) (log_committing s) (log_dev s) (lh_n s) (lh_block s).
Definition set_log_outstanding (v : Z) (s : logst) : logst :=
  mklog (log_start s) (log_size s) v (log_committing s) (log_dev s) (lh_n s) (lh_block s).
Definition set_log_committing (v : Z) (s : logst) : logst :=
  mklog (log_start s) (log_size s) (log_outstanding s) v (log_dev s) (lh_n s) (lh_block s).
Definition set_log_dev (v : Z) (s : logst) : logst :=
  mklog (log_start s) (log_size s) (log_outstanding s) (log_committing s) v (lh_n s) (lh_block
    s).
Definition set_lh_n (v : Z) (s : logst) : logst :=
  mklog (log_start s) (log_size s) (log_outstanding s) (log_committing s) (log_dev s) v
    (lh_block s).
Definition set_lh_block (v : list Z) (s : logst) : logst :=
  mklog (log_start s) (log_size s) (log_outstanding s) (log_committing s) (log_dev s) (lh_n s) v.

(** * Inodes, files and pipes *)

(** kernel/fs.h, the disk layout. *)
Record superblock : Type := mksb {
  sb_magic : Z;
  sb_size : Z;
  sb_nblocks : Z;
  sb_ninodes : Z;
  sb_nlog : Z;
  sb_logstart : Z;
  sb_inodestart : Z;
  sb_bmapstart : Z
}.

Definition set_sb_magic (v : Z) (s : superblock) : superblock :=
  mksb v (sb_size s) (sb_nblocks s) (sb_ninodes s) (sb_nlog s) (sb_logstart s) (sb_inodestart
    s) (sb_bmapstart s).
Definition set_sb_size (v : Z) (s : superblock) : superblock :=
  mksb (sb_magic s) v (sb_nblocks s) (sb_ninodes s) (sb_nlog s) (sb_logstart s) (sb_inodestart
    s) (sb_bmapstart s).
Definition set_sb_nblocks (v : Z) (s : superblock) : superblock :=
  mksb (sb_magic s) (sb_size s) v (sb_ninodes s) (sb_nlog s) (sb_logstart s) (sb_inodestart s)
    (sb_bmapstart s).
Definition set_sb_ninodes (v : Z) (s : superblock) : superblock :=
  mksb (sb_magic s) (sb_size s) (sb_nblocks s) v (sb_nlog s) (sb_logstart s) (sb_inodestart s)
    (sb_bmapstart s).
Definition set_sb_nlog (v : Z) (s : superblock) : superblock :=
  mksb (sb_magic s) (sb_size s) (sb_nblocks s) (sb_ninodes s) v (sb_logstart s) (sb_inodestart
    s) (sb_bmapstart s).
Definition set_sb_logstart (v : Z) (s : superblock) : superblock :=
  mksb (sb_magic s) (sb_size s) (sb_nblocks s) (sb_ninodes s) (sb_nlog s) v (sb_inodestart s)
    (sb_bmapstart s).
Definition set_sb_inodestart (v : Z) (s : superblock) : superblock :=
  mksb (sb_magic s) (sb_size s) (sb_nblocks s) (sb_ninodes s) (sb_nlog s) (sb_logstart s) v
    (sb_bmapstart s).
Definition set_sb_bmapstart (v : Z) (s : superblock) : superblock :=
  mksb (sb_magic s) (sb_size s) (sb_nblocks s) (sb_ninodes s) (sb_nlog s) (sb_logstart s)
    (sb_inodestart s) v.

(** kernel/file.h, the in-memory copy of an inode; the sleep-lock is [SL_inode]. *)
Record inode : Type := mkinode {
  in_dev : Z;
  in_inum : Z;
  in_ref : Z;
  in_valid : Z;
  in_type : Z;
  in_major : Z;
  in_minor : Z;
  in_nlink : Z;
  in_size : Z;
  in_addrs : list Z
}.

Definition set_in_dev (v : Z) (s : inode) : inode :=
  mkinode v (in_inum s) (in_ref s) (in_valid s) (in_type s) (in_major s) (in_minor s) (in_nlink s)
    (in_size s) (in_addrs s).
Definition set_in_inum (v : Z) (s : inode) : inode :=
  mkinode (in_dev s) v (in_ref s) (in_valid s) (in_type s) (in_major s) (in_minor s) (in_nlink s)
    (in_size s) (in_addrs s).
Definition set_in_ref (v : Z) (s : inode) : inode :=
  mkinode (in_dev s) (in_inum s) v (in_valid s) (in_type s) (in_major s) (in_minor s) (in_nlink s)
    (in_size s) (in_addrs s).
Definition set_in_valid (v : Z) (s : inode) : inode :=
  mkinode (in_dev s) (in_inum s) (in_ref s) v (in_type s) (in_major s) (in_minor s) (in_nlink s)
    (in_size s) (in_addrs s).
Definition set_in_type (v : Z) (s : inode) : inode :=
  mkinode (in_dev s) (in_inum s) (in_ref s) (in_valid s) v (in_major s) (in_minor s) (in_nlink s)
    (in_size s) (in_addrs s).
Definition set_in_major (v : Z) (s : inode) : inode :=
  mkinode (in_dev s) (in_inum s) (in_ref s) (in_valid s) (in_type s) v (in_minor s) (in_nlink s)
    (in_size s) (in_addrs s).
Definition set_in_minor (v : Z) (s : inode) : inode :=
  mkinode (in_dev s) (in_inum s) (in_ref s) (in_valid s) (in_type s) (in_major s) v (in_nlink s)
    (in_size s) (in_addrs s).
Definition set_in_nlink (v : Z) (s : inode) : inode :=
  mkinode (in_dev s) (in_inum s) (in_ref s) (in_valid s) (in_type s) (in_major s) (in_minor s) v
    (in_size s) (in_addrs s).
Definition set_in_size (v : Z) (s : inode) : inode :=
  mkinode (in_dev s) (in_inum s) (in_ref s) (in_valid s) (in_type s) (in_major s) (in_minor s)
    (in_nlink s) v (in_addrs s).
Definition set_in_addrs (v : list Z) (s : inode) : inode :=
  mkinode (in_dev s) (in_inum s) (in_ref s) (in_valid s) (in_type s) (in_major s) (in_minor s)
    (in_nlink s) (in_size s) v.

Inductive ftype : Type := FD_NONE | FD_PIPE | FD_INODE | FD_DEVICE.
#[export] Instance ftype_eq_dec : EqDecision ftype.
Proof. solve_decision. Defined.

(** kernel/file.h; a pipe is named by the address of its page. *)
Record file : Type := mkfile {
  f_type : ftype;
  f_ref : Z;
  f_readable : Z;
  f_writable : Z;
  f_pipe : option Z;
  f_ip : option nat;
  f_off : Z;
  f_major : Z
}.

Definition set_f_type (v : ftype) (s : file) : file :=
  mkfile v (f_ref s) (f_readable s) (f_writable s) (f_pipe s) (f_ip s) (f_off s) (f_major s).
Definition set_f_ref (v : Z) (s : file) : file :=
  mkfile (f_type s) v (f_readable s) (f_writable s) (f_pipe s) (f_ip s) (f_off s) (f_major s).
Definition set_f_readable (v : Z) (s : file) : file :=
  mkfile (f_type s) (f_ref s) v (f_writable s) (f_pipe s) (f_ip s) (f_off s) (f_major s).
Definition set_f_writable (v : Z) (s : file) : file :=
  mkfile (f_type s) (f_ref s) (f_readable s) v (f_pipe s) (f_ip s) (f_off s) (f_major s).
Definition set_f_pipe (v : option Z) (s : file) : file :=
  mkfile (f_type s) (f_ref s) (f_readable s) (f_writable s) v (f_ip s) (f_off s) (f_major s).
Definition set_f_ip (v : option nat) (s : file) : file :=
  mkfile (f_type s) (f_ref s) (f_readable s) (f_writable s) (f_pipe s) v (f_off s) (f_major s).
Definition set_f_off (v : Z) (s : file) : file :=
  mkfile (f_type s) (f_ref s) (f_readable s) (f_writable s) (f_pipe s) (f_ip s) v (f_major s).
Definition set_f_major (v : Z) (s : file) : file :=
  mkfile (f_type s) (f_ref s) (f_readable s) (f_writable s) (f_pipe s) (f_ip s) (f_off s) v.

(** kernel/pipe.c; the lock is [L_pipe]. *)
Record pipe : Type := mkpipe {
  pi_data : list Z;
  pi_nread : Z;
  pi_nwrite : Z;
  pi_readopen : Z;
  pi_writeopen : Z
}.

Definition set_pi_data (v : list Z) (s : pipe) : pipe :=
  mkpipe v (pi_nread s) (pi_nwrite s) (pi_readopen s) (pi_writeopen s).
Definition set_pi_nread (v : Z) (s : pipe) : pipe :=
  mkpipe (pi_data s) v (pi_nwrite s) (pi_readopen s) (pi_writeopen s).
Definition set_pi_nwrite (v : Z) (s : pipe) : pipe :=
  mkpipe (pi_data s) (pi_nread s) v (pi_readopen s) (pi_writeopen s).
Definition set_pi_readopen (v : Z) (s : pipe) : pipe :=
  mkpipe (pi_data s) (pi_nread s) (pi_nwrite s) v (pi_writeopen s).
Definition set_pi_writeopen (v : Z) (s : pipe) : pipe :=
  mkpipe (pi_data s) (pi_nread s) (pi_nwrite s) (pi_readopen s) v.

(** * The console and the serial port *)

(** kernel/console.c, the input buffer and its read, write and edit indices. *)
Record consst : Type := mkcons {
  cons_buf : list Z;
  cons_r : Z;
  cons_w : Z;
  cons_e : Z
}.

Definition set_cons_buf (v : list Z) (s : consst) : consst :=
  mkcons v (cons_r s) (cons_w s) (cons_e s).
Definition set_cons_r (v : Z) (s : consst) : consst :=
  mkcons (cons_buf s) v (cons_w s) (cons_e s).
Definition set_cons_w (v : Z) (s : consst) : consst :=
  mkcons (cons_buf s) (cons_r s) v (cons_e s).
Definition set_cons_e (v : Z) (s : consst) : consst :=
  mkcons (cons_buf s) (cons_r s) (cons_w s) v.

(** kernel/uart.c, the transmit buffer; [u_in] and [u_out] are the bytes on the serial line, not yet read by the driver and already sent by it; [u_idle] are the device's next answers to whether it can take a byte (after them it always can). *)
Record uartst : Type := mkuart {
  u_tx_buf : list Z;
  u_tx_w : Z;
  u_tx_r : Z;
  u_in : list Z;
  u_out : list Z;
  u_idle : list bool
}.

Definition set_u_tx_buf (v : list Z) (s : uartst) : uartst :=
  mkuart v (u_tx_w s) (u_tx_r s) (u_in s) (u_out s) (u_idle s).
Definition set_u_tx_w (v : Z) (s : uartst) : uartst :=
  mkuart (u_tx_buf s) v (u_tx_r s) (u_in s) (u_out s) (u_idle s).
Definition set_u_tx_r (v : Z) (s : uartst) : uartst :=
  mkuart (u_tx_buf s) (u_tx_w s) v (u_in s) (u_out s) (u_idle s).
Definition set_u_in (v : list Z) (s : uartst) : uartst :=
  mkuart (u_tx_buf s) (u_tx_w s) (u_tx_r s) v (u_out s) (u_idle s).
Definition set_u_out (v : list Z) (s : uartst) : uartst :=
  mkuart (u_tx_buf s) (u_tx_w s) (u_tx_r s) (u_in s) v (u_idle s).
Definition set_u_idle (v : list bool) (s : uartst) : uartst :=
  mkuart (u_tx_buf s) (u_tx_w s) (u_tx_r s) (u_in s) (u_out s) v.

(** The entries of the device switch. *)
Inductive devfn : Type := Dev_console.

(** * The kernel *)

(** The whole state. [k_csr] holds the control registers of the running hart. [k_disk] is the device's contents and [k_writes] is the history of the blocks handed to the disk, oldest first. *)
Record kstate : Type := mkkstate {
  k_core : core;
  k_procs : list proc;
  k_nextpid : Z;
  k_initproc : option nat;
  k_mem : mem;
  k_freelist : Z;
  k_slocks : gmap sleepid sleeplock;
  k_disk : gmap Z (list Z);
  k_writes : list (Z * list Z);
  k_bcache : bufcache;
  k_log : logst;
  k_vdisk : vdisk;
  k_mmio : gmap Z Z;
  k_sb : superblock;
  k_inodes : list inode;
  k_files : list file;
  k_devsw : list (option devfn);
  k_pipes : gmap Z pipe;
  k_kpt : Z;
  k_ticks : Z;
  k_cons : consst;
  k_uart : uartst;
  k_panicked : Z;
  k_first : Z;
  k_locking : Z;
  k_started : Z;
  k_csr : gmap string Z
}.

Definition set_k_core (v : core) (s : kstate) : kstate :=
  mkkstate v (k_procs s) (k_nextpid s) (k_initproc s) (k_mem s) (k_freelist s) (k_slocks s) (k_disk
    s) (k_writes s) (k_bcache s) (k_log s) (k_vdisk s) (k_mmio s) (k_sb s) (k_inodes s)
    (k_files s) (k_devsw s) (k_pipes s) (k_kpt s) (k_ticks s) (k_cons s) (k_uart s)
    (k_panicked s) (k_first s) (k_locking s) (k_started s) (k_csr s).
Definition set_k_procs (v : list proc) (s : kstate) : kstate :=
  mkkstate (k_core s) v (k_nextpid s) (k_initproc s) (k_mem s) (k_freelist s) (k_slocks s) (k_disk
    s) (k_writes s) (k_bcache s) (k_log s) (k_vdisk s) (k_mmio s) (k_sb s) (k_inodes s)
    (k_files s) (k_devsw s) (k_pipes s) (k_kpt s) (k_ticks s) (k_cons s) (k_uart s)
    (k_panicked s) (k_first s) (k_locking s) (k_started s) (k_csr s).
Definition set_k_nextpid (v : Z) (s : kstate) : kstate :=
  mkkstate (k_core s) (k_procs s) v (k_initproc s) (k_mem s) (k_freelist s) (k_slocks s) (k_disk s)
    (k_writes s) (k_bcache s) (k_log s) (k_vdisk s) (k_mmio s) (k_sb s) (k_inodes s)
    (k_files s) (k_devsw s) (k_pipes s) (k_kpt s) (k_ticks s) (k_cons s) (k_uart s)
    (k_panicked s) (k_first s) (k_locking s) (k_started s) (k_csr s).
Definition set_k_initproc (v : option nat) (s : kstate) : kstate :=
  mkkstate (k_core s) (k_procs s) (k_nextpid s) v (k_mem s) (k_freelist s) (k_slocks s) (k_disk s)
    (k_writes s) (k_bcache s) (k_log s) (k_vdisk s) (k_mmio s) (k_sb s) (k_inodes s)
    (k_files s) (k_devsw s) (k_pipes s) (k_kpt s) (k_ticks s) (k_cons s) (k_uart s)
    (k_panicked s) (k_first s) (k_locking s) (k_started s) (k_csr s).
Definition set_k_mem (v : mem) (s : kstate) : kstate :=
  mkkstate (k_core s) (k_procs s) (k_nextpid s) (k_initproc s) v (k_freelist s) (k_slocks s)
    (k_disk s) (k_writes s) (k_bcache s) (k_log s) (k_vdisk s) (k_mmio s) (k_sb s) (k_inodes
    s) (k_files s) (k_devsw s) (k_pipes s) (k_kpt s) (k_ticks s) (k_cons s) (k_uart s)
    (k_panicked s) (k_first s) (k_locking s) (k_started s) (k_csr s).
Definition set_k_freelist (v : Z) (s : kstate) : kstate :=
  mkkstate (k_core s) (k_procs s) (k_nextpid s) (k_initproc s) (k_mem s) v (k_slocks s) (k_disk s)
    (k_writes s) (k_bcache s) (k_log s) (k_vdisk s) (k_mmio s) (k_sb s) (k_inodes s)
    (k_files s) (k_devsw s) (k_pipes s) (k_kpt s) (k_ticks s) (k_cons s) (k_uart s)
    (k_panicked s) (k_first s) (k_locking s) (k_started s) (k_csr s).
Definition set_k_slocks (v : gmap sleepid sleeplock) (s : kstate) : kstate :=
  mkkstate (k_core s) (k_procs s) (k_nextpid s) (k_initproc s) (k_mem s) (k_freelist s) v (k_disk
    s) (k_writes s) (k_bcache s) (k_log s) (k_vdisk s) (k_mmio s) (k_sb s) (k_inodes s)
    (k_files s) (k_devsw s) (k_pipes s) (k_kpt s) (k_ticks s) (k_cons s) (k_uart s)
    (k_panicked s) (k_first s) (k_locking s) (k_started s) (k_csr s).
Definition set_k_disk (v : gmap Z (list Z)) (s : kstate) : kstate :=
  mkkstate (k_core s) (k_procs s) (k_nextpid s) (k_initproc s) (k_mem s) (k_freelist s) (k_slocks
    s) v (k_writes s) (k_bcache s) (k_log s) (k_vdisk s) (k_mmio s) (k_sb s) (k_inodes s)
    (k_files s) (k_devsw s) (k_pipes s) (k_kpt s) (k_ticks s) (k_cons s) (k_uart s)
    (k_panicked s) (k_first s) (k_locking s) (k_started s) (k_csr s).
Definition set_k_writes (v : list (Z * list Z)) (s : kstate) : kstate :=
  mkkstate (k_core s) (k_procs s) (k_nextpid s) (k_initproc s) (k_mem s) (k_freelist s) (k_slocks
    s) (k_disk s) v (k_bcache s) (k_log s) (k_vdisk s) (k_mmio s) (k_sb s) (k_inodes s)
    (k_files s) (k_devsw s) (k_pipes s) (k_kpt s) (k_ticks s) (k_cons s) (k_uart s)
    (k_panicked s) (k_first s) (k_locking s) (k_started s) (k_csr s).
Definition set_k_bcache (v : bufcache) (s : kstate) : kstate :=
  mkkstate (k_core s) (k_procs s) (k_nextpid s) (k_initproc s) (k_mem s) (k_freelist s) (k_slocks
    s) (k_disk s) (k_writes s) v (k_log s) (k_vdisk s) (k_mmio s) (k_sb s) (k_inodes s)
    (k_files s) (k_devsw s) (k_pipes s) (k_kpt s) (k_ticks s) (k_cons s) (k_uart s)
    (k_panicked s) (k_first s) (k_locking s) (k_started s) (k_csr s).
Definition set_k_log (v : logst) (s : kstate) : kstate :=
  mkkstate (k_core s) (k_procs s) (k_nextpid s) (k_initproc s) (k_mem s) (k_freelist s) (k_slocks
    s) (k_disk s) (k_writes s) (k_bcache s) v (k_vdisk s) (k_mmio s) (k_sb s) (k_inodes s)
    (k_files s) (k_devsw s) (k_pipes s) (k_kpt s) (k_ticks s) (k_cons s) (k_uart s)
    (k_panicked s) (k_first s) (k_locking s) (k_started s) (k_csr s).
Definition set_k_vdisk (v : vdisk) (s : kstate) : kstate :=
  mkkstate (k_core s) (k_procs s) (k_nextpid s) (k_initproc s) (k_mem s) (k_freelist s) (k_slocks
    s) (k_disk s) (k_writes s) (k_bcache s) (k_log s) v (k_mmio s) (k_sb s) (k_inodes s)
    (k_files s) (k_devsw s) (k_pipes s) (k_kpt s) (k_ticks s) (k_cons s) (k_uart s)
    (k_panicked s) (k_first s) (k_locking s) (k_started s) (k_csr s).
Definition set_k_mmio (v : gmap Z Z) (s : kstate) : kstate :=
  mkkstate (k_core s) (k_procs s) (k_nextpid s) (k_initproc s) (k_mem s) (k_freelist s) (k_slocks
    s) (k_disk s) (k_writes s) (k_bcache s) (k_log s) (k_vdisk s) v (k_sb s) (k_inodes s)
    (k_files s) (k_devsw s) (k_pipes s) (k_kpt s) (k_ticks s) (k_cons s) (k_uart s)
    (k_panicked s) (k_first s) (k_locking s) (k_started s) (k_csr s).
Definition set_k_sb (v : superblock) (s : kstate) : kstate :=
  mkkstate (k_core s) (k_procs s) (k_nextpid s) (k_initproc s) (k_mem s) (k_freelist s) (k_slocks
    s) (k_disk s) (k_writes s) (k_bcache s) (k_log s) (k_vdisk s) (k_mmio s) v (k_inodes s)
    (k_files s) (k_devsw s) (k_pipes s) (k_kpt s) (k_ticks s) (k_cons s) (k_uart s)
    (k_panicked s) (k_first s) (k_locking s) (k_started s) (k_csr s).
Definition set_k_inodes (v : list inode) (s : kstate) : kstate :=
  mkkstate (k_core s) (k_procs s) (k_nextpid s) (k_initproc s) (k_mem s) (k_freelist s) (k_slocks
    s) (k_disk s) (k_writes s) (k_bcache s) (k_log s) (k_vdisk s) (k_mmio s) (k_sb s) v
    (k_files s) (k_devsw s) (k_pipes s) (k_kpt s) (k_ticks s) (k_cons s) (k_uart s)
    (k_panicked s) (k_first s) (k_locking s) (k_started s) (k_csr s).
Definition set_k_files (v : list file) (s : kstate) : kstate :=
  mkkstate (k_core s) (k_procs s) (k_nextpid s) (k_initproc s) (k_mem s) (k_freelist s) (k_slocks
    s) (k_disk s) (k_writes s) (k_bcache s) (k_log s) (k_vdisk s) (k_mmio s) (k_sb s)
    (k_inodes s) v (k_devsw s) (k_pipes s) (k_kpt s) (k_ticks s) (k_cons s) (k_uart s)
    (k_panicked s) (k_first s) (k_locking s) (k_started s) (k_csr s).
Definition set_k_devsw (v : list (option devfn)) (s : kstate) : kstate :=
  mkkstate (k_core s) (k_procs s) (k_nextpid s) (k_initproc s) (k_mem s) (k_freelist s) (k_slocks
    s) (k_disk s) (k_writes s) (k_bcache s) (k_log s) (k_vdisk s) (k_mmio s) (k_sb s)
    (k_inodes s) (k_files s) v (k_pipes s) (k_kpt s) (k_ticks s) (k_cons s) (k_uart s)
    (k_panicked s) (k_first s) (k_locking s) (k_started s) (k_csr s).
Definition set_k_pipes (v : gmap Z pipe) (s : kstate) : kstate :=
  mkkstate (k_core s) (k_procs s) (k_nextpid s) (k_initproc s) (k_mem s) (k_freelist s) (k_slocks
    s) (k_disk s) (k_writes s) (k_bcache s) (k_log s) (k_vdisk s) (k_mmio s) (k_sb s)
    (k_inodes s) (k_files s) (k_devsw s) v (k_kpt s) (k_ticks s) (k_cons s) (k_uart s)
    (k_panicked s) (k_first s) (k_locking s) (k_started s) (k_csr s).
Definition set_k_kpt (v : Z) (s : kstate) : kstate :=
  mkkstate (k_core s) (k_procs s) (k_nextpid s) (k_initproc s) (k_mem s) (k_freelist s) (k_slocks
    s) (k_disk s) (k_writes s) (k_bcache s) (k_log s) (k_vdisk s) (k_mmio s) (k_sb s)
    (k_inodes s) (k_files s) (k_devsw s) (k_pipes s) v (k_ticks s) (k_cons s) (k_uart s)
    (k_panicked s) (k_first s) (k_locking s) (k_started s) (k_csr s).
Definition set_k_ticks (v : Z) (s : kstate) : kstate :=
  mkkstate (k_core s) (k_procs s) (k_nextpid s) (k_initproc s) (k_mem s) (k_freelist s) (k_slocks
    s) (k_disk s) (k_writes s) (k_bcache s) (k_log s) (k_vdisk s) (k_mmio s) (k_sb s)
    (k_inodes s) (k_files s) (k_devsw s) (k_pipes s) (k_kpt s) v (k_cons s) (k_uart s)
    (k_panicked s) (k_first s) (k_locking s) (k_started s) (k_csr s).
Definition set_k_cons (v : consst) (s : kstate) : kstate :=
  mkkstate (k_core s) (k_procs s) (k_nextpid s) (k_initproc s) (k_mem s) (k_freelist s) (k_slocks
    s) (k_disk s) (k_writes s) (k_bcache s) (k_log s) (k_vdisk s) (k_mmio s) (k_sb s)
    (k_inodes s) (k_files s) (k_devsw s) (k_pipes s) (k_kpt s) (k_ticks s) v (k_uart s)
    (k_panicked s) (k_first s) (k_locking s) (k_started s) (k_csr s).
Definition set_k_uart (v : uartst) (s : kstate) : kstate :=
  mkkstate (k_core s) (k_procs s) (k_nextpid s) (k_initproc s) (k_mem s) (k_freelist s) (k_slocks
    s) (k_disk s) (k_writes s) (k_bcache s) (k_log s) (k_vdisk s) (k_mmio s) (k_sb s)
    (k_inodes s) (k_files s) (k_devsw s) (k_pipes s) (k_kpt s) (k_ticks s) (k_cons s) v
    (k_panicked s) (k_first s) (k_locking s) (k_started s) (k_csr s).
Definition set_k_panicked (v : Z) (s : kstate) : kstate :=
  mkkstate (k_core s) (k_procs s) (k_nextpid s) (k_initproc s) (k_mem s) (k_freelist s) (k_slocks
    s) (k_disk s) (k_writes s) (k_bcache s) (k_log s) (k_vdisk s) (k_mmio s) (k_sb s)
    (k_inodes s) (k_files s) (k_devsw s) (k_pipes s) (k_kpt s) (k_ticks s) (k_cons s)
    (k_uart s) v (k_first s) (k_locking s) (k_started s) (k_csr s).
Definition set_k_first (v : Z) (s : kstate) : kstate :=
  mkkstate (k_core s) (k_procs s) (k_nextpid s) (k_initproc s) (k_mem s) (k_freelist s) (k_slocks
    s) (k_disk s) (k_writes s) (k_bcache s) (k_log s) (k_vdisk s) (k_mmio s) (k_sb s)
    (k_inodes s) (k_files s) (k_devsw s) (k_pipes s) (k_kpt s) (k_ticks s) (k_cons s)
    (k_uart s) (k_panicked s) v (k_locking s) (k_started s) (k_csr s).
Definition set_k_locking (v : Z) (s : kstate) : kstate :=
  mkkstate (k_core s) (k_procs s) (k_nextpid s) (k_initproc s) (k_mem s) (k_freelist s) (k_slocks
    s) (k_disk s) (k_writes s) (k_bcache s) (k_log s) (k_vdisk s) (k_mmio s) (k_sb s)
    (k_inodes s) (k_files s) (k_devsw s) (k_pipes s) (k_kpt s) (k_ticks s) (k_cons s)
    (k_uart s) (k_panicked s) (k_first s) v (k_started s) (k_csr s).
Definition set_k_started (v : Z) (s : kstate) : kstate :=
  mkkstate (k_core s) (k_procs s) (k_nextpid s) (k_initproc s) (k_mem s) (k_freelist s) (k_slocks
    s) (k_disk s) (k_writes s) (k_bcache s) (k_log s) (k_vdisk s) (k_mmio s) (k_sb s)
    (k_inodes s) (k_files s) (k_devsw s) (k_pipes s) (k_kpt s) (k_ticks s) (k_cons s)
    (k_uart s) (k_panicked s) (k_first s) (k_locking s) v (k_csr s).
Definition set_k_csr (v : gmap string Z) (s : kstate) : kstate :=
  mkkstate (k_core s) (k_procs s) (k_nextpid s) (k_initproc s) (k_mem s) (k_freelist s) (k_slocks
    s) (k_disk s) (k_writes s) (k_bcache s) (k_log s) (k_vdisk s) (k_mmio s) (k_sb s)
    (k_inodes s) (k_files s) (k_devsw s) (k_pipes s) (k_kpt s) (k_ticks s) (k_cons s)
    (k_uart s) (k_panicked s) (k_first s) (k_locking s) (k_started s) v.

(** The kernel's computations. *)
Abbreviation K := (M kstate).

(** * The state when the kernel starts: static storage is zero *)

Definition zero_cpu : cpu := mkcpu None 0 false.
Definition zero_proc : proc :=
  mkproc UNUSED None 0 0 0 None 0 0 0 0 (mkcontext 0 0 (replicate 12 0))
    (replicate (Z.to_nat NOFILE) None) None (replicate 16 0).
Definition zero_buf : buf := mkbuf 0 0 0 0 0 None None (replicate (Z.to_nat BSIZE) 0).
Definition zero_log : logst := mklog 0 0 0 0 0 0 (replicate (Z.to_nat LOGSIZE) 0).

Definition zero_vdisk : vdisk :=
  mkvdisk (replicate 8 (mkdesc DA_null 0 0 0)) 0 (replicate 8 0) 0 (replicate 8 0)
    (replicate 8 0) 0 (replicate 8 (mkinfo None 0)) (replicate 8 (mkreq 0 0 0)).

Definition zero_inode : inode := mkinode 0 0 0 0 0 0 0 0 0 (replicate 13 0).
Definition zero_file : file := mkfile FD_NONE 0 0 0 None None 0 0.

(** Hart [h], interrupts on or off. *)
Definition zero_core (h : nat) (ie : bool) : core :=
  mkcore h ie (replicate (Z.to_nat NCPU) zero_cpu) ∅.

Definition zero_kstate (ie : bool) : kstate :=
  mkkstate (zero_core 0 ie) (replicate (Z.to_nat NPROC) zero_proc) 1 None ∅ 0 ∅ ∅ []
    (mkbcache (replicate (Z.to_nat NBUF) zero_buf) None None) zero_log
    zero_vdisk ∅ (mksb 0 0 0 0 0 0 0 0) (replicate (Z.to_nat NINODE) zero_inode)
    (replicate (Z.to_nat NFILE) zero_file) (replicate (Z.to_nat NDEV) None) ∅ 0 0
    (mkcons (replicate 128 0) 0 0 0) (mkuart (replicate 32 0) 0 0 [] [] []) 0 1 0 0 ∅.

(** Record algebra: projections of updated records. *)
Ltac krec := cbn [
c_proc set_c_proc c_noff set_c_noff c_intena set_c_intena hart set_hart intr set_intr
    cpus set_cpus spin set_spin p_state set_p_state p_chan set_p_chan p_killed set_p_killed
    p_xstate set_p_xstate p_pid set_p_pid p_parent set_p_parent p_kstack set_p_kstack p_sz
    set_p_sz p_pagetable set_p_pagetable p_trapframe set_p_trapframe p_context set_p_context
    p_ofile set_p_ofile p_cwd set_p_cwd p_name set_p_name b_valid set_b_valid b_disk
    set_b_disk b_dev set_b_dev b_blockno set_b_blockno b_refcnt set_b_refcnt b_prev
    set_b_prev b_next set_b_next b_data set_b_data bc_buf set_bc_buf bc_hprev set_bc_hprev
    bc_hnext set_bc_hnext d_addr set_d_addr d_len set_d_len d_flags set_d_flags d_next
    set_d_next r_type set_r_type r_reserved set_r_reserved r_sector set_r_sector i_b set_i_b
    i_status set_i_status v_desc set_v_desc v_avail_idx set_v_avail_idx v_avail_ring
    set_v_avail_ring v_dev_idx set_v_dev_idx v_dev_ring set_v_dev_ring v_free set_v_free
    v_used_idx set_v_used_idx v_info set_v_info v_ops set_v_ops log_start set_log_start
    log_size set_log_size log_outstanding set_log_outstanding log_committing
    set_log_committing log_dev set_log_dev lh_n set_lh_n lh_block set_lh_block sb_magic
    set_sb_magic sb_size set_sb_size sb_nblocks set_sb_nblocks sb_ninodes set_sb_ninodes
    sb_nlog set_sb_nlog sb_logstart set_sb_logstart sb_inodestart set_sb_inodestart
    sb_bmapstart set_sb_bmapstart in_dev set_in_dev in_inum set_in_inum in_ref set_in_ref
    in_valid set_in_valid in_type set_in_type in_major set_in_major in_minor set_in_minor
    in_nlink set_in_nlink in_size set_in_size in_addrs set_in_addrs f_type set_f_type f_ref
    set_f_ref f_readable set_f_readable f_writable set_f_writable f_pipe set_f_pipe f_ip
    set_f_ip f_off set_f_off f_major set_f_major pi_data set_pi_data pi_nread set_pi_nread
    pi_nwrite set_pi_nwrite pi_readopen set_pi_readopen pi_writeopen set_pi_writeopen
    cons_buf set_cons_buf cons_r set_cons_r cons_w set_cons_w cons_e set_cons_e u_tx_buf
    set_u_tx_buf u_tx_w set_u_tx_w u_tx_r set_u_tx_r u_in set_u_in u_out set_u_out u_idle
    set_u_idle k_core set_k_core k_procs set_k_procs k_nextpid set_k_nextpid k_initproc
    set_k_initproc k_mem set_k_mem k_freelist set_k_freelist k_slocks set_k_slocks k_disk
    set_k_disk k_writes set_k_writes k_bcache set_k_bcache k_log set_k_log k_vdisk
    set_k_vdisk k_mmio set_k_mmio k_sb set_k_sb k_inodes set_k_inodes k_files set_k_files
    k_devsw set_k_devsw k_pipes set_k_pipes k_kpt set_k_kpt k_ticks set_k_ticks k_cons
    set_k_cons k_uart set_k_uart k_panicked set_k_panicked k_first set_k_first k_locking
    set_k_locking k_started set_k_started k_csr set_k_csr ].

(** Close a goal in which every value is a variable.  The intermediate
    [assert] records the statement in the proof term, so that the
    kernel compares the two sides over variables. *)
Ltac kclose :=
  match goal with |- ?G => let H := fresh in assert (H : G) by reflexivity; exact H end.

(** Simplify the projections of an updated kernel state, and nothing else. *)
Ltac kproj_term p f v s :=
  let g := eval cbv beta delta [f] in f in
  let t := eval cbv beta in (g v s) in
  lazymatch t with
  | mkkstate _ _ _ _ _ _ _ _ _ _ _ _ _ _ _ _ _ _ _ _ _ _ _ _ _ _ _ =>
      let y := eval cbn [p] in (p t) in
      lazymatch y with context [mkkstate] => fail | _ => y end
  end.
Ltac kproj1 p :=
  match goal with
  | |- context [p (?f ?v ?s)] =>
      is_const f;
      let y := kproj_term p f v s in
      replace (p (f v s)) with y by (clear; generalize v; intro; generalize s; intro; kclose)
  end.
Ltac kproj := repeat first [ kproj1 k_core | kproj1 k_procs | kproj1 k_nextpid | kproj1 k_initproc | kproj1 k_mem |
    kproj1 k_freelist | kproj1 k_slocks | kproj1 k_disk | kproj1 k_writes | kproj1 k_bcache
    | kproj1 k_log | kproj1 k_vdisk | kproj1 k_mmio | kproj1 k_sb | kproj1 k_inodes | kproj1
    k_files | kproj1 k_devsw | kproj1 k_pipes | kproj1 k_kpt | kproj1 k_ticks | kproj1
    k_cons | kproj1 k_uart | kproj1 k_panicked | kproj1 k_first | kproj1 k_locking | kproj1
    k_started | kproj1 k_csr ].

(** Equality of two updates of the same state: the new field values are made
    variables first, so that no conversion ever looks inside them. *)
Ltac kabstract :=
  repeat match goal with
  | |- context [?f ?v ?s] =>
      is_const f;
      lazymatch type of (f v s) with
      | kstate =>
          let g := eval cbv beta delta [f] in f in
  let t := eval cbv beta in (g v s) in
          lazymatch t with mkkstate _ _ _ _ _ _ _ _ _ _ _ _ _ _ _ _ _ _ _ _ _ _ _ _ _ _ _ => idtac end;
          tryif is_var v then fail else generalize v; intro
      end
  end.
Ltac kstate_eq := kproj; kabstract; kclose.
Tactic Notation "krec" "in" hyp(H) := cbn [
c_proc set_c_proc c_noff set_c_noff c_intena set_c_intena hart set_hart intr set_intr
    cpus set_cpus spin set_spin p_state set_p_state p_chan set_p_chan p_killed set_p_killed
    p_xstate set_p_xstate p_pid set_p_pid p_parent set_p_parent p_kstack set_p_kstack p_sz
    set_p_sz p_pagetable set_p_pagetable p_trapframe set_p_trapframe p_context set_p_context
    p_ofile set_p_ofile p_cwd set_p_cwd p_name set_p_name b_valid set_b_valid b_disk
    set_b_disk b_dev set_b_dev b_blockno set_b_blockno b_refcnt set_b_refcnt b_prev
    set_b_prev b_next set_b_next b_data set_b_data bc_buf set_bc_buf bc_hprev set_bc_hprev
    bc_hnext set_bc_hnext d_addr set_d_addr d_len set_d_len d_flags set_d_flags d_next
    set_d_next r_type set_r_type r_reserved set_r_reserved r_sector set_r_sector i_b set_i_b
    i_status set_i_status v_desc set_v_desc v_avail_idx set_v_avail_idx v_avail_ring
    set_v_avail_ring v_dev_idx set_v_dev_idx v_dev_ring set_v_dev_ring v_free set_v_free
    v_used_idx set_v_used_idx v_info set_v_info v_ops set_v_ops log_start set_log_start
    log_size set_log_size log_outstanding set_log_outstanding log_committing
    set_log_committing log_dev set_log_dev lh_n set_lh_n lh_block set_lh_block sb_magic
    set_sb_magic sb_size set_sb_size sb_nblocks set_sb_nblocks sb_ninodes set_sb_ninodes
    sb_nlog set_sb_nlog sb_logstart set_sb_logstart sb_inodestart set_sb_inodestart
    sb_bmapstart set_sb_bmapstart in_dev set_in_dev in_inum set_in_inum in_ref set_in_ref
    in_valid set_in_valid in_type set_in_type in_major set_in_major in_minor set_in_minor
    in_nlink set_in_nlink in_size set_in_size in_addrs set_in_addrs f_type set_f_type f_ref
    set_f_ref f_readable set_f_readable f_writable set_f_writable f_pipe set_f_pipe f_ip
    set_f_ip f_off set_f_off f_major set_f_major pi_data set_pi_data pi_nread set_pi_nread
    pi_nwrite set_pi_nwrite pi_readopen set_pi_readopen pi_writeopen set_pi_writeopen
    cons_buf set_cons_buf cons_r set_cons_r cons_w set_cons_w cons_e set_cons_e u_tx_buf
    set_u_tx_buf u_tx_w set_u_tx_w u_tx_r set_u_tx_r u_in set_u_in u_out set_u_out u_idle
    set_u_idle k_core set_k_core k_procs set_k_procs k_nextpid set_k_nextpid k_initproc
    set_k_initproc k_mem set_k_mem k_freelist set_k_freelist k_slocks set_k_slocks k_disk
    set_k_disk k_writes set_k_writes k_bcache set_k_bcache k_log set_k_log k_vdisk
    set_k_vdisk k_mmio set_k_mmio k_sb set_k_sb k_inodes set_k_inodes k_files set_k_files
    k_devsw set_k_devsw k_pipes set_k_pipes k_kpt set_k_kpt k_ticks set_k_ticks k_cons
    set_k_cons k_uart set_k_uart k_panicked set_k_panicked k_first set_k_first k_locking
    set_k_locking k_started set_k_started k_csr set_k_csr ] in H.
