(* ===== verification/Spinlock.v ===== *)
(** kernel/spinlock.c: spin-locks and the nesting of interrupt disabling.

    The first part is the code as the rest of the kernel calls it. The
    predicate [ctx t L c] describes the processor state of a thread [t] that
    holds exactly the spin-locks [L] while nobody else holds any: it is what
    the other components' specifications are stated with.

    The second part, [Interleave], takes [acquire] and [release] apart into
    the memory accesses they make and lets any number of harts interleave
    them. *)

From S2P Require Import Prelude Mem KString Params Kernel.

(** * The code *)

Definition modify_core (f : core → core) : K unit := modify (λ s, set_k_core (f (k_core s)) s).

(** kernel/riscv.h *)
Definition intr_get : K bool := gets (λ s, intr (k_core s)).
Definition intr_on : K unit := modify_core (set_intr true).
Definition intr_off : K unit := modify_core (set_intr false).

(** kernel/proc.c; [r_tp()] holds the hart id. *)
Definition cpuid : K nat := gets (λ s, hart (k_core s)).
Definition mycpu : K cpu :=
  id <- cpuid ;;
  cs <- gets (λ s, cpus (k_core s)) ;;
  deref (cs !! id).
Definition set_mycpu (f : cpu → cpu) : K unit :=
  modify_core (λ c, set_cpus (alter f (hart c) (cpus c)) c).

Definition lock_of (c : core) (lk : lockid) : spinlock := default zero_spinlock (spin c !! lk).
Definition upd_lock (lk : lockid) (f : spinlock → spinlock) (c : core) : core :=
  set_spin (<[lk := f (lock_of c lk)]> (spin c)) c.

Definition initlock (lk : lockid) (name : string) : K unit :=
  modify_core (upd_lock lk (λ _, mkspin 0 name None)).

Definition push_off : K unit :=
  old <- intr_get ;;
  intr_off ;;;
  c <- mycpu ;;
  when (c_noff c =? 0) (set_mycpu (set_c_intena old)) ;;;
  set_mycpu (λ c, set_c_noff (c_noff c + 1) c).

Definition pop_off : K unit :=
  c <- mycpu ;;
  i <- intr_get ;;
  if i then panic "pop_off - interruptible" else
  if c_noff c <? 1 then panic "pop_off" else
  set_mycpu (λ c, set_c_noff (c_noff c - 1) c) ;;;
  c <- mycpu ;;
  when ((c_noff c =? 0) && c_intena c) intr_on.

Definition holding (lk : lockid) : K bool :=
  l <- gets (λ s, lock_of (k_core s) lk) ;;
  id <- cpuid ;;
  ret (negb (sl_locked l =? 0) && bool_decide (sl_cpu l = Some id)).

(** [while(__sync_lock_test_and_set(&lk->locked, 1) != 0);] with the other
    harts running between two attempts. *)
Definition test_and_set (lk : lockid) (s : kstate) : kstate :=
  set_k_core (upd_lock lk (λ l, mkspin 1 (sl_name l) (sl_cpu l)) (k_core s)) s.
Fixpoint spin_acquire (lk : lockid) (e : list (kstate → kstate)) (s : kstate) : outcome kstate unit :=
  let s' := test_and_set lk s in
  if sl_locked (lock_of (k_core s) lk) =? 0 then Ret tt e s'
  else match e with
       | [] => Blocked s'
       | f :: e' => spin_acquire lk e' (f s')
       end.

Definition acquire (lk : lockid) : K unit :=
  push_off ;;;
  h <- holding lk ;;
  if h then panic "acquire" else
  spin_acquire lk ;;;
  id <- cpuid ;;
  modify_core (upd_lock lk (λ l, mkspin (sl_locked l) (sl_name l) (Some id))).

Definition release (lk : lockid) : K unit :=
  h <- holding lk ;;
  if negb h then panic "release" else
  modify_core (upd_lock lk (λ l, mkspin (sl_locked l) (sl_name l) None)) ;;;
  modify_core (upd_lock lk (λ l, mkspin 0 (sl_name l) (sl_cpu l))) ;;;
  pop_off.

(** * Threads and the locks they hold *)

(** A thread of control: the hart it runs on, the process it runs, and
    whether interrupts are on when it holds no lock. *)
Record thread : Type := mkthread {
  t_hart : nat;
  t_proc : option nat;
  t_ie : bool
}.

Definition lock_free (l : spinlock) : Prop := sl_locked l = 0 ∧ sl_cpu l = None.
Definition lock_held (h : nat) (l : spinlock) : Prop := sl_locked l = 1 ∧ sl_cpu l = Some h.

Record ctx (t : thread) (L : list lockid) (c : core) : Prop := mkctx {
  ctx_hart : hart c = t_hart t;
  ctx_cpu : ∃ cp, cpus c !! hart c = Some cp ∧ c_proc cp = t_proc t ∧
              c_noff cp = Z.of_nat (length L) ∧
              (L = [] → intr c = t_ie t) ∧
              (L ≠ [] → intr c = false ∧ c_intena cp = t_ie t);
  ctx_nodup : NoDup L;
  ctx_held : ∀ lk, lk ∈ L → lock_held (hart c) (lock_of c lk);
  ctx_free : ∀ lk, lk ∉ L → lock_free (lock_of c lk)
}.

Lemma lock_of_upd lk f c lk' :
  lock_of (upd_lock lk f c) lk' = if decide (lk = lk') then f (lock_of c lk) else lock_of c lk'.
Proof. unfold lock_of at 1, upd_lock. cbn. rewrite lookup_insert. by case_decide; simplify_eq. Qed.

Lemma lock_of_set_cpus v c lk : lock_of (set_cpus v c) lk = lock_of c lk.
Proof. done. Qed.
Lemma lock_of_set_intr v c lk : lock_of (set_intr v c) lk = lock_of c lk.
Proof. done. Qed.

Lemma ctx_perm t L L' c : L ≡ₚ L' → ctx t L c → ctx t L' c.
Proof.
  intros HL [H1 (cp & H2 & H3 & H4 & H5 & H6) H7 H8 H9]. split; try done.
  - exists cp. rewrite <-(Permutation_length HL). split_and!; try done.
    + intros ->. apply Permutation_nil_r in HL as ->. auto.
    + intros Hne. apply H6. intros ->. by apply Permutation_nil_l in HL.
  - by rewrite <-HL.
  - intros lk. rewrite <-HL. apply H8.
  - intros lk. rewrite <-HL. apply H9.
Qed.

#[export] Instance ctx_proper t : Proper ((≡ₚ) ==> (=) ==> iff) (ctx t).
Proof. intros L L' HL c ? <-. split; apply ctx_perm; [done|by symmetry]. Qed.

(** The processor state after [push_off] and after [pop_off]. *)
Definition cpu_push (i : bool) (cp : cpu) : cpu :=
  mkcpu (c_proc cp) (c_noff cp + 1) (if c_noff cp =? 0 then i else c_intena cp).
Definition core_push (c : core) : core :=
  set_cpus (alter (cpu_push (intr c)) (hart c) (cpus c)) (set_intr false c).
Definition core_pop (cp : cpu) (c : core) : core :=
  set_intr ((c_noff cp =? 1) && c_intena cp)
    (set_cpus (alter (λ cp, set_c_noff (c_noff cp - 1) cp) (hart c) (cpus c)) c).

Lemma push_off_run cp e s :
  cpus (k_core s) !! hart (k_core s) = Some cp →
  push_off e s = Ret tt e (set_k_core (core_push (k_core s)) s).
Proof.
  intros Hcp. destruct s as [[h i cs sp]]. cbn in Hcp.
  cbv [push_off bind intr_get intr_off mycpu cpuid gets modify_core modify deref]. cbn.
  rewrite Hcp. cbn. unfold core_push. cbn.
  destruct (c_noff cp =? 0) eqn:Hn; cbv [set_mycpu modify_core modify when ret]; krec;
    rewrite ?list_alter_alter_eq.
  all: erewrite list_alter_ext; [reflexivity| |reflexivity].
  all: intros x Hx; simplify_eq; unfold cpu_push; cbn; by rewrite Hn.
Qed.

Lemma pop_off_run cp e s :
  cpus (k_core s) !! hart (k_core s) = Some cp → intr (k_core s) = false → 1 ≤ c_noff cp →
  pop_off e s = Ret tt e (set_k_core (core_pop cp (k_core s)) s).
Proof.
  intros Hcp Hi Hn. destruct s as [[h i cs sp]]. cbn in *. subst i.
  cbv [pop_off bind intr_get intr_on mycpu cpuid gets modify_core modify deref]. cbn.
  rewrite Hcp. cbn. destruct (Z.ltb_spec (c_noff cp) 1); [lia|]. cbn.
  rewrite list_lookup_alter, Hcp, decide_True by done. cbn. unfold core_pop. cbn.
  replace (c_noff cp - 1 =? 0) with (c_noff cp =? 1) by lia.
  by destruct ((c_noff cp =? 1) && c_intena cp).
Qed.

Lemma ctx_push t L c :
  ctx t L c → ∃ cp, cpus (core_push c) !! hart c = Some cp ∧ c_proc cp = t_proc t ∧
    c_noff cp = Z.of_nat (length L) + 1 ∧ c_intena cp = t_ie t.
Proof.
  intros [H1 (cp & H2 & H3 & H4 & H5 & H6) H7 H8 H9]. exists (cpu_push (intr c) cp).
  split_and!; cbn; try done; [|lia|].
  - by rewrite list_lookup_alter, decide_True, H2 by done.
  - destruct L as [|lk L]; cbn in H4; rewrite H4; cbn; [auto|].
    destruct (Z.eqb_spec (Z.pos (Pos.of_succ_nat (length L))) 0); [lia|]. by apply H6.
Qed.

Lemma upd_lock_upd lk f g c : upd_lock lk f (upd_lock lk g c) = upd_lock lk (f ∘ g) c.
Proof.
  unfold upd_lock at 1. rewrite lock_of_upd, decide_True by done.
  unfold upd_lock, set_spin. cbn. f_equal. apply insert_insert_eq.
Qed.

Definition core_acq (lk : lockid) (c : core) : core :=
  upd_lock lk (λ l, mkspin 1 (sl_name l) (Some (hart c))) (core_push c).
Definition core_rel (lk : lockid) (cp : cpu) (c : core) : core :=
  core_pop cp (upd_lock lk (λ l, mkspin 0 (sl_name l) None) c).

Lemma acquire_run lk cp e s :
  cpus (k_core s) !! hart (k_core s) = Some cp → lock_free (lock_of (k_core s) lk) →
  acquire lk e s = Ret tt e (set_k_core (core_acq lk (k_core s)) s).
Proof.
  intros Hcp [Hl Hc]. unfold acquire. erewrite bind_Ret by exact (push_off_run cp e s Hcp).
  assert (Hl' : lock_of (core_push (k_core s)) lk = lock_of (k_core s) lk) by done.
  cbv [holding bind gets cpuid ret]. cbn [k_core set_k_core]. rewrite Hl', Hl. cbn [negb Z.eqb andb].
  destruct e as [|f e]; cbn [spin_acquire k_core set_k_core]; rewrite Hl', Hl; cbn [Z.eqb];
    cbv [modify_core modify test_and_set]; cbn [k_core set_k_core]; rewrite upd_lock_upd; done.
Qed.

Lemma release_run lk cp e s :
  cpus (k_core s) !! hart (k_core s) = Some cp → lock_held (hart (k_core s)) (lock_of (k_core s) lk) →
  intr (k_core s) = false → 1 ≤ c_noff cp →
  release lk e s = Ret tt e (set_k_core (core_rel lk cp (k_core s)) s).
Proof.
  intros Hcp [Hl Hc] Hi Hn. cbv [release holding bind gets cpuid ret modify_core modify].
  rewrite Hl, Hc, bool_decide_eq_true_2 by done. cbn [negb Z.eqb andb]. cbn [k_core set_k_core].
  rewrite upd_lock_upd. erewrite pop_off_run by done. done.
Qed.

Lemma ctx_acq t L lk c : ctx t L c → lk ∉ L → ctx t (lk :: L) (core_acq lk c).
Proof.
  intros H Hlk. pose proof (ctx_push _ _ _ H) as (cp' & Hcp' & Hp & Hn & Hi).
  destruct H as [H1 _ H7 H8 H9]. split; [done| |by constructor| |].
  - exists cp'. split_and!; [done|done|rewrite Hn; cbn [length]; lia|done|done].
  - intros lk' Hin. unfold core_acq. rewrite lock_of_upd. case_decide; [done|].
    apply H8. by apply elem_of_cons in Hin as [->|].
  - intros lk' Hin. unfold core_acq. rewrite lock_of_upd.
    apply not_elem_of_cons in Hin as [? ?]. rewrite decide_False by done. by apply H9.
Qed.

Lemma lock_of_rel lk cp c lk' :
  lock_of (core_rel lk cp c) lk' =
  if decide (lk = lk') then mkspin 0 (sl_name (lock_of c lk)) None else lock_of c lk'.
Proof.
  change (lock_of (core_rel lk cp c) lk') with
    (lock_of (upd_lock lk (λ l, mkspin 0 (sl_name l) None) c) lk').
  apply lock_of_upd.
Qed.

Lemma ctx_rel t L lk cp c :
  ctx t (lk :: L) c → cpus c !! hart c = Some cp → ctx t L (core_rel lk cp c).
Proof.
  intros [H1 (cp' & H2 & H3 & H4 & H5 & H6) H7 H8 H9] Hcp.
  assert (cp' = cp) as -> by congruence.
  apply NoDup_cons in H7 as [Hlk H7]. destruct (H6 ltac:(done)) as [Hi Hie].
  split; [done| |done| |].
  - exists (set_c_noff (c_noff cp - 1) cp). split_and!; try done.
    + unfold core_rel, core_pop. cbn. by rewrite list_lookup_alter, decide_True, H2 by done.
    + cbn. cbn [length] in H4. lia.
    + intros ->. cbn. rewrite H4, Hie. done.
    + intros HL. split; [|done]. cbn. rewrite H4. destruct L; [done|]. cbn [length].
      destruct (Z.eqb_spec (Z.of_nat (S (S (length L)))) 1); [lia|done].
  - intros lk' Hin. rewrite lock_of_rel, decide_False by (by intros ->).
    apply H8. by constructor.
  - intros lk' Hin. rewrite lock_of_rel. case_decide; [done|].
    apply H9. apply not_elem_of_cons. by split.
Qed.

(** ** The specifications the other components use *)

Lemma acquire_ok t L lk e s :
  ctx t L (k_core s) → lk ∉ L →
  ∃ c, acquire lk e s = Ret tt e (set_k_core c s) ∧ ctx t (lk :: L) c.
Proof.
  intros H Hlk. destruct (ctx_cpu _ _ _ H) as (cp & Hcp & _).
  eexists. split; [eapply acquire_run; [done|]|by apply ctx_acq].
  by apply (ctx_free _ _ _ H).
Qed.

Lemma release_ok t L L' lk e s :
  ctx t L (k_core s) → L ≡ₚ lk :: L' →
  ∃ c, release lk e s = Ret tt e (set_k_core c s) ∧ ctx t L' c.
Proof.
  intros H HL. rewrite HL in H.
  destruct (ctx_cpu _ _ _ H) as (cp & Hcp & _ & Hn & _ & Hi).
  destruct (Hi ltac:(done)) as [Hi' _].
  eexists. split; [eapply release_run; [done| |done|]|by eapply ctx_rel].
  - apply (ctx_held _ _ _ H). constructor.
  - rewrite Hn. cbn. lia.
Qed.

(** Run the [acquire] or [release] at the head of the goal, in a context [H]
    found among the hypotheses; the new one is [Hc], with core [c]. *)
Ltac kacquire c Hc :=
  match goal with
  | H : ctx ?t ?L _ |- context [bind (acquire ?lk) _ ?e ?S] =>
      let Hr := fresh in
      destruct (acquire_ok t L lk e S) as (c & Hr & Hc); [exact H|try done|mrun Hr; clear Hr]
  end.
Ltac krelease c Hc :=
  match goal with
  | H : ctx ?t (?lk :: ?L) _ |- context [bind (release ?lk) _ ?e ?S] =>
      let Hr := fresh in
      destruct (release_ok t (lk :: L) L lk e S) as (c & Hr & Hc);
        [exact H|done|mrun Hr; clear Hr]
  | H : ctx ?t (?lk :: ?L) _ |- context [release ?lk ?e ?S] =>
      let Hr := fresh in
      destruct (release_ok t (lk :: L) L lk e S) as (c & Hr & Hc); [exact H|done|rewrite Hr; clear Hr]
  end.

(** Initialising a lock that is not held keeps it free. *)
Lemma initlock_ctx t L lk name c :
  ctx t L c → lk ∉ L → ctx t L (upd_lock lk (λ _, mkspin 0 name None) c).
Proof.
  intros [H1 H2 H3 H4 H5] Hlk. split; [done|done|done|intros lk' Hin..]; rewrite lock_of_upd.
  - rewrite decide_False by (by intros ->). by apply H4.
  - case_decide; [done|by apply H5].
Qed.

(** Taking a lock twice, or releasing one that is not held, panics. *)
Lemma acquire_twice t L lk e s :
  ctx t L (k_core s) → lk ∈ L → ∃ c, acquire lk e s = Panic "acquire" (set_k_core c s).
Proof.
  intros H Hlk. destruct (ctx_cpu _ _ _ H) as (cp & Hcp & _).
  destruct (ctx_held _ _ _ H lk Hlk) as [Hl Hc].
  unfold acquire. erewrite bind_Ret by exact (push_off_run cp e s Hcp).
  assert (Hl' : lock_of (core_push (k_core s)) lk = lock_of (k_core s) lk) by done.
  cbv [holding bind gets cpuid ret]. cbn [k_core set_k_core].
  rewrite Hl', Hl, Hc, bool_decide_eq_true_2 by done. cbn. eauto.
Qed.

Lemma release_not_held t L lk e s :
  ctx t L (k_core s) → lk ∉ L → release lk e s = Panic "release" s.
Proof.
  intros H Hlk. destruct (ctx_free _ _ _ H lk Hlk) as [Hl Hc].
  cbv [release holding bind gets cpuid ret]. by rewrite Hl.
Qed.

(** ** Any sequence of lock operations *)

Inductive lock_op : Type :=
| Acq (lk : lockid)
| Rel (lk : lockid).

Definition run_op (op : lock_op) : K unit :=
  match op with Acq lk => acquire lk | Rel lk => release lk end.
Fixpoint run_ops (ops : list lock_op) : K unit :=
  match ops with [] => ret tt | op :: ops' => run_op op ;;; run_ops ops' end.

Definition remove_lock (lk : lockid) (L : list lockid) : list lockid := filter (λ x, x ≠ lk) L.

(** The locks held after [ops], or the panic message of the first misuse. *)
Fixpoint held_after (L : list lockid) (ops : list lock_op) : string + list lockid :=
  match ops with
  | [] => inr L
  | Acq lk :: ops' => if decide (lk ∈ L) then inl "acquire"%string else held_after (lk :: L) ops'
  | Rel lk :: ops' =>
      if decide (lk ∈ L) then held_after (remove_lock lk L) ops' else inl "release"%string
  end.

Lemma remove_lock_perm lk L : NoDup L → lk ∈ L → L ≡ₚ lk :: remove_lock lk L.
Proof.
  intros Hnd. induction Hnd as [|x L Hx Hnd IH]; intros Hin; [by apply elem_of_nil in Hin|].
  unfold remove_lock in *. rewrite filter_cons. destruct (decide (x = lk)) as [->|Hne].
  - rewrite decide_False by auto. f_equiv. clear IH Hin Hnd.
    induction L as [|y L IH]; [done|]. apply not_elem_of_cons in Hx as [Hy HL].
    rewrite filter_cons, decide_True by auto. f_equiv. auto.
  - rewrite decide_True by done. apply elem_of_cons in Hin as [->|Hin]; [done|].
    rewrite Permutation_swap. f_equiv. auto.
Qed.

(** C20: Interrupt nesting and lock discipline: starting from a state in which the
    thread holds the locks [L], a sequence of [acquire]s and [release]s ends
    holding exactly the locks it has taken and not given back, with
    interrupts on again only if no lock is left (and they were on before);
    the first attempt to take a lock twice or to release one that is not held
    panics with the corresponding message. Nothing but the processor state
    changes. *)
Theorem lock_discipline t L ops e s :
  ctx t L (k_core s) →
  match held_after L ops with
  | inr L' => ∃ c, run_ops ops e s = Ret tt e (set_k_core c s) ∧ ctx t L' c ∧
                intr c = (bool_decide (L' = []) && t_ie t)
  | inl msg => ∃ c, run_ops ops e s = Panic msg (set_k_core c s)
  end.
Proof.
  revert L s. induction ops as [|[lk|lk] ops IH]; intros L s H; cbn [held_after run_ops run_op].
  - exists (k_core s). split_and!; [by destruct s|done|].
    destruct (ctx_cpu _ _ _ H) as (cp & _ & _ & _ & Hi & Hi').
    case_bool_decide; cbn [andb]; [auto|]. by destruct Hi'.
  - case_decide as Hin.
    + destruct (acquire_twice _ _ _ e _ H Hin) as [c Hc]. exists c. by apply bind_Panic.
    + destruct (acquire_ok _ _ lk e _ H Hin) as (c & Hc & Hctx).
      specialize (IH (lk :: L) (set_k_core c s) Hctx).
      destruct (held_after (lk :: L) ops); destruct IH as [c' Hc']; exists c';
        by rewrite (bind_Ret _ _ _ _ _ _ _ Hc).
  - case_decide as Hin.
    + pose proof (remove_lock_perm lk L (ctx_nodup _ _ _ H) Hin) as HL.
      destruct (release_ok _ _ _ lk e _ H HL) as (c & Hc & Hctx).
      specialize (IH _ (set_k_core c s) Hctx).
      destruct (held_after (remove_lock lk L) ops); destruct IH as [c' Hc']; exists c';
        by rewrite (bind_Ret _ _ _ _ _ _ _ Hc).
    + exists (k_core s). erewrite bind_Panic by (by eapply release_not_held). by destruct s.
Qed.

Lemma zero_ctx ie : ctx (mkthread 0 None ie) [] (zero_core 0 ie).
Proof.
  split; try done.
  - exists zero_cpu. by split_and!.
  - constructor.
  - intros lk H. by apply elem_of_nil in H.
Qed.

Lemma lock_discipline_witness :
  ∃ c, run_ops [Acq L_kmem; Acq L_log; Rel L_kmem; Rel L_log] [] (zero_kstate true)
       = Ret tt [] (set_k_core c (zero_kstate true)) ∧ intr c = true.
Proof.
  destruct (lock_discipline (mkthread 0 None true) []
    [Acq L_kmem; Acq L_log; Rel L_kmem; Rel L_log] [] (zero_kstate true) (zero_ctx true))
    as (c & Hrun & _ & Hi).
  exists c. by split.
Defined.

(** * Mutual exclusion between harts *)

Module Interleave.

(** Where a hart is in [acquire] or [release]: before each of their accesses
    to the lock. [Dead] is a panic. *)
Inductive pc : Type :=
| Out      (* not using the lock *)
| AChk1    (* acquire: holding() reads lk->locked *)
| AChk2    (* acquire: holding() reads lk->cpu *)
| ATas     (* acquire: the atomic swap *)
| ASet     (* acquire: lk->cpu = mycpu() *)
| Crit     (* acquire returned *)
| RChk1    (* release: holding() reads lk->locked *)
| RChk2    (* release: holding() reads lk->cpu *)
| RClr     (* release: lk->cpu = 0 *)
| RUnl     (* release: the atomic clear *)
| Dead.

(** The next access of hart [h]. *)
Definition hart_step (h : nat) (p : pc) (l : spinlock) : option (pc * spinlock) :=
  match p with
  | Out => Some (AChk1, l)
  | AChk1 => Some (if sl_locked l =? 0 then ATas else AChk2, l)
  | AChk2 => Some (if bool_decide (sl_cpu l = Some h) then Dead else ATas, l)
  | ATas => Some (if sl_locked l =? 0 then ASet else ATas, mkspin 1 (sl_name l) (sl_cpu l))
  | ASet => Some (Crit, mkspin (sl_locked l) (sl_name l) (Some h))
  | Crit => Some (RChk1, l)
  | RChk1 => Some (if sl_locked l =? 0 then Dead else RChk2, l)
  | RChk2 => Some (if bool_decide (sl_cpu l = Some h) then RClr else Dead, l)
  | RClr => Some (RUnl, mkspin (sl_locked l) (sl_name l) None)
  | RUnl => Some (Out, mkspin 0 (sl_name l) (sl_cpu l))
  | Dead => None
  end.

Record sys : Type := mksys { lock : spinlock; pcs : nat → pc }.

Inductive step : sys → sys → Prop :=
| step_hart s h p l :
    hart_step h (pcs s h) (lock s) = Some (p, l) →
    step s (mksys l (<[h := p]> (pcs s))).

Definition init (name : string) : sys := mksys (mkspin 0 name None) (λ _, Out).

(** The hart is past the swap that gave it the lock, and has not cleared it. *)
Definition owner (p : pc) : bool :=
  match p with ASet | Crit | RChk1 | RChk2 | RClr | RUnl => true | _ => false end.
(** The hart's id is in [lk->cpu]. *)
Definition recorded (p : pc) : bool :=
  match p with Crit | RChk1 | RChk2 | RClr => true | _ => false end.

Record inv (s : sys) : Prop := {
  inv_one : ∀ h1 h2, owner (pcs s h1) = true → owner (pcs s h2) = true → h1 = h2;
  inv_range : sl_locked (lock s) = 0 ∨ sl_locked (lock s) = 1;
  inv_locked : sl_locked (lock s) ≠ 0 ↔ ∃ h, owner (pcs s h) = true;
  inv_cpu : ∀ h, sl_cpu (lock s) = Some h ↔ recorded (pcs s h) = true;
  inv_live : ∀ h, pcs s h ≠ Dead
}.

Lemma insert_pc h p (ps : nat → pc) h' :
  (<[h := p]> ps) h' = if decide (h = h') then p else ps h'.
Proof. done. Qed.

(** A step that leaves the hart's claim on the lock, and the lock, as they were. *)
Lemma inv_local l ps h p :
  inv (mksys l ps) → p ≠ Dead →
  owner p = owner (ps h) → recorded p = recorded (ps h) → inv (mksys l (<[h := p]> ps)).
Proof.
  intros [H1 H0 H2 H3 H4] Hd Ho Hr; cbn in *.
  assert (Ho' : ∀ h', owner ((<[h := p]> ps) h') = owner (ps h')).
  { intros h'. rewrite insert_pc. by case_decide; simplify_eq. }
  assert (Hr' : ∀ h', recorded ((<[h := p]> ps) h') = recorded (ps h')).
  { intros h'. rewrite insert_pc. by case_decide; simplify_eq. }
  split; cbn; [|done|..].
  - intros h1 h2. rewrite !Ho'. apply H1.
  - rewrite H2. by setoid_rewrite Ho'.
  - intros h'. by rewrite Hr'.
  - intros h'. rewrite insert_pc. case_decide; auto.
Qed.

Lemma inv_step s s' : inv s → step s s' → inv s'.
Proof.
  intros Hinv Hst. destruct Hst as [[l0 ps] h p l Hst]. cbn in Hst.
  pose proof Hinv as [H1 H0 H2 H3 H4]. cbn in *.
  pose proof (H1 h) as Hone. pose proof (H3 h) as Hcpu.
  destruct (ps h) eqn:Hp; cbn in Hst; simplify_eq; cbn in *.
  - (* Out *) apply inv_local; by rewrite ?Hp.
  - (* AChk1 *) destruct (_ =? _); apply inv_local; by rewrite ?Hp.
  - (* AChk2 *) rewrite bool_decide_eq_false_2 by (by intros ?%Hcpu). apply inv_local; by rewrite ?Hp.
  - (* ATas *)
    destruct (Z.eqb_spec (sl_locked l0) 0) as [Hz|Hz].
    + assert (Hno : ∀ h', owner (ps h') = false).
      { intros h'. destruct (owner (ps h')) eqn:?; [|done].
        by destruct (proj2 H2 ltac:(by exists h')). }
      split; cbn; [|auto|..].
      * intros h1 h2. rewrite !insert_pc. repeat case_decide; rewrite ?Hno; congruence.
      * split; [|done]. intros _. exists h. by rewrite insert_pc, decide_True.
      * intros h'. rewrite insert_pc, H3. case_decide; [|done]. subst. by rewrite Hp.
      * intros h'. rewrite insert_pc. case_decide; auto.
    + assert (Hl : inv (mksys (mkspin 1 (sl_name l0) (sl_cpu l0)) ps)).
      { split; cbn; auto. split; [|done]. intros _. by apply H2. }
      apply inv_local; by rewrite ?Hp.
  - (* ASet *)
    assert (Hno : ∀ h', recorded (ps h') = false ∨ h' = h).
    { intros h'. destruct (recorded (ps h')) eqn:?; [|by left]. right. symmetry.
      apply Hone; [done|]. by destruct (ps h'). }
    split; cbn; [|auto|..].
    + intros h1 h2. rewrite !insert_pc. repeat case_decide; subst; try done.
      * intros _ Ho. by apply Hone.
      * intros Ho _. symmetry. by apply Hone.
      * apply H1.
    + rewrite H2. split; intros [h' Hh']; exists h'; revert Hh'; rewrite insert_pc;
        case_decide; subst; rewrite ?Hp; done.
    + intros h'. rewrite insert_pc. case_decide as Hd; [by subst|].
      destruct (Hno h') as [Hf|Hf]; [rewrite Hf|congruence]. split; congruence.
    + intros h'. rewrite insert_pc. case_decide; auto.
  - (* Crit *) apply inv_local; by rewrite ?Hp.
  - (* RChk1 *)
    destruct (Z.eqb_spec (sl_locked l) 0) as [Hz|Hz]; [by destruct (proj2 H2 ltac:(exists h; by rewrite Hp))|].
    apply inv_local; by rewrite ?Hp.
  - (* RChk2 *) rewrite bool_decide_eq_true_2 by (by apply Hcpu). apply inv_local; by rewrite ?Hp.
  - (* RClr *)
    split; cbn; [|auto|..].
    + intros h1 h2. rewrite !insert_pc. repeat case_decide; subst; try done.
      * intros _ Ho. by apply Hone.
      * intros Ho _. symmetry. by apply Hone.
      * apply H1.
    + rewrite H2. split; intros [h' Hh']; exists h'; revert Hh'; rewrite insert_pc;
        case_decide; subst; rewrite ?Hp; done.
    + intros h'. rewrite insert_pc. case_decide as Hd; [by subst|].
      split; [done|]. intros Hr%H3. pose proof (proj2 Hcpu eq_refl). congruence.
    + intros h'. rewrite insert_pc. case_decide; auto.
  - (* RUnl *)
    assert (Hno : ∀ h', owner (ps h') = true → h' = h) by (symmetry; auto).
    split; cbn; [|auto|..].
    + intros h1 h2. rewrite !insert_pc. repeat case_decide; subst; try done.
      intros ?%Hno ?. congruence.
    + split; [done|]. intros [h' Hh']. revert Hh'. rewrite insert_pc.
      case_decide; [by subst|]. by intros ->%Hno.
    + intros h'. rewrite insert_pc, H3. case_decide; [|done]. subst. by rewrite Hp.
    + intros h'. rewrite insert_pc. case_decide; auto.
Qed.

Lemma inv_init name : inv (init name).
Proof. split; cbn; try done; [by left|]. split; [done|]. by intros [? ?]. Qed.

Lemma inv_reachable name s : rtc step (init name) s → inv s.
Proof.
  intros H. remember (init name) as s0 eqn:Hs0.
  assert (Hi : inv s0) by (subst; apply inv_init). clear Hs0.
  induction H as [|s1 s2 s3 Hst _ IH]; [done|]. apply IH. by eapply inv_step.
Qed.

End Interleave.

(** C21: Mutual exclusion: however the harts' accesses to a spin-lock interleave, two
    harts are never between the return of [acquire] and the clearing of the
    lock in [release] at the same time; the lock records the hart that has
    it; and none of the panics in [acquire] and [release] is reached by harts
    that use them in turn. *)
Theorem spinlock_mutex name s h1 h2 :
  rtc Interleave.step (Interleave.init name) s →
  (Interleave.owner (Interleave.pcs s h1) = true →
   Interleave.owner (Interleave.pcs s h2) = true → h1 = h2) ∧
  (Interleave.pcs s h1 = Interleave.Crit → lock_held h1 (Interleave.lock s)) ∧
  Interleave.pcs s h1 ≠ Interleave.Dead.
Proof.
  intros Hr. destruct (Interleave.inv_reachable _ _ Hr) as [H1 H0 H2 H3 H4].
  split_and!; [auto| |auto]. intros Hc. split.
  - assert (sl_locked (Interleave.lock s) ≠ 0); [|naive_solver].
    apply H2. exists h1. by rewrite Hc.
  - apply H3. by rewrite Hc.
Qed.

Lemma spinlock_mutex_witness :
  Interleave.pcs (Interleave.mksys (mkspin 1 "l" None)
    (<[1%nat := Interleave.ASet]> (<[1%nat := Interleave.ATas]> (<[1%nat := Interleave.AChk1]>
      (λ _, Interleave.Out))))) 1 ≠ Interleave.Dead.
Proof.
  apply (spinlock_mutex "l" _ 1%nat 1%nat).
  do 3 (eapply rtc_l; [by apply (Interleave.step_hart _ 1%nat)|]). apply rtc_refl.
Defined.
