(* ===== verification/Kalloc.v ===== *)
(** kernel/kalloc.c: the physical page allocator.

    Free pages form a linked list threaded through their own first word. The
    representation predicate [is_freelist] relates the list in memory to the
    list of page addresses; [kmem_inv] is the allocator's invariant. The
    specifications [kalloc_ok], [kalloc_empty] and [kfree_ok] are what the
    rest of the kernel uses. *)

From S2P Require Import Prelude Mem KString Params Kernel Spinlock.

(** Addresses the linker script (kernel/kernel.ld) provides. *)
Class Linker : Type := mkLinker {
  kend : Z;
  etext : Z;
  trampoline : Z;
  (* entry points *)
  forkret_pc : Z;
  usertrap_pc : Z;
  kernelvec : Z;
  uservec : Z;
  userret : Z;
  timervec : Z;
  main_pc : Z;
  (* data *)
  stack0 : Z;
  timer_scratch : Z;
  disk_pages : Z
}.

(** The kernel image ends inside RAM. *)
Class LinkerOk (lnk : Linker) : Prop := {
  kend_low : KERNBASE ≤ kend;
  kend_high : kend ≤ PHYSTOP
}.

Section kalloc.
Context {lnk : Linker}.

Definition kfree (pa : Z) : K unit :=
  if negb (pa mod PGSIZE =? 0) || (pa <? kend) || (PHYSTOP <=? pa)
  then panic "kfree" else
  (* Fill with junk to catch dangling refs. *)
  modify (λ s, set_k_mem (memset (k_mem s) pa 1 PGSIZE) s) ;;;
  acquire L_kmem ;;;
  modify (λ s, set_k_mem (st64 (k_mem s) pa (k_freelist s)) s) ;;;
  modify (set_k_freelist pa) ;;;
  release L_kmem.

Definition kalloc : K Z :=
  acquire L_kmem ;;;
  r <- gets k_freelist ;;
  when (negb (r =? 0)) (modify (λ s, set_k_freelist (ld64 (k_mem s) r) s)) ;;;
  release L_kmem ;;;
  when (negb (r =? 0)) (modify (λ s, set_k_mem (memset (k_mem s) r 5 PGSIZE) s)) ;;;
  ret r.

Definition freerange (pa_start pa_end : Z) : K unit :=
  loop (λ p,
    if p + PGSIZE <=? pa_end
    then kfree p ;;; ret (inl (p + PGSIZE))
    else ret (inr tt)) (PGROUNDUP pa_start).

Definition kinit : K unit :=
  initlock L_kmem "kmem" ;;;
  freerange kend PHYSTOP.

(** * Invariant *)

Definition page_ok (p : Z) : Prop := p mod PGSIZE = 0 ∧ kend ≤ p < PHYSTOP.

Fixpoint is_freelist (m : mem) (r : Z) (l : list Z) : Prop :=
  match l with
  | [] => r = 0
  | p :: l' => r = p ∧ is_freelist m (ld64 m p) l'
  end.

Record kmem_inv (m : mem) (head : Z) (l : list Z) : Prop := {
  kmem_list : is_freelist m head l;
  kmem_nodup : NoDup l;
  kmem_pages : Forall page_ok l
}.

Context {lnk_ok : LinkerOk lnk}.

Lemma page_ok_pos p : page_ok p → 0 < p ∧ p + PGSIZE ≤ PHYSTOP.
Proof.
  pose proof kend_low. unfold page_ok, KERNBASE, PHYSTOP, PGSIZE, KERNBASE in *.
  intros [Hal Hr]. pose proof (Z_div_mod_eq_full p 4096). lia.
Qed.

(** Distinct pages do not overlap. *)
Lemma pages_apart p q : page_ok p → page_ok q → p ≠ q → p + PGSIZE ≤ q ∨ q + PGSIZE ≤ p.
Proof.
  intros [Hp _] [Hq _] Hne. unfold PGSIZE in *.
  pose proof (Z_div_mod_eq_full p 4096). pose proof (Z_div_mod_eq_full q 4096). lia.
Qed.

Lemma is_freelist_ext m m' r l :
  (∀ p x, p ∈ l → p ≤ x < p + 8 → ldb m x = ldb m' x) → is_freelist m r l → is_freelist m' r l.
Proof.
  revert r. induction l as [|p l IH]; intros r Hext; [done|]. intros [-> Hl]. split; [done|].
  rewrite <-(ld64_ext m m') by (intros; apply (Hext p); [constructor|done]).
  apply IH; [|done]. intros q x Hq. apply Hext. by constructor.
Qed.

(** Writing inside a page that is not free leaves the free list alone. *)
Lemma kmem_inv_write m m' head l p :
  page_ok p → p ∉ l →
  (∀ x, x < p ∨ p + PGSIZE ≤ x → ldb m' x = ldb m x) →
  kmem_inv m head l → kmem_inv m' head l.
Proof.
  intros Hp Hnin Hext [H1 H2 H3]. split; [|done|done].
  eapply is_freelist_ext; [|exact H1]. intros q x Hq Hx. symmetry. apply Hext.
  rewrite Forall_forall in H3. destruct (pages_apart p q Hp (H3 q Hq)).
  - by intros ->.
  - unfold PGSIZE in *. lia.
  - unfold PGSIZE in *. lia.
Qed.

Lemma kmem_head_range m head l : kmem_inv m head l → 0 ≤ head < 2 ^ 64.
Proof.
  intros [H1 _ H3]. destruct l as [|p l]; cbn in H1; [lia|]. destruct H1 as [-> _].
  apply Forall_cons in H3 as [Hp _]. apply page_ok_pos in Hp.
  unfold PHYSTOP, KERNBASE, PGSIZE in *. lia.
Qed.

(** * Specifications *)

Definition kfree_mem (m : mem) (head pa : Z) : mem := st64 (memset m pa 1 PGSIZE) pa head.

Lemma ldb_kfree_mem m head pa x :
  x < pa ∨ pa + PGSIZE ≤ x → ldb (kfree_mem m head pa) x = ldb m x.
Proof.
  intros Hx. unfold kfree_mem, PGSIZE in *. rewrite ldb_st64_ne by lia.
  by rewrite ldb_memset, decide_False by lia.
Qed.

Lemma kfree_inv m head l pa :
  kmem_inv m head l → page_ok pa → pa ∉ l → kmem_inv (kfree_mem m head pa) pa (pa :: l).
Proof.
  intros H Hp Hnin. pose proof (kmem_head_range _ _ _ H) as Hr.
  destruct (kmem_inv_write m (kfree_mem m head pa) head l pa Hp Hnin) as [H1 H2 H3]; [|done|].
  { apply ldb_kfree_mem. }
  split; [|by constructor|by constructor].
  split; [done|]. unfold kfree_mem at 2. rewrite ld64_st64_eq. unfold u64.
  by rewrite Z.mod_small by done.
Qed.

Lemma kfree_ok t L l pa e s :
  ctx t L (k_core s) → L_kmem ∉ L →
  kmem_inv (k_mem s) (k_freelist s) l → page_ok pa → pa ∉ l →
  ∃ c, kfree pa e s =
         Ret tt e (set_k_core c (set_k_freelist pa
           (set_k_mem (kfree_mem (k_mem s) (k_freelist s) pa) s))) ∧
       ctx t L c.
Proof.
  intros Hc HL Hinv Hp Hnin. unfold kfree.
  replace (_ || _ || _) with false.
  2: { destruct Hp as [-> [Hlo Hhi]].
       destruct (Z.ltb_spec pa kend); [lia|]. destruct (Z.leb_spec PHYSTOP pa); [lia|done]. }
  mstep. kacquire c1 Hc1. mstep. krelease c2 Hc2.
  exists c2. split; [unfold kfree_mem; kstate_eq|done].
Qed.

Lemma kalloc_ok t L l p e s :
  ctx t L (k_core s) → L_kmem ∉ L →
  kmem_inv (k_mem s) (k_freelist s) (p :: l) →
  ∃ c m h, kalloc e s = Ret p e (set_k_core c (set_k_freelist h (set_k_mem m s))) ∧
    ctx t L c ∧ kmem_inv m h l ∧ m = memset (k_mem s) p 5 PGSIZE ∧ page_ok p ∧ p ∉ l.
Proof.
  intros Hc HL Hinv. pose proof Hinv as [[Hr Hl] Hnd Hpg].
  apply Forall_cons in Hpg as [Hp Hpg]. apply NoDup_cons in Hnd as [Hnin Hnd].
  unfold kalloc. kacquire c1 Hc1. mstep. kproj. rewrite Hr.
  pose proof (page_ok_pos p Hp). destruct (Z.eqb_spec p 0); [lia|]. cbn [negb].
  mstep. krelease c2 Hc2. mstep.
  exists c2, (memset (k_mem s) p 5 PGSIZE), (ld64 (k_mem s) p). split; [kstate_eq|].
  split_and!; [done| |done|done|done].
  assert (Hinv' : kmem_inv (k_mem s) (ld64 (k_mem s) p) l) by done.
  apply (kmem_inv_write (k_mem s) _ _ _ p); [done|done| |done].
  intros x Hx. by rewrite ldb_memset, decide_False by lia.
Qed.

Lemma kalloc_empty t L e s :
  ctx t L (k_core s) → L_kmem ∉ L → kmem_inv (k_mem s) (k_freelist s) [] →
  ∃ c, kalloc e s = Ret 0 e (set_k_core c s) ∧ ctx t L c.
Proof.
  intros Hc HL [Hr _ _]. cbn in Hr.
  unfold kalloc. kacquire c1 Hc1. mstep. kproj. rewrite Hr. cbn [negb Z.eqb].
  mstep. krelease c2 Hc2. mstep. exists c2. split; [by destruct s|done].
Qed.

(** ** Initialisation *)

(** The pages [freerange] frees, in the order it frees them. *)
Definition pages_from (p : Z) (n : nat) : list Z := (λ i, p + i * PGSIZE) <$> seqZ 0 (Z.of_nat n).

Lemma pages_from_snoc p n :
  pages_from p (S n) = pages_from p n ++ [p + Z.of_nat n * PGSIZE].
Proof.
  unfold pages_from. rewrite Nat2Z.inj_succ, <-Z.add_1_r, seqZ_app by lia.
  rewrite fmap_app. reflexivity.
Qed.

Lemma elem_of_pages_from p n q :
  q ∈ pages_from p n ↔ ∃ i, 0 ≤ i < Z.of_nat n ∧ q = p + i * PGSIZE.
Proof.
  unfold pages_from. rewrite list_elem_of_fmap. setoid_rewrite elem_of_seqZ.
  split; intros (i & ? & ?); exists i; (split; [lia|done]) || (split; [done|lia]).
Qed.

Lemma freerange_ok t L pa_start pa_end e s :
  ctx t L (k_core s) → L_kmem ∉ L →
  kmem_inv (k_mem s) (k_freelist s) [] →
  kend ≤ pa_start → pa_start ≤ pa_end → pa_end ≤ PHYSTOP →
  ∃ c m h, freerange pa_start pa_end e s = Ret tt e (set_k_core c (set_k_freelist h (set_k_mem m s))) ∧
    ctx t L c ∧
    kmem_inv m h (reverse (pages_from (PGROUNDUP pa_start)
                     (Z.to_nat ((pa_end - PGROUNDUP pa_start) / PGSIZE)))).
Proof.
  intros Hc HL Hinv H1 H2 H3. unfold freerange. set (P := PGROUNDUP pa_start).
  assert (HP : pa_start ≤ P < pa_start + PGSIZE ∧ P mod PGSIZE = 0).
  { pose proof kend_low. unfold P, PHYSTOP, KERNBASE, PGSIZE in *. rewrite PGROUNDUP_spec;
      unfold PGSIZE; [|lia..]. pose proof (Z_div_mod_eq_full (pa_start + 4096 - 1) 4096).
    pose proof (Z.mod_pos_bound (pa_start + 4096 - 1) 4096). rewrite Z.mod_mul by lia. lia. }
  destruct HP as [HP Hal].
  set (I := λ (p : Z) (e' : list (kstate → kstate)) (s' : kstate), e' = e ∧
    ∃ (n : nat) c m h, p = P + Z.of_nat n * PGSIZE ∧ (n = O ∨ p ≤ pa_end) ∧
      s' = set_k_core c (set_k_freelist h (set_k_mem m s)) ∧ ctx t L c ∧
      kmem_inv m h (reverse (pages_from P n))).
  destruct (loop_measure (λ p, if p + PGSIZE <=? pa_end
      then kfree p ;;; ret (inl (p + PGSIZE)) else ret (inr tt)) (λ p _ _, pa_end + PGSIZE - p) I
      (λ _ e' s', e' = e ∧ ∃ c m h, s' = set_k_core c (set_k_freelist h (set_k_mem m s)) ∧
         ctx t L c ∧ kmem_inv m h (reverse (pages_from P (Z.to_nat ((pa_end - P) / PGSIZE)))))
      P e s) as ([] & e' & s' & Hrun & -> & c & m & h & -> & Hc' & Hinv').
  - clear Hc Hinv. intros p e' s' [-> (n & c & m & h & -> & Hn & -> & Hc & Hinv)].
    split; [unfold PGSIZE in *; lia|].
    destruct (Z.leb_spec (P + Z.of_nat n * PGSIZE + PGSIZE) pa_end) as [Hle|Hgt].
    + destruct (kfree_ok t L (reverse (pages_from P n)) (P + Z.of_nat n * PGSIZE) e
        (set_k_core c (set_k_freelist h (set_k_mem m s)))) as (c' & Hk & Hc'); [exact Hc|done|exact Hinv| | |].
      * unfold page_ok. rewrite Z.mod_add by done. unfold PGSIZE in *. lia.
      * rewrite elem_of_reverse, elem_of_pages_from. intros (i & ? & ?). unfold PGSIZE in *. lia.
      * erewrite bind_Ret by exact Hk. eexists _, _, _. split; [reflexivity|].
        split; [|unfold PGSIZE; lia]. split; [done|].
        exists (S n), c', (kfree_mem m h (P + Z.of_nat n * PGSIZE)), (P + Z.of_nat n * PGSIZE).
        split_and!; [lia|lia|kstate_eq|done|].
        rewrite pages_from_snoc, reverse_snoc. apply kfree_inv; [done| |].
        -- unfold page_ok. rewrite Z.mod_add by done. unfold PGSIZE in *. lia.
        -- rewrite elem_of_reverse, elem_of_pages_from. intros (i & ? & ?). unfold PGSIZE in *. lia.
    + eexists _, _, _. split; [reflexivity|]. split; [done|].
      exists c, m, h. split_and!; [done|done|].
      replace (Z.to_nat ((pa_end - P) / PGSIZE)) with n; [done|].
      unfold PGSIZE in *. pose proof (Z_div_mod_eq_full (pa_end - P) 4096).
      pose proof (Z.mod_pos_bound (pa_end - P) 4096). lia.
  - split; [done|]. exists O, (k_core s), (k_mem s), (k_freelist s).
    split_and!; [lia|by left|by destruct s|done|done].
  - unfold PHYSTOP, KERNBASE, PGSIZE in *. pose proof kend_low. unfold KERNBASE in *. lia.
  - exists c, m, h. split_and!; [exact Hrun|done|done].
Qed.

Lemma page_ok_enum p :
  (∃ i, 0 ≤ i < Z.of_nat (Z.to_nat ((PHYSTOP - PGROUNDUP kend) / PGSIZE)) ∧
        p = PGROUNDUP kend + i * PGSIZE) ↔ page_ok p.
Proof.
  pose proof kend_low. pose proof kend_high. unfold page_ok, PHYSTOP, KERNBASE, PGSIZE in *.
  rewrite PGROUNDUP_spec by (unfold PGSIZE; lia). unfold PGSIZE.
  pose proof (Z_div_mod_eq_full (kend + 4096 - 1) 4096).
  pose proof (Z.mod_pos_bound (kend + 4096 - 1) 4096).
  set (q := (kend + 4096 - 1) / 4096) in *.
  replace (2147483648 + 128 * 1024 * 1024 - q * 4096) with ((557056 - q) * 4096) by lia.
  rewrite Z.div_mul by lia. split.
  - intros (i & Hi & ->). replace (q * 4096 + i * 4096) with ((q + i) * 4096) by lia.
    rewrite Z.mod_mul by lia. lia.
  - intros [Hal Hr]. pose proof (Z_div_mod_eq_full p 4096).
    exists (p / 4096 - q). lia.
Qed.

(** [kinit] leaves every whole page between the end of the kernel image and
    the top of RAM on the free list, and nothing else. *)
Lemma kinit_ok t L e s :
  ctx t L (k_core s) → L_kmem ∉ L → k_freelist s = 0 →
  ∃ c m h, kinit e s = Ret tt e (set_k_core c (set_k_freelist h (set_k_mem m s))) ∧
    ctx t L c ∧
    kmem_inv m h (reverse (pages_from (PGROUNDUP kend)
                     (Z.to_nat ((PHYSTOP - PGROUNDUP kend) / PGSIZE)))).
Proof.
  intros Hc HL Hf. unfold kinit, initlock, modify_core. mstep.
  pose proof (initlock_ctx t L L_kmem "kmem" (k_core s) Hc HL) as Hc'.
  set (c0 := upd_lock _ _ (k_core s)) in *.
  destruct (freerange_ok t L kend PHYSTOP e (set_k_core c0 s))
    as (c & m & h & Hrun & Hc2 & Hinv); [exact Hc'|done| |done|apply kend_high|done|].
  { kproj. rewrite Hf. split; [done|constructor|constructor]. }
  exists c, m, h. split_and!; [rewrite Hrun; kstate_eq|done|done].
Qed.

(** Freeing an address that is not a page of the allocator panics. *)
Lemma kfree_panic pa e s : ¬ page_ok pa → kfree pa e s = Panic "kfree" s.
Proof.
  intros Hn. unfold kfree, page_ok in *.
  destruct (Z.eqb_spec (pa mod PGSIZE) 0); [|done].
  destruct (Z.ltb_spec pa kend); [done|]. destruct (Z.leb_spec PHYSTOP pa); [done|]. lia.
Qed.

(** ** Any client *)

(** A client that allocates pages and frees some of those it owns. *)
Inductive page_op : Type :=
| OpAlloc
| OpFree (i : nat).

Definition run_page_op (op : page_op) (owned : list Z) : K (list Z) :=
  match op with
  | OpAlloc => r <- kalloc ;; ret (if r =? 0 then owned else r :: owned)
  | OpFree i =>
      match owned !! i with
      | Some p => kfree p ;;; ret (delete i owned)
      | None => ret owned
      end
  end.
Fixpoint run_page_ops (ops : list page_op) (owned : list Z) : K (list Z) :=
  match ops with
  | [] => ret owned
  | op :: ops' => owned' <- run_page_op op owned ;; run_page_ops ops' owned'
  end.

(** The pages are divided between the client and the free list. *)
Record pages_inv (owned : list Z) (l : list Z) (s : kstate) : Prop := {
  pi_inv : kmem_inv (k_mem s) (k_freelist s) l;
  pi_owned : Forall page_ok owned;
  pi_nodup : NoDup (owned ++ l)
}.

Definition outside (ps : list Z) (x : Z) : Prop := ∀ p, p ∈ ps → x < p ∨ p + PGSIZE ≤ x.

Lemma run_page_op_ok t L op owned l e s :
  ctx t L (k_core s) → L_kmem ∉ L → pages_inv owned l s →
  ∃ owned' l' c m h, run_page_op op owned e s =
      Ret owned' e (set_k_core c (set_k_freelist h (set_k_mem m s))) ∧
    ctx t L c ∧ pages_inv owned' l' (set_k_core c (set_k_freelist h (set_k_mem m s))) ∧
    owned' ++ l' ≡ₚ owned ++ l ∧
    (∀ x, outside (owned ++ l) x → ldb m x = ldb (k_mem s) x).
Proof.
  intros Hc HL [Hinv Hown Hnd]. destruct op as [|i]; cbn [run_page_op].
  - destruct l as [|p l].
    + destruct (kalloc_empty t L e s) as (c & Hr & Hc'); [done..|]. mrun Hr.
      exists owned, [], c, (k_mem s), (k_freelist s).
      split_and!; [by destruct s|done|by split|done|done].
    + destruct (kalloc_ok t L l p e s) as (c & m & h & Hr & Hc' & Hinv' & Hm & Hp & Hnin); [done..|].
      mrun Hr. destruct (Z.eqb_spec p 0); [apply page_ok_pos in Hp; lia|].
      exists (p :: owned), l, c, m, h. split_and!; [done|done| | |].
      * split; [exact Hinv'|by constructor|]. by rewrite <-Permutation_middle in Hnd.
      * by rewrite <-Permutation_middle.
      * intros x Hx. rewrite Hm, ldb_memset, decide_False; [done|].
        destruct (Hx p); [apply elem_of_app; right; constructor|lia|lia].
  - destruct (owned !! i) as [p|] eqn:Hi.
    + pose proof (delete_Permutation owned i p Hi) as HP. rewrite HP in Hown, Hnd.
      apply Forall_cons in Hown as [Hp Hown]. cbn [app] in Hnd. apply NoDup_cons in Hnd as [Hnin Hnd].
      destruct (kfree_ok t L l p e s) as (c & Hr & Hc'); [done..|set_solver|]. mrun Hr.
      exists (delete i owned), (p :: l), c, (kfree_mem (k_mem s) (k_freelist s) p), p.
      split_and!; [done|done| | |].
      * split; [apply kfree_inv; [done|done|set_solver]|done|].
        rewrite <-Permutation_middle. by constructor.
      * rewrite <-Permutation_middle. symmetry. exact (Permutation_app_tail l HP).
      * intros x Hx. apply ldb_kfree_mem. apply Hx. rewrite HP. set_solver.
    + exists owned, l, (k_core s), (k_mem s), (k_freelist s).
      split_and!; [by destruct s|done|by split|done|done].
Qed.

(** C18: The allocator never hands out a page twice: whatever sequence of
    allocations and frees a client makes, the pages it owns and the pages on
    the free list together are always the same set, each page exactly once,
    every owned page is a page of RAM above the kernel image, and no byte
    outside those pages is written. The sequence always runs to completion. *)
Theorem kalloc_no_double_alloc t L ops owned l e s :
  ctx t L (k_core s) → L_kmem ∉ L → pages_inv owned l s →
  ∃ owned' l' c m h, run_page_ops ops owned e s =
      Ret owned' e (set_k_core c (set_k_freelist h (set_k_mem m s))) ∧
    ctx t L c ∧ pages_inv owned' l' (set_k_core c (set_k_freelist h (set_k_mem m s))) ∧
    owned' ++ l' ≡ₚ owned ++ l ∧
    (∀ x, outside (owned ++ l) x → ldb m x = ldb (k_mem s) x).
Proof.
  revert owned l s. induction ops as [|op ops IH]; intros owned l s Hc HL Hinv; cbn [run_page_ops].
  - exists owned, l, (k_core s), (k_mem s), (k_freelist s).
    split_and!; [by destruct s|done|by destruct Hinv|done|done].
  - destruct (run_page_op_ok t L op owned l e s)
      as (o1 & l1 & c1 & m1 & h1 & Hr & Hc1 & Hi1 & Hp1 & Hm1); [done..|]. mrun Hr.
    destruct (IH o1 l1 (set_k_core c1 (set_k_freelist h1 (set_k_mem m1 s))) Hc1 HL Hi1) as (o2 & l2 & c2 & m2 & h2 & Hr2 & Hc2 & Hi2 & Hp2 & Hm2).
    exists o2, l2, c2, m2, h2. split_and!; [rewrite Hr2; kstate_eq|done| |by rewrite Hp2|].
    + destruct Hi2 as [? ? ?]. by split.
    + intros x Hx. rewrite Hm2; [by apply Hm1|]. intros p Hp. apply Hx. by rewrite <-Hp1.
Qed.

(** C19: After [kinit] every whole page between the end of the kernel image and the
    top of RAM is free, exactly once, so a client can allocate that many
    pages and no more. *)
Theorem kinit_frees_all_pages t L e s :
  ctx t L (k_core s) → L_kmem ∉ L → k_freelist s = 0 →
  ∃ l c m h, kinit e s = Ret tt e (set_k_core c (set_k_freelist h (set_k_mem m s))) ∧
    ctx t L c ∧ kmem_inv m h l ∧ (∀ p, p ∈ l ↔ page_ok p).
Proof.
  intros Hc HL Hf. destruct (kinit_ok t L e s Hc HL Hf) as (c & m & h & Hr & Hc' & Hinv).
  eexists _, c, m, h. split_and!; [exact Hr|done|exact Hinv|].
  intros p. rewrite elem_of_reverse, elem_of_pages_from. apply page_ok_enum.
Qed.
End kalloc.

(** A kernel image that leaves the last two pages of RAM free. *)
Definition small_linker : Linker := mkLinker (PHYSTOP - 2 * PGSIZE) KERNBASE KERNBASE 0 0 0 0 0 0 0 0 0 0.
#[export] Instance small_linker_ok : LinkerOk small_linker.
Proof. split; done. Defined.

(** The state after two pages have been freed into an empty list. *)
Definition two_pages : kstate :=
  set_k_mem (st64 (st64 ∅ (PHYSTOP - 2 * PGSIZE) 0) (PHYSTOP - PGSIZE) (PHYSTOP - 2 * PGSIZE))
    (set_k_freelist (PHYSTOP - PGSIZE) (zero_kstate true)).

Lemma two_pages_inv :
  pages_inv (lnk := small_linker) [] [PHYSTOP - PGSIZE; PHYSTOP - 2 * PGSIZE] two_pages.
Proof.
  split; [split|constructor|].
  - by vm_compute.
  - by apply (bool_decide_eq_true_1 _).
  - by repeat constructor.
  - by apply (bool_decide_eq_true_1 _).
Qed.

Lemma kalloc_no_double_alloc_witness :
  ∃ owned' l' c m h,
    run_page_ops (lnk := small_linker) [OpAlloc; OpAlloc; OpAlloc; OpFree 0] [] [] two_pages =
      Ret owned' [] (set_k_core c (set_k_freelist h (set_k_mem m two_pages))) ∧
    owned' ++ l' ≡ₚ [PHYSTOP - PGSIZE; PHYSTOP - 2 * PGSIZE].
Proof.
  destruct (kalloc_no_double_alloc (lnk := small_linker) (mkthread 0 None true) []
    [OpAlloc; OpAlloc; OpAlloc; OpFree 0] [] [PHYSTOP - PGSIZE; PHYSTOP - 2 * PGSIZE] []
    two_pages (zero_ctx true) (not_elem_of_nil _) two_pages_inv)
    as (owned' & l' & c & m & h & Hr & _ & _ & Hp & _).
  exists owned', l', c, m, h. exact (conj Hr Hp).
Defined.

Lemma kinit_frees_all_pages_witness :
  ∃ (l : list Z) c m h,
    kinit (lnk := small_linker) [] (zero_kstate true) =
      Ret tt [] (set_k_core c (set_k_freelist h (set_k_mem m (zero_kstate true)))) ∧
    PHYSTOP - PGSIZE ∈ l.
Proof.
  destruct (kinit_frees_all_pages (lnk := small_linker) (mkthread 0 None true) [] []
    (zero_kstate true) (zero_ctx true) (not_elem_of_nil _) eq_refl)
    as (l & c & m & h & Hr & _ & _ & Hl).
  exists l, c, m, h. split; [exact Hr|]. apply Hl. clear. by split.
Defined.
