(* ===== verification/Sched.v ===== *)
(** kernel/proc.c, the part every other component calls: the current process,
    sleeping and waking up, yielding, killing, and the scheduler.

    [swtch] hands the processor to another thread; what happens until the
    thread runs again is one step of the schedule ([wait_env]). The
    specification of [sched] says what that step finds and what it must
    leave.  [visits] says which processes the scheduler switches to when it
    goes over the table, and [scheduler_pass_ok] that it does. *)

From S2P Require Import Prelude Mem KString Params Kernel Spinlock.

(** * The code *)

Definition nproc : nat := Z.to_nat NPROC.

(** [p->...] for [p = &proc[i]]. *)
Definition proc_of (i : nat) : K proc :=
  ps <- gets k_procs ;;
  deref (ps !! i).
Definition modify_proc (i : nat) (f : proc → proc) : K unit :=
  proc_of i ;;;
  modify (λ s, set_k_procs (alter f i (k_procs s)) s).

Definition myproc : K (option nat) :=
  push_off ;;;
  c <- mycpu ;;
  pop_off ;;;
  ret (c_proc c).

Definition sched : K unit :=
  p <- myproc ;;
  p <- deref p ;;
  h <- holding (L_proc p) ;;
  if negb h then panic "sched p->lock" else
  c <- mycpu ;;
  if negb (c_noff c =? 1) then panic "sched locks" else
  pr <- proc_of p ;;
  if bool_decide (p_state pr = RUNNING) then panic "sched running" else
  i <- intr_get ;;
  if i then panic "sched interruptible" else
  c <- mycpu ;;
  let intena := c_intena c in
  wait_env ;;; (* swtch(&p->context, &mycpu()->context) *)
  set_mycpu (set_c_intena intena).

Definition yield : K unit :=
  p <- myproc ;;
  p <- deref p ;;
  acquire (L_proc p) ;;;
  modify_proc p (set_p_state RUNNABLE) ;;;
  sched ;;;
  release (L_proc p).

Definition sleep (ch : chan) (lk : lockid) : K unit :=
  p <- myproc ;;
  p <- deref p ;;
  acquire (L_proc p) ;;;
  release lk ;;;
  modify_proc p (set_p_chan (Some ch)) ;;;
  modify_proc p (set_p_state SLEEPING) ;;;
  sched ;;;
  modify_proc p (set_p_chan None) ;;;
  release (L_proc p) ;;;
  acquire lk.

Definition wakeup_one (ch : chan) (i : nat) : K unit :=
  me <- myproc ;;
  when (bool_decide (me ≠ Some i)) (
    acquire (L_proc i) ;;;
    p <- proc_of i ;;
    when (bool_decide (p_state p = SLEEPING) && bool_decide (p_chan p = Some ch))
      (modify_proc i (set_p_state RUNNABLE)) ;;;
    release (L_proc i)).
Definition wakeup (ch : chan) : K unit :=
  for_in (seq 0 nproc) (λ i, wakeup_one ch i ;;; ret (@None unit)) ;;;
  ret tt.

Definition kill (pid : Z) : K Z :=
  r <- for_in (seq 0 nproc) (λ i,
    acquire (L_proc i) ;;;
    p <- proc_of i ;;
    if p_pid p =? pid then
      modify_proc i (set_p_killed 1) ;;;
      when (bool_decide (p_state p = SLEEPING)) (modify_proc i (set_p_state RUNNABLE)) ;;;
      release (L_proc i) ;;;
      ret (Some 0)
    else
      release (L_proc i) ;;;
      ret None) ;;
  ret (default (-1) r).

(** The body of the scheduler's loop over the process table, on the processor
    [c], and one turn of its outer loop. *)
Definition set_cpu (c : nat) (f : cpu → cpu) : K unit :=
  modify_core (λ co, set_cpus (alter f c (cpus co)) co).
Definition scheduler_try (c i : nat) : K unit :=
  acquire (L_proc i) ;;;
  p <- proc_of i ;;
  when (bool_decide (p_state p = RUNNABLE)) (
    modify_proc i (set_p_state RUNNING) ;;;
    set_cpu c (set_c_proc (Some i)) ;;;
    wait_env ;;; (* swtch(&c->context, &p->context) *)
    set_cpu c (set_c_proc None)) ;;;
  release (L_proc i).
Definition scheduler_pass (c : nat) : K unit :=
  intr_on ;;;
  for_in (seq 0 nproc) (λ i, scheduler_try c i ;;; ret (@None unit)) ;;;
  ret tt.

(** [scheduler] never returns; these are its first [n] rounds. *)
Fixpoint scheduler_rounds (c n : nat) : K unit :=
  match n with O => ret tt | S n' => scheduler_pass c ;;; scheduler_rounds c n' end.
Definition scheduler (n : nat) : K unit :=
  c <- cpuid ;;
  set_cpu c (set_c_proc None) ;;;
  scheduler_rounds c n.

(** * Specifications *)

Lemma ctx_push_pop t L c cp :
  ctx t L c → cpus (core_push c) !! hart c = Some cp → ctx t L (core_pop cp (core_push c)).
Proof.
  intros H Hcp. destruct (ctx_push _ _ _ H) as (cp' & Hcp' & Hp & Hn & Hi).
  assert (cp' = cp) as -> by congruence.
  destruct H as [H1 (cp' & H2 & H3 & H4 & H5 & H6) H7 H8 H9]. split; [done| |done|done|done].
  exists (set_c_noff (c_noff cp - 1) cp). split_and!; [|done|cbn; lia|..].
  - unfold core_pop. cbn -[core_push]. change (hart (core_push c)) with (hart c).
    by rewrite list_lookup_alter, Hcp', decide_True.
  - intros ->. cbn -[core_push]. by rewrite Hn, Hi.
  - intros HL. split; [|done]. cbn -[core_push]. rewrite Hn.
    destruct L; [done|]. cbn [length].
    destruct (Z.eqb_spec (Z.of_nat (S (length L)) + 1) 1); [lia|done].
Qed.

Lemma myproc_ok t L e s :
  ctx t L (k_core s) → ∃ c, myproc e s = Ret (t_proc t) e (set_k_core c s) ∧ ctx t L c.
Proof.
  intros H. destruct (ctx_cpu _ _ _ H) as (cp0 & Hcp0 & _).
  destruct (ctx_push _ _ _ H) as (cp & Hcp & Hp & Hn & Hi).
  exists (core_pop cp (core_push (k_core s))). split; [|by apply ctx_push_pop].
  unfold myproc. mrun (push_off_run cp0 e s Hcp0). unfold mycpu, cpuid. mstep.
  kproj. change (hart (core_push (k_core s))) with (hart (k_core s)). rewrite Hcp. mstep.
  mrun (pop_off_run cp e (set_k_core (core_push (k_core s)) s) Hcp eq_refl ltac:(lia)).
  unfold ret. rewrite Hp. by kstate_eq.
Qed.

Lemma proc_of_ok i p e s : k_procs s !! i = Some p → proc_of i e s = Ret p e s.
Proof. intros H. unfold proc_of. mstep. by rewrite H. Qed.

Lemma modify_proc_ok i p f e s :
  k_procs s !! i = Some p → modify_proc i f e s = Ret tt e (set_k_procs (alter f i (k_procs s)) s).
Proof. intros H. unfold modify_proc. by rewrite (bind_Ret _ _ _ _ _ _ _ (proc_of_ok i p e s H)). Qed.

Lemma modify_proc_lt i f e s :
  (i < length (k_procs s))%nat →
  modify_proc i f e s = Ret tt e (set_k_procs (alter f i (k_procs s)) s).
Proof. intros [p Hp]%lookup_lt_is_Some_2. by eapply modify_proc_ok. Qed.

Lemma list_alter_same {A} (f : A → A) (l : list A) i x :
  l !! i = Some x → f x = x → alter f i l = l.
Proof.
  intros Hl Hf. apply list_eq. intros j. rewrite list_lookup_alter.
  case_decide; [|done]. subst j. rewrite Hl. cbn. by rewrite Hf.
Qed.

(** Run the [myproc] at the head of the goal. *)
Ltac kmyproc c Hc :=
  match goal with
  | H : ctx ?t ?L _ |- context [bind myproc _ ?e ?S] =>
      let Hr := fresh in
      destruct (myproc_ok t L e S) as (c & Hr & Hc); [exact H|mrun Hr; clear Hr]
  end.

(** Run the [proc_of] or [modify_proc] at the head of the goal, for a process
    whose entry is the one [H] gives. *)
Ltac kproc H :=
  match goal with
  | |- context [bind (proc_of ?i) _ ?e ?S] =>
      rewrite (bind_Ret _ _ _ _ _ _ _ (proc_of_ok i _ e S H)); cbv beta iota
  | |- context [bind (modify_proc ?i ?f) _ ?e ?S] =>
      rewrite (bind_Ret _ _ _ _ _ _ _ (modify_proc_ok i _ f e S H)); cbv beta iota
  end.

(** The same for [modify_proc], for a process in range. *)
Ltac kmodproc :=
  match goal with
  | |- context [bind (modify_proc ?i ?f) _ ?e ?S] =>
      rewrite (bind_Ret _ _ _ _ _ _ _ (modify_proc_lt i f e S
        ltac:(kproj; rewrite ?length_alter; (assumption || lia)))); cbv beta iota
  end.

(** ** wakeup *)

(** What [wakeup] does to the [i]th process, when [me] is the caller's. *)
Definition wake (me : option nat) (ch : chan) (i : nat) (p : proc) : proc :=
  if bool_decide (me ≠ Some i) &&
     (bool_decide (p_state p = SLEEPING) && bool_decide (p_chan p = Some ch))
  then set_p_state RUNNABLE p else p.
Definition woken (me : option nat) (ch : chan) (ps : list proc) : list proc :=
  imap (wake me ch) ps.

Lemma wakeup_one_ok t L ch i p e s :
  ctx t L (k_core s) → k_procs s !! i = Some p → (t_proc t ≠ Some i → L_proc i ∉ L) →
  ∃ c, wakeup_one ch i e s =
         Ret tt e (set_k_core c (set_k_procs (alter (wake (t_proc t) ch i) i (k_procs s)) s)) ∧
       ctx t L c.
Proof.
  intros Hc Hp HL. unfold wakeup_one. kmyproc c1 Hc1.
  assert (Hsame : wake (t_proc t) ch i p = p →
    set_k_procs (alter (wake (t_proc t) ch i) i (k_procs s)) s = s).
  { intros Hw. rewrite (list_alter_same _ _ _ _ Hp Hw). by destruct s. }
  case_bool_decide as Hme; cbn [when].
  2: { exists c1. rewrite Hsame; [done|]. unfold wake. by rewrite (bool_decide_eq_false_2 (t_proc t ≠ Some i)) by auto. }
  kacquire c2 Hc2; [by apply HL|]. kproc Hp. kproj.
  destruct (bool_decide (p_state p = SLEEPING) && bool_decide (p_chan p = Some ch)) eqn:Hw; mstep.
  - kproc Hp. krelease c3 Hc3. exists c3. split; [|done].
    rewrite (list_alter_ext (wake (t_proc t) ch i) (set_p_state RUNNABLE) (k_procs s) (k_procs s) i);
      [kstate_eq| |done].
    intros x Hx. assert (x = p) as -> by congruence. unfold wake.
    by rewrite (bool_decide_eq_true_2 (t_proc t ≠ Some i)), Hw.
  - krelease c3 Hc3. exists c3. rewrite Hsame; [split; [kstate_eq|done]|].
    unfold wake. by rewrite Hw, andb_false_r.
Qed.

Lemma lookup_woken me ch ps i : woken me ch ps !! i = wake me ch i <$> ps !! i.
Proof. apply list_lookup_imap. Qed.

Lemma length_woken me ch ps : length (woken me ch ps) = length ps.
Proof. apply length_imap. Qed.

(** What scheduling does not change of a process. *)
Definition pstatic (p : proc) : proc := set_p_state UNUSED (set_p_chan None p).

Lemma pstatic_alter f (i : nat) (ps : list proc) :
  (∀ p, pstatic (f p) = pstatic p) → pstatic <$> alter f i ps = pstatic <$> ps.
Proof.
  intros Hf. apply list_eq. intros j. rewrite !list_lookup_fmap, list_lookup_alter.
  case_decide; [|done]. subst. destruct (ps !! j); cbn; [by rewrite Hf|done].
Qed.

Lemma pstatic_woken me ch ps : pstatic <$> woken me ch ps = pstatic <$> ps.
Proof.
  apply list_eq. intros j. rewrite !list_lookup_fmap, lookup_woken.
  destruct (ps !! j); [|done]. cbn. unfold wake. by case_match.
Qed.

(** The caller may hold no process's lock but its own. *)
Definition no_proc_locks (t : thread) (L : list lockid) : Prop :=
  ∀ i, t_proc t ≠ Some i → L_proc i ∉ L.

Lemma wakeup_ok t L ch e s :
  ctx t L (k_core s) → length (k_procs s) = nproc → no_proc_locks t L →
  ∃ c, wakeup ch e s = Ret tt e (set_k_core c (set_k_procs (woken (t_proc t) ch (k_procs s)) s)) ∧
       ctx t L c.
Proof.
  intros Hc Hlen HL. unfold wakeup.
  destruct (for_seq_all (λ i, wakeup_one ch i ;;; ret (@None unit))
    (λ i e' s', e' = e ∧ ∃ c ps, s' = set_k_core c (set_k_procs ps s) ∧ ctx t L c ∧
       length ps = nproc ∧
       ∀ j, ps !! j = if decide (j < i)%nat then wake (t_proc t) ch j <$> k_procs s !! j
                      else k_procs s !! j) 0 nproc e s)
    as (e' & s' & Hr & -> & c & ps & -> & Hc' & Hlen' & Hps).
  - intros i e' s' Hi (-> & c & ps & -> & Hc1 & Hl1 & Hps).
    destruct (lookup_lt_is_Some_2 ps i ltac:(lia)) as [p Hp].
    destruct (wakeup_one_ok t L ch i p e (set_k_core c (set_k_procs ps s)))
      as (c' & Hr & Hc'); [done|done|apply HL|]. mrun Hr.
    eexists _, _. split; [reflexivity|]. split; [done|].
    exists c', (alter (wake (t_proc t) ch i) i ps). split_and!; [kstate_eq|done|by rewrite length_alter|].
    intros j. rewrite list_lookup_alter, !Hps. repeat case_decide; subst; try lia; try done.
  - split; [done|]. exists (k_core s), (k_procs s). split_and!; [by destruct s|done|done|done].
  - mrun Hr. exists c. split; [|done]. unfold ret. f_equal. f_equal. f_equal.
    apply list_eq. intros j. rewrite Hps, lookup_woken. case_decide; [done|].
    by rewrite lookup_ge_None_2 by lia.
Qed.

(** ** Giving up the processor *)

Lemma holding_ok t L lk e s :
  ctx t L (k_core s) → holding lk e s = Ret (bool_decide (lk ∈ L)) e s.
Proof.
  intros H. unfold holding, cpuid. mstep. unfold ret. f_equal.
  destruct (decide (lk ∈ L)) as [Hin|Hin].
  - destruct (ctx_held _ _ _ H lk Hin) as [-> ->].
    rewrite (bool_decide_eq_true_2 (lk ∈ L)) by done. by rewrite bool_decide_eq_true_2.
  - destruct (ctx_free _ _ _ H lk Hin) as [-> ->].
    by rewrite (bool_decide_eq_false_2 (lk ∈ L)).
Qed.

Lemma mycpu_ok t L e s :
  ctx t L (k_core s) → L ≠ [] →
  ∃ cp, mycpu e s = Ret cp e s ∧ c_proc cp = t_proc t ∧
    c_noff cp = Z.of_nat (length L) ∧ c_intena cp = t_ie t ∧ intr (k_core s) = false.
Proof.
  intros H HL. destruct (ctx_cpu _ _ _ H) as (cp & Hcp & Hp & Hn & _ & Hi).
  exists cp. split_and!; [|done|done|by apply Hi|by apply Hi].
  unfold mycpu, cpuid. mstep. by rewrite Hcp.
Qed.

(** [sched] up to its [swtch]: the rest of the machine finds this thread's
    processor with only [p->lock] held and interrupts off; when it gives the
    processor back, the saved [intena] is put in place. *)
Lemma sched_swtch t p pr f e s :
  ctx t [L_proc p] (k_core s) → t_proc t = Some p →
  k_procs s !! p = Some pr → p_state pr ≠ RUNNING →
  ∃ c, ctx t [L_proc p] c ∧
    sched (f :: e) s = set_mycpu (set_c_intena (t_ie t)) e (f (set_k_core c s)).
Proof.
  intros Hc Ht Hp Hst. unfold sched. kmyproc c1 Hc1. rewrite Ht. mstep.
  rewrite (bind_Ret _ _ _ _ _ _ _ (holding_ok t [L_proc p] _ _ (set_k_core c1 s) Hc1)).
  rewrite bool_decide_eq_true_2 by (by constructor). cbn [negb].
  destruct (mycpu_ok t [L_proc p] (f :: e) (set_k_core c1 s)) as (cp & Hcp & _ & Hn & Hi & Hie); [done..|].
  mrun Hcp. rewrite Hn. change (negb (Z.of_nat (length [L_proc p]) =? 1)) with false. cbv iota.
  kproc Hp. rewrite bool_decide_eq_false_2 by done. unfold intr_get. mstep. rewrite Hie.
  mrun Hcp. exists c1. split; [done|]. by rewrite Hi.
Qed.

(** Processes come back from [swtch] on some hart [h], holding only their own
    lock. *)
Definition resumed (p h : nat) (s : kstate) : Prop :=
  ∃ ie, ctx (mkthread h (Some p) ie) [L_proc p] (k_core s) ∧ length (k_procs s) = nproc.

Lemma set_intena_ok h q ie ie' L e s :
  ctx (mkthread h q ie) L (k_core s) → L ≠ [] →
  ∃ c, set_mycpu (set_c_intena ie') e s = Ret tt e (set_k_core c s) ∧
       ctx (mkthread h q ie') L c.
Proof.
  intros [H1 (cp & H2 & H3 & H4 & H5 & H6) H7 H8 H9] HL.
  eexists. split; [reflexivity|]. split; [done| |done|done|done].
  exists (set_c_intena ie' cp). cbn in *. split_and!; [|done|done|done|].
  - by rewrite list_lookup_alter, decide_True, H2.
  - intros _. split; [by apply H6|done].
Qed.

Lemma sched_ok t p h pr f e s :
  ctx t [L_proc p] (k_core s) → t_proc t = Some p →
  k_procs s !! p = Some pr → p_state pr ≠ RUNNING →
  (∀ c, ctx t [L_proc p] c → resumed p h (f (set_k_core c s))) →
  ∃ c c', sched (f :: e) s = Ret tt e (set_k_core c' (f (set_k_core c s))) ∧
    ctx t [L_proc p] c ∧ ctx (mkthread h (Some p) (t_ie t)) [L_proc p] c'.
Proof.
  intros Hc Ht Hp Hst Hf. destruct (sched_swtch t p pr f e s) as (c & Hc1 & Hr); [done..|].
  destruct (Hf c Hc1) as (ie & Hc2 & _).
  destruct (set_intena_ok h (Some p) ie (t_ie t) [L_proc p] e (f (set_k_core c s)))
    as (c' & Hr' & Hc'); [done|done|].
  exists c, c'. rewrite Hr, Hr'. done.
Qed.

(** ** sleep *)

Definition asleep (ch : chan) (p : proc) : proc := set_p_state SLEEPING (set_p_chan (Some ch) p).

Lemma resumed_proc p h s : resumed p h s → (p < nproc)%nat → ∃ pr, k_procs s !! p = Some pr.
Proof. intros (ie & _ & Hl) Hp. apply lookup_lt_is_Some_2. lia. Qed.

(** The state in which [sleep] switches away. *)
Definition asleep_state (p : nat) (ch : chan) (c : core) (s : kstate) : kstate :=
  set_k_core c (set_k_procs (alter (asleep ch) p (k_procs s)) s).

Lemma sleep_before t p pr ch lk f e s :
  ctx t [lk] (k_core s) → t_proc t = Some p → lk ≠ L_proc p → k_procs s !! p = Some pr →
  ∃ c1, ctx t [L_proc p] c1 ∧
    sleep ch lk (f :: e) s =
      (sched ;;; modify_proc p (set_p_chan None) ;;; release (L_proc p) ;;; acquire lk)
        (f :: e) (asleep_state p ch c1 s).
Proof.
  intros Hc Ht Hlk Hp. unfold sleep. kmyproc c1 Hc1. rewrite Ht. mstep.
  kacquire c2 Hc2; [set_solver|].
  destruct (release_ok t [L_proc p; lk] [L_proc p] lk (f :: e) (set_k_core c2 (set_k_core c1 s)))
    as (c3 & Hr & Hc3); [done|apply Permutation_swap|]. mrun Hr.
  apply lookup_lt_Some in Hp. do 2 kmodproc.
  exists c3. split; [done|]. f_equal. unfold asleep_state. kproj.
  rewrite list_alter_alter_eq.
  change (alter (asleep ch)) with (alter (M := list proc) (set_p_state SLEEPING ∘ set_p_chan (Some ch))).
  kstate_eq.
Qed.

Lemma sleep_ok t p h ch lk f e s :
  ctx t [lk] (k_core s) → t_proc t = Some p → lk ≠ L_proc p →
  (p < length (k_procs s))%nat → length (k_procs s) = nproc →
  (∀ c, ctx t [L_proc p] c → resumed p h (f (asleep_state p ch c s))) →
  ∃ c c', ctx t [L_proc p] c ∧ lock_free (lock_of c lk) ∧
    let s1 := f (asleep_state p ch c s) in
    sleep ch lk (f :: e) s =
      Ret tt e (set_k_core c' (set_k_procs (alter (set_p_chan None) p (k_procs s1)) s1)) ∧
    ctx (mkthread h (Some p) (t_ie t)) [lk] c'.
Proof.
  intros Hc Ht Hlk Hp Hlen Hf. destruct (lookup_lt_is_Some_2 _ _ Hp) as [pr Hpr].
  destruct (sleep_before t p pr ch lk f e s) as (c1 & Hc1 & ->); [done..|].
  destruct (sched_ok t p h (asleep ch pr) f e (asleep_state p ch c1 s)) as (c2 & c3 & Hr & Hc2 & Hc3);
    [done|done| |done|intros c Hctx; apply (Hf c Hctx)|].
  { unfold asleep_state. kproj. by rewrite list_lookup_alter, decide_True, Hpr. }
  mrun Hr. destruct (Hf c2 Hc2) as (ie & _ & Hl).
  change (set_k_core c2 (asleep_state p ch c1 s)) with (asleep_state p ch c2 s).
  set (s1 := f (asleep_state p ch c2 s)) in *. kmodproc. krelease c4 Hc4.
  destruct (acquire_ok (mkthread h (Some p) (t_ie t)) [] lk e (set_k_core c4
    (set_k_procs (alter (set_p_chan None) p (k_procs (set_k_core c3 s1))) (set_k_core c3 s1))))
    as (c5 & Hr5 & Hc5); [done|set_solver|].
  exists c2, c5. split; [done|]. split; [apply (ctx_free _ _ _ Hc2); set_solver|].
  fold s1. cbv zeta. split; [rewrite Hr5; kstate_eq|done].
Qed.

(** Hart 0 running process 0 just after boot. *)
Definition proc0_core (ie : bool) : core :=
  set_cpus (<[0%nat := mkcpu (Some 0%nat) 0 false]> (cpus (zero_core 0 ie))) (zero_core 0 ie).
Definition proc0_state (ie : bool) : kstate := set_k_core (proc0_core ie) (zero_kstate ie).
Definition proc0_thread (ie : bool) : thread := mkthread 0 (Some 0%nat) ie.

Lemma proc0_ctx ie : ctx (proc0_thread ie) [] (proc0_core ie).
Proof.
  split; try done.
  - by exists (mkcpu (Some 0%nat) 0 false).
  - constructor.
  - intros lk H. by apply elem_of_nil in H.
Qed.

(** ** yield and kill *)

Lemma yield_ok t p h f e s :
  ctx t [] (k_core s) → t_proc t = Some p → (p < length (k_procs s))%nat →
  (∀ c, ctx t [L_proc p] c →
     resumed p h (f (set_k_core c (set_k_procs (alter (set_p_state RUNNABLE) p (k_procs s)) s)))) →
  ∃ c c', ctx t [L_proc p] c ∧ yield (f :: e) s = Ret tt e (set_k_core c'
      (f (set_k_core c (set_k_procs (alter (set_p_state RUNNABLE) p (k_procs s)) s)))) ∧
    ctx (mkthread h (Some p) (t_ie t)) [] c'.
Proof.
  intros Hc Ht Hp Hf. destruct (lookup_lt_is_Some_2 _ _ Hp) as [pr Hpr]. unfold yield.
  kmyproc c1 Hc1. rewrite Ht. mstep. kacquire c2 Hc2; [set_solver|]. kmodproc.
  match goal with |- context [bind sched _ _ ?S] =>
    destruct (sched_ok t p h (set_p_state RUNNABLE pr) f e S) as (c3 & c4 & Hr & Hc3 & Hc4) end;
    [done|done| |done|intros c Hctx; apply (Hf c Hctx)|].
  { kproj. by rewrite list_lookup_alter, decide_True, Hpr. }
  mrun Hr. krelease c5 Hc5. exists c3, c5. split_and!; [done|kstate_eq|done].
Qed.

(** What [kill] does to the process it finds. *)
Definition killed (p : proc) : proc :=
  set_p_killed 1 (if bool_decide (p_state p = SLEEPING) then set_p_state RUNNABLE p else p).

Definition kill_result (pid : Z) (ps : list proc) : Z * list proc :=
  match list_find (λ p, p_pid p = pid) ps with
  | Some (i, _) => (0, alter killed i ps)
  | None => (-1, ps)
  end.

Lemma kill_result_found pid ps i p :
  ps !! i = Some p → p_pid p = pid →
  (∀ j q, (j < i)%nat → ps !! j = Some q → p_pid q ≠ pid) →
  kill_result pid ps = (0, alter killed i ps).
Proof.
  intros Hi Hp Hlt. unfold kill_result.
  assert (list_find (λ p, p_pid p = pid) ps = Some (i, p)) as ->; [|done].
  apply list_find_Some. split_and!; [done|done|]. intros j q Hj Hlj. by eapply Hlt.
Qed.

Lemma kill_result_none pid ps :
  (∀ j q, ps !! j = Some q → p_pid q ≠ pid) → kill_result pid ps = (-1, ps).
Proof.
  intros H. unfold kill_result.
  assert (list_find (λ p, p_pid p = pid) ps = None) as ->; [|done].
  apply list_find_None. apply Forall_lookup. eauto.
Qed.

Lemma kill_ok t L pid e s :
  ctx t L (k_core s) → length (k_procs s) = nproc → (∀ i, L_proc i ∉ L) →
  ∃ c, kill pid e s = Ret (kill_result pid (k_procs s)).1 e
         (set_k_core c (set_k_procs (kill_result pid (k_procs s)).2 s)) ∧ ctx t L c.
Proof.
  intros Hc Hlen HL. unfold kill.
  match goal with |- context [for_in _ ?b] => set (body := b) end.
  destruct (for_seq_inv body
    (λ i e' s', e' = e ∧ ∃ c, s' = set_k_core c s ∧ ctx t L c ∧
       ∀ j q, (j < i)%nat → k_procs s !! j = Some q → p_pid q ≠ pid)
    (λ r e' s', e' = e ∧ ∃ c, s' = set_k_core c (set_k_procs (kill_result pid (k_procs s)).2 s) ∧
       ctx t L c ∧ r = (kill_result pid (k_procs s)).1) 0 nproc e s)
    as (r & e' & s' & Hr & H).
  - intros i e' s' Hi (-> & c & -> & Hc1 & Hlt). unfold body.
    destruct (lookup_lt_is_Some_2 (k_procs s) i ltac:(lia)) as [p Hp].
    kacquire c2 Hc2. kproc Hp. destruct (Z.eqb_spec (p_pid p) pid) as [Heq|Hne].
    + kproc Hp. rewrite (kill_result_found pid (k_procs s) i p) by done. cbn [fst snd].
      destruct (bool_decide (p_state p = SLEEPING)) eqn:Hs; mstep; [kmodproc|]; krelease c3 Hc3;
        eexists _, _, _; (split; [reflexivity|]); (split; [done|]); exists c3;
        (split_and!; [|done|done]); kproj.
      * rewrite list_alter_alter_eq.
        rewrite (list_alter_ext killed (set_p_state RUNNABLE ∘ set_p_killed 1) _ (k_procs s)); [kstate_eq| |done].
        intros x Hx. assert (x = p) as -> by congruence. unfold killed. by rewrite Hs.
      * rewrite (list_alter_ext killed (set_p_killed 1) _ (k_procs s)); [kstate_eq| |done].
        intros x Hx. assert (x = p) as -> by congruence. unfold killed. by rewrite Hs.
    + krelease c3 Hc3. eexists None, _, _. split; [reflexivity|]. split; [done|].
      exists c3. split_and!; [kstate_eq|done|]. intros j q Hj Hq.
      destruct (decide (j = i)) as [->|]; [congruence|]. apply (Hlt j); [lia|done].
  - split; [done|]. exists (k_core s). split_and!; [by destruct s|done|]. intros; lia.
  - mrun Hr. destruct r as [v|].
    + destruct H as (-> & c & -> & Hc' & ->). exists c. done.
    + destruct H as (-> & c & -> & Hc' & Hlt). exists c. rewrite kill_result_none.
      * cbn [fst snd]. split; [by destruct s|done].
      * intros j q Hq. apply (Hlt j); [|done]. apply lookup_lt_Some in Hq. lia.
Qed.

(** ** The scheduler *)

(** What a process finds when the scheduler of hart [h] switches to it, and
    what it has to leave when it switches back. *)
Definition running (h p : nat) (s : kstate) : Prop :=
  resumed p h s ∧ ∃ pr, k_procs s !! p = Some pr ∧ p_state pr = RUNNING.
Definition yielded (h p : nat) (s : kstate) : Prop :=
  resumed p h s ∧ ∃ pr, k_procs s !! p = Some pr ∧ p_state pr ≠ RUNNING.
Definition keeps_contract (h : nat) (f : kstate → kstate) : Prop :=
  ∀ p s, running h p s → yielded h p (f s).

Lemma set_cpu_proc_ok h q q' ie L e s :
  ctx (mkthread h q ie) L (k_core s) →
  ∃ c, set_cpu h (set_c_proc q') e s = Ret tt e (set_k_core c s) ∧ ctx (mkthread h q' ie) L c.
Proof.
  intros [H1 (cp & H2 & H3 & H4 & H5 & H6) H7 H8 H9].
  eexists. split; [reflexivity|]. split; [done| |done|done|done].
  exists (set_c_proc q' cp). cbn in *. split_and!; [|done|done|done|done].
  rewrite H1 in *. by rewrite list_lookup_alter, decide_True, H2.
Qed.

(** The scheduler of hart [h] between two processes: no lock is held and no
    process is current. *)
Definition idle (h : nat) (c : core) : Prop := ∃ ie, ctx (mkthread h None ie) [] c.
Definition runnable (i : nat) (s : kstate) : Prop := ∃ pr, k_procs s !! i = Some pr ∧ p_state pr = RUNNABLE.

(** What the scheduler does to the process table, with the processor's state
    left open: it visits the processes of the first list in order, and takes one
    step of the schedule for each that is RUNNABLE when its turn comes and for
    no other.  The last list has the processes it switched to. *)
Inductive visits (h : nat) :
    list nat → list (kstate → kstate) → kstate → list nat → list (kstate → kstate) → kstate → Prop :=
| visits_end e s c : idle h c → visits h [] e s [] e (set_k_core c s)
| visits_skip i l e s ran e' s' :
    ¬ runnable i s → visits h l e s ran e' s' → visits h (i :: l) e s ran e' s'
| visits_run i l f e s c ran e' s' :
    runnable i s →
    let s1 := set_k_core c (set_k_procs (alter (set_p_state RUNNING) i (k_procs s)) s) in
    running h i s1 → visits h l e (f s1) ran e' s' → visits h (i :: l) (f :: e) s (i :: ran) e' s'.

Lemma visits_core h l e s ran e' s' c : visits h l e s ran e' s' → visits h l e (set_k_core c s) ran e' s'.
Proof.
  intros H. revert c. induction H as [e s c0 Hc|i l e s ran e' s' Hn _ IH|i l f e s c0 ran e' s' Hn s1 Hr H IH]; intros c.
  - change (set_k_core c0 s) with (set_k_core c0 (set_k_core c s)). by constructor.
  - apply visits_skip; [done|]. apply IH.
  - by apply (visits_run h i l f e (set_k_core c s) c0).
Qed.
Lemma visits_app h l l' e s ran e1 s1 ran' e' s' :
  visits h l e s ran e1 s1 → visits h l' e1 s1 ran' e' s' → visits h (l ++ l') e s (ran ++ ran') e' s'.
Proof.
  intros H H'. induction H as [e s c Hc|i l e s ran e1 s1 Hn _ IH|i l f e s c ran e1 s1 Hn s2 Hr _ IH]; cbn [app].
  - apply (visits_core _ _ _ _ _ _ _ (k_core s)) in H'. by destruct s.
  - apply visits_skip; auto.
  - eapply visits_run; eauto.
Qed.

(** A step of the schedule that gives the processor to another process and
    leaves process [j] RUNNABLE. *)
Definition leaves_runnable (h j : nat) (f : kstate → kstate) : Prop :=
  ∀ i s, i ≠ j → running h i s → runnable j s → runnable j (f s).
Lemma visits_fair h l e s ran e' s' j :
  visits h l e s ran e' s' → j ∈ l → runnable j s → Forall (leaves_runnable h j) e → j ∈ ran.
Proof.
  intros H. induction H as [e s c Hc|i l e s ran e' s' Hn _ IH|i l f e s c ran e' s' Hn s1 Hr _ IH]; intros Hin Hj He.
  - by apply elem_of_nil in Hin.
  - apply elem_of_cons in Hin as [->|Hin]; [done|]. by apply IH.
  - destruct (decide (j = i)) as [->|Hne]; [by left|]. right. apply Forall_cons in He as [Hf He].
    apply elem_of_cons in Hin as [->|Hin]; [done|]. apply IH; [done| |done]. apply (Hf i); [done|done|].
    destruct Hj as (pr & Hp & Hst). exists pr. split; [|done]. unfold s1. kproj. by rewrite list_lookup_alter_ne.
Qed.

Lemma scheduler_try_ok h i e s :
  idle h (k_core s) → length (k_procs s) = nproc → (i < nproc)%nat →
  Forall (keeps_contract h) e → e ≠ [] →
  ∃ ran e' s', scheduler_try h i e s = Ret tt e' s' ∧ visits h [i] e s ran e' s' ∧ (e' = e ∨ e' = tail e) ∧
    idle h (k_core s') ∧ length (k_procs s') = nproc.
Proof.
  intros [ie Hc] Hlen Hi He Hne. unfold scheduler_try.
  destruct (lookup_lt_is_Some_2 (k_procs s) i ltac:(lia)) as [p Hp].
  kacquire c1 Hc1; [set_solver|]. kproc Hp. case_bool_decide as Hst; mstep.
  - kmodproc. mstep. destruct e as [|f e]; [done|].
    match goal with |- context [bind (set_cpu h ?g) _ ?E ?S] =>
      destruct (set_cpu_proc_ok h None (Some i) ie [L_proc i] E S) as (c2 & Hr & Hc2); [done|mrun Hr; mstep] end.
    unfold wait_env at 1, bind at 1.
    match goal with |- context [f ?S] =>
      replace S with (set_k_core c2 (set_k_procs (alter (set_p_state RUNNING) i (k_procs s)) s)) by kstate_eq end.
    set (s0 := set_k_core c2 _). assert (Hrun : running h i s0).
    { split.
      - exists ie. split; [done|]. unfold s0. kproj. by rewrite length_alter.
      - exists (set_p_state RUNNING p). split; [|done]. unfold s0. kproj. by rewrite list_lookup_alter, decide_True, Hp. }
    apply Forall_cons in He as [Hf _]. destruct (Hf i s0 Hrun) as [(ie1 & Hy & Hlen1) _]. set (s1 := f s0) in *.
    destruct (set_cpu_proc_ok h (Some i) None ie1 [L_proc i] e s1) as (c3 & Hr3 & Hc3); [done|].
    mrun Hr3. krelease c4 Hc4. eexists [i], e, _. split; [reflexivity|].
    split_and!; [|by right|by exists ie1|done]. apply (visits_run h i [] f e s c2); [by exists p|done|].
    fold s0 s1. replace (set_k_core c4 (set_k_core c3 s1)) with (set_k_core c4 s1) by kstate_eq. constructor. by exists ie1.
  - krelease c2 Hc2. eexists [], e, _. split; [reflexivity|]. split_and!; [|by left|by exists ie|done].
    apply visits_skip; [intros (pr & Hpr & ?); congruence|].
    replace (set_k_core c2 (set_k_core c1 s)) with (set_k_core c2 s) by kstate_eq. constructor. by exists ie.
Qed.

Lemma scheduler_pass_ok h n e s :
  idle h (k_core s) → length (k_procs s) = nproc →
  Forall (keeps_contract h) e → (nproc + n ≤ length e)%nat →
  ∃ ran e' s', scheduler_pass h e s = Ret tt e' s' ∧ visits h (seq 0 nproc) e s ran e' s' ∧ Forall (keeps_contract h) e' ∧
    (n ≤ length e')%nat ∧ idle h (k_core s') ∧ length (k_procs s') = nproc.
Proof.
  intros Hc Hlen He Hn. unfold scheduler_pass, intr_on, modify_core. mstep.
  match goal with |- context [bind (for_in _ ?b) _ _ ?S] => set (body := b); set (s0 := S) end.
  destruct (for_seq_all body (λ i e' s', (∃ ran, visits h (seq 0 i) e s ran e' s') ∧ Forall (keeps_contract h) e' ∧
      (nproc + n ≤ length e' + i)%nat ∧ idle h (k_core s') ∧ length (k_procs s') = nproc) 0 nproc e s0)
    as (e' & s' & Hr & [ran Hv] & He' & Hn' & Hc' & Hl').
  - intros i e' s' Hi ([ran Hv] & He' & Hn' & Hc' & Hl').
    destruct (scheduler_try_ok h i e' s') as (ran1 & e1 & s1 & Hr & Hv1 & He1 & Hc1 & Hl1);
      [done|done|lia|done|by intros ->; cbn in *; lia|].
    unfold body. mrun Hr. eexists _, _. split; [reflexivity|]. split_and!; [| | |done|done].
    + exists (ran ++ ran1). rewrite seq_S. by eapply visits_app.
    + destruct He1 as [->| ->]; [done|]. destruct e'; [done|]. by apply Forall_cons in He' as [_ ?].
    + destruct He1 as [->| ->]; [lia|]. destruct e'; cbn in *; lia.
  - assert (Hi0 : idle h (set_intr true (k_core s))).
    { destruct Hc as [ie [H1 (cp & H2) H7 H8 H9]]. exists true. split; [done| |done|done|done]. exists cp.
      destruct H2 as (? & ? & ? & ? & ?). by split_and!. }
    split_and!; [|done|lia|done|done]. exists []. by constructor.
  - mrun Hr. eexists ran, _, _. split; [reflexivity|]. split_and!; [done|done|lia|done|done].
Qed.

Lemma scheduler_rounds_ok h n e s :
  idle h (k_core s) → length (k_procs s) = nproc →
  Forall (keeps_contract h) e → (n * nproc ≤ length e)%nat →
  ∃ ran e' s', scheduler_rounds h n e s = Ret tt e' s' ∧ visits h (concat (replicate n (seq 0 nproc))) e s ran e' s' ∧
    idle h (k_core s') ∧ length (k_procs s') = nproc.
Proof.
  revert e s. induction n as [|n IH]; intros e s Hc Hlen He Hn; cbn [scheduler_rounds replicate concat].
  - exists [], e, s. split_and!; [done| |done|done]. replace s with (set_k_core (k_core s) s) at 2 by (by destruct s). by constructor.
  - cbn [Nat.mul] in Hn.
    destruct (scheduler_pass_ok h (n * nproc) e s) as (ran & e1 & s1 & Hr & Hv & He1 & Hn1 & Hc1 & Hl1); [done..|]. mrun Hr.
    destruct (IH e1 s1 Hc1 Hl1 He1 Hn1) as (ran' & e2 & s2 & Hr2 & Hv2 & Hc2 & Hl2). exists (ran ++ ran'), e2, s2.
    split_and!; [done|by eapply visits_app|done|done].
Qed.

(** C16: The scheduler honours its contract with the processes for as many rounds
    as it runs.  In each round it visits every process once, in order, and
    switches to exactly those that are RUNNABLE when their turn comes; such
    a process finds itself RUNNING, current on this hart and holding only its
    own lock (what [sched] and [sleep] rely on after [swtch]), with the rest
    of the kernel's state as the one before left it.  If every process gives
    the processor back holding just its lock (what [sched] checks before
    [swtch]), the scheduler never panics, and holds no lock and has no current
    process at the end of its rounds.  So it starves nobody: a process that is
    RUNNABLE at the start and that the others leave RUNNABLE is run. *)
Theorem scheduler_contract h q ie n e s :
  ctx (mkthread h q ie) [] (k_core s) → length (k_procs s) = nproc →
  Forall (keeps_contract h) e → (n * nproc ≤ length e)%nat →
  ∃ ran e' s', scheduler n e s = Ret tt e' s' ∧
    visits h (concat (replicate n (seq 0 nproc))) e s ran e' s' ∧ idle h (k_core s') ∧ length (k_procs s') = nproc ∧
    (∀ j, (0 < n)%nat → (j < nproc)%nat → runnable j s → Forall (leaves_runnable h j) e → j ∈ ran).
Proof.
  intros Hc Hlen He Hn. unfold scheduler, cpuid. mstep. rewrite (ctx_hart _ _ _ Hc). cbn [t_hart].
  destruct (set_cpu_proc_ok h q None ie [] e s) as (c & Hr & Hc0); [done|]. mrun Hr.
  destruct (scheduler_rounds_ok h n e (set_k_core c s)) as (ran & e' & s' & Hr' & Hv & Hi & Hl'); [by exists ie|done..|].
  apply (visits_core _ _ _ _ _ _ _ (k_core s)) in Hv. replace (set_k_core (k_core s) (set_k_core c s)) with s in Hv by (by destruct s).
  exists ran, e', s'. split_and!; [done|done|done|done|]. intros j H0 Hj Hrj Hl. eapply visits_fair; [done| |done|done].
  destruct n as [|n]; [lia|]. cbn [replicate concat]. apply elem_of_app. left. apply elem_of_seq. lia.
Qed.

Lemma keeps_contract_sleep h f :
  (∀ s, k_core (f s) = k_core s) →
  (∀ s, k_procs (f s) = set_p_state SLEEPING <$> k_procs s) → keeps_contract h f.
Proof.
  intros H1 H2 p s [(ie & Hc & Hl) (pr & Hp & _)]. split.
  - exists ie. by rewrite H1, H2, length_fmap.
  - exists (set_p_state SLEEPING pr). by rewrite H2, list_lookup_fmap, Hp.
Qed.

(** Process 5 alone is RUNNABLE, and goes to sleep. *)
Lemma scheduler_contract_witness :
  let s := set_k_procs (alter (set_p_state RUNNABLE) 5%nat (k_procs (zero_kstate true))) (zero_kstate true) in
  ∃ ran e' s', scheduler 1 (replicate nproc (λ s, set_k_procs (set_p_state SLEEPING <$> k_procs s) s)) s = Ret tt e' s' ∧
    visits 0 (seq 0 nproc) (replicate nproc (λ s, set_k_procs (set_p_state SLEEPING <$> k_procs s) s)) s ran e' s'.
Proof.
  intros s.
  destruct (scheduler_contract 0 None true 1
    (replicate nproc (λ s, set_k_procs (set_p_state SLEEPING <$> k_procs s) s)) s)
    as (ran & e' & s' & Hr & Hv & _).
  - exact (zero_ctx true).
  - reflexivity.
  - apply Forall_replicate, keeps_contract_sleep; reflexivity.
  - rewrite length_replicate. apply Nat.leb_le. reflexivity.
  - exists ran, e', s'. exact (conj Hr Hv).
Defined.
