(* ===== verification/Handoff.v ===== *)
(** [sleep] of kernel/proc.c when other harts hold the locks it takes.

    While [acquire] spins, the other harts run: each failed attempt is one step
    of the schedule.  The theorem says what [sleep] holds in every state that
    the others get to see, which fixes the order in which it takes and gives up
    the two locks. *)

From S2P Require Import Prelude Mem KString Params Kernel Spinlock Sched.

(** * Waiting for a lock *)

(** Thread [t] holds the locks [L]; the others may be held by other harts. *)
Record holds (t : thread) (L : list lockid) (c : core) : Prop := mkholds {
  ho_hart : hart c = t_hart t;
  ho_cpu : ∃ cp, cpus c !! hart c = Some cp ∧ c_proc cp = t_proc t ∧
              c_noff cp = Z.of_nat (length L) ∧
              (L = [] → intr c = t_ie t) ∧
              (L ≠ [] → intr c = false ∧ c_intena cp = t_ie t);
  ho_held : ∀ lk, lk ∈ L → lock_held (hart c) (lock_of c lk)
}.

(** It holds exactly [L], with interrupts off, and is in the loop of
    [acquire]. *)
Record spinning (t : thread) (L : list lockid) (c : core) : Prop := mkspinning {
  sp_hart : hart c = t_hart t;
  sp_intr : intr c = false;
  sp_cpu : ∃ cp, cpus c !! hart c = Some cp ∧ c_proc cp = t_proc t ∧
              c_noff cp = Z.of_nat (length L) + 1 ∧ c_intena cp = t_ie t;
  sp_held : ∀ lk, lk ∈ L → lock_held (hart c) (lock_of c lk)
}.

(** Another hart has taken the lock, or is about to record that it did. *)
Definition lock_busy (h : nat) (l : spinlock) : Prop := sl_locked l = 1 ∧ sl_cpu l ≠ Some h.

(** From [s] on the other harts take the steps [gs], one for every failed
    attempt to get [lk], and leave it free in [s']; all the while [t] keeps
    what it holds. *)
Fixpoint lets_in (t : thread) (L : list lockid) (lk : lockid) (gs : list (kstate → kstate)) (s s' : kstate) : Prop :=
  spinning t L (k_core s) ∧
  match gs with
  | [] => s' = s ∧ ∀ lk', lk' ∉ L → lock_free (lock_of (k_core s) lk')
  | g :: gs => lock_busy (t_hart t) (lock_of (k_core s) lk) ∧ lets_in t L lk gs (g s) s'
  end.

Lemma ctx_holds t L c : ctx t L c → holds t L c.
Proof. intros [H1 H2 H3 H4 H5]. by split. Qed.

Lemma holds_push t L c : holds t L c → spinning t L (core_push c).
Proof.
  intros [H1 (cp & H2 & H3 & H4 & H5 & H6) H8]. split; [done|done| |done].
  exists (cpu_push (intr c) cp). split_and!; cbn; try done; [|lia|].
  - by rewrite list_lookup_alter, decide_True, H2 by done.
  - destruct L as [|lk L]; cbn in H4; rewrite H4; cbn; [auto|].
    destruct (Z.eqb_spec (Z.pos (Pos.of_succ_nat (length L))) 0); [lia|]. by apply H6.
Qed.
Lemma spinning_pop t L cp c : spinning t L c → cpus c !! hart c = Some cp → holds t L (core_pop cp c).
Proof.
  intros [H1 H2 (cp' & H3 & H4 & H5 & H6) H7] Hcp. assert (cp' = cp) as -> by congruence.
  split; [done| |done]. exists (set_c_noff (c_noff cp - 1) cp). split_and!; [|done|cbn; lia|..].
  - unfold core_pop. cbn. by rewrite list_lookup_alter, Hcp, decide_True.
  - intros ->. cbn. by rewrite H5, H6.
  - intros HL. split; [|done]. cbn. rewrite H5. destruct L; [done|]. cbn [length].
    destruct (Z.eqb_spec (Z.of_nat (S (length L)) + 1) 1); [lia|done].
Qed.

Lemma myproc_holds t L e s :
  holds t L (k_core s) →
  ∃ c, myproc e s = Ret (t_proc t) e (set_k_core c s) ∧ holds t L c ∧ spin c = spin (k_core s).
Proof.
  intros H. destruct (ho_cpu _ _ _ H) as (cp0 & Hcp0 & _). pose proof (holds_push _ _ _ H) as Hs.
  destruct (sp_cpu _ _ _ Hs) as (cp & Hcp & Hp & Hn & Hi).
  exists (core_pop cp (core_push (k_core s))). split_and!; [|by apply spinning_pop|done].
  unfold myproc. mrun (push_off_run cp0 e s Hcp0). unfold mycpu, cpuid. mstep.
  kproj. rewrite Hcp. mstep.
  mrun (pop_off_run cp e (set_k_core (core_push (k_core s)) s) Hcp eq_refl ltac:(lia)).
  unfold ret. rewrite Hp. by kstate_eq.
Qed.

(** The lock is free: the loop ends. *)
Lemma spinning_takes t L lk c :
  spinning t L c → NoDup L → lk ∉ L → (∀ lk', lk' ∉ L → lock_free (lock_of c lk')) →
  ctx t (lk :: L) (upd_lock lk (λ l, mkspin 1 (sl_name l) (Some (hart c))) c).
Proof.
  intros [H1 H2 (cp & H3 & H4 & H5 & H6) H7] Hnd Hlk Hf. split; [done| |by constructor|..].
  - exists cp. split_and!; [done|done|cbn [length]; lia|done|done].
  - intros lk' [->|Hin]%elem_of_cons; rewrite lock_of_upd; [by rewrite decide_True|].
    rewrite decide_False by (by intros ->). by apply H7.
  - intros lk' [Hne Hin]%not_elem_of_cons. rewrite lock_of_upd, decide_False by done. by apply Hf.
Qed.

(** The test-and-set of a lock that is taken changes nothing. *)
Lemma test_and_set_busy lk s : sl_locked (lock_of (k_core s) lk) = 1 → test_and_set lk s = s.
Proof.
  intros H. unfold test_and_set. replace (upd_lock lk _ (k_core s)) with (k_core s); [by destruct s|].
  destruct s as [[h i cs sp]]; cbn in *. unfold upd_lock, lock_of in *. cbn in *. unfold set_spin. cbn. f_equal. symmetry. apply insert_id.
  destruct (sp !! lk) as [[a b d]|] eqn:E; cbn in *; [by rewrite H|done].
Qed.

Lemma spin_waits t L lk gs e s s' :
  lets_in t L lk gs s s' → lk ∉ L → spin_acquire lk (gs ++ e) s = Ret tt e (test_and_set lk s').
Proof.
  intros H Hlk. revert s H. induction gs as [|g gs IH]; intros s [Hs H]; cbn [app].
  - destruct H as [-> Hf]. destruct (Hf lk Hlk) as [E _].
    destruct e; cbn [spin_acquire]; by rewrite E.
  - destruct H as [[E _] H]. cbn [spin_acquire]. rewrite E, test_and_set_busy by done. cbn [Z.eqb]. by apply IH.
Qed.
Lemma lets_in_end t L lk gs s s' :
  lets_in t L lk gs s s' → spinning t L (k_core s') ∧ ∀ lk', lk' ∉ L → lock_free (lock_of (k_core s') lk').
Proof.
  revert s. induction gs as [|g gs IH]; intros s [Hs H]; [by destruct H as [-> ?]|]. destruct H as [_ H]. by eapply IH.
Qed.
Lemma lets_in_holding t L lk gs e s s' :
  lets_in t L lk gs s s' → lk ∉ L → holding lk e s = Ret false e s.
Proof.
  intros H Hlk. unfold holding, cpuid. mstep. unfold ret. f_equal. destruct gs as [|g gs]; destruct H as [Hs H].
  - destruct H as [-> Hf]. by destruct (Hf lk Hlk) as [-> _].
  - destruct H as [[_ Hc] _]. rewrite <-(sp_hart _ _ _ Hs) in Hc. by rewrite bool_decide_eq_false_2, andb_false_r.
Qed.

Lemma acquire_waits t L lk gs e s s' :
  holds t L (k_core s) → NoDup L → lk ∉ L → lets_in t L lk gs (set_k_core (core_push (k_core s)) s) s' →
  ∃ c, acquire lk (gs ++ e) s = Ret tt e (set_k_core c s') ∧ ctx t (lk :: L) c.
Proof.
  intros H Hnd Hlk Hl. destruct (ho_cpu _ _ _ H) as (cp & Hcp & _). unfold acquire.
  mrun (push_off_run cp (gs ++ e) s Hcp). mrun (lets_in_holding t L lk gs (gs ++ e) _ s' Hl Hlk).
  mrun (spin_waits t L lk gs e _ s' Hl Hlk). destruct (lets_in_end _ _ _ _ _ _ Hl) as [Hs Hf].
  eexists. split; [|by apply spinning_takes]. unfold cpuid, modify_core, test_and_set, modify. mstep.
  cbn [k_core set_k_core]. by rewrite upd_lock_upd.
Qed.

(** Giving up the only lock. *)
Lemma release_holds t lk e s :
  holds t [lk] (k_core s) →
  ∃ c, release lk e s = Ret tt e (set_k_core c s) ∧ holds t [] c ∧
    ∀ lk', lock_of c lk' = if decide (lk = lk') then mkspin 0 (sl_name (lock_of (k_core s) lk)) None else lock_of (k_core s) lk'.
Proof.
  intros [H1 (cp & H2 & H3 & H4 & H5 & H6) H7]. destruct (H6 ltac:(done)) as [Hi Hie].
  exists (core_rel lk cp (k_core s)). split_and!.
  - apply release_run; [done|apply H7; by constructor|done|rewrite H4; done].
  - split; [done| |by intros lk' ?%elem_of_nil]. exists (set_c_noff (c_noff cp - 1) cp). split_and!; [|done|cbn; rewrite H4; done|..].
    + unfold core_rel, core_pop. cbn. by rewrite list_lookup_alter, decide_True, H2 by done.
    + intros _. cbn. by rewrite H4, Hie.
    + done.
  - intros lk'. apply lock_of_rel.
Qed.

Lemma set_intena_holds h q ie ie' L e s :
  holds (mkthread h q ie) L (k_core s) → L ≠ [] →
  ∃ c, set_mycpu (set_c_intena ie') e s = Ret tt e (set_k_core c s) ∧
       holds (mkthread h q ie') L c ∧ spin c = spin (k_core s).
Proof.
  intros [H1 (cp & H2 & H3 & H4 & H5 & H6) H7] HL.
  eexists. split; [reflexivity|]. split; [|done]. split; [done| |done].
  exists (set_c_intena ie' cp). cbn in *. split_and!; [|done|done|done|].
  - by rewrite list_lookup_alter, decide_True, H2.
  - intros _. split; [by apply H6|done].
Qed.

(** * sleep *)

(** Switched back to on hart [h]: only its own lock is held by the process. *)
Definition back (p h : nat) (s : kstate) : Prop :=
  ∃ ie, holds (mkthread h (Some p) ie) [L_proc p] (k_core s) ∧ length (k_procs s) = nproc.
Definition off_chan (p : nat) (s : kstate) : kstate := set_k_procs (alter (set_p_chan None) p (k_procs s)) s.

(** The rest of the machine while process [p], whose thread is [t], sleeps: it
    lets [p] have its process lock after the steps [gs], switches back to it on
    hart [h] after the step [f], and lets it have [lk] again after the steps
    [gs'].  Of the states it is given only what [sleep] promises is used. *)
Definition sleep_env (t : thread) (p h : nat) (ch : chan) (lk : lockid) (gs : list (kstate → kstate)) (f : kstate → kstate)
    (gs' : list (kstate → kstate)) (s : kstate) : Prop :=
  let t' := mkthread h (Some p) (t_ie t) in
  ∀ c, spinning t [lk] c → (∀ l, lock_of c l = lock_of (k_core s) l) →
  ∃ s1, lets_in t [lk] (L_proc p) gs (set_k_core c s) s1 ∧ length (k_procs s1) = nproc ∧
    ∀ c1, ctx t [L_proc p] c1 →
      let s2 := f (asleep_state p ch c1 s1) in back p h s2 ∧
      ∀ c2, spinning t' [] c2 → (∀ l, lock_of c2 l = if decide (L_proc p = l) then mkspin 0 (sl_name (lock_of (k_core s2) l)) None else lock_of (k_core s2) l) →
      ∃ s3, lets_in t' [] lk gs' (set_k_core c2 (off_chan p s2)) s3.

Lemma sleep_contended t p h ch lk gs f gs' e s :
  holds t [lk] (k_core s) → t_proc t = Some p → lk ≠ L_proc p → (p < nproc)%nat →
  sleep_env t p h ch lk gs f gs' s →
  let t' := mkthread h (Some p) (t_ie t) in
  ∃ c s1 c1 c2 s3 c3, spinning t [lk] c ∧ lets_in t [lk] (L_proc p) gs (set_k_core c s) s1 ∧
    ctx t [L_proc p] c1 ∧
    spinning t' [] c2 ∧ lets_in t' [] lk gs' (set_k_core c2 (off_chan p (f (asleep_state p ch c1 s1)))) s3 ∧
    sleep ch lk (gs ++ f :: gs' ++ e) s = Ret tt e (set_k_core c3 s3) ∧ ctx t' [lk] c3.
Proof.
  intros Hh Ht Hlk Hp Henv t'. unfold sleep.
  destruct (myproc_holds t [lk] (gs ++ f :: gs' ++ e) s Hh) as (c0 & Hr0 & Hh0 & Hsp0). mrun Hr0. rewrite Ht. mstep.
  set (c := core_push c0). assert (Hs : spinning t [lk] c) by (by apply holds_push).
  destruct (Henv c Hs) as (s1 & Hl1 & Hlen1 & Henv1).
  { intros l. unfold c, lock_of. change (spin (core_push c0)) with (spin c0). by rewrite Hsp0. }
  destruct (acquire_waits t [lk] (L_proc p) gs (f :: gs' ++ e) (set_k_core c0 s) s1) as (c4 & Hr4 & Hc4);
    [done|apply NoDup_singleton|set_solver|exact Hl1|]. mrun Hr4.
  destruct (release_ok t [L_proc p; lk] [L_proc p] lk (f :: gs' ++ e) (set_k_core c4 s1)) as (c5 & Hr5 & Hc5);
    [done|apply Permutation_swap|]. mrun Hr5. destruct (lookup_lt_is_Some_2 (k_procs s1) p) as [pr Hpr]; [lia|]. do 2 kmodproc.
  match goal with |- context [bind sched _ _ ?S] => replace S with (asleep_state p ch c5 s1) end.
  2: { unfold asleep_state. kproj. rewrite list_alter_alter_eq.
       change (alter (asleep ch)) with (alter (M := list proc) (set_p_state SLEEPING ∘ set_p_chan (Some ch))). kstate_eq. }
  destruct (sched_swtch t p (asleep ch pr) f (gs' ++ e) (asleep_state p ch c5 s1)) as (c1 & Hc1 & Hr1); [done|done| |done|].
  { unfold asleep_state. kproj. by rewrite list_lookup_alter, decide_True, Hpr. }
  change (set_k_core c1 (asleep_state p ch c5 s1)) with (asleep_state p ch c1 s1) in Hr1.
  destruct (Henv1 c1 Hc1) as [(ie & Hb & Hlen2) Henv2]. set (s2 := f (asleep_state p ch c1 s1)) in *.
  destruct (set_intena_holds h (Some p) ie (t_ie t) [L_proc p] (gs' ++ e) s2 Hb) as (c6 & Hr6 & Hh6 & Hsp6); [done|].
  rewrite Hr6 in Hr1. mrun Hr1. kmodproc. match goal with |- context [bind (release _) _ _ ?S] => set (s6 := S) end.
  destruct (release_holds t' (L_proc p) (gs' ++ e) s6 Hh6) as (c7 & Hr7 & Hh7 & Hl7). mrun Hr7.
  set (c2 := core_push c7). assert (Hs2 : spinning t' [] c2) by (by apply holds_push).
  destruct (Henv2 c2 Hs2) as (s3 & Hl3).
  { intros l. change (lock_of c2 l) with (lock_of c7 l). rewrite Hl7. change (k_core s6) with c6. unfold lock_of. rewrite Hsp6.
    case_decide; [by subst l|done]. }
  destruct (acquire_waits t' [] lk gs' e (set_k_core c7 s6) s3) as (c3 & Hr3 & Hc3);
    [done|constructor|apply not_elem_of_nil|exact Hl3|].
  exists c, s1, c1, c2, s3, c3. split_and!; done.
Qed.

(** C15: [sleep] never has both locks free before the process is off the
    processor.  While it waits for the process's own lock it still holds the
    condition lock (in every state the other harts get, however often it
    tries); it gives up the condition lock only with its own lock held, and
    that lock it keeps until [swtch], where the rest of the machine finds the
    process asleep on its channel, holding nothing else and with the condition
    lock free.  When it is switched back to, possibly on another hart, it gets
    off the channel and waits for the condition lock with no lock held, so that
    it does not block a [wakeup]; it returns holding exactly the condition lock,
    with its own interrupt state. *)
Theorem sleep_handoff t p h ch lk gs f gs' e s :
  holds t [lk] (k_core s) → t_proc t = Some p → lk ≠ L_proc p → (p < nproc)%nat →
  sleep_env t p h ch lk gs f gs' s →
  let t' := mkthread h (Some p) (t_ie t) in
  ∃ c s1 c1 c2 s3 c3, spinning t [lk] c ∧ lets_in t [lk] (L_proc p) gs (set_k_core c s) s1 ∧
    ctx t [L_proc p] c1 ∧
    spinning t' [] c2 ∧ lets_in t' [] lk gs' (set_k_core c2 (off_chan p (f (asleep_state p ch c1 s1)))) s3 ∧
    sleep ch lk (gs ++ f :: gs' ++ e) s = Ret tt e (set_k_core c3 s3) ∧ ctx t' [lk] c3.
Proof. apply sleep_contended. Qed.

(** Hart 1 holds the lock of process 0, which hart 0 runs, and gives it up; it
    has the lock of the log when process 0 is switched back to, and gives that
    up too. *)
Definition set_lock (lk : lockid) (v : Z) (o : option nat) (s : kstate) : kstate :=
  set_k_core (upd_lock lk (λ _, mkspin v "" o) (k_core s)) s.
Definition busy_state : kstate :=
  set_lock (L_proc 0) 1 (Some 1%nat) (set_k_core (core_acq L_log (proc0_core true)) (proc0_state true)).

Lemma spinning_upd t L lk x c : spinning t L c → lk ∉ L → spinning t L (upd_lock lk x c).
Proof.
  intros [H1 H2 H3 H4] Hlk. split; [done|done|done|]. intros l Hl. rewrite lock_of_upd, decide_False by (by intros ->).
  by apply H4.
Qed.
Lemma proc0_log : ctx (proc0_thread true) [L_log] (core_acq L_log (proc0_core true)).
Proof. apply (ctx_acq (proc0_thread true) []); [apply proc0_ctx|apply not_elem_of_nil]. Qed.

Lemma busy_env :
  sleep_env (proc0_thread true) 0 0 Ch_log L_log [set_lock (L_proc 0) 0 None] (set_lock L_log 1 (Some 1%nat)) [set_lock L_log 0 None] busy_state.
Proof.
  intros c Hs Hl. assert (Hb : ∀ l, lock_of c l = if decide (L_proc 0 = l) then mkspin 1 "" (Some 1%nat) else lock_of (core_acq L_log (proc0_core true)) l).
  { intros l. rewrite Hl. apply (lock_of_upd (L_proc 0)). }
  eexists. split_and!; [|..].
  - split; [done|]. split; [cbn [k_core set_k_core]; rewrite Hb; by rewrite decide_True|].
    split; [by apply spinning_upd; [|intros ?%list_elem_of_singleton]|]. split; [reflexivity|]. intros l Hln. unfold set_lock. kproj. rewrite lock_of_upd.
    destruct (decide (L_proc 0 = l)); [done|]. rewrite Hb, decide_False by done. by apply (ctx_free _ _ _ proc0_log).
  - reflexivity.
  - intros c1 Hc1 s2. split.
    { exists true. split; [|reflexivity]. apply ctx_holds in Hc1 as [K1 K2 K3]. split; [done|done|]. intros l Hln. unfold s2, set_lock, asleep_state. kproj.
      rewrite lock_of_upd, decide_False by (apply list_elem_of_singleton in Hln as ->; done). by apply K3. }
    intros c2 Hs2 Hl2. assert (Hb2 : ∀ l, lock_of (k_core s2) l = if decide (L_log = l) then mkspin 1 "" (Some 1%nat) else lock_of c1 l).
    { intros l. unfold s2, set_lock, asleep_state. kproj. apply lock_of_upd. }
    eexists. split; [done|]. split.
    + cbn [k_core set_k_core]. rewrite Hl2, decide_False, Hb2, decide_True by done. done.
    + split; [by apply spinning_upd; [|apply not_elem_of_nil]|]. split; [reflexivity|]. intros l _. unfold set_lock. kproj. rewrite lock_of_upd.
      destruct (decide (L_log = l)); [done|]. rewrite Hl2. case_decide as Hp; [done|]. rewrite Hb2, decide_False by done.
      apply (ctx_free _ _ _ Hc1). by intros ->%list_elem_of_singleton.
Qed.

Lemma sleep_handoff_witness :
  ∃ s', sleep Ch_log L_log [set_lock (L_proc 0) 0 None; set_lock L_log 1 (Some 1%nat); set_lock L_log 0 None] busy_state = Ret tt [] s' ∧
    ctx (proc0_thread true) [L_log] (k_core s').
Proof.
  destruct (sleep_handoff (proc0_thread true) 0 0 Ch_log L_log [set_lock (L_proc 0) 0 None] (set_lock L_log 1 (Some 1%nat))
    [set_lock L_log 0 None] [] busy_state) as (c & s1 & c1 & c2 & s3 & c3 & _ & _ & _ & _ & _ & Hr & Hc).
  - destruct (ctx_holds _ _ _ proc0_log) as [K1 K2 K3]. split; [exact K1|exact K2|]. intros l Hl. unfold busy_state, set_lock. kproj.
    rewrite lock_of_upd, decide_False by (apply list_elem_of_singleton in Hl as ->; discriminate). exact (K3 l Hl).
  - reflexivity.
  - discriminate.
  - apply Nat.ltb_lt. reflexivity.
  - exact busy_env.
  - eexists. exact (conj Hr Hc).
Defined.
