(* ===== verification/Wakeup.v ===== *)
(** No wakeup is lost: [sleep] and [wakeup] of kernel/proc.c, taken apart into
    the lock operations and shared accesses they make, run by a process that
    waits for a condition and any number of processes that make it true.

    The waiting process runs the loop of every caller of [sleep]
      [acquire(lk); while(!cond) sleep(chan, lk);]
    and the others run
      [acquire(lk); cond = 1; wakeup(chan); release(lk);].
    Locks are owners here: Spinlock.v shows that the spin-locks exclude. While
    the process is switched out, its steps are those of the scheduler. *)

From S2P Require Import Prelude Mem KString Params Kernel Spinlock Sched.

Inductive agent : Type := Sleeper | Waker (i : nat).
#[export] Instance agent_eq_dec : EqDecision agent.
Proof. solve_decision. Defined.

(** The waiting process, before each of its steps. *)
Inductive spc : Type :=
| S_acq       (* acquire(lk) *)
| S_test      (* while(!cond) *)
| S_acq_p     (* sleep: acquire(&p->lock) *)
| S_rel       (* sleep: release(lk) *)
| S_chan      (* sleep: p->chan = chan *)
| S_state     (* sleep: p->state = SLEEPING *)
| S_out       (* swtch to the scheduler, which does release(&p->lock) *)
| S_off       (* switched out; the scheduler does acquire(&p->lock) *)
| S_pick      (* the scheduler tests p->state == RUNNABLE *)
| S_unchan    (* sleep: p->chan = 0 *)
| S_rel_p     (* sleep: release(&p->lock) *)
| S_reacq     (* sleep: acquire(lk) *)
| S_done.     (* out of the loop, with lk *)

(** A process that makes the condition true. *)
Inductive wpc : Type :=
| W_acq       (* acquire(lk) *)
| W_set       (* cond = 1 *)
| W_acq_p     (* wakeup: acquire(&p->lock) *)
| W_wake      (* wakeup: test and set p->state *)
| W_rel_p     (* wakeup: release(&p->lock) *)
| W_rel       (* release(lk) *)
| W_done.

Record shared : Type := mkshared {
  lk : option agent;
  plk : option agent;
  cond : bool;
  st : procstate;
  on_chan : bool
}.

Definition take (a : agent) (o : option agent) : option (option agent) :=
  match o with None => Some (Some a) | Some _ => None end.

Definition sleeper_step (pc : spc) (s : shared) : option (spc * shared) :=
  match pc with
  | S_acq => l ← take Sleeper (lk s); Some (S_test, mkshared l (plk s) (cond s) (st s) (on_chan s))
  | S_test => Some (if cond s then S_done else S_acq_p, s)
  | S_acq_p => l ← take Sleeper (plk s); Some (S_rel, mkshared (lk s) l (cond s) (st s) (on_chan s))
  | S_rel => Some (S_chan, mkshared None (plk s) (cond s) (st s) (on_chan s))
  | S_chan => Some (S_state, mkshared (lk s) (plk s) (cond s) (st s) true)
  | S_state => Some (S_out, mkshared (lk s) (plk s) (cond s) SLEEPING (on_chan s))
  | S_out => Some (S_off, mkshared (lk s) None (cond s) (st s) (on_chan s))
  | S_off => l ← take Sleeper (plk s); Some (S_pick, mkshared (lk s) l (cond s) (st s) (on_chan s))
  | S_pick =>
      if bool_decide (st s = RUNNABLE)
      then Some (S_unchan, mkshared (lk s) (plk s) (cond s) RUNNING (on_chan s))
      else Some (S_off, mkshared (lk s) None (cond s) (st s) (on_chan s))
  | S_unchan => Some (S_rel_p, mkshared (lk s) (plk s) (cond s) (st s) false)
  | S_rel_p => Some (S_reacq, mkshared (lk s) None (cond s) (st s) (on_chan s))
  | S_reacq => l ← take Sleeper (lk s); Some (S_test, mkshared l (plk s) (cond s) (st s) (on_chan s))
  | S_done => None
  end.

Definition waker_step (i : nat) (pc : wpc) (s : shared) : option (wpc * shared) :=
  match pc with
  | W_acq => l ← take (Waker i) (lk s); Some (W_set, mkshared l (plk s) (cond s) (st s) (on_chan s))
  | W_set => Some (W_acq_p, mkshared (lk s) (plk s) true (st s) (on_chan s))
  | W_acq_p => l ← take (Waker i) (plk s); Some (W_wake, mkshared (lk s) l (cond s) (st s) (on_chan s))
  | W_wake =>
      Some (W_rel_p, mkshared (lk s) (plk s) (cond s)
        (if bool_decide (st s = SLEEPING) && on_chan s then RUNNABLE else st s) (on_chan s))
  | W_rel_p => Some (W_rel, mkshared (lk s) None (cond s) (st s) (on_chan s))
  | W_rel => Some (W_done, mkshared None (plk s) (cond s) (st s) (on_chan s))
  | W_done => None
  end.

Record sys : Type := mksys { sh : shared; sp : spc; wp : nat → wpc }.

Definition by_sleeper (s : sys) : option sys :=
  '(pc, h) ← sleeper_step (sp s) (sh s); Some (mksys h pc (wp s)).
Definition by_waker (i : nat) (s : sys) : option sys :=
  '(pc, h) ← waker_step i (wp s i) (sh s); Some (mksys h (sp s) (<[i := pc]> (wp s))).

Inductive step : sys → sys → Prop :=
| step_sleeper s s' : by_sleeper s = Some s' → step s s'
| step_waker i s s' : by_waker i s = Some s' → step s s'.

Definition init : sys := mksys (mkshared None None false RUNNING false) S_acq (λ _, W_acq).

(** * The invariant *)

Definition s_has_lk (pc : spc) : bool :=
  match pc with S_test | S_acq_p | S_rel | S_done => true | _ => false end.
Definition s_has_plk (pc : spc) : bool :=
  match pc with
  | S_rel | S_chan | S_state | S_out | S_pick | S_unchan | S_rel_p => true
  | _ => false
  end.
Definition w_has_lk (pc : wpc) : bool :=
  match pc with W_set | W_acq_p | W_wake | W_rel_p | W_rel => true | _ => false end.
Definition w_has_plk (pc : wpc) : bool :=
  match pc with W_wake | W_rel_p => true | _ => false end.
(** The waker has set the condition and not yet looked at the process. *)
Definition w_will_wake (pc : wpc) : bool :=
  match pc with W_acq_p | W_wake => true | _ => false end.

Definition has_lk (s : sys) (a : agent) : bool :=
  match a with Sleeper => s_has_lk (sp s) | Waker i => w_has_lk (wp s i) end.
Definition has_plk (s : sys) (a : agent) : bool :=
  match a with Sleeper => s_has_plk (sp s) | Waker i => w_has_plk (wp s i) end.

(** The process has decided to sleep, or sleeps. *)
Definition going_to_sleep (s : sys) : bool :=
  match sp s with
  | S_chan | S_state => true
  | S_out | S_off | S_pick => bool_decide (st (sh s) = SLEEPING)
  | _ => false
  end.

(** What the process knows at each point. *)
Definition pc_ok (pc : spc) (h : shared) : Prop :=
  match pc with
  | S_acq_p | S_rel => cond h = false
  | S_state => on_chan h = true
  | S_out | S_off | S_pick => on_chan h = true ∧ (st h = SLEEPING ∨ st h = RUNNABLE)
  | _ => True
  end.

Record inv (s : sys) : Prop := {
  inv_lk : ∀ a, lk (sh s) = Some a ↔ has_lk s a = true;
  inv_plk : ∀ a, plk (sh s) = Some a ↔ has_plk s a = true;
  inv_pc : pc_ok (sp s) (sh s);
  inv_wake : going_to_sleep s = true → cond (sh s) = true → ∃ i, w_will_wake (wp s i) = true
}.

Definition owns (o : option agent) (P : agent → bool) : Prop := ∀ a, o = Some a ↔ P a = true.

Lemma owns_take o P P' a0 :
  owns o P → o = None → P' a0 = true → (∀ a, a ≠ a0 → P' a = P a) → owns (Some a0) P'.
Proof.
  intros H -> Ha Hr a. destruct (decide (a = a0)) as [->|Hne]; [done|].
  rewrite (Hr a Hne), <-(H a). split; congruence.
Qed.

Lemma owns_drop o P P' a0 :
  owns o P → P a0 = true → P' a0 = false → (∀ a, a ≠ a0 → P' a = P a) → owns None P'.
Proof.
  intros H H0 Ha Hr a. apply H in H0. destruct (decide (a = a0)) as [->|Hne]; [by rewrite Ha|].
  rewrite (Hr a Hne), <-(H a). split; congruence.
Qed.

Lemma owns_keep o P P' : owns o P → (∀ a, P' a = P a) → owns o P'.
Proof. intros H Hr a. by rewrite Hr. Qed.

Lemma take_Some a o o' : take a o = Some o' → o = None ∧ o' = Some a.
Proof. destruct o; cbn; intros ?; simplify_eq; done. Qed.

Lemma insert_wpc i p (w : nat → wpc) j : (<[i := p]> w) j = if decide (i = j) then p else w j.
Proof. done. Qed.

(** Agents other than the one that moves have the locks they had. *)
Ltac owns_rest :=
  let a := fresh "a" in let j := fresh "j" in
  intros a; destruct a as [|j]; cbn;
  rewrite ?insert_wpc; try case_decide; subst; try congruence; try done; intros; simplify_eq.

Ltac keep H := eapply owns_keep; [exact H|owns_rest].
Ltac grab H := eapply owns_take; [exact H|done|done|owns_rest].
Ltac drop a H := eapply (owns_drop _ _ _ a); [exact H|done|done|owns_rest].

Lemma inv_sleeper s s' : inv s → by_sleeper s = Some s' → inv s'.
Proof.
  destruct s as [[l p c x o] pc w]. intros [H1 H2 H3 H4] Hst.
  fold (owns l (has_lk (mksys (mkshared l p c x o) pc w))) in H1.
  fold (owns p (has_plk (mksys (mkshared l p c x o) pc w))) in H2.
  unfold by_sleeper in Hst. unfold going_to_sleep in H4. destruct pc; cbn in Hst, H3, H4.
  - destruct (take Sleeper l) eqn:Ht; cbn in Hst; simplify_eq. apply take_Some in Ht as [-> ->].
    split; [grab H1|keep H2|done|done].
  - destruct c; simplify_eq; (split; [keep H1|keep H2|done|done]).
  - destruct (take Sleeper p) eqn:Ht; cbn in Hst; simplify_eq. apply take_Some in Ht as [-> ->].
    split; [keep H1|grab H2|done|done].
  - simplify_eq. split; [drop Sleeper H1|keep H2|done|done].
  - simplify_eq. split; [keep H1|keep H2|done|done].
  - simplify_eq. split; [keep H1|keep H2|by cbn; auto|intros _; by apply H4].
  - simplify_eq. split; [keep H1|drop Sleeper H2|done|done].
  - destruct (take Sleeper p) eqn:Ht; cbn in Hst; simplify_eq. apply take_Some in Ht as [-> ->].
    split; [keep H1|grab H2|done|done].
  - case_bool_decide; cbn in Hst; simplify_eq; [split; [keep H1|keep H2|done|done]|].
    split; [keep H1|drop Sleeper H2|done|done].
  - simplify_eq. split; [keep H1|keep H2|done|done].
  - simplify_eq. split; [keep H1|drop Sleeper H2|done|done].
  - destruct (take Sleeper l) eqn:Ht; cbn in Hst; simplify_eq. apply take_Some in Ht as [-> ->].
    split; [grab H1|keep H2|done|done].
  - done.
Qed.

(** A waker that is past its step can still be one that will wake the
    process, unless it is the one that moved. *)
Lemma will_wake_insert (w : nat → wpc) i pc :
  w_will_wake pc = w_will_wake (w i) →
  (∃ j, w_will_wake (w j) = true) → ∃ j, w_will_wake ((<[i := pc]> w) j) = true.
Proof.
  intros Hp [j Hj]. exists j. rewrite insert_wpc. case_decide; [|done]. subst. by rewrite Hp.
Qed.

Lemma inv_waker i s s' : inv s → by_waker i s = Some s' → inv s'.
Proof.
  destruct s as [[l p c x o] pc w]. intros [H1 H2 H3 H4] Hst.
  unfold by_waker in Hst. cbn in Hst. destruct (w i) eqn:Hi; cbn in Hst.
  - destruct (take (Waker i) l) eqn:Ht; cbn in Hst; simplify_eq. apply take_Some in Ht as [-> ->].
    split; [eapply owns_take; [exact H1|done|cbn; by rewrite insert_wpc, decide_True|owns_rest]
           |eapply owns_keep; [exact H2|owns_rest; by rewrite Hi]|done|].
    intros Hg Hc. apply will_wake_insert; [by rewrite Hi|by apply H4].
  - simplify_eq.
    assert (Hl : l = Some (Waker i)) by (apply H1; cbn; by rewrite Hi).
    split; [eapply owns_keep; [exact H1|owns_rest; by rewrite Hi]
           |eapply owns_keep; [exact H2|owns_rest; by rewrite Hi]| |].
    + destruct pc; cbn in *; try done.
      all: exfalso; assert (l = Some Sleeper) by (by apply H1); congruence.
    + intros _ _. exists i. cbn. by rewrite insert_wpc, decide_True.
  - destruct (take (Waker i) p) eqn:Ht; cbn in Hst; simplify_eq. apply take_Some in Ht as [-> ->].
    split; [eapply owns_keep; [exact H1|owns_rest; by rewrite Hi]
           |eapply owns_take; [exact H2|done|cbn; by rewrite insert_wpc, decide_True|owns_rest]|done|].
    intros Hg Hc. apply will_wake_insert; [by rewrite Hi|by apply H4].
  - simplify_eq.
    assert (Hl : p = Some (Waker i)) by (apply H2; cbn; by rewrite Hi).
    assert (Hs : s_has_plk pc = false).
    { destruct (s_has_plk pc) eqn:Hs; [|done]. assert (p = Some Sleeper) by (by apply H2). congruence. }
    split; [eapply owns_keep; [exact H1|owns_rest; by rewrite Hi]
           |eapply owns_keep; [exact H2|owns_rest; by rewrite Hi]| |].
    + destruct pc; cbn in *; try done. destruct H3 as [-> [-> | ->]]; cbn; auto.
    + intros Hg. exfalso. destruct pc; cbn in *; try done. destruct H3 as [-> [-> | ->]]; done.
  - simplify_eq.
    split; [eapply owns_keep; [exact H1|owns_rest; by rewrite Hi]
           |eapply (owns_drop _ _ _ (Waker i)); [exact H2|cbn; by rewrite Hi
             |cbn; by rewrite insert_wpc, decide_True|owns_rest]|done|].
    intros Hg Hc. apply will_wake_insert; [by rewrite Hi|by apply H4].
  - simplify_eq.
    split; [eapply (owns_drop _ _ _ (Waker i)); [exact H1|cbn; by rewrite Hi
             |cbn; by rewrite insert_wpc, decide_True|owns_rest]
           |eapply owns_keep; [exact H2|owns_rest; by rewrite Hi]|done|].
    intros Hg Hc. apply will_wake_insert; [by rewrite Hi|by apply H4].
  - done.
Qed.

Lemma inv_at_init : inv init.
Proof. split; [intros []; done|intros []; done|done|done]. Qed.

Lemma inv_all s : rtc step init s → inv s.
Proof.
  intros H. remember init as s0 eqn:Hs0. assert (Hi : inv s0) by (subst; apply inv_at_init).
  clear Hs0. induction H as [|s1 s2 s3 [s s' Hst|i s s' Hst] _ IH]; [done|..]; apply IH.
  - by eapply inv_sleeper.
  - by eapply inv_waker.
Qed.

(** No waker is inside its critical section. *)
Definition wakers_out (s : sys) : Prop := ∀ i, wp s i = W_acq ∨ wp s i = W_done.

Lemma wakers_out_locks s :
  inv s → wakers_out s →
  lk (sh s) = (if s_has_lk (sp s) then Some Sleeper else None) ∧
  plk (sh s) = (if s_has_plk (sp s) then Some Sleeper else None).
Proof.
  intros [H1 H2 _ _] Hw. split.
  - destruct (s_has_lk (sp s)) eqn:Hs; [by apply H1|].
    destruct (lk (sh s)) as [[|i]|]; [..|done]; pose proof (proj1 (H1 _) eq_refl) as Hl;
      cbn in Hl; [congruence|].
    destruct (Hw i) as [Hi|Hi]; by rewrite Hi in Hl.
  - destruct (s_has_plk (sp s)) eqn:Hs; [by apply H2|].
    destruct (plk (sh s)) as [[|i]|]; [..|done]; pose proof (proj1 (H2 _) eq_refl) as Hl;
      cbn in Hl; [congruence|].
    destruct (Hw i) as [Hi|Hi]; by rewrite Hi in Hl.
Qed.

Lemma awake s :
  inv s → wakers_out s → cond (sh s) = true → going_to_sleep s = false.
Proof.
  intros Hi Hw Hc. destruct (going_to_sleep s) eqn:Hg; [|done].
  destruct (inv_wake _ Hi Hg Hc) as [i Hi']. by destruct (Hw i) as [Hx|Hx]; rewrite Hx in Hi'.
Qed.

(** C14: No wakeup is lost: however the lock operations and accesses of [sleep] and
    [wakeup] interleave, once the condition is true and no waker is inside its
    critical section, the waiting process is not asleep: if it is switched
    out, it is RUNNABLE, and it gets out of its loop with the condition lock
    by its own and the scheduler's steps alone, nobody having to wake it
    again. *)
Theorem no_lost_wakeup s :
  rtc step init s → cond (sh s) = true → wakers_out s →
  (sp s = S_off → st (sh s) = RUNNABLE) ∧
  ∃ s', rtc (λ s s', by_sleeper s = Some s') s s' ∧ sp s' = S_done ∧ lk (sh s') = Some Sleeper.
Proof.
  intros Hr Hc Hw. pose proof (inv_all _ Hr) as Hi.
  pose proof (awake s Hi Hw Hc) as Ha. pose proof (wakers_out_locks s Hi Hw) as [Hl Hp].
  pose proof (inv_pc _ Hi) as Hpc.
  destruct s as [[l p c x o] pc w]. cbn in *. subst c. split.
  - intros ->. cbn in *. destruct Hpc as [_ [->|]]; done.
  - destruct pc; cbn in *; try congruence; subst l p.
    all: try match type of Hpc with _ ∧ _ => destruct Hpc as [_ [->| ->]]; [done|] end.
    all: eexists; split; [|shelve].
    all: repeat (eapply rtc_l; [cbv; reflexivity|]); apply rtc_refl.
    Unshelve. all: done.
Qed.

(** A wait in which the waker comes while the process is switched out. *)
Definition run_agents (l : list agent) (s : sys) : option sys :=
  foldl (λ o a, s ← o; match a with Sleeper => by_sleeper s | Waker i => by_waker i s end) (Some s) l.

Lemma run_agents_rtc l s s' : run_agents l s = Some s' → rtc step s s'.
Proof.
  unfold run_agents. revert s. induction l as [|a l IH]; intros s Hr; cbn in Hr.
  - simplify_eq. apply rtc_refl.
  - assert (Hn : foldl (λ o a, s ← o; match a with Sleeper => by_sleeper s | Waker i => by_waker i s end)
      None l = @None sys) by (clear; by induction l).
    destruct a as [|i].
    + destruct (by_sleeper s) as [s1|] eqn:Hs; [|congruence].
      eapply rtc_l; [by apply step_sleeper|by apply IH].
    + destruct (by_waker i s) as [s1|] eqn:Hs; [|congruence].
      eapply rtc_l; [by eapply step_waker|by apply IH].
Qed.

Lemma no_lost_wakeup_witness :
  match run_agents (replicate 7 Sleeper ++ replicate 6 (Waker 3)) init with
  | Some s => sp s = S_off ∧ st (sh s) = RUNNABLE
  | None => False
  end.
Proof.
  destruct (run_agents (replicate 7 Sleeper ++ replicate 6 (Waker 3)) init) as [s|] eqn:Hs;
    [|vm_compute in Hs; discriminate].
  pose proof (run_agents_rtc _ _ _ Hs) as Hr. vm_compute in Hs. simplify_eq.
  split; [reflexivity|]. refine (proj1 (no_lost_wakeup _ Hr _ _) _); [reflexivity| |reflexivity].
  intros i. cbn. destruct (decide (3%nat = i)); subst; auto.
  destruct i as [|[|[|[|i]]]]; auto.
Defined.
