(* ===== verification/Sleeplock.v ===== *)
(** kernel/sleeplock.c: locks that are held across sleeps.

    A sleep-lock records the pid of its holder and is protected by a
    spin-lock of its own. [runs p pid ie L s] describes a process [p] in the
    kernel: it is what the specifications of the file system's layers are
    stated with. *)

From S2P Require Import Prelude Mem KString Params Kernel Spinlock Sched.

(** * The code *)

Definition slock_of (s : kstate) (sl : sleepid) : sleeplock :=
  default zero_sleeplock (k_slocks s !! sl).
Definition upd_slock (sl : sleepid) (f : sleeplock → sleeplock) (s : kstate) : kstate :=
  set_k_slocks (<[sl := f (slock_of s sl)]> (k_slocks s)) s.

Definition initsleeplock (sl : sleepid) (name : string) : K unit :=
  initlock (L_sleep sl) "sleep lock" ;;;
  modify (upd_slock sl (λ l, mksleep (sll_locked l) name (sll_pid l))) ;;;
  modify (upd_slock sl (λ l, mksleep 0 (sll_name l) (sll_pid l))) ;;;
  modify (upd_slock sl (λ l, mksleep (sll_locked l) (sll_name l) 0)).

Definition acquiresleep_wait (sl : sleepid) (_ : unit) : K (unit + unit) :=
  l <- gets (λ s, slock_of s sl) ;;
  if negb (sll_locked l =? 0)
  then sleep (Ch_sleep sl) (L_sleep sl) ;;; ret (inl tt)
  else ret (inr tt).

Definition acquiresleep (sl : sleepid) : K unit :=
  acquire (L_sleep sl) ;;;
  loop (acquiresleep_wait sl) tt ;;;
  modify (upd_slock sl (λ l, mksleep 1 (sll_name l) (sll_pid l))) ;;;
  p <- myproc ;;
  p <- deref p ;;
  pr <- proc_of p ;;
  modify (upd_slock sl (λ l, mksleep (sll_locked l) (sll_name l) (p_pid pr))) ;;;
  release (L_sleep sl).

Definition releasesleep (sl : sleepid) : K unit :=
  acquire (L_sleep sl) ;;;
  modify (upd_slock sl (λ l, mksleep 0 (sll_name l) (sll_pid l))) ;;;
  modify (upd_slock sl (λ l, mksleep (sll_locked l) (sll_name l) 0)) ;;;
  wakeup (Ch_sleep sl) ;;;
  release (L_sleep sl).

Definition holdingsleep (sl : sleepid) : K bool :=
  acquire (L_sleep sl) ;;;
  l <- gets (λ s, slock_of s sl) ;;
  r <- (if negb (sll_locked l =? 0) then
          p <- myproc ;;
          p <- deref p ;;
          pr <- proc_of p ;;
          ret (sll_pid l =? p_pid pr)
        else ret false) ;;
  release (L_sleep sl) ;;;
  ret r.

(** * Specifications *)

Lemma slock_of_upd sl f s sl' :
  slock_of (upd_slock sl f s) sl' = if decide (sl = sl') then f (slock_of s sl) else slock_of s sl'.
Proof. unfold slock_of at 1, upd_slock. cbn. rewrite lookup_insert. by case_decide; simplify_eq. Qed.

Lemma upd_slock_upd sl f g s : upd_slock sl f (upd_slock sl g s) = upd_slock sl (f ∘ g) s.
Proof.
  unfold upd_slock at 1. rewrite slock_of_upd, decide_True by done. unfold upd_slock. kproj.
  rewrite insert_insert_eq. unfold compose. kstate_eq.
Qed.

(** The two states of a sleep-lock; its name never changes. *)
Definition slock_taken (pid : Z) (l : sleeplock) : sleeplock := mksleep 1 (sll_name l) pid.
Definition slock_released (l : sleeplock) : sleeplock := mksleep 0 (sll_name l) 0.

Lemma upd_slock_core sl f c s :
  upd_slock sl f (set_k_core c s) = set_k_core c (upd_slock sl f s).
Proof. done. Qed.

Lemma acquiresleep_finish t L p pr sl e s :
  ctx t (L_sleep sl :: L) (k_core s) → t_proc t = Some p → k_procs s !! p = Some pr →
  ∃ c, (modify (upd_slock sl (λ l, mksleep 1 (sll_name l) (sll_pid l))) ;;;
        p <- myproc ;; p <- deref p ;; pr <- proc_of p ;;
        modify (upd_slock sl (λ l, mksleep (sll_locked l) (sll_name l) (p_pid pr))) ;;;
        release (L_sleep sl)) e s
       = Ret tt e (set_k_core c (upd_slock sl (slock_taken (p_pid pr)) s)) ∧ ctx t L c.
Proof.
  intros Hc Ht Hp. mstep. kmyproc c1 Hc1. rewrite Ht. mstep. kproc Hp. mstep.
  rewrite !upd_slock_core, upd_slock_upd. krelease c2 Hc2. by exists c2.
Qed.

Lemma acquiresleep_ok t L p pr sl e s :
  ctx t L (k_core s) → t_proc t = Some p → k_procs s !! p = Some pr → L_sleep sl ∉ L →
  sll_locked (slock_of s sl) = 0 →
  ∃ c, acquiresleep sl e s = Ret tt e (set_k_core c (upd_slock sl (slock_taken (p_pid pr)) s)) ∧
       ctx t L c.
Proof.
  intros Hc Ht Hp HL Hfree. unfold acquiresleep. kacquire c1 Hc1.
  rewrite (bind_Ret _ _ tt e e (set_k_core c1 s) (set_k_core c1 s)).
  2: { apply loop_exit. unfold acquiresleep_wait. mstep.
       change (slock_of (set_k_core c1 s) sl) with (slock_of s sl). by rewrite Hfree. }
  destruct (acquiresleep_finish t L p pr sl e (set_k_core c1 s)) as (c2 & Hr & Hc2); [done..|].
  exists c2. by rewrite Hr.
Qed.

Lemma releasesleep_ok t L sl e s :
  ctx t L (k_core s) → length (k_procs s) = nproc → no_proc_locks t L → L_sleep sl ∉ L →
  ∃ c, releasesleep sl e s =
         Ret tt e (set_k_core c (set_k_procs (woken (t_proc t) (Ch_sleep sl) (k_procs s))
           (upd_slock sl slock_released s))) ∧ ctx t L c.
Proof.
  intros Hc Hlen Hnp HL. unfold releasesleep. kacquire c1 Hc1. mstep.
  rewrite !upd_slock_core, upd_slock_upd.
  match goal with |- context [bind (wakeup ?ch) _ ?e ?S] =>
    destruct (wakeup_ok t (L_sleep sl :: L) ch e S) as (c2 & Hr & Hc2); [done|done| |] end.
  { intros i Hi. apply not_elem_of_cons. split; [done|]. by apply Hnp. }
  mrun Hr. krelease c3 Hc3. by exists c3.
Qed.

Lemma holdingsleep_ok t L p pr sl e s :
  ctx t L (k_core s) → t_proc t = Some p → k_procs s !! p = Some pr → L_sleep sl ∉ L →
  ∃ c, holdingsleep sl e s =
         Ret (negb (sll_locked (slock_of s sl) =? 0) && (sll_pid (slock_of s sl) =? p_pid pr)) e
           (set_k_core c s) ∧ ctx t L c.
Proof.
  intros Hc Ht Hp HL. unfold holdingsleep. kacquire c1 Hc1. mstep.
  change (slock_of (set_k_core c1 s) sl) with (slock_of s sl).
  destruct (negb (sll_locked (slock_of s sl) =? 0)); cbn [andb].
  - mstep. kmyproc c2 Hc2. rewrite Ht. mstep. kproc Hp. mstep. krelease c3 Hc3. exists c3.
    split; [kstate_eq|done].
  - mstep. krelease c3 Hc3. exists c3. split; [kstate_eq|done].
Qed.

(** ** A process in the kernel *)

(** Process [p], with its pid, runs on some hart, holds the spin-locks [L]
    and nobody else holds any. *)
Record runs (p : nat) (pid : Z) (ie : bool) (L : list lockid) (s : kstate) : Prop := mkruns {
  rn_ctx : ∃ h, ctx (mkthread h (Some p) ie) L (k_core s);
  rn_len : length (k_procs s) = nproc;
  rn_pid : p_pid <$> k_procs s !! p = Some pid
}.

Lemma runs_lookup p pid ie L s : runs p pid ie L s → ∃ pr, k_procs s !! p = Some pr ∧ p_pid pr = pid.
Proof. intros [_ _ H]. apply fmap_Some in H as (pr & ? & ?). by exists pr. Qed.

Lemma runs_set_core p pid ie L h c s s' :
  runs p pid ie L s → ctx (mkthread h (Some p) ie) L c → k_procs s' = k_procs s →
  k_core s' = c → runs p pid ie L s'.
Proof. intros [_ H2 H3] Hc Hp <-. split; [by exists h|by rewrite Hp|by rewrite Hp]. Qed.

(** A change of the process table that scheduling makes. *)
Lemma runs_static p pid ie L s s' :
  runs p pid ie L s → (∃ h, ctx (mkthread h (Some p) ie) L (k_core s')) →
  pstatic <$> k_procs s' = pstatic <$> k_procs s → runs p pid ie L s'.
Proof.
  intros [_ H2 H3] Hc Hp. split; [done| |].
  - apply (f_equal length) in Hp. rewrite !length_fmap in Hp. lia.
  - apply (f_equal (λ l, p_pid <$> l !! p)) in Hp. rewrite !list_lookup_fmap, <-!option_fmap_compose in Hp.
    by rewrite <-H3.
Qed.

Lemma wake_pid me ch i p : p_pid (wake me ch i p) = p_pid p.
Proof. unfold wake. by case_match. Qed.

Lemma runs_woken p pid ie L me ch s s' :
  runs p pid ie L s → (∃ h, ctx (mkthread h (Some p) ie) L (k_core s')) →
  k_procs s' = woken me ch (k_procs s) → runs p pid ie L s'.
Proof.
  intros [_ H2 H3] Hc Hp. split; [done|by rewrite Hp, length_woken|].
  rewrite Hp, lookup_woken. destruct (k_procs s !! p) as [pr|]; [|done]. cbn in *.
  by rewrite wake_pid.
Qed.

(** ** Waiting *)

(** A schedule step that, given a state in which [p] is asleep, comes back to
    it on some hart; [P] is what else it leaves. *)
Definition comes_back (p : nat) (pid : Z) (P : kstate → Prop) (f : kstate → kstate) : Prop :=
  ∀ s, (∃ h ie, ctx (mkthread h (Some p) ie) [L_proc p] (k_core s)) →
    length (k_procs s) = nproc → p_pid <$> k_procs s !! p = Some pid →
    (∃ h, resumed p h (f s)) ∧ p_pid <$> k_procs (f s) !! p = Some pid ∧ P (f s).

Definition slock_busy (sl : sleepid) (s : kstate) : Prop := sll_locked (slock_of s sl) ≠ 0.
Definition slock_open (sl : sleepid) (s : kstate) : Prop := sll_locked (slock_of s sl) = 0.

(** One turn of the waiting loop. *)
Lemma sleep_runs p pid ie lk ch P f e s :
  runs p pid ie [lk] s → lk ≠ L_proc p → comes_back p pid P f →
  (∀ s c ps, P s → P (set_k_core c (set_k_procs ps s))) →
  ∃ s', sleep ch lk (f :: e) s = Ret tt e s' ∧ runs p pid ie [lk] s' ∧ P s'.
Proof.
  intros Hrun Hlk Hf HP. destruct (runs_lookup _ _ _ _ _ Hrun) as (pr & Hpr & Hpid).
  destruct Hrun as [(h & Hc) Hlen _].
  destruct (sleep_before (mkthread h (Some p) ie) p pr ch lk f e s) as (c1 & Hc1 & ->); [done..|].
  assert (Hpr' : k_procs (asleep_state p ch c1 s) !! p = Some (asleep ch pr)).
  { unfold asleep_state. kproj. by rewrite list_lookup_alter, decide_True, Hpr. }
  assert (Hb : ∀ c, ctx (mkthread h (Some p) ie) [L_proc p] c →
    (∃ h', resumed p h' (f (set_k_core c (asleep_state p ch c1 s)))) ∧
    p_pid <$> k_procs (f (set_k_core c (asleep_state p ch c1 s))) !! p = Some pid ∧
    P (f (set_k_core c (asleep_state p ch c1 s)))).
  { intros c Hcx. apply Hf; [by exists h, ie| |].
    - unfold asleep_state. kproj. by rewrite length_alter.
    - kproj. rewrite Hpr'. cbn. by rewrite Hpid. }
  destruct (sched_swtch (mkthread h (Some p) ie) p (asleep ch pr) f e (asleep_state p ch c1 s))
    as (c2 & Hc2 & Hr); [done|done|exact Hpr'|done|].
  destruct (Hb c2 Hc2) as ((h' & ie' & Hc3 & Hl3) & Hp3 & HP3).
  set (s3 := f (set_k_core c2 (asleep_state p ch c1 s))) in *.
  destruct (set_intena_ok h' (Some p) ie' ie [L_proc p] e s3) as (c4 & Hr4 & Hc4); [done..|].
  cbn [t_ie] in Hr. rewrite Hr4 in Hr. mrun Hr.
  apply fmap_Some in Hp3 as (pr3 & Hpr3 & Hpid3). kproc Hpr3. krelease c5 Hc5.
  match goal with |- context [acquire lk e ?S] =>
    destruct (acquire_ok (mkthread h' (Some p) ie) [] lk e S) as (c6 & Hr6 & Hc6);
      [done|apply not_elem_of_nil|] end.
  rewrite Hr6. eexists. split; [reflexivity|]. split; [split|].
  - by exists h'.
  - kproj. by rewrite length_alter.
  - kproj. rewrite list_lookup_alter, decide_True, Hpr3 by done. cbn. congruence.
  - specialize (HP s3 c6 (alter (set_p_chan None) p (k_procs s3)) HP3). revert HP.
    kproj. match goal with |- P ?A → P ?B => replace B with A; [done|kstate_eq] end.
Qed.

Lemma acquiresleep_wait_step p pid ie sl P f e s :
  runs p pid ie [L_sleep sl] s → slock_busy sl s → comes_back p pid P f →
  (∀ s c ps, P s → P (set_k_core c (set_k_procs ps s))) →
  ∃ s', acquiresleep_wait sl tt (f :: e) s = Ret (inl tt) e s' ∧
    runs p pid ie [L_sleep sl] s' ∧ P s'.
Proof.
  intros Hr Hb Hf HP. unfold acquiresleep_wait. mstep.
  destruct (Z.eqb_spec (sll_locked (slock_of s sl)) 0); [done|]. cbn [negb].
  destruct (sleep_runs p pid ie (L_sleep sl) (Ch_sleep sl) P f e s) as (s' & Hs & H); [done..|].
  mrun Hs. by exists s'.
Qed.

Lemma acquiresleep_loop p pid ie sl e1 f e2 s :
  runs p pid ie [L_sleep sl] s → slock_busy sl s →
  Forall (comes_back p pid (slock_busy sl)) e1 → comes_back p pid (slock_open sl) f →
  Z.of_nat (length (e1 ++ f :: e2)) < 2 ^ 64 - 1 →
  ∃ s', loop (acquiresleep_wait sl) tt (e1 ++ f :: e2) s = Ret tt e2 s' ∧
    runs p pid ie [L_sleep sl] s'.
Proof.
  intros Hr Hb He1 Hf Hlen.
  destruct (loop_measure (acquiresleep_wait sl) (λ _ e _, Z.of_nat (length e))
    (λ _ e s, runs p pid ie [L_sleep sl] s ∧
       ((∃ e0, e = e0 ++ f :: e2 ∧ Forall (comes_back p pid (slock_busy sl)) e0 ∧ slock_busy sl s) ∨
        (e = e2 ∧ slock_open sl s)))
    (λ _ e s, e = e2 ∧ runs p pid ie [L_sleep sl] s) tt (e1 ++ f :: e2) s)
    as (v & e' & s' & Hl & -> & Hr'); [| |lia|].
  - intros [] e s' [Hr' [(e0 & -> & He0 & Hb')|[-> Ho]]]; (split; [lia|]).
    + destruct e0 as [|g e0]; cbn [app].
      * destruct (acquiresleep_wait_step p pid ie sl (slock_open sl) f e2 s')
          as (s'' & Hs & Hr2 & Ho); [done..|].
        eexists _, _, _. split; [exact Hs|]. split; [split; [done|by right]|cbn; lia].
      * apply Forall_cons in He0 as [Hg He0].
        destruct (acquiresleep_wait_step p pid ie sl (slock_busy sl) g (e0 ++ f :: e2) s')
          as (s'' & Hs & Hr2 & Ho); [done..|].
        eexists _, _, _. split; [exact Hs|]. split; [|cbn; lia].
        split; [done|left]. by exists e0.
    + unfold acquiresleep_wait. mstep. rewrite Ho. cbn [negb Z.eqb].
      eexists _, _, _. split; [reflexivity|]. done.
  - split; [done|left]. by exists e1.
  - destruct v. by exists s'.
Qed.

(** C17: [acquiresleep] waits its turn: when the lock is taken, the process sleeps
    as long as the schedule leaves the lock taken, however often it is woken
    up; the first time it wakes up and finds the lock free it takes it, in
    its own name, and returns with no spin-lock held and its interrupt state
    unchanged. *)
Theorem acquiresleep_waits p pid ie sl e1 f e2 s :
  runs p pid ie [] s → slock_busy sl s →
  Forall (comes_back p pid (slock_busy sl)) e1 → comes_back p pid (slock_open sl) f →
  Z.of_nat (length (e1 ++ f :: e2)) < 2 ^ 64 - 1 →
  ∃ s', acquiresleep sl (e1 ++ f :: e2) s = Ret tt e2 s' ∧ runs p pid ie [] s' ∧
    sll_locked (slock_of s' sl) = 1 ∧ sll_pid (slock_of s' sl) = pid.
Proof.
  intros Hr Hb He1 Hf Hlen. destruct Hr as [(h & Hc) Hl Hp]. unfold acquiresleep.
  kacquire c1 Hc1; [apply not_elem_of_nil|].
  destruct (acquiresleep_loop p pid ie sl e1 f e2 (set_k_core c1 s)) as (s1 & Hs1 & Hr1);
    [split; [by exists h|done|done]|done|done|done|done|].
  mrun Hs1. destruct (runs_lookup _ _ _ _ _ Hr1) as (pr & Hpr & Hpid).
  destruct Hr1 as [(h1 & Hc2) Hl1 Hp1].
  destruct (acquiresleep_finish (mkthread h1 (Some p) ie) [] p pr sl e2 s1) as (c3 & Hs3 & Hc3); [done..|].
  rewrite Hs3. eexists. split; [reflexivity|]. split; [split; [by exists h1|done|done]|].
  change (slock_of (set_k_core c3 ?s) sl) with (slock_of s sl).
  rewrite slock_of_upd, decide_True by done. by rewrite <-Hpid.
Qed.

Lemma comes_back_upd p pid sl g P :
  (∀ s, P (upd_slock sl g s)) → comes_back p pid P (upd_slock sl g).
Proof. intros HP s (h & ie & Hc) Hl Hp. split; [exists h, ie; by split|by split]. Qed.

Lemma slock_busy_taken sl pid s : slock_busy sl (upd_slock sl (slock_taken pid) s).
Proof. unfold slock_busy. by rewrite slock_of_upd, decide_True. Qed.
Lemma slock_open_released sl s : slock_open sl (upd_slock sl slock_released s).
Proof. unfold slock_open. by rewrite slock_of_upd, decide_True. Qed.

Lemma proc0_runs : runs 0 0 true [] (proc0_state true).
Proof. split; [exists 0%nat; apply proc0_ctx|done|done]. Qed.

Lemma acquiresleep_waits_witness :
  ∃ s', acquiresleep (SL_buf 0)
      [upd_slock (SL_buf 0) (slock_taken 7); upd_slock (SL_buf 0) slock_released]
      (upd_slock (SL_buf 0) (slock_taken 7) (proc0_state true)) = Ret tt [] s' ∧
    runs 0 0 true [] s'.
Proof.
  destruct (acquiresleep_waits 0 0 true (SL_buf 0) [upd_slock (SL_buf 0) (slock_taken 7)]
    (upd_slock (SL_buf 0) slock_released) []
    (upd_slock (SL_buf 0) (slock_taken 7) (proc0_state true))) as (s' & Hs & Hr & _).
  - split; [exists 0%nat; exact (proc0_ctx true)|reflexivity|reflexivity].
  - apply slock_busy_taken.
  - constructor; [|constructor]. apply comes_back_upd, slock_busy_taken.
  - apply comes_back_upd, slock_open_released.
  - reflexivity.
  - exists s'. exact (conj Hs Hr).
Defined.
