(* ===== verification/Virtio.v ===== *)
(** kernel/virtio_disk.c: the driver of the virtio disk.

    The device itself is not part of the sources: it is a parameter, with the
    part of the virtio specification the driver relies on as its hypothesis
    [VirtioOk]. While a process sleeps in [virtio_disk_rw], the rest of the
    machine runs: [others] composes, from modelled code, the scheduler letting
    go of the process, the device serving the request, the interrupt handler
    [virtio_disk_intr] and the scheduler picking the process again.

    [virtio_disk_rw_ok] is the contract the buffer cache relies on: the
    request is done when the call returns. *)

From S2P Require Import Prelude Mem KString Params Kernel Spinlock Sched Sleeplock.

(** * The code *)

(** [b->...] for [b = &bcache.buf[i]]. *)
Definition buf_of (i : nat) : K buf :=
  bc <- gets k_bcache ;;
  deref (bc_buf bc !! i).
Definition alter_buf (i : nat) (f : buf → buf) (s : kstate) : kstate :=
  set_k_bcache (set_bc_buf (alter f i (bc_buf (k_bcache s))) (k_bcache s)) s.
Definition modify_buf (i : nat) (f : buf → buf) : K unit :=
  buf_of i ;;;
  modify (alter_buf i f).

Definition modify_disk (f : vdisk → vdisk) : K unit := modify (λ s, set_k_vdisk (f (k_vdisk s)) s).

(** kernel/virtio.h *)
Definition VIRTIO_MMIO_MAGIC_VALUE : Z := 0x000.
Definition VIRTIO_MMIO_VERSION : Z := 0x004.
Definition VIRTIO_MMIO_DEVICE_ID : Z := 0x008.
Definition VIRTIO_MMIO_VENDOR_ID : Z := 0x00c.
Definition VIRTIO_MMIO_DEVICE_FEATURES : Z := 0x010.
Definition VIRTIO_MMIO_DRIVER_FEATURES : Z := 0x020.
Definition VIRTIO_MMIO_GUEST_PAGE_SIZE : Z := 0x028.
Definition VIRTIO_MMIO_QUEUE_SEL : Z := 0x030.
Definition VIRTIO_MMIO_QUEUE_NUM_MAX : Z := 0x034.
Definition VIRTIO_MMIO_QUEUE_NUM : Z := 0x038.
Definition VIRTIO_MMIO_QUEUE_PFN : Z := 0x040.
Definition VIRTIO_MMIO_QUEUE_NOTIFY : Z := 0x050.
Definition VIRTIO_MMIO_INTERRUPT_STATUS : Z := 0x060.
Definition VIRTIO_MMIO_INTERRUPT_ACK : Z := 0x064.
Definition VIRTIO_MMIO_STATUS : Z := 0x070.
Definition VIRTIO_CONFIG_S_ACKNOWLEDGE : Z := 1.
Definition VIRTIO_CONFIG_S_DRIVER : Z := 2.
Definition VIRTIO_CONFIG_S_DRIVER_OK : Z := 4.
Definition VIRTIO_CONFIG_S_FEATURES_OK : Z := 8.
Definition VIRTIO_BLK_F_RO : Z := 5.
Definition VIRTIO_BLK_F_SCSI : Z := 7.
Definition VIRTIO_BLK_F_CONFIG_WCE : Z := 11.
Definition VIRTIO_BLK_F_MQ : Z := 12.
Definition VIRTIO_F_ANY_LAYOUT : Z := 27.
Definition VIRTIO_RING_F_INDIRECT_DESC : Z := 28.
Definition VIRTIO_RING_F_EVENT_IDX : Z := 29.
Definition NUM : nat := 8.
Definition VRING_DESC_F_NEXT : Z := 1.
Definition VRING_DESC_F_WRITE : Z := 2.
Definition VIRTIO_BLK_T_IN : Z := 0.
Definition VIRTIO_BLK_T_OUT : Z := 1.

(** [*R(r)], read and written. *)
Definition read_reg (r : Z) : K Z := gets (λ s, default 0 (k_mmio s !! (VIRTIO0 + r))).
Definition write_reg (r v : Z) : K unit :=
  modify (λ s, set_k_mmio (<[VIRTIO0 + r := v]> (k_mmio s)) s).

(** [pages] is the address of [disk.pages]. *)
Definition virtio_disk_init (pages : Z) : K unit :=
  initlock L_vdisk "virtio_disk" ;;;
  magic <- read_reg VIRTIO_MMIO_MAGIC_VALUE ;;
  if negb (magic =? 0x74726976) then panic "could not find virtio disk" else
  version <- read_reg VIRTIO_MMIO_VERSION ;;
  if negb (version =? 1) then panic "could not find virtio disk" else
  device <- read_reg VIRTIO_MMIO_DEVICE_ID ;;
  if negb (device =? 2) then panic "could not find virtio disk" else
  vendor <- read_reg VIRTIO_MMIO_VENDOR_ID ;;
  if negb (vendor =? 0x554d4551) then panic "could not find virtio disk" else
  let status := VIRTIO_CONFIG_S_ACKNOWLEDGE in
  write_reg VIRTIO_MMIO_STATUS status ;;;
  let status := Z.lor status VIRTIO_CONFIG_S_DRIVER in
  write_reg VIRTIO_MMIO_STATUS status ;;;
  features <- read_reg VIRTIO_MMIO_DEVICE_FEATURES ;;
  let features := Z.land features (Z.lnot (Z.shiftl 1 VIRTIO_BLK_F_RO)) in
  let features := Z.land features (Z.lnot (Z.shiftl 1 VIRTIO_BLK_F_SCSI)) in
  let features := Z.land features (Z.lnot (Z.shiftl 1 VIRTIO_BLK_F_CONFIG_WCE)) in
  let features := Z.land features (Z.lnot (Z.shiftl 1 VIRTIO_BLK_F_MQ)) in
  let features := Z.land features (Z.lnot (Z.shiftl 1 VIRTIO_F_ANY_LAYOUT)) in
  let features := Z.land features (Z.lnot (Z.shiftl 1 VIRTIO_RING_F_EVENT_IDX)) in
  let features := Z.land features (Z.lnot (Z.shiftl 1 VIRTIO_RING_F_INDIRECT_DESC)) in
  write_reg VIRTIO_MMIO_DRIVER_FEATURES (u32 features) ;;;
  let status := Z.lor status VIRTIO_CONFIG_S_FEATURES_OK in
  write_reg VIRTIO_MMIO_STATUS status ;;;
  let status := Z.lor status VIRTIO_CONFIG_S_DRIVER_OK in
  write_reg VIRTIO_MMIO_STATUS status ;;;
  write_reg VIRTIO_MMIO_GUEST_PAGE_SIZE PGSIZE ;;;
  write_reg VIRTIO_MMIO_QUEUE_SEL 0 ;;;
  max <- read_reg VIRTIO_MMIO_QUEUE_NUM_MAX ;;
  if max =? 0 then panic "virtio disk has no queue 0" else
  if max <? Z.of_nat NUM then panic "virtio disk max queue too short" else
  write_reg VIRTIO_MMIO_QUEUE_NUM (Z.of_nat NUM) ;;;
  modify_disk (set_v_desc (replicate NUM (mkdesc DA_null 0 0 0))) ;;;
  modify_disk (set_v_avail_idx 0) ;;;
  modify_disk (set_v_avail_ring (replicate NUM 0)) ;;;
  modify_disk (set_v_dev_idx 0) ;;;
  modify_disk (set_v_dev_ring (replicate NUM 0)) ;;;
  write_reg VIRTIO_MMIO_QUEUE_PFN (Z.shiftr pages PGSHIFT) ;;;
  for_in (seq 0 NUM) (λ i,
    modify_disk (λ v, set_v_free (<[i := 1]> (v_free v)) v) ;;; ret (@None unit)) ;;;
  ret tt.

(** [None] stands for -1. *)
Definition alloc_desc : K (option nat) :=
  for_in (seq 0 NUM) (λ i,
    v <- gets k_vdisk ;;
    f <- deref (v_free v !! i) ;;
    if negb (f =? 0)
    then modify_disk (λ v, set_v_free (<[i := 0]> (v_free v)) v) ;;; ret (Some i)
    else ret None).

Definition set_desc (i : nat) (f : virtq_desc → virtq_desc) : K unit :=
  v <- gets k_vdisk ;;
  deref (v_desc v !! i) ;;;
  modify_disk (λ v, set_v_desc (alter f i (v_desc v)) v).

Definition free_desc (i : nat) : K unit :=
  if (NUM <=? i)%nat then panic "free_desc 1" else
  v <- gets k_vdisk ;;
  f <- deref (v_free v !! i) ;;
  if negb (f =? 0) then panic "free_desc 2" else
  set_desc i (set_d_addr DA_null) ;;;
  set_desc i (set_d_len 0) ;;;
  set_desc i (set_d_flags 0) ;;;
  set_desc i (set_d_next 0) ;;;
  modify_disk (λ v, set_v_free (<[i := 1]> (v_free v)) v) ;;;
  wakeup Ch_disk_free.

Definition free_chain (i : nat) : K unit :=
  loop (λ i,
    v <- gets k_vdisk ;;
    d <- deref (v_desc v !! i) ;;
    let flag := d_flags d in
    let nxt := Z.to_nat (d_next d) in
    free_desc i ;;;
    if negb (Z.land flag VRING_DESC_F_NEXT =? 0) then ret (inl nxt) else ret (inr tt)) i.

(** [idx] holds the descriptors allocated so far; [None] stands for -1. *)
Fixpoint alloc_descs (n : nat) (idx : list nat) : K (option (list nat)) :=
  match n with
  | O => ret (Some idx)
  | S n' =>
      d <- alloc_desc ;;
      match d with
      | Some i => alloc_descs n' (idx ++ [i])
      | None => for_in idx (λ j, free_desc j ;;; ret (@None unit)) ;;; ret None
      end
  end.
Definition alloc3_desc : K (option (list nat)) := alloc_descs 3 [].

(** Waiting for three free descriptors, and for the request. *)
Definition alloc3_wait (_ : unit) : K (unit + list nat) :=
  r <- alloc3_desc ;;
  match r with
  | Some idx => ret (inr idx)
  | None => sleep Ch_disk_free L_vdisk ;;; ret (inl tt)
  end.
Definition request_wait (b : nat) (_ : unit) : K (unit + unit) :=
  bu <- buf_of b ;;
  if b_disk bu =? 1 then sleep (Ch_buf b) L_vdisk ;;; ret (inl tt) else ret (inr tt).

(** Formatting a request in the descriptors [i0], [i1] and [i2]. *)
Definition set_op (i : nat) (r : virtio_blk_req) : K unit :=
  v <- gets k_vdisk ;;
  deref (v_ops v !! i) ;;;
  modify_disk (λ v, set_v_ops (<[i := r]> (v_ops v)) v).
Definition set_info (i : nat) (f : disk_info → disk_info) : K unit :=
  v <- gets k_vdisk ;;
  deref (v_info v !! i) ;;;
  modify_disk (λ v, set_v_info (alter f i (v_info v)) v).
Definition format_request (b : nat) (write : bool) (sector : Z) (i0 i1 i2 : nat) : K unit :=
  set_op i0 (mkreq (if write then VIRTIO_BLK_T_OUT else VIRTIO_BLK_T_IN) 0 sector) ;;;
  set_desc i0 (λ _, mkdesc (DA_op i0) 16 VRING_DESC_F_NEXT (Z.of_nat i1)) ;;;
  set_desc i1 (λ _, mkdesc (DA_data b) BSIZE
    (Z.lor (if write then 0 else VRING_DESC_F_WRITE) VRING_DESC_F_NEXT) (Z.of_nat i2)) ;;;
  set_info i0 (set_i_status 0xff) ;;;
  set_desc i2 (λ _, mkdesc (DA_status i0) 1 VRING_DESC_F_WRITE 0).

(** Recording the buffer, making the chain available and notifying the device. *)
Definition submit_request (b : nat) (write : bool) (sector : Z) (i0 i1 i2 : nat) : K unit :=
  format_request b write sector i0 i1 i2 ;;;
  modify_buf b (set_b_disk 1) ;;;
  set_info i0 (set_i_b (Some b)) ;;;
  modify_disk (λ v, set_v_avail_ring
    (<[Z.to_nat (v_avail_idx v mod Z.of_nat NUM) := Z.of_nat i0]> (v_avail_ring v)) v) ;;;
  modify_disk (λ v, set_v_avail_idx (u16 (v_avail_idx v + 1)) v) ;;;
  write_reg VIRTIO_MMIO_QUEUE_NOTIFY 0.

Definition virtio_disk_rw (b : nat) (write : bool) : K unit :=
  bu <- buf_of b ;;
  let sector := u32 (b_blockno bu * (BSIZE / 512)) in
  acquire L_vdisk ;;;
  idx <- loop alloc3_wait tt ;;
  match idx with
  | [i0; i1; i2] =>
      submit_request b write sector i0 i1 i2 ;;;
      loop (request_wait b) tt ;;;
      set_info i0 (set_i_b None) ;;;
      free_chain i0 ;;;
      release L_vdisk
  | _ => stuck
  end.

Definition virtio_disk_intr : K unit :=
  acquire L_vdisk ;;;
  st <- read_reg VIRTIO_MMIO_INTERRUPT_STATUS ;;
  write_reg VIRTIO_MMIO_INTERRUPT_ACK (Z.land st 0x3) ;;;
  loop (λ _,
    v <- gets k_vdisk ;;
    if v_used_idx v =? v_dev_idx v then ret (inr tt) else
    id <- deref (v_dev_ring v !! Z.to_nat (v_used_idx v mod Z.of_nat NUM)) ;;
    inf <- deref (v_info v !! Z.to_nat id) ;;
    if negb (i_status inf =? 0) then panic "virtio_disk_intr status" else
    b <- deref (i_b inf) ;;
    modify_buf b (set_b_disk 0) ;;;
    wakeup (Ch_buf b) ;;;
    modify_disk (λ v, set_v_used_idx (u16 (v_used_idx v + 1)) v) ;;;
    ret (inl tt)) tt ;;;
  release L_vdisk.

(** * The device *)

(** A block of the disk that was never written is all zeroes. *)
Definition disk_block (d : gmap Z (list Z)) (blk : Z) : list Z :=
  default (replicate (Z.to_nat BSIZE) 0) (d !! blk).

(** The effect of serving the request at the head of the queue: transfer of
    block [blk], status 0, and an entry in the used ring. *)
Definition dev_transfer (w : bool) (b : nat) (blk : Z) (s : kstate) : kstate :=
  match bc_buf (k_bcache s) !! b with
  | Some bu =>
      if w then set_k_disk (<[blk := b_data bu]> (k_disk s))
                  (set_k_writes (k_writes s ++ [(blk, b_data bu)]) s)
      else alter_buf b (set_b_data (disk_block (k_disk s) blk)) s
  | None => s
  end.
Definition dev_used (hd : Z) (k : nat) (v : vdisk) : vdisk :=
  set_v_dev_idx (u16 (v_dev_idx v + 1))
    (set_v_dev_ring (<[Z.to_nat (v_dev_idx v mod Z.of_nat NUM) := hd]> (v_dev_ring v))
       (set_v_info (alter (set_i_status 0) k (v_info v)) v)).
Definition dev_complete (w : bool) (b : nat) (blk : Z) (hd : Z) (k : nat) (s : kstate) : kstate :=
  set_k_vdisk (dev_used hd k (k_vdisk s)) (dev_transfer w b blk s).

Class VirtioDev : Type := { device : kstate → kstate }.

(** Virtio 1.1, 2.6 and 5.2.6: a chain of three descriptors made available
    (request header, one block of data, one byte of status) is executed,
    reading or writing the data as the header says. *)
Class VirtioOk (dev : VirtioDev) : Prop := {
  device_serves : ∀ (s : kstate) (hd i1 i2 o k : nat) (blk : Z) (w : bool) (b : nat) (bu : buf),
    v_avail_idx (k_vdisk s) = u16 (v_dev_idx (k_vdisk s) + 1) →
    v_avail_ring (k_vdisk s) !! Z.to_nat (v_dev_idx (k_vdisk s) mod Z.of_nat NUM)
      = Some (Z.of_nat hd) →
    v_desc (k_vdisk s) !! hd = Some (mkdesc (DA_op o) 16 VRING_DESC_F_NEXT (Z.of_nat i1)) →
    v_ops (k_vdisk s) !! o =
      Some (mkreq (if w then VIRTIO_BLK_T_OUT else VIRTIO_BLK_T_IN) 0 (blk * (BSIZE / 512))) →
    v_desc (k_vdisk s) !! i1 = Some (mkdesc (DA_data b) BSIZE
      (Z.lor (if w then 0 else VRING_DESC_F_WRITE) VRING_DESC_F_NEXT) (Z.of_nat i2)) →
    v_desc (k_vdisk s) !! i2 = Some (mkdesc (DA_status k) 1 VRING_DESC_F_WRITE 0) →
    bc_buf (k_bcache s) !! b = Some bu →
    device s = dev_complete w b blk (Z.of_nat hd) k s
}.

(** Reading and writing a buffer's fields. *)
Lemma buf_of_ok i b e s : bc_buf (k_bcache s) !! i = Some b → buf_of i e s = Ret b e s.
Proof. intros H. unfold buf_of. mstep. by rewrite H. Qed.

Lemma modify_buf_ok i b f e s :
  bc_buf (k_bcache s) !! i = Some b → modify_buf i f e s = Ret tt e (alter_buf i f s).
Proof. intros H. unfold modify_buf. by rewrite (bind_Ret _ _ _ _ _ _ _ (buf_of_ok i b e s H)). Qed.

(** Run the [buf_of] or [modify_buf] at the head of the goal. *)
Ltac kbuf H :=
  match goal with
  | |- context [bind (buf_of ?i) _ ?e ?S] =>
      rewrite (bind_Ret _ _ _ _ _ _ _ (buf_of_ok i _ e S H)); cbv beta iota
  | |- context [bind (modify_buf ?i ?f) _ ?e ?S] =>
      rewrite (bind_Ret _ _ _ _ _ _ _ (modify_buf_ok i _ f e S H)); cbv beta iota
  end.

Section virtio.
Context {dev : VirtioDev}.

(** What the rest of the machine does while process [p] waits for the disk:
    the scheduler of the hart releases the process, the device serves the
    request, its interrupt is taken, and the scheduler runs the process. *)
Definition others_run (p : nat) : K unit :=
  c <- cpuid ;;
  set_cpu c (set_c_proc None) ;;;
  release (L_proc p) ;;;
  modify device ;;;
  virtio_disk_intr ;;;
  acquire (L_proc p) ;;;
  pr <- proc_of p ;;
  if bool_decide (p_state pr = RUNNABLE) then
    modify_proc p (set_p_state RUNNING) ;;;
    set_cpu c (set_c_proc (Some p))
  else stuck.
Definition others (p : nat) (s : kstate) : kstate :=
  match others_run p [] s with Ret _ _ s' => s' | _ => s end.

(** A schedule that serves [n] requests of process [p]. *)
Definition dev_env (p : nat) (n : nat) (e : list (kstate → kstate)) : Prop :=
  (n ≤ length e)%nat ∧ Forall (λ f, ∀ s, f s = others p s) e.

(** No request is in flight. *)
Record vq_idle (v : vdisk) : Prop := {
  vi_desc : length (v_desc v) = NUM;
  vi_ring : length (v_avail_ring v) = NUM;
  vi_dring : length (v_dev_ring v) = NUM;
  vi_info : length (v_info v) = NUM;
  vi_ops : length (v_ops v) = NUM;
  vi_free : v_free v = replicate NUM 1;
  vi_idx : v_used_idx v = v_dev_idx v ∧ v_avail_idx v = v_dev_idx v;
  vi_range : 0 ≤ v_dev_idx v < 2 ^ 16
}.

(** * Specifications *)

Lemma set_desc_ok i f e s :
  (i < length (v_desc (k_vdisk s)))%nat →
  set_desc i f e s = Ret tt e (set_k_vdisk (set_v_desc (alter f i (v_desc (k_vdisk s))) (k_vdisk s)) s).
Proof. intros [d Hd]%lookup_lt_is_Some_2. unfold set_desc, modify_disk. mstep. by rewrite Hd. Qed.

Lemma set_info_ok i f e s :
  (i < length (v_info (k_vdisk s)))%nat →
  set_info i f e s = Ret tt e (set_k_vdisk (set_v_info (alter f i (v_info (k_vdisk s))) (k_vdisk s)) s).
Proof. intros [d Hd]%lookup_lt_is_Some_2. unfold set_info, modify_disk. mstep. by rewrite Hd. Qed.

Lemma set_op_ok i r e s :
  (i < length (v_ops (k_vdisk s)))%nat →
  set_op i r e s = Ret tt e (set_k_vdisk (set_v_ops (<[i := r]> (v_ops (k_vdisk s))) (k_vdisk s)) s).
Proof. intros [d Hd]%lookup_lt_is_Some_2. unfold set_op, modify_disk. mstep. by rewrite Hd. Qed.

(** The queue after a request has been formatted in descriptors 0, 1 and 2. *)
Definition formatted (b : nat) (w : bool) (sector : Z) (v : vdisk) : vdisk :=
  set_v_ops (<[0%nat := mkreq (if w then VIRTIO_BLK_T_OUT else VIRTIO_BLK_T_IN) 0 sector]> (v_ops v))
  (set_v_info (alter (set_i_status 0xff) 0%nat (v_info v))
  (set_v_desc (<[2%nat := mkdesc (DA_status 0) 1 VRING_DESC_F_WRITE 0]>
    (<[1%nat := mkdesc (DA_data b) BSIZE
        (Z.lor (if w then 0 else VRING_DESC_F_WRITE) VRING_DESC_F_NEXT) 2]>
    (<[0%nat := mkdesc (DA_op 0) 16 VRING_DESC_F_NEXT 1]> (v_desc v)))) v)).

Lemma alter_const {A} (x : A) (l : list A) i : alter (λ _, x) i l = <[i := x]> l.
Proof.
  revert i. induction l as [|y l IH]; intros [|i]; cbn; try done. f_equal. apply IH.
Qed.

Lemma format_ok b w sector e s :
  length (v_desc (k_vdisk s)) = NUM → length (v_info (k_vdisk s)) = NUM →
  length (v_ops (k_vdisk s)) = NUM →
  format_request b w sector 0 1 2 e s = Ret tt e (set_k_vdisk (formatted b w sector (k_vdisk s)) s).
Proof.
  intros H1 H4 H5. unfold NUM in *. unfold format_request.
  mrun (set_op_ok 0 (mkreq (if w then VIRTIO_BLK_T_OUT else VIRTIO_BLK_T_IN) 0 sector) e s ltac:(lia)).
  do 2 (erewrite bind_Ret; [|apply set_desc_ok; kproj; krec; rewrite ?length_alter; lia]).
  erewrite bind_Ret; [|apply set_info_ok; kproj; krec; lia].
  rewrite set_desc_ok by (kproj; krec; rewrite !length_alter; lia).
  kproj. krec. rewrite !alter_const. unfold formatted. krec. done.
Qed.

Lemma mark_used k m :
  <[k := 0]> (replicate k 0 ++ replicate (S m) 1) = replicate (S k) 0 ++ replicate m 1.
Proof.
  rewrite insert_app_r_alt by (by rewrite length_replicate).
  by rewrite length_replicate, Nat.sub_diag, (replicate_S_end k (0 : Z)), <-app_assoc.
Qed.

(** Taking three descriptors when all are free. *)
Lemma alloc_desc_run k e s :
  (k < NUM)%nat → v_free (k_vdisk s) = replicate k 0 ++ replicate (NUM - k) 1 →
  alloc_desc e s = Ret (Some k) e
    (set_k_vdisk (set_v_free (replicate (S k) 0 ++ replicate (NUM - S k) 1) (k_vdisk s)) s).
Proof.
  intros Hk Hf. unfold alloc_desc.
  assert (Hscan : ∀ j, (j ≤ k)%nat →
    for_in (seq 0 NUM) (λ i, v <- gets k_vdisk ;; f <- deref (v_free v !! i) ;;
      if negb (f =? 0)
      then modify_disk (λ v, set_v_free (<[i := 0]> (v_free v)) v) ;;; ret (Some i)
      else ret None) e s =
    for_in (seq j (NUM - j)) (λ i, v <- gets k_vdisk ;; f <- deref (v_free v !! i) ;;
      if negb (f =? 0)
      then modify_disk (λ v, set_v_free (<[i := 0]> (v_free v)) v) ;;; ret (Some i)
      else ret None) e s).
  { induction j as [|j IH]; intros Hj; [done|]. rewrite IH by lia.
    replace (NUM - j)%nat with (S (NUM - S j)) by lia. cbn [seq for_in]. mstep.
    rewrite Hf, lookup_app_l by (rewrite length_replicate; lia).
    rewrite lookup_replicate_2 by lia. mstep. done. }
  rewrite (Hscan k) by lia. clear Hscan.
  replace (NUM - k)%nat with (S (NUM - S k)) in * by lia. cbn [seq for_in]. mstep.
  rewrite Hf, lookup_app_r, length_replicate, Nat.sub_diag by (rewrite length_replicate; lia).
  change (replicate (S (NUM - S k)) 1 !! 0%nat) with (Some 1). mstep.
  change (negb (1 =? 0)) with true. unfold modify_disk. mstep. unfold ret.
  by rewrite Hf, mark_used.
Qed.

Lemma alloc3_ok e s :
  vq_idle (k_vdisk s) →
  loop alloc3_wait tt e s = Ret [0; 1; 2]%nat e
    (set_k_vdisk (set_v_free (replicate 3 0 ++ replicate 5 1) (k_vdisk s)) s).
Proof.
  intros H. apply loop_exit. unfold alloc3_wait, alloc3_desc. cbn [alloc_descs].
  assert (H0 : v_free (k_vdisk s) = replicate 0 0 ++ replicate (NUM - 0) 1) by apply (vi_free _ H).
  rewrite !bind_assoc. mrun (alloc_desc_run 0 e s ltac:(unfold NUM; lia) H0). rewrite !bind_assoc.
  erewrite (bind_Ret alloc_desc); [|apply (alloc_desc_run 1); [unfold NUM; lia|done]]. cbv beta iota.
  rewrite !bind_assoc.
  erewrite (bind_Ret alloc_desc); [|apply (alloc_desc_run 2); [unfold NUM; lia|done]]. cbv beta iota.
  mstep. unfold ret. kproj. krec. done.
Qed.

(** Giving descriptors back. *)
Definition desc_freed (i : nat) (v : vdisk) : vdisk :=
  set_v_free (<[i := 1]> (v_free v)) (set_v_desc (<[i := mkdesc DA_null 0 0 0]> (v_desc v)) v).

Lemma alter_fields d i (l : list virtq_desc) :
  alter (set_d_next 0) i (alter (set_d_flags 0) i (alter (set_d_len 0) i
    (alter (set_d_addr d) i l))) = <[i := mkdesc d 0 0 0]> l.
Proof. rewrite !list_alter_alter_eq. rewrite <-alter_const. by apply list_alter_ext. Qed.

Lemma free_desc_ok t L i e s :
  ctx t L (k_core s) → length (k_procs s) = nproc → no_proc_locks t L →
  (i < NUM)%nat → v_free (k_vdisk s) !! i = Some 0 → length (v_desc (k_vdisk s)) = NUM →
  ∃ c, free_desc i e s = Ret tt e (set_k_core c
      (set_k_procs (woken (t_proc t) Ch_disk_free (k_procs s))
        (set_k_vdisk (desc_freed i (k_vdisk s)) s))) ∧ ctx t L c.
Proof.
  intros Hc Hl Hnp Hi Hf Hd. unfold free_desc.
  destruct (Nat.leb_spec NUM i); [lia|]. mstep. rewrite Hf. mstep.
  change (negb (0 =? 0)) with false. cbv iota.
  do 4 (erewrite bind_Ret; [|apply set_desc_ok; kproj; krec; rewrite ?length_alter; lia]).
  unfold modify_disk. mstep. kproj. krec. rewrite alter_fields.
  match goal with |- context [wakeup _ e ?S] =>
    destruct (wakeup_ok t L Ch_disk_free e S) as (c & Hr & Hc'); [done..|] end.
  rewrite Hr. exists c. split; [|done]. unfold desc_freed. krec. done.
Qed.

(** One turn of [free_chain]. *)
Lemma free_chain_turn t L i d r e s :
  r = (if negb (Z.land (d_flags d) VRING_DESC_F_NEXT =? 0)
       then inl (Z.to_nat (d_next d)) else inr tt) →
  ctx t L (k_core s) → length (k_procs s) = nproc → no_proc_locks t L →
  (i < NUM)%nat → v_free (k_vdisk s) !! i = Some 0 → length (v_desc (k_vdisk s)) = NUM →
  v_desc (k_vdisk s) !! i = Some d →
  ∃ c, (v <- gets k_vdisk ;;
        d <- deref (v_desc v !! i) ;;
        let flag := d_flags d in
        let nxt := Z.to_nat (d_next d) in
        free_desc i ;;;
        if negb (Z.land flag VRING_DESC_F_NEXT =? 0) then ret (inl nxt) else ret (inr tt)) e s
      = Ret r e (set_k_core c
      (set_k_procs (woken (t_proc t) Ch_disk_free (k_procs s))
        (set_k_vdisk (desc_freed i (k_vdisk s)) s))) ∧ ctx t L c.
Proof.
  intros -> Hc Hl Hnp Hi Hf Hd Hdi. mstep. rewrite Hdi. mstep. cbv zeta.
  destruct (free_desc_ok t L i e s) as (c & Hr & Hc'); [done..|]. mrun Hr.
  exists c. split; [|done]. by destruct (negb _).
Qed.

Definition chain_freed (v : vdisk) : vdisk := desc_freed 2 (desc_freed 1 (desc_freed 0 v)).

Lemma free_chain_ok t L d0 d1 d2 e s :
  ctx t L (k_core s) → length (k_procs s) = nproc → no_proc_locks t L →
  length (v_desc (k_vdisk s)) = NUM → v_free (k_vdisk s) = replicate 3 0 ++ replicate 5 1 →
  v_desc (k_vdisk s) !! 0%nat = Some d0 → d_next d0 = 1 → Z.land (d_flags d0) 1 = 1 →
  v_desc (k_vdisk s) !! 1%nat = Some d1 → d_next d1 = 2 → Z.land (d_flags d1) 1 = 1 →
  v_desc (k_vdisk s) !! 2%nat = Some d2 → Z.land (d_flags d2) 1 = 0 →
  ∃ c, free_chain 0 e s = Ret tt e (set_k_core c (set_k_procs
       (let w := woken (t_proc t) Ch_disk_free in w (w (w (k_procs s))))
       (set_k_vdisk (chain_freed (k_vdisk s)) s))) ∧ ctx t L c.
Proof.
  intros Hc Hl Hnp Hd Hf H0 N0 F0 H1 N1 F1 H2 F2. unfold free_chain.
  destruct (free_chain_turn t L 0 d0 (inl 1%nat) e s) as (c1 & Hr1 & Hc1);
    [by unfold VRING_DESC_F_NEXT; rewrite N0, F0|done|done|done|unfold NUM; lia|by rewrite Hf|done|done|].
  match type of Hr1 with _ = Ret _ _ ?S =>
    destruct (free_chain_turn t L 1 d1 (inl 2%nat) e S) as (c2 & Hr2 & Hc2) end;
    [by unfold VRING_DESC_F_NEXT; rewrite N1, F1|done|kproj; by rewrite length_woken|done|unfold NUM; lia|by cbn; rewrite Hf| | |].
  { kproj. unfold desc_freed. krec. by rewrite length_insert. }
  { kproj. unfold desc_freed. krec. by rewrite list_lookup_insert_ne. }
  match type of Hr2 with _ = Ret _ _ ?S =>
    destruct (free_chain_turn t L 2 d2 (inr tt) e S) as (c3 & Hr3 & Hc3) end;
    [by unfold VRING_DESC_F_NEXT; rewrite F2|done|kproj; by rewrite !length_woken|done|unfold NUM; lia|by cbn; rewrite Hf| | |].
  { kproj. unfold desc_freed. krec. by rewrite !length_insert. }
  { kproj. unfold desc_freed. krec. by rewrite !list_lookup_insert_ne. }
  exists c3. split; [|done]. apply (loop_iter 3); [|lia]. cbn [iter_nat].
  rewrite (bind_Ret _ _ _ _ _ _ _ Hr1). cbn [then_iter]. rewrite (bind_Ret _ _ _ _ _ _ _ Hr2).
  cbn [then_iter]. rewrite (bind_Ret _ _ _ _ _ _ _ Hr3). cbn [then_iter].
  unfold ret, chain_freed. cbv zeta. kproj. done.
Qed.

Lemma u16_succ_ne x : 0 ≤ x < 2 ^ 16 → u16 (x + 1) ≠ x.
Proof.
  intros Hx. unfold u16. destruct (decide (x = 2 ^ 16 - 1)) as [->|]; [done|].
  rewrite Z.mod_small; lia.
Qed.

Lemma alter_buf_core i f c s : alter_buf i f (set_k_core c s) = set_k_core c (alter_buf i f s).
Proof. done. Qed.

(** The interrupt handler, when the device has finished one request. *)
Definition intr_done (b : nat) (me : option nat) (s : kstate) : kstate :=
  set_k_procs (woken me (Ch_buf b) (k_procs s))
    (set_k_vdisk (set_v_used_idx (v_dev_idx (k_vdisk s)) (k_vdisk s))
      (alter_buf b (set_b_disk 0) s)).

Lemma virtio_disk_intr_ok t L b bu id e s :
  ctx t L (k_core s) → L_vdisk ∉ L → length (k_procs s) = nproc → no_proc_locks t L →
  0 ≤ v_used_idx (k_vdisk s) < 2 ^ 16 →
  v_dev_idx (k_vdisk s) = u16 (v_used_idx (k_vdisk s) + 1) →
  v_dev_ring (k_vdisk s) !! Z.to_nat (v_used_idx (k_vdisk s) mod Z.of_nat NUM) = Some id →
  v_info (k_vdisk s) !! Z.to_nat id = Some (mkinfo (Some b) 0) →
  bc_buf (k_bcache s) !! b = Some bu →
  ∃ c m, virtio_disk_intr e s = Ret tt e (set_k_core c (set_k_mmio m (intr_done b (t_proc t) s))) ∧
    ctx t L c.
Proof.
  intros Hc HL Hlen Hnp Hrg Hidx Hring Hinfo Hb. unfold virtio_disk_intr, read_reg, write_reg.
  kacquire c1 Hc1. mstep.
  match goal with |- context [bind (loop ?body tt) _ e ?S] =>
    assert (Hloop : ∃ c2 m, loop body tt e S = Ret tt e
      (set_k_core c2 (set_k_mmio m (intr_done b (t_proc t) s))) ∧ ctx t (L_vdisk :: L) c2) end.
  { match goal with |- context [loop _ tt e (set_k_mmio ?m0 _)] => set (m := m0) end.
    match goal with |- context [loop _ tt e ?S] =>
      destruct (wakeup_ok t (L_vdisk :: L) (Ch_buf b) e (alter_buf b (set_b_disk 0) S))
        as (c2 & Hw & Hc2) end; [done|done| |].
    { intros i Hi. apply not_elem_of_cons. split; [done|by apply Hnp]. }
    exists c2, m. split; [|done]. apply (loop_iter 2); [|lia]. cbn [iter_nat].
    rewrite !bind_assoc. rewrite bind_gets. kproj.
    destruct (Z.eqb_spec (v_used_idx (k_vdisk s)) (v_dev_idx (k_vdisk s))) as [Heq|_].
    { rewrite Hidx in Heq. by apply eq_sym, u16_succ_ne in Heq. }
    rewrite Hring. mstep. rewrite Hinfo. mstep. cbn [i_status i_b Z.eqb negb]. mstep.
    kbuf Hb. mstep. mrun Hw.
    unfold modify_disk. mstep. cbn [then_iter]. mstep. kproj.
    replace (v_used_idx _ =? v_dev_idx _) with true.
    2: { unfold alter_buf. krec. rewrite Hidx. by rewrite Z.eqb_refl. }
    mstep. cbn [then_iter]. unfold ret. f_equal. unfold intr_done, alter_buf. rewrite Hidx. krec. done. }
  destruct Hloop as (c2 & m & Hr & Hc2). mrun Hr. krelease c3 Hc3. exists c3, m.
  split; [kstate_eq|done].
Qed.

(** The queue with one request made available, and once it is served. *)
Definition pending (b : nat) (w : bool) (sector : Z) (v : vdisk) : vdisk :=
  let v1 := formatted b w sector (set_v_free (replicate 3 0 ++ replicate 5 1) v) in
  let v2 := set_v_info (alter (set_i_b (Some b)) 0%nat (v_info v1)) v1 in
  let v3 := set_v_avail_ring
    (<[Z.to_nat (v_avail_idx v2 mod Z.of_nat NUM) := 0]> (v_avail_ring v2)) v2 in
  set_v_avail_idx (u16 (v_avail_idx v3 + 1)) v3.
Definition served (b : nat) (w : bool) (sector : Z) (v : vdisk) : vdisk :=
  let v1 := dev_used 0 0 (pending b w sector v) in
  set_v_used_idx (v_dev_idx v1) v1.

Lemma vq_idle_mod v : vq_idle v → (Z.to_nat (v_dev_idx v mod Z.of_nat NUM) < NUM)%nat.
Proof. intros _. pose proof (Z.mod_pos_bound (v_dev_idx v) (Z.of_nat NUM)). unfold NUM in *. lia. Qed.

Lemma pending_serves {ok : VirtioOk dev} v w b bu blk s :
  vq_idle v → k_vdisk s = pending b w (blk * (BSIZE / 512)) v →
  bc_buf (k_bcache s) !! b = Some bu → device s = dev_complete w b blk 0 0 s.
Proof.
  intros Hv Hs Hb. pose proof (vq_idle_mod v Hv) as Hm.
  destruct Hv as [H1 H2 H3 H4 H5 H6 [H7 H8] H9]. unfold NUM in *.
  apply (device_serves s 0 1 2 0 0 blk w b bu); rewrite ?Hs; unfold pending, formatted; cbv zeta; krec.
  - by rewrite H8.
  - rewrite H8, list_lookup_insert, decide_True; [done|]. unfold NUM in *. rewrite H2. done.
  - rewrite !list_lookup_insert. repeat (rewrite decide_False by (intros [??]; done)).
    rewrite decide_True; [done|]. rewrite H1. lia.
  - rewrite list_lookup_insert, decide_True; [done|lia].
  - rewrite list_lookup_insert, decide_False by (intros [??]; done).
    rewrite list_lookup_insert, decide_True; [done|]. rewrite length_insert. lia.
  - rewrite list_lookup_insert, decide_True; [done|]. rewrite !length_insert. lia.
  - done.
Qed.

(** The parts of the state a served request changes. *)
Definition rw_disk (w : bool) (bu : buf) (blk : Z) (d : gmap Z (list Z)) : gmap Z (list Z) :=
  if w then <[blk := b_data bu]> d else d.
Definition rw_writes (w : bool) (bu : buf) (blk : Z) (l : list (Z * list Z)) : list (Z * list Z) :=
  if w then l ++ [(blk, b_data bu)] else l.
Definition rw_buf (w : bool) (d : gmap Z (list Z)) (blk : Z) (bu : buf) : buf :=
  if w then bu else set_b_data (disk_block d blk) bu.

Lemma dev_transfer_eq w b bu blk s :
  bc_buf (k_bcache s) !! b = Some bu →
  dev_transfer w b blk s =
    set_k_disk (rw_disk w bu blk (k_disk s)) (set_k_writes (rw_writes w bu blk (k_writes s))
      (alter_buf b (rw_buf w (k_disk s) blk) s)).
Proof.
  intros Hb. unfold dev_transfer. rewrite Hb. unfold rw_disk, rw_writes, rw_buf. destruct w; [|by destruct s].
  unfold alter_buf. rewrite (list_alter_same _ _ _ _ Hb eq_refl). destruct s.
  by match goal with bc : bufcache |- _ => destruct bc end.
Qed.

(** The state [others] leaves when [p] waits for a request on buffer [b]. *)
Definition others_state (p b : nat) (w : bool) (bu : buf) (blk : Z) (v : vdisk) (s : kstate) : kstate :=
  set_k_procs (alter (set_p_state RUNNING) p (woken None (Ch_buf b) (k_procs s)))
    (set_k_vdisk (served b w (blk * (BSIZE / 512)) v)
      (set_k_disk (rw_disk w bu blk (k_disk s)) (set_k_writes (rw_writes w bu blk (k_writes s))
        (alter_buf b (λ bu, set_b_disk 0 (rw_buf w (k_disk s) blk bu)) s)))).

Lemma switch_out_ok h p ie e s :
  ctx (mkthread h (Some p) ie) [L_proc p] (k_core s) →
  ∃ c, (set_cpu h (set_c_proc None) ;;; release (L_proc p)) e s = Ret tt e (set_k_core c s) ∧
    ctx (mkthread h None ie) [] c.
Proof.
  intros Hc. destruct (set_cpu_proc_ok h (Some p) None ie [L_proc p] e s) as (c1 & Hr & Hc1); [done|].
  mrun Hr. krelease c2 Hc2. exists c2. split; [kstate_eq|done].
Qed.

Lemma switch_in_ok h p pr ie e s :
  ctx (mkthread h None ie) [] (k_core s) → k_procs s !! p = Some pr → p_state pr = RUNNABLE →
  ∃ c, (acquire (L_proc p) ;;;
        pr <- proc_of p ;;
        if bool_decide (p_state pr = RUNNABLE) then
          modify_proc p (set_p_state RUNNING) ;;; set_cpu h (set_c_proc (Some p))
        else stuck) e s =
      Ret tt e (set_k_core c (set_k_procs (alter (set_p_state RUNNING) p (k_procs s)) s)) ∧
    ctx (mkthread h (Some p) ie) [L_proc p] c.
Proof.
  intros Hc Hp Hst. kacquire c1 Hc1; [apply not_elem_of_nil|]. kproc Hp.
  rewrite bool_decide_eq_true_2 by done. kproc Hp.
  match goal with |- context [set_cpu h _ e ?S] =>
    destruct (set_cpu_proc_ok h None (Some p) ie [L_proc p] e S) as (c2 & Hr & Hc2); [done|] end.
  rewrite Hr. exists c2. split; [kstate_eq|done].
Qed.

Lemma alter_buf_alter b f g s : alter_buf b f (alter_buf b g s) = alter_buf b (f ∘ g) s.
Proof. unfold alter_buf. kproj. cbn [bc_buf set_bc_buf]. by rewrite list_alter_alter_eq. Qed.

Context {ok : VirtioOk dev}.

Lemma others_ok h p pr ie b bu w blk v s :
  ctx (mkthread h (Some p) ie) [L_proc p] (k_core s) → length (k_procs s) = nproc →
  k_procs s !! p = Some pr → p_state pr = SLEEPING → p_chan pr = Some (Ch_buf b) →
  vq_idle v → k_vdisk s = pending b w (blk * (BSIZE / 512)) v →
  bc_buf (k_bcache s) !! b = Some bu →
  ∃ c m, others p s = set_k_core c (set_k_mmio m (others_state p b w bu blk v s)) ∧
    ctx (mkthread h (Some p) ie) [L_proc p] c.
Proof.
  intros Hc Hlen Hp Hst Hch Hv Hs Hb. unfold others, others_run, cpuid. mstep.
  rewrite (ctx_hart _ _ _ Hc). cbn [t_hart].
  destruct (switch_out_ok h p ie [] s Hc) as (c1 & Hr1 & Hc1).
  rewrite <-bind_assoc. mrun Hr1. mstep.
  rewrite (pending_serves v w b bu blk (set_k_core c1 s)) by done. unfold dev_complete.
  rewrite (dev_transfer_eq w b bu blk (set_k_core c1 s)) by done.
  pose proof (vq_idle_mod v Hv) as Hm. destruct Hv as [H1 H2 H3 H4 H5 H6 [H7 H8] H9].
  match goal with |- context [bind virtio_disk_intr _ [] ?S] =>
    destruct (virtio_disk_intr_ok (mkthread h None ie) [] b (rw_buf w (k_disk s) blk bu) 0 [] S)
      as (c2 & m & Hr2 & Hc2) end.
  { done. } { apply not_elem_of_nil. } { done. } { intros i _. apply not_elem_of_nil. }
  { kproj. rewrite Hs. cbn. rewrite H7. lia. }
  { kproj. rewrite Hs. cbn. by rewrite H7. }
  { kproj. rewrite Hs. cbn. rewrite H7, list_lookup_insert, decide_True; [done|]. by rewrite H3. }
  { kproj. rewrite Hs. cbn. rewrite !list_lookup_alter, !decide_True by done.
    destruct (lookup_lt_is_Some_2 (v_info v) 0) as [x Hx]; [unfold NUM in *; lia|]. rewrite Hx. by destruct x. }
  { cbn. by rewrite list_lookup_alter, decide_True, Hb. }
  mrun Hr2.
  match goal with |- context [bind (acquire _) _ [] ?S] =>
    destruct (switch_in_ok h p (set_p_state RUNNABLE pr) ie [] S) as (c3 & Hr3 & Hc3) end.
  { done. }
  { unfold intr_done, alter_buf. kproj. rewrite lookup_woken, Hp. cbn. unfold wake. cbn [t_proc].
    by rewrite (bool_decide_eq_true_2 (None ≠ Some p)), Hst, Hch, !bool_decide_eq_true_2. }
  { done. }
  rewrite Hr3. exists c3, m. split; [|done]. unfold others_state, intr_done, served.
  unfold alter_buf. kproj. rewrite Hs. cbn [bc_buf set_bc_buf]. rewrite list_alter_alter_eq. cbv zeta.
  change (alter (λ bu0, set_b_disk 0 (rw_buf w (k_disk s) blk bu0)))
    with (alter (M := list buf) (set_b_disk 0 ∘ rw_buf w (k_disk s) blk)).
  unfold set_bc_buf. cbn [t_proc bc_buf bc_hprev bc_hnext]. kstate_eq.
Qed.

(** The effect of a request, apart from the driver's own state. *)
Definition rw_effect (w : bool) (b : nat) (bu : buf) (s : kstate) : kstate :=
  set_k_disk (rw_disk w bu (b_blockno bu) (k_disk s))
    (set_k_writes (rw_writes w bu (b_blockno bu) (k_writes s))
      (alter_buf b (rw_buf w (k_disk s) (b_blockno bu)) s)).

Lemma request_wait_busy b bu e e' s s' :
  bc_buf (k_bcache s) !! b = Some bu → b_disk bu = 1 → sleep (Ch_buf b) L_vdisk e s = Ret tt e' s' →
  request_wait b tt e s = Ret (inl tt) e' s'.
Proof. intros Hb Hd Hs. unfold request_wait. kbuf Hb. rewrite Hd. cbn [Z.eqb Pos.eqb]. by mrun Hs. Qed.

Lemma request_wait_done b bu e s :
  bc_buf (k_bcache s) !! b = Some bu → b_disk bu = 0 → request_wait b tt e s = Ret (inr tt) e s.
Proof. intros Hb Hd. unfold request_wait. kbuf Hb. by rewrite Hd. Qed.

(** Waiting for the request: one turn asleep, while the others run. *)
Lemma request_wait_ok h p pid ie b bu w v f e s :
  ctx (mkthread h (Some p) ie) [L_vdisk] (k_core s) → length (k_procs s) = nproc →
  p_pid <$> k_procs s !! p = Some pid →
  vq_idle v → k_vdisk s = pending b w (b_blockno bu * (BSIZE / 512)) v →
  bc_buf (k_bcache s) !! b = Some (set_b_disk 1 bu) → (∀ s, f s = others p s) →
  ∃ c ps m, loop (request_wait b) tt (f :: e) s = Ret tt e
      (set_k_core c (set_k_procs ps (set_k_mmio m
        (set_k_vdisk (served b w (b_blockno bu * (BSIZE / 512)) v)
        (set_k_disk (rw_disk w bu (b_blockno bu) (k_disk s))
        (set_k_writes (rw_writes w bu (b_blockno bu) (k_writes s))
          (alter_buf b (λ bu', set_b_disk 0 (rw_buf w (k_disk s) (b_blockno bu) bu')) s))))))) ∧
    ctx (mkthread h (Some p) ie) [L_vdisk] c ∧ length ps = nproc ∧
    pstatic <$> ps = pstatic <$> k_procs s.
Proof.
  intros Hc Hlen Hpid Hv Hs Hb Hf. apply fmap_Some in Hpid as (pr & Hp & Hpid).
  assert (Ho : ∀ c, ctx (mkthread h (Some p) ie) [L_proc p] c → ∃ c' m,
    f (asleep_state p (Ch_buf b) c s) = set_k_core c' (set_k_mmio m
      (others_state p b w (set_b_disk 1 bu) (b_blockno bu) v (asleep_state p (Ch_buf b) c s))) ∧
    ctx (mkthread h (Some p) ie) [L_proc p] c').
  { intros c Hcx. rewrite Hf. apply (others_ok h p (asleep (Ch_buf b) pr)); try done.
    - unfold asleep_state. kproj. by rewrite length_alter.
    - unfold asleep_state. kproj. by rewrite list_lookup_alter, decide_True, Hp. }
  destruct (sleep_ok (mkthread h (Some p) ie) p h (Ch_buf b) L_vdisk f e s)
    as (c & c' & Hc1 & _ & Hr & Hc'); [done|done|done|by eapply lookup_lt_Some|done| |].
  { intros c Hcx. destruct (Ho c Hcx) as (c' & m & -> & Hc'). exists ie. split; [done|].
    unfold others_state, asleep_state. kproj. by rewrite length_alter, length_woken, length_alter. }
  destruct (Ho c Hc1) as (c2 & m & Hf2 & Hc2). rewrite Hf2 in Hr. clear Ho Hf2.
  exists c', (alter (set_p_chan None) p (alter (set_p_state RUNNING) p
    (woken None (Ch_buf b) (alter (asleep (Ch_buf b)) p (k_procs s))))), m.
  split; [|split; [done|]].
  - apply (loop_iter 2); [|lia]. cbn [iter_nat].
    rewrite (bind_Ret _ _ _ _ _ _ _ (request_wait_busy b _ _ _ _ _ Hb eq_refl Hr)). cbn [then_iter].
    match goal with |- context [bind (request_wait b tt) _ e ?S] =>
      assert (Hb' : bc_buf (k_bcache S) !! b =
        Some (set_b_disk 0 (rw_buf w (k_disk s) (b_blockno bu) (set_b_disk 1 bu)))) end.
    { unfold others_state, asleep_state, alter_buf. kproj. cbn [bc_buf set_bc_buf].
      by rewrite list_lookup_alter, decide_True, Hb. }
    rewrite (bind_Ret _ _ _ _ _ _ _ (request_wait_done b _ e _ Hb' eq_refl)). cbn [then_iter]. unfold ret.
    unfold others_state, asleep_state. unfold alter_buf. kproj. reflexivity.
  - split.
    + by rewrite !length_alter, length_woken, length_alter.
    + rewrite pstatic_alter by done. rewrite pstatic_alter by done. rewrite pstatic_woken.
      by apply pstatic_alter.
Qed.

Definition finished (b : nat) (w : bool) (sector : Z) (v : vdisk) : vdisk :=
  let v1 := served b w sector v in
  chain_freed (set_v_info (alter (set_i_b None) 0%nat (v_info v1)) v1).

(** The lengths of the queue's arrays. *)
Definition vq_len (v : vdisk) : list nat :=
  [length (v_desc v); length (v_avail_ring v); length (v_dev_ring v); length (v_info v);
   length (v_ops v)].

Lemma vq_len_idle v : vq_idle v → vq_len v = replicate 5 NUM.
Proof. intros [H1 H2 H3 H4 H5 _ _ _]. unfold vq_len. by rewrite H1, H2, H3, H4, H5. Qed.

Lemma vq_len_freed i v : vq_len (desc_freed i v) = vq_len v.
Proof. destruct v. unfold vq_len, desc_freed. cbn. by rewrite length_insert. Qed.

Lemma vq_len_info f i v : vq_len (set_v_info (alter f i (v_info v)) v) = vq_len v.
Proof. destruct v. unfold vq_len. cbn. by rewrite length_alter. Qed.

Lemma vq_len_pending b w sector v : vq_len (pending b w sector v) = vq_len v.
Proof. destruct v. unfold vq_len, pending, formatted. cbn. by rewrite !length_insert, !length_alter. Qed.

Lemma vq_len_served b w sector v : vq_len (served b w sector v) = vq_len v.
Proof.
  rewrite <-(vq_len_pending b w sector v). unfold served, dev_used. cbv zeta.
  generalize (pending b w sector v). intros [? ? ? ? ? ? ? ? ?]. unfold vq_len. cbn.
  by rewrite length_insert, length_alter.
Qed.

Lemma served_fields b w sector v :
  v_free (served b w sector v) = replicate 3 0 ++ replicate 5 1 ∧
  v_used_idx (served b w sector v) = v_dev_idx (served b w sector v) ∧
  v_dev_idx (served b w sector v) = u16 (v_dev_idx v + 1) ∧
  v_avail_idx (served b w sector v) = u16 (v_avail_idx v + 1).
Proof. by destruct v. Qed.

Lemma finished_idle b w sector v : vq_idle v → vq_idle (finished b w sector v).
Proof.
  intros Hv. pose proof (vq_len_idle v Hv) as Hl. destruct Hv as [_ _ _ _ _ _ [H7 H8] H9].
  destruct (served_fields b w sector v) as (F1 & F2 & F3 & F4).
  rewrite <-(vq_len_served b w sector v) in Hl. unfold finished. cbv zeta.
  revert F1 F2 F3 F4 Hl. generalize (served b w sector v). intros u F1 F2 F3 F4 Hl.
  set (u1 := set_v_info _ u).
  assert (Hc : vq_len (chain_freed u1) = replicate 5 NUM).
  { unfold chain_freed. rewrite !vq_len_freed. unfold u1. by rewrite vq_len_info. }
  destruct u. cbn in F1, F2, F3, F4. subst. injection Hc as L1 L2 L3 L4 L5.
  split; [exact L1|exact L2|exact L3|exact L4|exact L5|reflexivity|..]; cbn.
  - by rewrite H8.
  - unfold u16. apply Z.mod_pos_bound. lia.
Qed.

Lemma served_desc b w sector v i :
  vq_idle v → v_desc (served b w sector v) !! i =
    match i with
    | 0%nat => Some (mkdesc (DA_op 0) 16 VRING_DESC_F_NEXT 1)
    | 1%nat => Some (mkdesc (DA_data b) BSIZE
        (Z.lor (if w then 0 else VRING_DESC_F_WRITE) VRING_DESC_F_NEXT) 2)
    | 2%nat => Some (mkdesc (DA_status 0) 1 VRING_DESC_F_WRITE 0)
    | _ => v_desc v !! i
    end.
Proof.
  intros [H1 _ _ _ _ _ _ _]. unfold served, dev_used, pending, formatted. cbv zeta. krec.
  revert H1. generalize (v_desc v). unfold NUM.
  intros [|d0 [|d1 [|d2 l]]] Hl; [done..|]. by destruct i as [|[|[|i]]].
Qed.

Lemma dev_env_cons p n e : dev_env p (S n) e → ∃ f e', e = f :: e' ∧ (∀ s, f s = others p s) ∧ dev_env p n e'.
Proof.
  intros [Hn He]. destruct e as [|f e]; [cbn in Hn; lia|]. apply Forall_cons in He as [Hf He].
  exists f, e. split_and!; [done|done|]. split; [cbn in Hn; lia|done].
Qed.

Lemma dev_env_le p n m e : dev_env p n e → (m ≤ n)%nat → dev_env p m e.
Proof. intros [H1 H2] Hm. split; [lia|done]. Qed.

Lemma rw_bufs w (b : nat) bu d (bs : list buf) :
  bs !! b = Some bu → b_disk bu = 0 →
  alter (λ bu', set_b_disk 0 (rw_buf w d (b_blockno bu) bu')) b (alter (set_b_disk 1) b bs) =
  alter (rw_buf w d (b_blockno bu)) b bs.
Proof.
  intros Hb Hd. rewrite list_alter_alter_eq. apply list_alter_ext; [|done]. intros x Hx.
  assert (x = bu) as -> by congruence. destruct bu. cbn in Hd. subst. by destruct w.
Qed.

Lemma submit_ok b bu w sec v e s :
  vq_idle v → k_vdisk s = set_v_free (replicate 3 0 ++ replicate 5 1) v →
  bc_buf (k_bcache s) !! b = Some bu →
  ∃ m, submit_request b w sec 0 1 2 e s = Ret tt e
    (set_k_mmio m (set_k_vdisk (pending b w sec v) (alter_buf b (set_b_disk 1) s))).
Proof.
  intros [H1 H2 H3 H4 H5 H6 H7 H8] Hs Hb. unfold submit_request.
  erewrite bind_Ret; [|by apply format_ok; rewrite Hs]. rewrite Hs.
  set (v1 := formatted _ _ _ _). assert (Hl : length (v_info v1) = NUM).
  { destruct v. cbn in *. by rewrite length_alter. }
  kbuf Hb. erewrite bind_Ret; [|apply set_info_ok; change (0 < length (v_info v1))%nat; rewrite Hl; unfold NUM; lia].
  unfold modify_disk, write_reg. mstep. eexists. unfold alter_buf. kproj. reflexivity.
Qed.

(** The contract of the driver: when [virtio_disk_rw] returns, the block has
    been transferred between the buffer and the disk, and nothing else has
    changed outside the driver, the process table and the processors. *)
Lemma virtio_disk_rw_ok p pid ie n b bu w e s :
  runs p pid ie [] s → dev_env p (S n) e → vq_idle (k_vdisk s) →
  bc_buf (k_bcache s) !! b = Some bu → b_disk bu = 0 → 0 ≤ b_blockno bu < 2 ^ 31 →
  ∃ e' c ps v m, virtio_disk_rw b w e s = Ret tt e'
      (set_k_core c (set_k_procs ps (set_k_vdisk v (set_k_mmio m (rw_effect w b bu s))))) ∧
    dev_env p n e' ∧ vq_idle v ∧ (∃ h, ctx (mkthread h (Some p) ie) [] c) ∧
    pstatic <$> ps = pstatic <$> k_procs s.
Proof.
  intros [(h & Hc) Hlen Hpid] He Hv Hb Hd Hblk.
  destruct (dev_env_cons _ _ _ He) as (f & e' & -> & Hf & He').
  unfold virtio_disk_rw. kbuf Hb. cbv zeta.
  replace (u32 (b_blockno bu * (BSIZE / 512))) with (b_blockno bu * (BSIZE / 512)).
  2: { unfold u32, BSIZE. change (1024 / 512) with 2. rewrite Z.mod_small; lia. }
  kacquire c1 Hc1; [apply not_elem_of_nil|].
  mrun (alloc3_ok (f :: e') (set_k_core c1 s) Hv).
  destruct (submit_ok b bu w (b_blockno bu * (BSIZE / 512)) (k_vdisk s) (f :: e')
    (set_k_vdisk (set_v_free (replicate 3 0 ++ replicate 5 1) (k_vdisk (set_k_core c1 s))) (set_k_core c1 s)))
    as (m1 & Hr1); [done..|]. mrun Hr1. clear Hr1.
  match goal with |- context [bind (loop (request_wait b) tt) _ _ ?S] =>
    destruct (request_wait_ok h p pid ie b bu w (k_vdisk s) f e' S) as (c2 & ps & m & Hr & Hc2 & Hl2 & Hp2) end;
    [done|done|done|done|done| |done|].
  { unfold alter_buf. cbn. by rewrite list_lookup_alter, decide_True, Hb. }
  mrun Hr. clear Hr. set (sv := served b w (b_blockno bu * (BSIZE / 512)) (k_vdisk s)).
  pose proof (vq_len_served b w (b_blockno bu * (BSIZE / 512)) (k_vdisk s)) as Hvl.
  rewrite (vq_len_idle _ Hv) in Hvl. fold sv in Hvl.
  assert (L1 : length (v_desc sv) = NUM) by exact (f_equal (λ l, nth 0 l 0%nat) Hvl).
  assert (L4 : length (v_info sv) = NUM) by exact (f_equal (λ l, nth 3 l 0%nat) Hvl).
  erewrite bind_Ret; [|apply set_info_ok; kproj; rewrite L4; unfold NUM; lia]. kproj.
  match goal with |- context [bind (free_chain 0) _ _ ?S] =>
    destruct (free_chain_ok (mkthread h (Some p) ie) [L_vdisk]
      (mkdesc (DA_op 0) 16 VRING_DESC_F_NEXT 1)
      (mkdesc (DA_data b) BSIZE (Z.lor (if w then 0 else VRING_DESC_F_WRITE) VRING_DESC_F_NEXT) 2)
      (mkdesc (DA_status 0) 1 VRING_DESC_F_WRITE 0) e' S) as (c3 & Hr3 & Hc3) end;
    [done|done|intros i _; set_solver|exact L1|done|exact (served_desc b w _ (k_vdisk s) 0 Hv)|done|done
    |exact (served_desc b w _ (k_vdisk s) 1 Hv)|done|by destruct w
    |exact (served_desc b w _ (k_vdisk s) 2 Hv)|done|].
  mrun Hr3. clear Hr3. krelease c4 Hc4.
  exists e', c4, (let w := woken (Some p) Ch_disk_free in w (w (w ps))),
    (finished b w (b_blockno bu * (BSIZE / 512)) (k_vdisk s)), m.
  split; [|split; [done|split; [by apply finished_idle|]]].
  - unfold rw_effect, finished, alter_buf. kproj. cbn [bc_buf set_bc_buf t_proc]. fold sv.
    rewrite <-(rw_bufs w b bu (k_disk s) (bc_buf (k_bcache s)) Hb Hd).
    unfold set_bc_buf. cbn [bc_buf bc_hprev bc_hnext]. cbv zeta. kstate_eq.
  - split; [by exists h|]. cbv zeta. by rewrite !pstatic_woken.
Qed.

End virtio.

(** * A device *)

(** A device that looks at the next available chain and executes it. *)
Definition queue_device (s : kstate) : kstate :=
  let v := k_vdisk s in
  if negb (v_avail_idx v =? u16 (v_dev_idx v + 1)) then s else
  match v_avail_ring v !! Z.to_nat (v_dev_idx v mod Z.of_nat NUM) with
  | Some hd =>
      match v_desc v !! Z.to_nat hd with
      | Some (mkdesc (DA_op o) _ _ n1) =>
          match v_ops v !! o, v_desc v !! Z.to_nat n1 with
          | Some (mkreq ty _ sector), Some (mkdesc (DA_data b) _ _ n2) =>
              match v_desc v !! Z.to_nat n2 with
              | Some (mkdesc (DA_status k) _ _ _) =>
                  dev_complete (ty =? VIRTIO_BLK_T_OUT) b (sector / (BSIZE / 512)) hd k s
              | _ => s
              end
          | _, _ => s
          end
      | _ => s
      end
  | None => s
  end.

#[export] Instance queue_dev : VirtioDev := {| device := queue_device |}.

#[export] Instance queue_dev_ok : VirtioOk queue_dev.
Proof.
  split. intros s hd i1 i2 o k blk w b bu H1 H2 H3 H4 H5 H6 Hb. cbn [device queue_dev].
  unfold queue_device. cbv zeta. rewrite H1, Z.eqb_refl. cbn [negb]. rewrite H2, !Nat2Z.id, H3, H4.
  rewrite Nat2Z.id, H5, Nat2Z.id, H6. unfold BSIZE. change (1024 / 512) with 2.
  rewrite Z.div_mul by done. by destruct w.
Defined.

(** C13: The disk driver serves the request it is given: [virtio_disk_rw] called on a
    buffer returns after the device has transferred exactly that block, in
    the direction asked for, with the descriptors all free again and the
    rings in step, whatever the queue's position (its 16-bit indices wrap
    around). Between the submission and the return only the device, the
    interrupt handler and the scheduler run; the process sleeps once. *)
Theorem virtio_serves {dev : VirtioDev} {ok : VirtioOk dev} p pid ie n b bu w e s :
  runs p pid ie [] s → dev_env p (S n) e → vq_idle (k_vdisk s) →
  bc_buf (k_bcache s) !! b = Some bu → b_disk bu = 0 → 0 ≤ b_blockno bu < 2 ^ 31 →
  ∃ e' c ps v m, virtio_disk_rw b w e s = Ret tt e'
      (set_k_core c (set_k_procs ps (set_k_vdisk v (set_k_mmio m (rw_effect w b bu s))))) ∧
    dev_env p n e' ∧ vq_idle v ∧ (∃ h, ctx (mkthread h (Some p) ie) [] c) ∧
    pstatic <$> ps = pstatic <$> k_procs s.
Proof. apply virtio_disk_rw_ok. Qed.

(** A queue just initialised, and one whose indices are about to wrap. *)
Definition idle_vdisk (n : Z) : vdisk :=
  set_v_used_idx n (set_v_dev_idx n (set_v_avail_idx n (set_v_free (replicate NUM 1) zero_vdisk))).

Lemma idle_vdisk_idle n : 0 ≤ n < 2 ^ 16 → vq_idle (idle_vdisk n).
Proof. intros Hn. split; done. Qed.

Lemma virtio_serves_witness :
  ∃ e' s', virtio_disk_rw 3 true [others 0] (set_k_vdisk (idle_vdisk 65535) (proc0_state true)) = Ret tt e' s' ∧
    k_writes s' = [(0, replicate 1024 0)].
Proof.
  destruct (virtio_serves 0 0 true 0 3 zero_buf true [others 0]
    (set_k_vdisk (idle_vdisk 65535) (proc0_state true))) as (e' & c & ps & v & m & Hr & He & _ & _).
  - split; [exists 0%nat; exact (proc0_ctx true)|reflexivity|reflexivity].
  - split; [cbn; lia|]. constructor; [reflexivity|constructor].
  - apply idle_vdisk_idle. lia.
  - reflexivity.
  - reflexivity.
  - cbn. lia.
  - eexists e', _. split; [exact Hr|reflexivity].
Defined.
