(* ===== verification/Bio.v ===== *)
(** kernel/bio.c: the buffer cache.

    The buffers form a circular doubly-linked list through the list head,
    most recently used first. [lru bc l] says that the list in memory is [l];
    the second part specifies the operations against it and against the
    contents of the disk. *)

From S2P Require Import Prelude Mem KString Params Kernel Spinlock Sched Sleeplock Virtio.

(** * The code *)

Definition nbuf : nat := Z.to_nat NBUF.

(** [b->next] and [b->prev], where [b] may be [&bcache.head]. *)
Definition bnext (bc : bufcache) (x : option nat) : option (option nat) :=
  match x with None => Some (bc_hnext bc) | Some i => b_next <$> bc_buf bc !! i end.
Definition bprev (bc : bufcache) (x : option nat) : option (option nat) :=
  match x with None => Some (bc_hprev bc) | Some i => b_prev <$> bc_buf bc !! i end.
Definition put_next (x v : option nat) (bc : bufcache) : bufcache :=
  match x with
  | None => set_bc_hnext v bc
  | Some i => set_bc_buf (alter (set_b_next v) i (bc_buf bc)) bc
  end.
Definition put_prev (x v : option nat) (bc : bufcache) : bufcache :=
  match x with
  | None => set_bc_hprev v bc
  | Some i => set_bc_buf (alter (set_b_prev v) i (bc_buf bc)) bc
  end.
Definition get_next (x : option nat) : K (option nat) :=
  bc <- gets k_bcache ;;
  deref (bnext bc x).
Definition get_prev (x : option nat) : K (option nat) :=
  bc <- gets k_bcache ;;
  deref (bprev bc x).
Definition set_next (x v : option nat) : K unit :=
  get_next x ;;; modify (λ s, set_k_bcache (put_next x v (k_bcache s)) s).
Definition set_prev (x v : option nat) : K unit :=
  get_prev x ;;; modify (λ s, set_k_bcache (put_prev x v (k_bcache s)) s).

(** Inserting [b] after the list head. *)
Definition link_front (b : nat) : K unit :=
  n <- get_next None ;;
  set_next (Some b) n ;;;
  set_prev (Some b) None.
Definition link_back_pointers (b : nat) : K unit :=
  n <- get_next None ;;
  set_prev n (Some b) ;;;
  set_next None (Some b).

Definition binit : K unit :=
  initlock L_bcache "bcache" ;;;
  set_prev None None ;;;
  set_next None None ;;;
  for_in (seq 0 nbuf) (λ b,
    link_front b ;;;
    initsleeplock (SL_buf b) "buffer" ;;;
    link_back_pointers b ;;;
    ret (@None unit)) ;;;
  ret tt.

(** The two scans of [bget]: forward for a buffer that caches the block,
    backward for one that nobody uses. *)
Definition bget_hit (dev blockno : Z) (x : option nat) : K (option nat + option nat) :=
  match x with
  | None => ret (inr None)
  | Some b =>
      bu <- buf_of b ;;
      if (b_dev bu =? dev) && (b_blockno bu =? blockno) then ret (inr (Some b))
      else n <- get_next x ;; ret (inl n)
  end.
Definition bget_free (x : option nat) : K (option nat + option nat) :=
  match x with
  | None => ret (inr None)
  | Some b =>
      bu <- buf_of b ;;
      if b_refcnt bu =? 0 then ret (inr (Some b))
      else n <- get_prev x ;; ret (inl n)
  end.

Definition bget (dev blockno : Z) : K nat :=
  acquire L_bcache ;;;
  h <- get_next None ;;
  r <- loop (bget_hit dev blockno) h ;;
  match r with
  | Some b =>
      modify_buf b (λ bu, set_b_refcnt (u32 (b_refcnt bu + 1)) bu) ;;;
      release L_bcache ;;;
      acquiresleep (SL_buf b) ;;;
      ret b
  | None =>
      t <- get_prev None ;;
      r <- loop bget_free t ;;
      match r with
      | Some b =>
          modify_buf b (set_b_dev dev) ;;;
          modify_buf b (set_b_blockno blockno) ;;;
          modify_buf b (set_b_valid 0) ;;;
          modify_buf b (set_b_refcnt 1) ;;;
          release L_bcache ;;;
          acquiresleep (SL_buf b) ;;;
          ret b
      | None => panic "bget: no buffers"
      end
  end.

Definition bread (dev blockno : Z) : K nat :=
  b <- bget dev blockno ;;
  bu <- buf_of b ;;
  when (b_valid bu =? 0) (
    virtio_disk_rw b false ;;;
    modify_buf b (set_b_valid 1)) ;;;
  ret b.

Definition bwrite (b : nat) : K unit :=
  h <- holdingsleep (SL_buf b) ;;
  if negb h then panic "bwrite" else
  virtio_disk_rw b true.

(** Unlinking [b] and inserting it after the list head. *)
Definition move_to_front (b : nat) : K unit :=
  n <- get_next (Some b) ;;
  p <- get_prev (Some b) ;;
  set_prev n p ;;;
  n <- get_next (Some b) ;;
  p <- get_prev (Some b) ;;
  set_next p n ;;;
  link_front b ;;;
  link_back_pointers b.

Definition brelse (b : nat) : K unit :=
  h <- holdingsleep (SL_buf b) ;;
  if negb h then panic "brelse" else
  releasesleep (SL_buf b) ;;;
  acquire L_bcache ;;;
  modify_buf b (λ bu, set_b_refcnt (u32 (b_refcnt bu - 1)) bu) ;;;
  bu <- buf_of b ;;
  when (b_refcnt bu =? 0) (move_to_front b) ;;;
  release L_bcache.

Definition bpin (b : nat) : K unit :=
  acquire L_bcache ;;;
  modify_buf b (λ bu, set_b_refcnt (u32 (b_refcnt bu + 1)) bu) ;;;
  release L_bcache.

Definition bunpin (b : nat) : K unit :=
  acquire L_bcache ;;;
  modify_buf b (λ bu, set_b_refcnt (u32 (b_refcnt bu - 1)) bu) ;;;
  release L_bcache.

(** * The list *)

(** Following [next] from [x] goes through [l] and arrives at [y], and the
    [prev] pointers go back. *)
Fixpoint dseg (bc : bufcache) (x : option nat) (l : list nat) (y : option nat) : Prop :=
  match l with
  | [] => bnext bc x = Some y ∧ bprev bc y = Some x
  | i :: l' => bnext bc x = Some (Some i) ∧ bprev bc (Some i) = Some x ∧ dseg bc (Some i) l' y
  end.

(** The list of the buffers, most recently used first. *)
Definition lru (bc : bufcache) (l : list nat) : Prop := dseg bc None l None ∧ NoDup l.

Lemma dseg_app bc x l1 i l2 y :
  dseg bc x (l1 ++ i :: l2) y ↔ dseg bc x l1 (Some i) ∧ dseg bc (Some i) l2 y.
Proof.
  revert x. induction l1 as [|j l1 IH]; intros x; cbn [dseg app]; [tauto|]. rewrite IH. tauto.
Qed.

Lemma bnext_put_next bc x v z :
  is_Some (bnext bc x) → bnext (put_next x v bc) z = if decide (z = x) then Some v else bnext bc z.
Proof.
  intros Hx. destruct x as [i|], z as [j|]; cbn; repeat case_decide; simplify_eq; try done.
  - rewrite list_lookup_alter, decide_True by done. cbn in Hx. destruct (bc_buf bc !! i); [done|].
    by destruct Hx.
  - by rewrite list_lookup_alter, decide_False by congruence.
Qed.
Lemma bprev_put_prev bc x v z :
  is_Some (bprev bc x) → bprev (put_prev x v bc) z = if decide (z = x) then Some v else bprev bc z.
Proof.
  intros Hx. destruct x as [i|], z as [j|]; cbn; repeat case_decide; simplify_eq; try done.
  - rewrite list_lookup_alter, decide_True by done. cbn in Hx. destruct (bc_buf bc !! i); [done|].
    by destruct Hx.
  - by rewrite list_lookup_alter, decide_False by congruence.
Qed.
Lemma bnext_put_prev bc x v z : bnext (put_prev x v bc) z = bnext bc z.
Proof.
  destruct x as [i|], z as [j|]; cbn; try done. rewrite list_lookup_alter.
  case_decide; [|done]. subst. by destruct (bc_buf bc !! j).
Qed.
Lemma bprev_put_next bc x v z : bprev (put_next x v bc) z = bprev bc z.
Proof.
  destruct x as [i|], z as [j|]; cbn; try done. rewrite list_lookup_alter.
  case_decide; [|done]. subst. by destruct (bc_buf bc !! j).
Qed.

(** Pointers outside a segment may change. *)
Lemma dseg_put_next bc x l y z v :
  is_Some (bnext bc z) → z ≠ x → z ∉ Some <$> l → dseg bc x l y → dseg (put_next z v bc) x l y.
Proof.
  intros Hs. revert x. induction l as [|i l IH]; intros x Hzx Hz; cbn [dseg];
    rewrite bnext_put_next, decide_False, bprev_put_next by auto; [done|].
  intros (? & ? & ?). split_and!; [done|done|]. apply IH; [set_solver|set_solver|done].
Qed.
Lemma dseg_put_prev bc x l y z v :
  is_Some (bprev bc z) → z ≠ y → z ∉ Some <$> l → dseg bc x l y → dseg (put_prev z v bc) x l y.
Proof.
  intros Hs Hzy. revert x. induction l as [|i l IH]; intros x Hz; cbn [dseg];
    rewrite bnext_put_prev, bprev_put_prev, decide_False by (auto || set_solver); [done|].
  intros (? & ? & ?). split_and!; [done|done|]. apply IH; [set_solver|done].
Qed.

(** The pointers at the ends of a segment. *)
Lemma dseg_next bc x l y : dseg bc x l y → ∃ n, bnext bc x = Some n ∧ n ∈ (Some <$> l) ++ [y].
Proof. destruct l as [|i l]; intros H; [exists y|exists (Some i)]; destruct H; set_solver. Qed.
Lemma dseg_prev bc x l y : dseg bc x l y → ∃ p, bprev bc y = Some p ∧ p ∈ x :: (Some <$> l).
Proof.
  revert x. induction l as [|i l IH]; intros x; cbn [dseg].
  - intros [_ ?]. exists x. set_solver.
  - intros (_ & _ & H). destruct (IH _ H) as (p & ? & ?). exists p. set_solver.
Qed.
Lemma dseg_valid bc x l y :
  dseg bc x l y → (∀ z, z ∈ x :: (Some <$> l) → is_Some (bnext bc z)) ∧
    (∀ z, z ∈ (Some <$> l) ++ [y] → is_Some (bprev bc z)).
Proof.
  revert x. induction l as [|i l IH]; intros x; cbn [dseg fmap list_fmap app].
  - intros [H1 H2]. split; intros z Hz; set_solver.
  - intros (H1 & H2 & H3). destruct (IH _ H3) as [IH1 IH2]. split; intros z Hz.
    + apply elem_of_cons in Hz as [->|Hz]; [by rewrite H1|auto].
    + apply elem_of_cons in Hz as [->|Hz]; [by rewrite H2|auto].
Qed.

(** Unlinking [b]. *)
Lemma dseg_unlink bc x l1 b l2 p n y :
  dseg bc x l1 (Some b) → dseg bc (Some b) l2 y →
  bprev bc (Some b) = Some p → bnext bc (Some b) = Some n →
  NoDup (x :: (Some <$> l1 ++ b :: l2)) → y ∉ Some <$> l1 ++ b :: l2 →
  dseg (put_next p n (put_prev n p bc)) x (l1 ++ l2) y.
Proof.
  intros H1 H2 Hp Hn. revert x H1. induction l1 as [|i l1 IH]; intros x H1 Hnd Hy.
  - cbn [dseg app] in *. destruct H1 as [H1 H1']. assert (p = x) as -> by congruence.
    apply NoDup_cons in Hnd as [Hx Hnd]. cbn [fmap list_fmap] in *. apply NoDup_cons in Hnd as [Hb Hnd].
    destruct l2 as [|j l2]; cbn [dseg] in *.
    + destruct H2 as [H2 H2']. assert (n = y) as -> by congruence.
      rewrite bnext_put_next, decide_True by (rewrite ?bnext_put_prev, ?H1; done).
      by rewrite bprev_put_next, bprev_put_prev, decide_True by (rewrite ?H2'; done).
    + destruct H2 as (H2 & H2' & H3). assert (n = Some j) as -> by congruence.
      split_and!.
      * by rewrite bnext_put_next, decide_True by (rewrite ?bnext_put_prev, ?H1; done).
      * by rewrite bprev_put_next, bprev_put_prev, decide_True by (rewrite ?H2'; done).
      * cbn [fmap list_fmap] in *. apply NoDup_cons in Hnd as [Hj Hnd].
        apply dseg_put_next; [by rewrite bnext_put_prev, H1|set_solver|set_solver|].
        apply dseg_put_prev; [by rewrite H2'|set_solver|set_solver|done].
  - cbn [dseg app] in *. destruct H1 as (H1 & H1' & H3). cbn [fmap list_fmap] in *.
    apply NoDup_cons in Hnd as [Hx Hnd].
    destruct (dseg_prev _ _ _ _ H3) as (p' & Hp' & Hin). assert (p' = p) as -> by congruence.
    destruct (dseg_next _ _ _ _ H2) as (n' & Hn' & Hin'). assert (n' = n) as -> by congruence.
    destruct (dseg_valid _ _ _ _ H3) as [V1 _]. destruct (dseg_valid _ _ _ _ H2) as [_ V2].
    assert (Hpx : x ≠ p) by (intros ->; set_solver).
    assert (Hni : Some i ≠ n).
    { intros <-. apply elem_of_app in Hin' as [Hin'|Hin'%list_elem_of_singleton]; [|set_solver].
      apply NoDup_cons in Hnd as [Hni _]. set_solver. }
    split_and!.
    + by rewrite bnext_put_next, decide_False, bnext_put_prev by (rewrite ?bnext_put_prev; auto).
    + by rewrite bprev_put_next, bprev_put_prev, decide_False by auto.
    + apply IH; [done|done|set_solver].
Qed.

(** Inserting [b] at the front, as [brelse] and [binit] do. *)
Definition push_front (b : nat) (n : option nat) (bc : bufcache) : bufcache :=
  put_next None (Some b) (put_prev n (Some b) (put_prev (Some b) None (put_next (Some b) n bc))).

Lemma dseg_push b bc l n :
  dseg bc None l None → NoDup l → b ∉ l → is_Some (bc_buf bc !! b) → bnext bc None = Some n →
  dseg (push_front b n bc) None (b :: l) None.
Proof.
  intros H Hnd Hb [bu Hbu] Hn. unfold push_front.
  assert (Hv : is_Some (bnext bc (Some b)) ∧ is_Some (bprev bc (Some b))) by (cbn; rewrite Hbu; eauto).
  destruct Hv as [V1 V2].
  assert (H' : dseg (put_prev (Some b) None (put_next (Some b) n bc)) None l None).
  { apply dseg_put_prev; [by rewrite bprev_put_next|done|set_solver|].
    apply dseg_put_next; [done|done|set_solver|done]. }
  assert (Hn' : bnext (put_prev (Some b) None (put_next (Some b) n bc)) None = Some n)
    by (rewrite bnext_put_prev, bnext_put_next by done; by rewrite decide_False).
  assert (Hnb : bnext (put_prev (Some b) None (put_next (Some b) n bc)) (Some b) = Some n)
    by (rewrite bnext_put_prev, bnext_put_next by done; by rewrite decide_True).
  assert (Hpb : bprev (put_prev (Some b) None (put_next (Some b) n bc)) (Some b) = Some None)
    by (rewrite bprev_put_prev by (by rewrite bprev_put_next); by rewrite decide_True).
  clear Hn Hbu V1 V2 H. revert H' Hn' Hnb Hpb.
  generalize (put_prev (Some b) None (put_next (Some b) n bc)). clear bc. intros bc H Hn Hnb Hpb.
  destruct (dseg_valid _ _ _ _ H) as [_ V2]. destruct (dseg_next _ _ _ _ H) as (n' & Hn' & Hin).
  assert (n' = n) as -> by congruence. specialize (V2 n Hin).
  assert (Hne : n ≠ Some b) by (intros ->; set_solver).
  cbn [dseg]. split_and!.
  - by rewrite bnext_put_next, decide_True by (done || by rewrite bnext_put_prev, Hn).
  - by rewrite bprev_put_next, bprev_put_prev, decide_False by auto.
  - destruct l as [|j l]; cbn [dseg] in *.
    + destruct H as [H1 H2]. assert (n = None) as -> by congruence. split.
      * rewrite bnext_put_next, decide_False by (done || by rewrite bnext_put_prev, Hn).
        by rewrite bnext_put_prev.
      * by rewrite bprev_put_next, bprev_put_prev, decide_True.
    + destruct H as (H1 & H2 & H3). assert (n = Some j) as -> by congruence. split_and!.
      * rewrite bnext_put_next, decide_False by (done || by rewrite bnext_put_prev, Hn).
        by rewrite bnext_put_prev.
      * by rewrite bprev_put_next, bprev_put_prev, decide_True.
      * apply dseg_put_next; [by rewrite bnext_put_prev, Hn|done|by rewrite list_elem_of_fmap; intros (? & ? & ?)|].
        apply NoDup_cons in Hnd as [Hj _].
        apply dseg_put_prev; [by rewrite H2|done|set_solver|done].
Qed.

(** ** The list in the code *)

Lemma get_next_ok x v e s : bnext (k_bcache s) x = Some v → get_next x e s = Ret v e s.
Proof. intros H. unfold get_next. mstep. by rewrite H. Qed.
Lemma get_prev_ok x v e s : bprev (k_bcache s) x = Some v → get_prev x e s = Ret v e s.
Proof. intros H. unfold get_prev. mstep. by rewrite H. Qed.
Lemma set_next_ok x v e s :
  is_Some (bnext (k_bcache s) x) →
  set_next x v e s = Ret tt e (set_k_bcache (put_next x v (k_bcache s)) s).
Proof. intros [y H]. unfold set_next. by mrun (get_next_ok x y e s H). Qed.
Lemma set_prev_ok x v e s :
  is_Some (bprev (k_bcache s) x) →
  set_prev x v e s = Ret tt e (set_k_bcache (put_prev x v (k_bcache s)) s).
Proof. intros [y H]. unfold set_prev. by mrun (get_prev_ok x y e s H). Qed.

Lemma link_front_ok b n bu e s :
  bnext (k_bcache s) None = Some n → bc_buf (k_bcache s) !! b = Some bu →
  link_front b e s =
    Ret tt e (set_k_bcache (put_prev (Some b) None (put_next (Some b) n (k_bcache s))) s).
Proof.
  intros Hn Hb. unfold link_front. mrun (get_next_ok None n e s Hn).
  erewrite bind_Ret; [|apply set_next_ok; cbn; rewrite Hb; eauto].
  rewrite set_prev_ok; [kstate_eq|]. kproj. rewrite bprev_put_next. cbn. rewrite Hb. eauto.
Qed.

Lemma link_back_ok b n e s :
  bnext (k_bcache s) None = Some n → is_Some (bprev (k_bcache s) n) →
  link_back_pointers b e s =
    Ret tt e (set_k_bcache (put_next None (Some b) (put_prev n (Some b) (k_bcache s))) s).
Proof.
  intros Hn Hp. unfold link_back_pointers. mrun (get_next_ok None n e s Hn).
  erewrite bind_Ret; [|by apply set_prev_ok].
  rewrite set_next_ok; [kstate_eq|]. kproj. rewrite bnext_put_prev, Hn. eauto.
Qed.

(** A buffer without its list pointers. *)
Definition strip (b : buf) : buf := set_b_prev None (set_b_next None b).

Lemma strip_put_next x v bc : strip <$> bc_buf (put_next x v bc) = strip <$> bc_buf bc.
Proof.
  destruct x as [i|]; [|done]. cbn. apply list_eq. intros j.
  rewrite !list_lookup_fmap, list_lookup_alter. case_decide; [|done]. subst. by destruct (bc_buf bc !! j).
Qed.
Lemma strip_put_prev x v bc : strip <$> bc_buf (put_prev x v bc) = strip <$> bc_buf bc.
Proof.
  destruct x as [i|]; [|done]. cbn. apply list_eq. intros j.
  rewrite !list_lookup_fmap, list_lookup_alter. case_decide; [|done]. subst. by destruct (bc_buf bc !! j).
Qed.

(** [move_to_front] moves the buffer to the front of the list and touches
    nothing but the links. *)
Lemma move_to_front_ok i l1 l2 bu e s :
  lru (k_bcache s) (l1 ++ i :: l2) → bc_buf (k_bcache s) !! i = Some bu →
  ∃ bc, move_to_front i e s = Ret tt e (set_k_bcache bc s) ∧ lru bc (i :: l1 ++ l2) ∧
    strip <$> bc_buf bc = strip <$> bc_buf (k_bcache s).
Proof.
  intros [Hd Hnd] Hi. pose proof Hd as Hd0. apply dseg_app in Hd as [H1 H2].
  destruct (dseg_prev _ _ _ _ H1) as (p & Hp & Hpin).
  destruct (dseg_next _ _ _ _ H2) as (n & Hn & Hnin).
  destruct (dseg_valid _ _ _ _ H1) as [V1 _]. destruct (dseg_valid _ _ _ _ H2) as [_ V2].
  assert (Hnd' : NoDup (None :: (Some <$> (l1 ++ i :: l2)))).
  { constructor; [by rewrite list_elem_of_fmap; intros (? & ? & ?)|]. by apply NoDup_fmap_2; [apply _|]. }
  assert (Hi1 : (i ∉ l1) ∧ (i ∉ l2) ∧ NoDup (l1 ++ l2)).
  { rewrite <-Permutation_middle in Hnd. apply NoDup_cons in Hnd as [??]. set_solver. }
  destruct Hi1 as (Hi1 & Hi2 & Hnd2).
  assert (Hpi : p ≠ Some i) by (intros ->; set_solver).
  assert (Hni : n ≠ Some i) by (intros ->; set_solver).
  pose proof (dseg_unlink _ _ _ _ _ p n None H1 H2 Hp Hn Hnd'
    ltac:(by rewrite list_elem_of_fmap; intros (? & ? & ?))) as Hu.
  unfold move_to_front.
  mrun (get_next_ok (Some i) n e s Hn). mrun (get_prev_ok (Some i) p e s Hp).
  mrun (set_prev_ok n p e s (V2 n Hnin)).
  erewrite bind_Ret; [|apply get_next_ok; kproj; rewrite bnext_put_prev; exact Hn].
  erewrite bind_Ret; [|apply get_prev_ok; kproj; rewrite bprev_put_prev by auto; rewrite decide_False by done; exact Hp].
  erewrite bind_Ret; [|apply set_next_ok; kproj; rewrite bnext_put_prev; auto].
  kproj. set (bc1 := put_next p n (put_prev n p (k_bcache s))) in *.
  destruct (dseg_next _ _ _ _ Hu) as (n1 & Hn1 & Hn1in).
  assert (Hs1 : strip <$> bc_buf bc1 = strip <$> bc_buf (k_bcache s))
    by (unfold bc1; by rewrite strip_put_next, strip_put_prev).
  assert (Hb1 : is_Some (bc_buf bc1 !! i)).
  { apply lookup_lt_is_Some. apply (f_equal length) in Hs1. rewrite !length_fmap in Hs1.
    rewrite Hs1. by eapply lookup_lt_Some. }
  clearbody bc1. destruct (dseg_valid _ _ _ _ Hu) as [_ V3]. specialize (V3 n1 Hn1in).
  assert (Hn1i : n1 ≠ Some i) by (intros ->; set_solver).
  pose proof (dseg_push i bc1 (l1 ++ l2) n1 Hu Hnd2 ltac:(set_solver) Hb1 Hn1) as Hpush.
  destruct Hb1 as [b1 Hb1].
  erewrite bind_Ret; [|apply (link_front_ok i n1 b1); kproj; done].
  rewrite (link_back_ok i n1).
  - exists (push_front i n1 bc1). split; [kproj; unfold push_front; kstate_eq|]. split.
    + split; [done|]. constructor; [set_solver|done].
    + unfold push_front. by rewrite strip_put_next, !strip_put_prev, strip_put_next.
  - kproj. rewrite bnext_put_prev, bnext_put_next, decide_False by (done || (cbn; rewrite Hb1; eauto)). done.
  - kproj. rewrite bprev_put_prev by (rewrite bprev_put_next; cbn; rewrite Hb1; eauto).
    rewrite decide_False, bprev_put_next by done. done.
Qed.

Definition first (l : list nat) : option nat := match l with [] => None | i :: _ => Some i end.

Lemma dseg_first bc x l : dseg bc x l None → bnext bc x = Some (first l).
Proof. destruct l; by intros [? ?]. Qed.
Lemma dseg_last bc l y : dseg bc None l y → bprev bc y = Some (first (reverse l)).
Proof.
  destruct l as [|i l _] using rev_ind; [by intros [_ ?]|]. rewrite dseg_app. intros [_ [_ ?]].
  by rewrite reverse_snoc.
Qed.

(** The tests of the two scans. *)
Definition caches (dev blk : Z) (bs : list buf) (i : nat) : bool :=
  match bs !! i with Some b => (b_dev b =? dev) && (b_blockno b =? blk) | None => false end.
Definition unused (bs : list buf) (i : nat) : bool :=
  match bs !! i with Some b => b_refcnt b =? 0 | None => false end.

Lemma bget_hit_run dev blk x l e s :
  dseg (k_bcache s) x l None → (∀ i, i ∈ l → is_Some (bc_buf (k_bcache s) !! i)) →
  iter_nat (S (length l)) (bget_hit dev blk) (first l) e s =
    Ret (inr (find (caches dev blk (bc_buf (k_bcache s))) l)) e s.
Proof.
  revert x. induction l as [|i l IH]; intros x Hd Hv; [done|].
  destruct Hd as (_ & _ & Hd). destruct (Hv i) as [b Hb]; [constructor|].
  cbn [length]. rewrite (iter_nat_S _ (S (length l))). cbn [first bget_hit find]. rewrite bind_assoc. kbuf Hb.
  unfold caches at 1. rewrite Hb. destruct ((b_dev b =? dev) && (b_blockno b =? blk)).
  - mstep. done.
  - rewrite bind_assoc. mrun (get_next_ok (Some i) (first l) e s (dseg_first _ _ _ Hd)). mstep.
    cbn [then_iter]. apply (IH (Some i)); [done|]. intros j Hj. apply Hv. by constructor.
Qed.

Lemma bget_free_run y l e s :
  dseg (k_bcache s) None l y → (∀ i, i ∈ l → is_Some (bc_buf (k_bcache s) !! i)) →
  iter_nat (S (length l)) bget_free (first (reverse l)) e s =
    Ret (inr (find (unused (bc_buf (k_bcache s))) (reverse l))) e s.
Proof.
  revert y. induction l as [|i l IH] using rev_ind; intros y Hd Hv; [done|].
  apply dseg_app in Hd as [Hd _]. destruct (Hv i) as [b Hb]; [set_solver|].
  rewrite reverse_snoc, length_app, Nat.add_1_r, iter_nat_S.
  cbn [first bget_free find]. rewrite bind_assoc. kbuf Hb.
  unfold unused at 1. rewrite Hb. destruct (b_refcnt b =? 0).
  - mstep. done.
  - rewrite bind_assoc. mrun (get_prev_ok (Some i) _ e s (dseg_last _ _ _ Hd)). mstep.
    cbn [then_iter]. apply (IH (Some i)); [done|]. intros j Hj. apply Hv. set_solver.
Qed.
