(* ===== verification/Bcache.v ===== *)
(** The buffer cache of kernel/bio.c seen from outside: a finite map from the
    block numbers in use to their reference counts and contents.  [bio] ties
    that map and the set of the blocks a process has locked to the kernel's
    state; every operation of Bio.v is specified by what it does to the map,
    and the last section puts the operations together into a refinement. *)

From S2P Require Import Prelude Mem KString Params Kernel Spinlock Sched Sleeplock Virtio Bio.

(** * The abstract cache *)

Definition bufs (s : kstate) : list buf := strip <$> bc_buf (k_bcache s).

(** What the cache promises: the blocks in use are a finite map from block
    numbers to reference counts and contents; the buffers that nobody uses
    agree with the disk; no block is cached twice. *)
Record cache_ok (bs : list buf) (m : gmap Z (Z * list Z)) (d : gmap Z (list Z)) : Prop := {
  co_len : length bs = nbuf;
  co_wf : ∀ i b, bs !! i = Some b → b_disk b = 0 ∧ 0 ≤ b_blockno b < 2 ^ 31 ∧ 0 ≤ b_refcnt b;
  co_uniq : ∀ i j b b', bs !! i = Some b → bs !! j = Some b' →
    b_dev b = ROOTDEV → b_dev b' = ROOTDEV → b_blockno b = b_blockno b' → i = j;
  co_used : ∀ i b, bs !! i = Some b → 0 < b_refcnt b →
    b_dev b = ROOTDEV ∧ b_valid b ≠ 0 ∧ m !! b_blockno b = Some (b_refcnt b, b_data b);
  co_map : ∀ blk r x, m !! blk = Some (r, x) → 0 < r < 2 ^ 31 ∧ length x = Z.to_nat BSIZE ∧
    ∃ i b, bs !! i = Some b ∧ b_dev b = ROOTDEV ∧ b_blockno b = blk ∧ b_refcnt b = r;
  co_clean : ∀ i b, bs !! i = Some b → b_refcnt b = 0 → b_valid b ≠ 0 → b_dev b = ROOTDEV →
    b_data b = disk_block d (b_blockno b)
}.

(** Whether a block is in use decides whether its buffer is. *)
Lemma cache_ok_refcnt bs m d i b :
  cache_ok bs m d → bs !! i = Some b → b_dev b = ROOTDEV →
  b_refcnt b = match m !! b_blockno b with Some (r, _) => r | None => 0 end.
Proof.
  intros H Hb Hd. destruct (co_wf _ _ _ H _ _ Hb) as (_ & _ & Hr).
  destruct (m !! b_blockno b) as [[r x]|] eqn:Hm.
  - destruct (co_map _ _ _ H _ _ _ Hm) as (_ & _ & j & b' & Hb' & Hd' & Hk & <-).
    assert (i = j) as <- by (by eapply (co_uniq _ _ _ H)). congruence.
  - destruct (decide (0 < b_refcnt b)) as [Hp|]; [|lia].
    destruct (co_used _ _ _ H _ _ Hb Hp) as (_ & _ & ?). congruence.
Qed.

Lemma insert_cases {A} (l : list A) i (x y : A) j :
  (i < length l)%nat → <[i := x]> l !! j = Some y → (j = i ∧ y = x) ∨ (j ≠ i ∧ l !! j = Some y).
Proof.
  intros Hi. destruct (decide (j = i)) as [->|Hne].
  - rewrite list_lookup_insert, decide_True by done. intros [= <-]. by left.
  - rewrite list_lookup_insert_ne by done. by right.
Qed.

Definition is_entry (b' : buf) (blk : Z) : Prop :=
  b_disk b' = 0 ∧ b_dev b' = ROOTDEV ∧ b_blockno b' = blk ∧ 0 ≤ blk < 2 ^ 31 ∧
  0 < b_refcnt b' < 2 ^ 31 ∧ b_valid b' ≠ 0 ∧ length (b_data b') = Z.to_nat BSIZE.

(** Buffer [i] caches [blk], or is free to do so. *)
Definition may_cache (bs : list buf) (b : buf) (blk : Z) : Prop :=
  (b_dev b = ROOTDEV ∧ b_blockno b = blk) ∨
  (b_refcnt b = 0 ∧ ∀ j bj, bs !! j = Some bj → b_dev bj = ROOTDEV → b_blockno bj ≠ blk).

Lemma cache_ok_update bs m d i b b' blk :
  cache_ok bs m d → bs !! i = Some b → is_entry b' blk → may_cache bs b blk →
  cache_ok (<[i := b']> bs) (<[blk := (b_refcnt b', b_data b')]> m) d.
Proof.
  intros H Hb (E1 & E2 & E3 & E4 & E5 & E6 & E7) Hmay.
  assert (Hother : ∀ j bj, j ≠ i → bs !! j = Some bj → b_dev bj = ROOTDEV → b_blockno bj ≠ blk).
  { intros j bj Hj Hbj Hdj Hk. destruct Hmay as [[Hd Hk']|[_ Hno]]; [|by eapply Hno].
    apply Hj. eapply (co_uniq _ _ _ H); [done|done|done|done|congruence]. }
  assert (Hli : (i < length bs)%nat) by (by eapply lookup_lt_Some).
  pose proof (λ j bj, insert_cases bs i b' bj j Hli) as Hlk.
  split.
  - rewrite length_insert. apply (co_len _ _ _ H).
  - intros j bj [[-> ->]|[Hj Hbj]]%Hlk; [rewrite E3; lia|]. by apply (co_wf _ _ _ H j).
  - intros j k bj bk [[-> ->]|[Hj Hbj]]%Hlk [[-> ->]|[Hk Hbk]]%Hlk Hdj Hdk He; try done.
    + exfalso. rewrite E3 in He. by apply (Hother k bk).
    + exfalso. rewrite E3 in He. by apply (Hother j bj).
    + by apply (co_uniq _ _ _ H j k bj bk).
  - intros j bj [[-> ->]|[Hj Hbj]]%Hlk Hr; [rewrite E3, lookup_insert_eq; done|].
    destruct (co_used _ _ _ H _ _ Hbj Hr) as (? & ? & ?). split_and!; [done|done|].
    rewrite lookup_insert_ne; [done|]. intros Heq. by apply (Hother j bj).
  - intros k r x. destruct (decide (k = blk)) as [->|Hne].
    + rewrite lookup_insert_eq. intros [= <- <-]. split_and!; [lia|lia|done|].
      exists i, b'. rewrite list_lookup_insert, decide_True by done. done.
    + rewrite lookup_insert_ne by done. intros Hm.
      destruct (co_map _ _ _ H _ _ _ Hm) as (? & ? & j & bj & Hbj & Hdj & Hkj & Hrj).
      split_and!; [lia|lia|done|]. exists j, bj. rewrite list_lookup_insert_ne; [done|].
      intros <-. assert (bj = b) as -> by congruence. destruct Hmay as [[_ ?]|[? _]]; lia || congruence.
  - intros j bj [[-> ->]|[Hj Hbj]]%Hlk Hr Hv Hdj; [lia|]. by apply (co_clean _ _ _ H j).
Qed.

(** Giving up the last reference to a block that agrees with the disk. *)
Lemma cache_ok_release bs m d i b blk x :
  cache_ok bs m d → bs !! i = Some b → b_dev b = ROOTDEV → b_blockno b = blk →
  m !! blk = Some (1, x) → x = disk_block d blk →
  cache_ok (<[i := set_b_refcnt 0 b]> bs) (delete blk m) d.
Proof.
  intros H Hb Hd Hk Hm Hx. pose proof (cache_ok_refcnt _ _ _ _ _ H Hb Hd) as Hr.
  rewrite Hk, Hm in Hr.
  destruct (co_used _ _ _ H _ _ Hb ltac:(lia)) as (_ & Hv & Hm'). rewrite Hk, Hm, Hr in Hm'.
  injection Hm' as Hdata. assert (Hli : (i < length bs)%nat) by (by eapply lookup_lt_Some).
  pose proof (λ j bj, insert_cases bs i (set_b_refcnt 0 b) bj j Hli) as Hlk.
  assert (Hother : ∀ j bj, j ≠ i → bs !! j = Some bj → b_dev bj = ROOTDEV → b_blockno bj ≠ blk).
  { intros j bj Hj Hbj Hdj Hkj. apply Hj. eapply (co_uniq _ _ _ H); [done|done|done|done|congruence]. }
  split.
  - rewrite length_insert. apply (co_len _ _ _ H).
  - intros j bj [[-> ->]|[Hj Hbj]]%Hlk; [|by apply (co_wf _ _ _ H j)].
    cbn. destruct (co_wf _ _ _ H _ _ Hb) as (? & ? & ?). split_and!; (done || lia).
  - intros j k bj bk [[-> ->]|[Hj Hbj]]%Hlk [[-> ->]|[Hk' Hbk]]%Hlk Hdj Hdk He; try done; cbn in He.
    + by apply (co_uniq _ _ _ H i k b bk).
    + by apply (co_uniq _ _ _ H j i bj b).
    + by apply (co_uniq _ _ _ H j k bj bk).
  - intros j bj [[-> ->]|[Hj Hbj]]%Hlk Hrj; [cbn in Hrj; lia|].
    destruct (co_used _ _ _ H _ _ Hbj Hrj) as (? & ? & ?). split_and!; [done|done|].
    rewrite lookup_delete_ne; [done|]. intros Heq. by apply (Hother j bj).
  - intros k r y Hk'. apply lookup_delete_Some in Hk' as [Hne Hk'].
    destruct (co_map _ _ _ H _ _ _ Hk') as (? & ? & j & bj & Hbj & Hdj & Hkj & Hrj).
    split_and!; [lia|lia|done|]. exists j, bj. rewrite list_lookup_insert_ne; [done|].
    intros <-. congruence.
  - intros j bj [[-> ->]|[Hj Hbj]]%Hlk Hrj Hvj Hdj; [cbn; congruence|]. by apply (co_clean _ _ _ H j).
Qed.

(** Writing a block that is in use. *)
Lemma cache_ok_write bs m d blk r x y :
  cache_ok bs m d → m !! blk = Some (r, x) → cache_ok bs m (<[blk := y]> d).
Proof.
  intros H Hm. destruct H as [H1 H2 H3 H4 H5 H6]. split; [done..|].
  intros i b Hb Hr Hv Hd. rewrite (H6 i b) by done. unfold disk_block.
  rewrite lookup_insert_ne; [done|]. intros ->.
  destruct (H5 _ _ _ Hm) as (? & _ & j & b' & Hb' & Hd' & Hk' & Hr').
  assert (i = j) as <- by (by eapply H3). assert (b = b') as <- by congruence. lia.
Qed.

(** A buffer is free as long as fewer blocks than buffers are in use. *)
Lemma cache_ok_avail bs m d :
  cache_ok bs m d → (size m < nbuf)%nat → ∃ i b, bs !! i = Some b ∧ b_refcnt b = 0.
Proof.
  intros H Hs. destruct (decide (Exists (λ b, b_refcnt b = 0) bs)) as [He|Hn].
  { apply Exists_exists in He as (b & Hin & Hr). apply list_elem_of_lookup in Hin as [i Hi]. eauto. }
  exfalso. rewrite <-Forall_Exists_neg, Forall_lookup in Hn.
  assert (Hu : ∀ i b, bs !! i = Some b →
    b_dev b = ROOTDEV ∧ m !! b_blockno b = Some (b_refcnt b, b_data b)).
  { intros i b Hb. specialize (Hn i b Hb). cbn in Hn. destruct (co_wf _ _ _ H _ _ Hb) as (_ & _ & ?).
    destruct (co_used _ _ _ H _ _ Hb ltac:(lia)) as (? & _ & ?). done. }
  assert (Hnd : NoDup (b_blockno <$> bs)).
  { apply NoDup_alt. intros i j x. rewrite !list_lookup_fmap.
    intros (b & Hb & ->)%fmap_Some (b' & Hb' & Heq)%fmap_Some.
    eapply (co_uniq _ _ _ H); [done|done|by eapply Hu..|done]. }
  assert (Hsub : list_to_set (b_blockno <$> bs) ⊆@{gset Z} dom m).
  { intros k. rewrite elem_of_list_to_set, list_elem_of_fmap. intros (b & -> & Hin).
    apply list_elem_of_lookup in Hin as [i Hi]. apply elem_of_dom. destruct (Hu i b Hi) as [_ ->]. eauto. }
  apply subseteq_size in Hsub. rewrite size_list_to_set, length_fmap, (co_len _ _ _ H), size_dom in Hsub by done.
  lia.
Qed.

(** ** The cache and the process using it *)

(** [h] is the set of the blocks whose buffers the process has locked. *)
Definition buf_lock (h : gset Z) (pid : Z) (b : buf) (l : sleeplock) : Prop :=
  if decide (b_blockno b ∈ h ∧ 0 < b_refcnt b)
  then sll_locked l = 1 ∧ sll_pid l = pid else sll_locked l = 0.

Record bio (p : nat) (pid : Z) (ie : bool) (h : gset Z) (m : gmap Z (Z * list Z)) (s : kstate) : Prop := {
  bi_runs : runs p pid ie [] s;
  bi_vq : vq_idle (k_vdisk s);
  bi_lru : ∃ l, lru (k_bcache s) l ∧ (∀ i, i ∈ l ↔ (i < nbuf)%nat);
  bi_cache : cache_ok (bufs s) m (k_disk s);
  bi_lock : ∀ i b, bufs s !! i = Some b → buf_lock h pid b (slock_of s (SL_buf i));
  bi_held : ∀ blk, blk ∈ h → is_Some (m !! blk);
  bi_disk : ∀ blk x, k_disk s !! blk = Some x → length x = Z.to_nat BSIZE
}.

(** Buffer [i] holds block [blk] for someone. *)
Definition buf_at (s : kstate) (i : nat) (blk : Z) : Prop :=
  ∃ b, bufs s !! i = Some b ∧ b_dev b = ROOTDEV ∧ b_blockno b = blk ∧ 0 < b_refcnt b.

(** What the cache's operations leave alone. *)
Definition bio_rest (s : kstate) : kstate :=
  set_k_core (zero_core 0 true) (set_k_procs [] (set_k_slocks ∅ (set_k_disk ∅ (set_k_writes []
    (set_k_bcache (mkbcache [] None None) (set_k_vdisk zero_vdisk (set_k_mmio ∅ s))))))).
Record bio_frame (s s' : kstate) : Prop := {
  bf_rest : bio_rest s' = bio_rest s;
  bf_procs : pstatic <$> k_procs s' = pstatic <$> k_procs s;
  bf_slock : ∀ i, slock_of s' (SL_inode i) = slock_of s (SL_inode i)
}.

#[export] Instance bio_frame_refl : Reflexive bio_frame.
Proof. intros s. by split. Qed.
#[export] Instance bio_frame_trans : Transitive bio_frame.
Proof. intros s1 s2 s3 [? ? ?] [? ? ?]. split; [congruence|congruence|]. intros i. congruence. Qed.

Lemma bf_log s s' : bio_frame s s' → k_log s' = k_log s.
Proof. intros [H _ _]. exact (f_equal k_log H). Qed.
Lemma bf_mem s s' : bio_frame s s' → k_mem s' = k_mem s.
Proof. intros [H _ _]. exact (f_equal k_mem H). Qed.
Lemma bf_freelist s s' : bio_frame s s' → k_freelist s' = k_freelist s.
Proof. intros [H _ _]. exact (f_equal k_freelist H). Qed.

Lemma lookup_bufs s i b : bc_buf (k_bcache s) !! i = Some b → bufs s !! i = Some (strip b).
Proof. intros H. unfold bufs. by rewrite list_lookup_fmap, H. Qed.
Lemma lookup_bufs_inv s i b :
  bufs s !! i = Some b → ∃ b', bc_buf (k_bcache s) !! i = Some b' ∧ b = strip b'.
Proof. unfold bufs. rewrite list_lookup_fmap. intros (b' & ? & ?)%fmap_Some. by exists b'. Qed.

(** Changing a field that is not a list pointer. *)
Lemma bufs_alter f (i : nat) (bs : list buf) :
  (∀ b, strip (f b) = f (strip b)) → strip <$> alter f i bs = alter f i (strip <$> bs).
Proof.
  intros Hf. apply list_eq. intros j. rewrite !list_lookup_alter, !list_lookup_fmap, !list_lookup_alter.
  case_decide; [|done]. subst. destruct (bs !! j); cbn; [by rewrite Hf|done].
Qed.
Lemma alter_insert {A} (f : A → A) i (l : list A) x : l !! i = Some x → alter f i l = <[i := f x]> l.
Proof.
  revert i. induction l as [|y l IH]; intros [|i] H; cbn in *; simplify_eq; [done|].
  f_equal. by apply IH.
Qed.

(** The links do not depend on the other fields. *)
Lemma dseg_alter f i bc x l y :
  (∀ b, b_next (f b) = b_next b ∧ b_prev (f b) = b_prev b) →
  dseg bc x l y → dseg (set_bc_buf (alter f i (bc_buf bc)) bc) x l y.
Proof.
  intros Hf.
  assert (Hn : ∀ z, bnext (set_bc_buf (alter f i (bc_buf bc)) bc) z = bnext bc z).
  { intros [j|]; [|done]. cbn. rewrite list_lookup_alter. case_decide; [|done]. subst.
    destruct (bc_buf bc !! j) as [b|]; [|done]. cbn. by destruct (Hf b) as [-> _]. }
  assert (Hp : ∀ z, bprev (set_bc_buf (alter f i (bc_buf bc)) bc) z = bprev bc z).
  { intros [j|]; [|done]. cbn. rewrite list_lookup_alter. case_decide; [|done]. subst.
    destruct (bc_buf bc !! j) as [b|]; [|done]. cbn. by destruct (Hf b) as [_ ->]. }
  revert x. induction l as [|j l IH]; intros x; cbn [dseg]; rewrite Hn, Hp; [done|].
  intros (? & ? & ?). split_and!; auto.
Qed.
Lemma lru_alter f i s l :
  (∀ b, b_next (f b) = b_next b ∧ b_prev (f b) = b_prev b) →
  lru (k_bcache s) l → lru (k_bcache (alter_buf i f s)) l.
Proof. intros Hf [H1 H2]. split; [|done]. by apply dseg_alter. Qed.

(** ** Specifications *)

(** What every operation leaves: the abstract cache [m] and the locked blocks
    [h], everything else unchanged, and the buffers still in use where they
    were. *)
Record bio_post p pid ie h m (s s' : kstate) : Prop := {
  bp_bio : bio p pid ie h m s';
  bp_frame : bio_frame s s';
  bp_at : ∀ j k, buf_at s j k → is_Some (m !! k) → buf_at s' j k
}.

Lemma buf_at_entry p pid ie h m s i blk r x :
  bio p pid ie h m s → buf_at s i blk → m !! blk = Some (r, x) →
  ∃ b b0, bc_buf (k_bcache s) !! i = Some b0 ∧ b = strip b0 ∧ bufs s !! i = Some b ∧
    b_refcnt b = r ∧ b_data b = x ∧ is_entry b blk.
Proof.
  intros Hb (b & Hi & Hd & Hk & Hr) Hm. destruct (lookup_bufs_inv _ _ _ Hi) as (b0 & Hb0 & ->).
  pose proof (bi_cache _ _ _ _ _ _ Hb) as Hc.
  destruct (co_used _ _ _ Hc _ _ Hi Hr) as (_ & Hv & Hm'). rewrite Hk, Hm in Hm'. injection Hm' as -> ->.
  destruct (co_wf _ _ _ Hc _ _ Hi) as (H0 & H1 & _). destruct (co_map _ _ _ Hc _ _ _ Hm) as (H2 & H3 & _).
  exists (strip b0), b0. split_and!; try done; try lia. unfold is_entry. rewrite Hk in H1. split_and!; cbn in *; done || lia.
Qed.

(** Replacing the buffer of a block in use by another entry for the block. *)
Lemma bio_change p pid ie h m s s' i b b' blk :
  bio p pid ie h m s → bufs s !! i = Some b → b_dev b = ROOTDEV → b_blockno b = blk → 0 < b_refcnt b →
  is_entry b' blk → bufs s' = <[i := b']> (bufs s) →
  (∃ c, ctx (mkthread c (Some p) ie) [] (k_core s')) →
  (∀ l, lru (k_bcache s) l → lru (k_bcache s') l) →
  k_disk s' = k_disk s → k_vdisk s' = k_vdisk s → k_slocks s' = k_slocks s → k_procs s' = k_procs s →
  bio_rest s' = bio_rest s →
  bio_post p pid ie h (<[blk := (b_refcnt b', b_data b')]> m) s s'.
Proof.
  intros Hb Hi Hd Hk Hr He Hbs Hc Hl Hdk Hv Hsl Hp Hrest.
  destruct Hb as [B1 B2 (l & B3 & B3') B4 B5 B6 B7].
  assert (Hli : (i < length (bufs s))%nat) by (by eapply lookup_lt_Some).
  assert (Hslk : ∀ sl, slock_of s' sl = slock_of s sl) by (intros sl; unfold slock_of; by rewrite Hsl).
  split; [split| |].
  - eapply runs_static; [done|done|by rewrite Hp].
  - by rewrite Hv.
  - exists l. auto.
  - rewrite Hbs, Hdk. eapply cache_ok_update; [done|done|done|by left].
  - intros j bj. rewrite Hbs, Hslk. intros [[-> ->]|[Hj Hbj]]%(insert_cases _ _ _ _ _ Hli); [|exact (B5 j bj Hbj)].
    specialize (B5 i b Hi). destruct He as (_ & _ & E3 & _ & E5 & _). revert B5. unfold buf_lock.
    rewrite E3, Hk. do 2 case_decide; naive_solver lia.
  - intros k Hin. destruct (decide (k = blk)) as [->|]; [rewrite lookup_insert_eq; eauto|].
    rewrite lookup_insert_ne by done. auto.
  - by rewrite Hdk.
  - split; [done|by rewrite Hp|]. intros j. apply Hslk.
  - intros j k (bj & Hj & Hdj & Hkj & Hrj) _. destruct (decide (j = i)) as [->|Hne].
    + assert (bj = b) as -> by congruence. destruct He as (_ & E2 & E3 & _ & E5 & _).
      exists b'. rewrite Hbs, list_lookup_insert, decide_True by done. split_and!; try done; [congruence|lia].
    + exists bj. rewrite Hbs, list_lookup_insert_ne by done. done.
Qed.

Lemma bufs_set_core c s : bufs (set_k_core c s) = bufs s.
Proof. done. Qed.

Lemma bufs_alter_buf f i b s :
  (∀ b, strip (f b) = f (strip b)) → bufs s !! i = Some b →
  bufs (alter_buf i f s) = <[i := f b]> (bufs s).
Proof.
  intros Hf Hi. unfold bufs, alter_buf. kproj. cbn [bc_buf set_bc_buf].
  rewrite bufs_alter by done. by rewrite (alter_insert _ _ _ _ Hi).
Qed.

(** A reference count changed under the cache's lock. *)
Definition add_ref (k : Z) (bu : buf) : buf := set_b_refcnt (u32 (b_refcnt bu + k)) bu.

Lemma set_ref_run t L i b0 k e s :
  ctx t L (k_core s) → L_bcache ∉ L → bc_buf (k_bcache s) !! i = Some b0 →
  ∃ c, (acquire L_bcache ;;; modify_buf i (add_ref k) ;;; release L_bcache) e s =
    Ret tt e (set_k_core c (alter_buf i (add_ref k) s)) ∧ ctx t L c.
Proof.
  intros Hc HL Hi. kacquire c1 Hc1. kbuf Hi. krelease c2 Hc2.
  exists c2. split; [unfold alter_buf; kstate_eq|done].
Qed.

(** The state after a reference count has changed. *)
Lemma add_ref_post p pid ie h m i blk r x k c s :
  bio p pid ie h m s → buf_at s i blk → m !! blk = Some (r, x) → 0 < r + k < 2 ^ 31 →
  (∃ hh, ctx (mkthread hh (Some p) ie) [] c) →
  bio_post p pid ie h (<[blk := (r + k, x)]> m) s (set_k_core c (alter_buf i (add_ref k) s)).
Proof.
  intros Hb Hat Hm Hk Hc.
  destruct (buf_at_entry _ _ _ _ _ _ _ _ _ _ Hb Hat Hm) as (b & b0 & Hb0 & Hs & Hi & Hr & Hx & He).
  assert (Hr' : b_refcnt (add_ref k b) = r + k).
  { unfold add_ref. cbn. rewrite Hr. apply u32_id. lia. }
  pose proof He as (E1 & E2 & E3 & E4 & E5 & E6 & E7).
  rewrite <-Hr', <-Hx. change (b_data b) with (b_data (add_ref k b)).
  apply (bio_change p pid ie h m s _ i b (add_ref k b) blk); try done.
  - lia.
  - unfold is_entry. rewrite Hr'. split_and!; try done; lia.
  - rewrite bufs_set_core. by apply bufs_alter_buf.
  - intros l. by apply lru_alter.
Qed.

Lemma set_ref_ok p pid ie h m i blk r x k e s :
  bio p pid ie h m s → buf_at s i blk → m !! blk = Some (r, x) → 0 < r + k < 2 ^ 31 →
  ∃ s', (acquire L_bcache ;;; modify_buf i (add_ref k) ;;; release L_bcache) e s = Ret tt e s' ∧
    bio_post p pid ie h (<[blk := (r + k, x)]> m) s s' ∧ k_disk s' = k_disk s ∧ k_writes s' = k_writes s.
Proof.
  intros Hb Hat Hm Hk. destruct (rn_ctx _ _ _ _ _ (bi_runs _ _ _ _ _ _ Hb)) as [hh Hc].
  destruct (buf_at_entry _ _ _ _ _ _ _ _ _ _ Hb Hat Hm) as (b & b0 & Hb0 & _).
  destruct (set_ref_run _ _ i b0 k e s Hc (not_elem_of_nil _) Hb0) as (c & Hrun & Hc').
  eexists. split; [exact Hrun|]. split; [|done]. eapply add_ref_post; [done..|]. by exists hh.
Qed.

Lemma bpin_ok p pid ie h m i blk r x e s :
  bio p pid ie h m s → buf_at s i blk → m !! blk = Some (r, x) → r + 1 < 2 ^ 31 →
  ∃ s', bpin i e s = Ret tt e s' ∧ bio_post p pid ie h (<[blk := (r + 1, x)]> m) s s' ∧
    k_disk s' = k_disk s ∧ k_writes s' = k_writes s.
Proof.
  intros Hb Hat Hm Hr. apply (set_ref_ok p pid ie h m i blk r x 1 e s); try done.
  destruct (co_map _ _ _ (bi_cache _ _ _ _ _ _ Hb) _ _ _ Hm). lia.
Qed.

Lemma bunpin_ok p pid ie h m i blk r x e s :
  bio p pid ie h m s → buf_at s i blk → m !! blk = Some (r, x) → 1 < r →
  ∃ s', bunpin i e s = Ret tt e s' ∧ bio_post p pid ie h (<[blk := (r - 1, x)]> m) s s' ∧
    k_disk s' = k_disk s ∧ k_writes s' = k_writes s.
Proof.
  intros Hb Hat Hm Hr. apply (set_ref_ok p pid ie h m i blk r x (-1) e s); try done.
  destruct (co_map _ _ _ (bi_cache _ _ _ _ _ _ Hb) _ _ _ Hm). lia.
Qed.

Section disk.
Context {dev : VirtioDev} {ok : VirtioOk dev}.

Lemma holdingsleep_held p pid ie h m i blk r x e s :
  bio p pid ie h m s → blk ∈ h → buf_at s i blk → m !! blk = Some (r, x) →
  ∃ c hh, holdingsleep (SL_buf i) e s = Ret true e (set_k_core c s) ∧
    ctx (mkthread hh (Some p) ie) [] c.
Proof.
  intros Hb Hh Hat Hm. destruct (rn_ctx _ _ _ _ _ (bi_runs _ _ _ _ _ _ Hb)) as [hh Hc].
  destruct (runs_lookup _ _ _ _ _ (bi_runs _ _ _ _ _ _ Hb)) as (pr & Hpr & Hpid).
  destruct (holdingsleep_ok (mkthread hh (Some p) ie) [] p pr (SL_buf i) e s) as (c & Hr & Hc');
    [done|done|done|apply not_elem_of_nil|].
  exists c, hh. split; [|done]. rewrite Hr. f_equal.
  destruct Hat as (b & Hi & Hd & Hk & Href). pose proof (bi_lock _ _ _ _ _ _ Hb i b Hi) as Hl.
  unfold buf_lock in Hl. rewrite Hk, decide_True in Hl by done. destruct Hl as [-> ->].
  by rewrite Hpid, Z.eqb_refl.
Qed.

Lemma bwrite_ok p pid ie h m i blk r x n e s :
  bio p pid ie h m s → blk ∈ h → buf_at s i blk → m !! blk = Some (r, x) → dev_env p (S n) e →
  ∃ e' s', bwrite i e s = Ret tt e' s' ∧ dev_env p n e' ∧ bio_post p pid ie h m s s' ∧
    k_disk s' = <[blk := x]> (k_disk s) ∧ k_writes s' = k_writes s ++ [(blk, x)].
Proof.
  intros Hb Hh Hat Hm He. unfold bwrite.
  destruct (holdingsleep_held p pid ie h m i blk r x e s) as (c & hh & Hr & Hc); [done..|].
  mrun Hr. cbn [negb].
  destruct (buf_at_entry _ _ _ _ _ _ _ _ _ _ Hb Hat Hm) as (b & b0 & Hb0 & -> & Hi & Href & Hx & HE).
  pose proof Hb as [B1 B2 (l & B3 & B3') B4 B5 B6 B7].
  destruct HE as (E1 & E2 & E3 & E4 & _). cbn in E1, E3, Hx.
  destruct (virtio_disk_rw_ok p pid ie n i b0 true e (set_k_core c s))
    as (e' & c' & ps & v & mm & Hr2 & He' & Hv & Hc' & Hps).
  { destruct B1. split; [by exists hh|done|done]. } { done. } { done. } { done. } { done. } { lia. }
  exists e'. eexists. split; [exact Hr2|]. split; [done|].
  assert (Hbc : alter (rw_buf true (k_disk s) (b_blockno b0)) i (bc_buf (k_bcache s)) = bc_buf (k_bcache s))
    by (by apply (list_alter_same _ _ _ b0)).
  assert (Hbc' : k_bcache (rw_effect true i b0 (set_k_core c s)) = k_bcache s).
  { unfold rw_effect, alter_buf. kproj. rewrite Hbc. by destruct (k_bcache s). }
  assert (Hd' : k_disk (rw_effect true i b0 (set_k_core c s)) = <[blk := x]> (k_disk s))
    by (cbn; by rewrite E3, Hx).
  assert (Hw' : k_writes (rw_effect true i b0 (set_k_core c s)) = k_writes s ++ [(blk, x)])
    by (cbn; by rewrite E3, Hx).
  assert (Hrest : bio_rest (rw_effect true i b0 (set_k_core c s)) = bio_rest s) by done.
  assert (Hsl : k_slocks (rw_effect true i b0 (set_k_core c s)) = k_slocks s) by done.
  revert Hbc' Hd' Hw' Hrest Hsl. generalize (rw_effect true i b0 (set_k_core c s)).
  intros s1 Hbc' Hd' Hw' Hrest Hsl.
  split; [|kproj; done]. split; [split| |].
  - eapply runs_static; [exact B1|exact Hc'|exact Hps].
  - done.
  - exists l. kproj. by rewrite Hbc'.
  - unfold bufs. kproj. rewrite Hbc', Hd'. by eapply cache_ok_write.
  - unfold bufs, slock_of. kproj. rewrite Hbc', Hsl. exact B5.
  - done.
  - kproj. rewrite Hd'. intros k y. rewrite lookup_insert_Some. intros [[<- <-]|[_ Hy]]; [|by eapply B7].
    by destruct (co_map _ _ _ B4 _ _ _ Hm) as (_ & ? & _).
  - split; [rewrite <-Hrest; done|exact Hps|]. intros j. unfold slock_of. kproj. by rewrite Hsl.
  - intros j k. unfold buf_at, bufs. kproj. by rewrite Hbc'.
Qed.

(** ** brelse *)

(** The abstract cache after a reference to [blk] is given up. *)
Definition drop_ref (blk r : Z) (x : list Z) (m : gmap Z (Z * list Z)) : gmap Z (Z * list Z) :=
  if decide (r = 1) then delete blk m else <[blk := (r - 1, x)]> m.

Lemma cache_ok_drop bs m d i b blk r x :
  cache_ok bs m d → bs !! i = Some b → b_dev b = ROOTDEV → b_blockno b = blk → m !! blk = Some (r, x) →
  is_entry b blk → b_refcnt b = r → b_data b = x → (r = 1 → x = disk_block d blk) →
  cache_ok (<[i := add_ref (-1) b]> bs) (drop_ref blk r x m) d.
Proof.
  intros H Hi Hd Hk Hm (E1 & E2 & E3 & E4 & E5 & E6 & E7) Hr Hx Hclean. unfold drop_ref.
  assert (Ha : add_ref (-1) b = set_b_refcnt (r - 1) b).
  { unfold add_ref. rewrite Hr, u32_id by lia. done. }
  rewrite Ha. case_decide as H1.
  - subst r. replace (b_refcnt b - 1) with 0 by lia.
    eapply cache_ok_release; [done|done|done|done|by rewrite Hm, H1|auto].
  - rewrite <-Hx. apply (cache_ok_update bs m d i b (set_b_refcnt (r - 1) b) blk); try done; [|by left].
    unfold is_entry. cbn. split_and!; done || lia.
Qed.

(** The state in which [brelse] has given up the sleep-lock and the reference. *)
Lemma brelse_lock p pid ie h m i b blk s s' sl :
  bio p pid ie h m s → bufs s !! i = Some b → b_dev b = ROOTDEV → b_blockno b = blk →
  0 < b_refcnt b → bufs s' = <[i := add_ref (-1) b]> (bufs s) →
  slock_of s' (SL_buf i) = slock_released sl → (∀ j, j ≠ i → slock_of s' (SL_buf j) = slock_of s (SL_buf j)) →
  ∀ j bj, bufs s' !! j = Some bj → buf_lock (h ∖ {[blk]}) pid bj (slock_of s' (SL_buf j)).
Proof.
  intros Hb Hi Hd Hk Hr Hbs Hsl Hsl' j bj.
  assert (Hli : (i < length (bufs s))%nat) by (by eapply lookup_lt_Some).
  rewrite Hbs. intros [[-> ->]|[Hj Hbj]]%(insert_cases _ _ _ _ _ Hli).
  - unfold buf_lock. rewrite Hsl. cbn. rewrite Hk, decide_False by set_solver. done.
  - rewrite Hsl' by done. pose proof (bi_lock _ _ _ _ _ _ Hb j bj Hbj) as Hl. revert Hl. unfold buf_lock.
    destruct (decide (0 < b_refcnt bj)) as [Hp|]; [|by rewrite !decide_False by naive_solver].
    destruct (co_used _ _ _ (bi_cache _ _ _ _ _ _ Hb) _ _ Hbj Hp) as (Hdj & _ & _).
    assert (b_blockno bj ≠ blk).
    { intros Heq. apply Hj. eapply (co_uniq _ _ _ (bi_cache _ _ _ _ _ _ Hb)); [done|done|done|done|congruence]. }
    do 2 case_decide; set_solver.
Qed.

(** Giving up a reference under the cache's lock, with the move to the front
    of the list when it was the last one. *)
Lemma drop_run t L i l b0 e s :
  ctx t L (k_core s) → lru (k_bcache s) l → i ∈ l → bc_buf (k_bcache s) !! i = Some b0 →
  L_bcache ∉ L →
  ∃ c bc l', (acquire L_bcache ;;; modify_buf i (add_ref (-1)) ;;; bu <- buf_of i ;;
      when (b_refcnt bu =? 0) (move_to_front i) ;;; release L_bcache) e s =
      Ret tt e (set_k_core c (set_k_bcache bc s)) ∧
    ctx t L c ∧ lru bc l' ∧ l ≡ₚ l' ∧ strip <$> bc_buf bc = <[i := add_ref (-1) (strip b0)]> (bufs s).
Proof.
  intros Hc Hl Hin Hi HL. kacquire c1 Hc1. kbuf Hi.
  set (s1 := alter_buf i (add_ref (-1)) (set_k_core c1 s)).
  assert (Hi1 : bc_buf (k_bcache s1) !! i = Some (add_ref (-1) b0)).
  { unfold s1, alter_buf. kproj. cbn. by rewrite list_lookup_alter, decide_True, Hi. }
  assert (Hl1 : lru (k_bcache s1) l) by (by apply lru_alter).
  assert (Hb1 : strip <$> bc_buf (k_bcache s1) = <[i := add_ref (-1) (strip b0)]> (bufs s)).
  { apply (bufs_alter_buf (add_ref (-1)) i (strip b0) (set_k_core c1 s)); [done|]. by apply lookup_bufs. }
  assert (Hs1 : ∀ c bc, set_k_core c (set_k_bcache bc s1) = set_k_core c (set_k_bcache bc s)) by done.
  assert (Hs2 : k_core s1 = c1) by done. clearbody s1. kbuf Hi1.
  destruct (b_refcnt (add_ref (-1) b0) =? 0).
  - apply list_elem_of_split in Hin as (l1 & l2 & ->).
    destruct (move_to_front_ok i l1 l2 _ e s1 Hl1 Hi1) as (bc & Hr & Hl2 & Hst).
    mstep. mrun Hr. rewrite <-Hs2 in Hc1. krelease c2 Hc2.
    exists c2, bc, (i :: l1 ++ l2). rewrite Hs1. split_and!; [done|done|done|by rewrite Permutation_middle|congruence].
  - mstep. rewrite <-Hs2 in Hc1. krelease c2 Hc2.
    exists c2, (k_bcache s1), l. split_and!; [|done|done|done|done].
    rewrite <-Hs1. clear. by destruct s1.
Qed.

Lemma brelse_run p pid ie h m i blk r x b0 e s :
  bio p pid ie h m s → blk ∈ h → buf_at s i blk → m !! blk = Some (r, x) →
  bc_buf (k_bcache s) !! i = Some b0 →
  ∃ c ps bc l, brelse i e s =
      Ret tt e (set_k_core c (set_k_procs ps (set_k_bcache bc (upd_slock (SL_buf i) slock_released s)))) ∧
    (∃ hh, ctx (mkthread hh (Some p) ie) [] c) ∧ pstatic <$> ps = pstatic <$> k_procs s ∧
    lru bc l ∧ (∀ i, i ∈ l ↔ (i < nbuf)%nat) ∧
    strip <$> bc_buf bc = <[i := add_ref (-1) (strip b0)]> (bufs s).
Proof.
  intros Hb Hh Hat Hm Hi. unfold brelse.
  destruct (holdingsleep_held p pid ie h m i blk r x e s) as (c & hh & Hr & Hc); [done..|].
  mrun Hr. cbn [negb]. destruct (bi_lru _ _ _ _ _ _ Hb) as (l & Hl & Hl').
  destruct (releasesleep_ok (mkthread hh (Some p) ie) [] (SL_buf i) e (set_k_core c s))
    as (c2 & Hr2 & Hc2); [done|by apply (rn_len _ _ _ _ _ (bi_runs _ _ _ _ _ _ Hb))|
      intros j _; apply not_elem_of_nil|apply not_elem_of_nil|].
  mrun Hr2. rewrite upd_slock_core.
  match goal with |- context [bind (acquire L_bcache) _ ?e ?S] =>
    destruct (drop_run (mkthread hh (Some p) ie) [] i l b0 e S) as (c3 & bc & l2 & Hr3 & Hc3 & Hl2 & Hp & Hst) end;
    [done|done| |done|apply not_elem_of_nil|].
  { apply Hl'. apply lookup_lt_Some in Hi. pose proof (co_len _ _ _ (bi_cache _ _ _ _ _ _ Hb)) as Hn.
    unfold bufs in Hn. rewrite length_fmap in Hn. lia. }
  exists c3, (woken (Some p) (Ch_sleep (SL_buf i)) (k_procs s)), bc, l2.
  split; [etrans; [exact Hr3|]; cbn [t_proc]; kstate_eq|]. split_and!; [by exists hh|apply pstatic_woken|done| |done].
  intros j. by rewrite <-Hp.
Qed.

Lemma brelse_ok p pid ie h m i blk r x e s :
  bio p pid ie h m s → blk ∈ h → buf_at s i blk → m !! blk = Some (r, x) →
  (r = 1 → x = disk_block (k_disk s) blk) →
  ∃ s', brelse i e s = Ret tt e s' ∧ bio_post p pid ie (h ∖ {[blk]}) (drop_ref blk r x m) s s' ∧
    k_disk s' = k_disk s ∧ k_writes s' = k_writes s.
Proof.
  intros Hb Hh Hat Hm Hclean.
  destruct (buf_at_entry _ _ _ _ _ _ _ _ _ _ Hb Hat Hm) as (b & b0 & Hb0 & -> & Hi & Href & Hx & HE).
  destruct (brelse_run p pid ie h m i blk r x b0 e s) as (c & ps & bc & l & Hr & Hc & Hps & Hl & Hl' & Hst); [done..|].
  eexists. split; [exact Hr|]. split; [|done].
  pose proof HE as (E1 & E2 & E3 & E4 & E5 & _).
  assert (Hli : (i < length (bufs s))%nat) by (by eapply lookup_lt_Some).
  assert (Hdrop : ∀ k, is_Some (m !! k) → k ≠ blk ∨ r ≠ 1 → is_Some (drop_ref blk r x m !! k)).
  { intros k Hk Hor. unfold drop_ref. case_decide; [rewrite lookup_delete_ne by naive_solver; done|].
    destruct (decide (k = blk)) as [->|]; [rewrite lookup_insert_eq; eauto|by rewrite lookup_insert_ne]. }
  split; [split| |].
  - eapply runs_static; [exact (bi_runs _ _ _ _ _ _ Hb)|exact Hc|exact Hps].
  - exact (bi_vq _ _ _ _ _ _ Hb).
  - exists l. done.
  - unfold bufs. kproj. rewrite Hst. eapply cache_ok_drop; try done. exact (bi_cache _ _ _ _ _ _ Hb).
  - eapply (brelse_lock p pid ie h m i (strip b0) blk s _ (slock_of s (SL_buf i))); try done; [lia| |].
    + change (slock_of (upd_slock (SL_buf i) slock_released s) (SL_buf i) = slock_released (slock_of s (SL_buf i))).
      by rewrite slock_of_upd, decide_True.
    + intros j Hj. change (slock_of (upd_slock (SL_buf i) slock_released s) (SL_buf j) = slock_of s (SL_buf j)).
      rewrite slock_of_upd, decide_False; congruence.
  - intros k Hk. apply Hdrop; [|set_solver]. apply (bi_held _ _ _ _ _ _ Hb). set_solver.
  - exact (bi_disk _ _ _ _ _ _ Hb).
  - split; [done|exact Hps|]. intros j.
    change (slock_of (upd_slock (SL_buf i) slock_released s) (SL_inode j) = slock_of s (SL_inode j)).
    by rewrite slock_of_upd, decide_False.
  - intros j k (bj & Hj & Hdj & Hkj & Hrj) Hk. unfold buf_at, bufs. kproj. rewrite Hst.
    destruct (decide (j = i)) as [->|Hne].
    + assert (bj = strip b0) as -> by congruence. exists (add_ref (-1) (strip b0)).
      rewrite list_lookup_insert, decide_True by done. split_and!; try done.
      assert (k = blk) as -> by congruence. unfold drop_ref in Hk. case_decide.
      * rewrite lookup_delete_eq in Hk. by destruct Hk.
      * unfold add_ref. cbn. cbn in Href. rewrite u32_id; cbn in E5; lia.
    + exists bj. by rewrite list_lookup_insert_ne.
Qed.

(** ** bget and bread *)

(** A buffer taken over for another block. *)
Definition recycled (blk : Z) (b : buf) : buf :=
  set_b_refcnt 1 (set_b_valid 0 (set_b_blockno blk (set_b_dev ROOTDEV b))).

Lemma find_spec {A} (f : A → bool) l :
  match find f l with
  | Some x => x ∈ l ∧ f x = true
  | None => ∀ x, x ∈ l → f x = false
  end.
Proof.
  induction l as [|y l IH]; cbn; [set_solver|]. destruct (f y) eqn:Hy; [split; [left|done]|].
  destruct (find f l); [destruct IH; split; [by right|done]|]. intros x [->|]%elem_of_cons; auto.
Qed.

Lemma lru_valid s l : lru (k_bcache s) l → ∀ i, i ∈ l → is_Some (bc_buf (k_bcache s) !! i).
Proof.
  intros [Hd _] i Hi. destruct (dseg_valid _ _ _ _ Hd) as [V _].
  destruct (V (Some i)) as [v Hv].
  - apply elem_of_cons. right. apply list_elem_of_fmap. eauto.
  - cbn in Hv. destruct (bc_buf (k_bcache s) !! i); [eauto|done].
Qed.

(** The buffer [bget] picks, and how it changes it. *)
Definition bget_pick (bs : list buf) (blk : Z) (i : nat) (b : buf) (f : buf → buf) : Prop :=
  bs !! i = Some b ∧
  ((f = add_ref 1 ∧ b_dev b = ROOTDEV ∧ b_blockno b = blk) ∨
   (f = recycled blk ∧ b_refcnt b = 0 ∧
    ∀ j bj, bs !! j = Some bj → b_dev bj = ROOTDEV → b_blockno bj ≠ blk)).

(** The scans find such a buffer, in the order of the list. *)
Lemma bget_scan p pid ie h m blk s l :
  bio p pid ie h m s → lru (k_bcache s) l → (∀ i, i ∈ l ↔ (i < nbuf)%nat) →
  is_Some (m !! blk) ∨ (size m < nbuf)%nat →
  match find (caches ROOTDEV blk (bc_buf (k_bcache s))) l with
  | Some i => ∃ b0, bc_buf (k_bcache s) !! i = Some b0 ∧ bget_pick (bufs s) blk i (strip b0) (add_ref 1)
  | None =>
      ∃ i b0, find (unused (bc_buf (k_bcache s))) (reverse l) = Some i ∧
        bc_buf (k_bcache s) !! i = Some b0 ∧ bget_pick (bufs s) blk i (strip b0) (recycled blk)
  end.
Proof.
  intros Hb Hl Hl' Hsp. pose proof (bi_cache _ _ _ _ _ _ Hb) as Hc.
  assert (Hlen : length (bc_buf (k_bcache s)) = nbuf).
  { rewrite <-(co_len _ _ _ Hc). unfold bufs. by rewrite length_fmap. }
  pose proof (find_spec (caches ROOTDEV blk (bc_buf (k_bcache s))) l) as Hf.
  destruct (find _ l) as [i|].
  { destruct Hf as [_ Hi]. unfold caches in Hi. destruct (bc_buf (k_bcache s) !! i) as [b0|] eqn:Hb0; [|done].
    apply andb_true_iff in Hi as [?%Z.eqb_eq ?%Z.eqb_eq]. exists b0. split; [done|].
    split; [by apply lookup_bufs|]. by left. }
  assert (Hno : ∀ j bj, bufs s !! j = Some bj → b_dev bj = ROOTDEV → b_blockno bj ≠ blk).
  { intros j bj Hj Hd Hk. destruct (lookup_bufs_inv _ _ _ Hj) as (b0 & Hb0 & ->).
    specialize (Hf j). unfold caches in Hf. rewrite Hb0 in Hf. cbn in Hd, Hk.
    rewrite Hd, Hk, !Z.eqb_refl in Hf. enough (true = false) by done. apply Hf. apply Hl'.
    rewrite <-Hlen. by eapply lookup_lt_Some. }
  destruct Hsp as [[[r x] Hm]|Hsz].
  { destruct (co_map _ _ _ Hc _ _ _ Hm) as (_ & _ & j & bj & Hj & Hd & Hk & _). by destruct (Hno j bj). }
  destruct (cache_ok_avail _ _ _ Hc Hsz) as (k & bk & Hk & Hrk).
  pose proof (find_spec (unused (bc_buf (k_bcache s))) (reverse l)) as Hg.
  destruct (lookup_bufs_inv _ _ _ Hk) as (b0 & Hb0 & ->).
  destruct (find _ (reverse l)) as [i|].
  - destruct Hg as [_ Hi]. unfold unused in Hi. destruct (bc_buf (k_bcache s) !! i) as [b1|] eqn:Hb1; [|done].
    apply Z.eqb_eq in Hi. exists i, b1. split_and!; [done|done|]. split; [by apply lookup_bufs|]. by right.
  - specialize (Hg k). unfold unused in Hg. rewrite Hb0 in Hg. cbn in Hrk. rewrite Hrk in Hg.
    enough (true = false) by done. apply Hg. apply elem_of_reverse, Hl'. rewrite <-Hlen. by eapply lookup_lt_Some.
Qed.

Lemma pick_unlocked p pid ie h m blk i b f s :
  bio p pid ie h m s → blk ∉ h → bget_pick (bufs s) blk i b f → sll_locked (slock_of s (SL_buf i)) = 0.
Proof.
  intros Hb Hh [Hi Hor]. pose proof (bi_lock _ _ _ _ _ _ Hb i b Hi) as Hl. unfold buf_lock in Hl.
  rewrite decide_False in Hl; [done|]. intros [Hin Hr].
  destruct Hor as [(_ & _ & <-)|(_ & Hr0 & _)]; [done|lia].
Qed.

(** The end of [bget]: the picked buffer is changed and locked. *)
Lemma bget_finish p pid ie h m hh blk i b0 f c e s :
  bio p pid ie h m s → blk ∉ h → bget_pick (bufs s) blk i (strip b0) f →
  ctx (mkthread hh (Some p) ie) [L_bcache] c →
  ∃ c', (release L_bcache ;;; acquiresleep (SL_buf i) ;;; ret i) e (set_k_core c (alter_buf i f s)) =
    Ret i e (set_k_core c' (upd_slock (SL_buf i) (slock_taken pid) (alter_buf i f s))) ∧
    ctx (mkthread hh (Some p) ie) [] c'.
Proof.
  intros Hb Hh Hp Hc. krelease c1 Hc1. kproj.
  destruct (runs_lookup _ _ _ _ _ (bi_runs _ _ _ _ _ _ Hb)) as (pr & Hpr & Hpid).
  destruct (acquiresleep_ok (mkthread hh (Some p) ie) [] p pr (SL_buf i) e
    (set_k_core c1 (alter_buf i f s))) as (c2 & Hr & Hc2);
    [done|done|done|apply not_elem_of_nil|exact (pick_unlocked _ _ _ _ _ _ _ _ _ _ Hb Hh Hp)|].
  mrun Hr. exists c2. rewrite upd_slock_core, Hpid. split; [|done]. unfold ret. f_equal; kstate_eq.
Qed.

Lemma bget_run p pid ie h m blk e s :
  bio p pid ie h m s → blk ∉ h → is_Some (m !! blk) ∨ (size m < nbuf)%nat →
  ∃ i b0 f c, bget ROOTDEV blk e s =
      Ret i e (set_k_core c (upd_slock (SL_buf i) (slock_taken pid) (alter_buf i f s))) ∧
    (∃ hh, ctx (mkthread hh (Some p) ie) [] c) ∧
    bc_buf (k_bcache s) !! i = Some b0 ∧ bget_pick (bufs s) blk i (strip b0) f.
Proof.
  intros Hb Hh Hsp. destruct (bi_lru _ _ _ _ _ _ Hb) as (l & Hl & Hl').
  pose proof (bget_scan _ _ _ _ _ _ _ _ Hb Hl Hl' Hsp) as Hscan.
  destruct (rn_ctx _ _ _ _ _ (bi_runs _ _ _ _ _ _ Hb)) as [hh Hc].
  assert (Hn : (S (length l) ≤ 1000)%nat).
  { assert (length l ≤ nbuf)%nat; [|assert (nbuf = 30%nat) by done; lia].
    rewrite <-(length_seq nbuf 0). apply submseteq_length, NoDup_submseteq; [apply Hl|].
    intros j Hj. apply elem_of_seq. apply Hl' in Hj. lia. }
  unfold bget. kacquire c1 Hc1; [apply not_elem_of_nil|].
  pose proof Hl as [Hd _].
  mrun (get_next_ok None (first l) e (set_k_core c1 s) (dseg_first _ _ _ Hd)).
  mrun (loop_iter _ _ _ _ _ _ _ _ (bget_hit_run ROOTDEV blk None l e (set_k_core c1 s) Hd (lru_valid _ _ Hl)) Hn).
  kproj. destruct (find (caches _ _ _) l) as [i|].
  - destruct Hscan as (b0 & Hb0 & Hpick). kbuf Hb0. rewrite alter_buf_core.
    destruct (bget_finish p pid ie h m hh blk i b0 (add_ref 1) c1 e s) as (c2 & Hr & Hc2); [done..|].
    exists i, b0, (add_ref 1), c2. split_and!; [exact Hr|by exists hh|done|done].
  - destruct Hscan as (i & b0 & Hfind & Hb0 & Hpick).
    mrun (get_prev_ok None (first (reverse l)) e (set_k_core c1 s) (dseg_last _ _ _ Hd)).
    mrun (loop_iter _ _ _ _ _ _ _ _ (bget_free_run None l e (set_k_core c1 s) Hd (lru_valid _ _ Hl)) Hn).
    kproj. rewrite Hfind.
    assert (Hmod : ∀ f s', is_Some (bc_buf (k_bcache s') !! i) → modify_buf i f e s' = Ret tt e (alter_buf i f s'))
      by (intros f s' [b Hs']; by apply (modify_buf_ok i b)).
    assert (Hal : ∀ f s', is_Some (bc_buf (k_bcache s') !! i) → is_Some (bc_buf (k_bcache (alter_buf i f s')) !! i)).
    { intros f s' [b Hs']. unfold alter_buf. kproj. cbn. rewrite list_lookup_alter, decide_True, Hs' by done. by eexists. }
    assert (H0 : is_Some (bc_buf (k_bcache (set_k_core c1 s)) !! i)) by (kproj; eauto).
    do 4 (erewrite bind_Ret; [|apply Hmod; auto 8]; cbv beta iota).
    rewrite !alter_buf_alter, alter_buf_core.
    destruct (bget_finish p pid ie h m hh blk i b0 (recycled blk) c1 e s) as (c2 & Hr & Hc2); [done..|].
    exists i, b0, (recycled blk), c2. split_and!; [exact Hr|by exists hh|done|done].
Qed.

(** A picked buffer becomes the locked entry [b'] for the block. *)
Lemma bio_take p pid ie h m s s' i b b' f blk :
  bio p pid ie h m s → bget_pick (bufs s) blk i b f → is_entry b' blk →
  bufs s' = <[i := b']> (bufs s) →
  (∃ c, ctx (mkthread c (Some p) ie) [] (k_core s')) →
  (∀ l, lru (k_bcache s) l → lru (k_bcache s') l) →
  k_disk s' = k_disk s → vq_idle (k_vdisk s') → pstatic <$> k_procs s' = pstatic <$> k_procs s →
  (∀ sl, slock_of s' sl = slock_of (upd_slock (SL_buf i) (slock_taken pid) s) sl) →
  bio_rest s' = bio_rest s →
  bio_post p pid ie ({[blk]} ∪ h) (<[blk := (b_refcnt b', b_data b')]> m) s s'.
Proof.
  intros Hb [Hi Hor] He Hbs Hc Hl Hdk Hv Hp Hsl Hrest.
  destruct Hb as [B1 B2 (l & B3 & B3') B4 B5 B6 B7]. pose proof He as (_ & E2 & E3 & _ & E5 & _).
  assert (Hli : (i < length (bufs s))%nat) by (by eapply lookup_lt_Some).
  split; [split| |].
  - by eapply runs_static.
  - done.
  - exists l. auto.
  - rewrite Hbs, Hdk. eapply cache_ok_update; [done|done|done|]. unfold may_cache. naive_solver.
  - intros j bj. rewrite Hbs, Hsl, slock_of_upd. unfold buf_lock.
    intros [[-> ->]|[Hj Hbj]]%(insert_cases _ _ _ _ _ Hli).
    + rewrite decide_True by (rewrite E3; split; [set_solver|lia]). by rewrite decide_True.
    + rewrite (decide_False (P := SL_buf i = SL_buf j)) by congruence.
      specialize (B5 j bj Hbj). unfold buf_lock in B5.
      assert (0 < b_refcnt bj → b_blockno bj ≠ blk) as Hne.
      { intros Hr Hk. destruct (co_used _ _ _ B4 _ _ Hbj Hr) as (Hd & _).
        destruct Hor as [(_ & Hd' & Hk')|(_ & _ & Hno)]; [|by eapply Hno].
        apply Hj. eapply (co_uniq _ _ _ B4 j i bj b); try done; congruence. }
      do 2 case_decide; set_solver.
  - intros k Hin. destruct (decide (k = blk)) as [->|]; [rewrite lookup_insert_eq; eauto|].
    rewrite lookup_insert_ne by done. apply B6. set_solver.
  - by rewrite Hdk.
  - split; [done|done|]. intros j. rewrite Hsl, slock_of_upd, decide_False by done. done.
  - intros j k (bj & Hj & Hdj & Hkj & Hrj) _. destruct (decide (j = i)) as [->|Hne].
    + assert (bj = b) as -> by congruence. exists b'. rewrite Hbs, list_lookup_insert, decide_True by done.
      destruct Hor as [(_ & _ & Hk)|(_ & ? & _)]; [|lia]. split_and!; [done|done|congruence|lia].
    + exists bj. rewrite Hbs, list_lookup_insert_ne by done. done.
Qed.

(** What the cache holds for a block once it is read. *)
Definition read_entry (m : gmap Z (Z * list Z)) (d : gmap Z (list Z)) (blk : Z) : Z * list Z :=
  match m !! blk with Some (r, x) => (r + 1, x) | None => (1, disk_block d blk) end.

Lemma disk_block_len (d : gmap Z (list Z)) blk :
  (∀ blk x, d !! blk = Some x → length x = Z.to_nat BSIZE) → length (disk_block d blk) = Z.to_nat BSIZE.
Proof. intros H. unfold disk_block. destruct (d !! blk) eqn:E; [by eapply H|apply length_replicate]. Qed.

(** The picked buffer's reference count, and its contents when it is valid. *)
Lemma pick_entry p pid ie h m blk i b f s :
  bio p pid ie h m s → bget_pick (bufs s) blk i b f → 0 ≤ blk < 2 ^ 31 →
  (∀ r x, m !! blk = Some (r, x) → r + 1 < 2 ^ 31) →
  b_refcnt (f b) = (read_entry m (k_disk s) blk).1 ∧
  (b_valid (f b) ≠ 0 → b_data (f b) = (read_entry m (k_disk s) blk).2) ∧
  (b_valid (f b) = 0 → m !! blk = None) ∧
  b_disk (f b) = 0 ∧ b_dev (f b) = ROOTDEV ∧ b_blockno (f b) = blk ∧ 0 < b_refcnt (f b) < 2 ^ 31.
Proof.
  intros Hb [Hi Hor] Hblk Hr. pose proof (bi_cache _ _ _ _ _ _ Hb) as Hc.
  destruct (co_wf _ _ _ Hc _ _ Hi) as (W1 & W2 & W3). unfold read_entry.
  destruct Hor as [(-> & Hd & Hk)|(-> & Hr0 & Hno)].
  - pose proof (cache_ok_refcnt _ _ _ _ _ Hc Hi Hd) as Href. rewrite Hk in Href. unfold add_ref. cbn.
    destruct (m !! blk) as [[r x]|] eqn:Hm.
    + destruct (co_map _ _ _ Hc _ _ _ Hm) as (? & ? & _). specialize (Hr _ _ eq_refl).
      destruct (co_used _ _ _ Hc _ _ Hi ltac:(lia)) as (_ & Hv & Hm'). rewrite Hk, Hm in Hm'.
      rewrite u32_id by lia. injection Hm' as ? ?. split_and!; cbn; done || lia.
    + rewrite Href. split_and!; try done. intros Hv. rewrite <-Hk. by eapply (co_clean _ _ _ Hc).
  - cbn. assert (Hm : m !! blk = None).
    { destruct (m !! blk) as [[r x]|] eqn:Hm; [|done].
      destruct (co_map _ _ _ Hc _ _ _ Hm) as (_ & _ & j & bj & Hj & Hdj & Hkj & _). by destruct (Hno j bj). }
    rewrite Hm. split_and!; done.
Qed.

Lemma pick_commutes bs blk i b f : bget_pick bs blk i b f →
  (∀ b, strip (f b) = f (strip b)) ∧ (∀ b, b_next (f b) = b_next b ∧ b_prev (f b) = b_prev b).
Proof. by intros [_ [(-> & _)|(-> & _)]]. Qed.

(** Reading the block from the disk into the picked buffer [i], which has
    been locked. *)
Lemma bread_disk p pid ie n i b0 e s :
  runs p pid ie [] s → dev_env p (S n) e → vq_idle (k_vdisk s) →
  bc_buf (k_bcache s) !! i = Some b0 → b_disk b0 = 0 → 0 ≤ b_blockno b0 < 2 ^ 31 →
  ∃ e' c ps v mm, (virtio_disk_rw i false ;;; modify_buf i (set_b_valid 1)) e s =
      Ret tt e' (set_k_core c (set_k_procs ps (set_k_vdisk v (set_k_mmio mm
        (alter_buf i (λ b, set_b_valid 1 (set_b_data (disk_block (k_disk s) (b_blockno b0)) b)) s))))) ∧
    dev_env p n e' ∧ vq_idle v ∧ (∃ hh, ctx (mkthread hh (Some p) ie) [] c) ∧
    pstatic <$> ps = pstatic <$> k_procs s.
Proof.
  intros Hr He Hv Hi Hd Hk.
  destruct (virtio_disk_rw_ok p pid ie n i b0 false e s) as (e' & c & ps & v & mm & Hrun & H); [done..|].
  exists e', c, ps, v, mm. split; [|done]. mrun Hrun.
  erewrite modify_buf_ok.
  2: { unfold rw_effect, alter_buf. kproj. cbn [bc_buf set_bc_buf]. by rewrite list_lookup_alter, decide_True, Hi. }
  f_equal. unfold rw_effect, alter_buf. kproj. cbn [bc_buf set_bc_buf]. rewrite list_alter_alter_eq.
  cbv [rw_disk rw_writes rw_buf compose]. clear. by destruct s.
Qed.

Lemma bread_ok p pid ie h m blk n e s :
  bio p pid ie h m s → blk ∉ h → 0 ≤ blk < 2 ^ 31 →
  (∀ r x, m !! blk = Some (r, x) → r + 1 < 2 ^ 31) →
  is_Some (m !! blk) ∨ (size m < nbuf)%nat → dev_env p (S n) e →
  ∃ i e' s', bread ROOTDEV blk e s = Ret i e' s' ∧ dev_env p n e' ∧ buf_at s' i blk ∧
    bio_post p pid ie ({[blk]} ∪ h) (<[blk := read_entry m (k_disk s) blk]> m) s s' ∧
    k_disk s' = k_disk s ∧ k_writes s' = k_writes s.
Proof.
  intros Hb Hh Hblk Hr Hsp He. unfold bread.
  destruct (bget_run p pid ie h m blk e s) as (i & b0 & f & c & Hrun & Hc & Hb0 & Hpick); [done..|].
  mrun Hrun. destruct (pick_commutes _ _ _ _ _ Hpick) as [Hf Hf'].
  destruct (pick_entry _ _ _ _ _ _ _ _ _ _ Hb Hpick Hblk Hr) as (P1 & P2 & P3 & P4 & P5 & P6 & P7).
  rewrite <-Hf in P1, P2, P3, P4, P5, P6, P7. cbn in P1, P2, P3, P4, P5, P6, P7.
  pose proof (lookup_bufs _ _ _ Hb0) as Hi. assert (Hli : (i < length (bufs s))%nat) by (by eapply lookup_lt_Some).
  set (s1 := set_k_core c (upd_slock (SL_buf i) (slock_taken pid) (alter_buf i f s))).
  assert (Hb1 : bc_buf (k_bcache s1) !! i = Some (f b0)).
  { unfold s1, alter_buf, upd_slock. kproj. cbn. by rewrite list_lookup_alter, decide_True, Hb0. }
  assert (Hbs1 : bufs s1 = <[i := strip (f b0)]> (bufs s)).
  { rewrite Hf. by apply (bufs_alter_buf f i (strip b0) s). }
  assert (Hl1 : ∀ l, lru (k_bcache s) l → lru (k_bcache s1) l) by (intros l; by apply lru_alter).
  assert (Hrest1 : bio_rest s1 = bio_rest s) by done.
  assert (Hsl1 : ∀ sl, slock_of s1 sl = slock_of (upd_slock (SL_buf i) (slock_taken pid) s) sl) by done.
  assert (Hcore1 : k_core s1 = c) by done. assert (Hp1 : k_procs s1 = k_procs s) by done.
  assert (Hd1 : k_disk s1 = k_disk s) by done. assert (Hw1 : k_writes s1 = k_writes s) by done.
  assert (Hv1 : k_vdisk s1 = k_vdisk s) by done. clearbody s1. kbuf Hb1.
  destruct (Z.eqb_spec (b_valid (f b0)) 0) as [Hval|Hval].
  - destruct (bread_disk p pid ie n i (f b0) e s1) as (e' & c' & ps & v & mm & Hr2 & He' & Hv & Hc' & Hps).
    { eapply runs_static; [exact (bi_runs _ _ _ _ _ _ Hb)|by rewrite Hcore1|by rewrite Hp1]. }
    { done. } { rewrite Hv1. exact (bi_vq _ _ _ _ _ _ Hb). } { done. } { done. } { lia. }
    rewrite bind_when_true. mrun Hr2. unfold ret. rewrite P6, Hd1.
    set (g := λ b, set_b_valid 1 (set_b_data (disk_block (k_disk s) blk) b)).
    assert (Hbs2 : bufs (alter_buf i g s1) = <[i := strip (g (f b0))]> (bufs s)).
    { rewrite (bufs_alter_buf g i (strip (f b0)) s1); [|done|].
      - rewrite Hbs1, list_insert_insert_eq. done.
      - rewrite Hbs1, list_lookup_insert, decide_True by done. done. }
    exists i, e'. eexists. split; [reflexivity|]. split; [done|]. split.
    { exists (strip (g (f b0))). unfold bufs in *. kproj. rewrite Hbs2, list_lookup_insert, decide_True by done.
      cbn. split_and!; done || lia. }
    split; [|kproj; done].
    replace (read_entry m (k_disk s) blk) with (b_refcnt (strip (g (f b0))), b_data (strip (g (f b0)))).
    2: { cbn. rewrite P1. unfold read_entry. by rewrite P3. }
    eapply (bio_take p pid ie h m s _ i (strip b0) (strip (g (f b0))) f blk); try done.
    + cbn. unfold is_entry. cbn. split_and!; try done; try lia. apply disk_block_len, (bi_disk _ _ _ _ _ _ Hb).
    + intros l Hl. apply (lru_alter g i s1 l); [done|]. by apply Hl1.
    + kproj. by rewrite Hps, Hp1.
  - mstep. unfold ret. exists i, e, s1. split; [done|]. split; [by eapply dev_env_le; [|apply Nat.le_succ_diag_r]|].
    split. { exists (strip (f b0)). rewrite Hbs1, list_lookup_insert, decide_True by done. cbn. split_and!; done || lia. }
    split; [|done].
    replace (read_entry m (k_disk s) blk) with (b_refcnt (strip (f b0)), b_data (strip (f b0))).
    2: { cbn. rewrite P1, P2 by done. by destruct (read_entry m (k_disk s) blk). }
    eapply (bio_take p pid ie h m s _ i (strip b0) (strip (f b0)) f blk); try done.
    + unfold is_entry. cbn. split_and!; try done; try lia. rewrite P2 by done. unfold read_entry.
      destruct (m !! blk) as [[r x]|] eqn:Hm; cbn.
      * by destruct (co_map _ _ _ (bi_cache _ _ _ _ _ _ Hb) _ _ _ Hm) as (_ & ? & _).
      * apply disk_block_len, (bi_disk _ _ _ _ _ _ Hb).
    + by rewrite Hcore1.
    + rewrite Hv1. exact (bi_vq _ _ _ _ _ _ Hb).
    + by rewrite Hp1.
Qed.

(** ** Changing a locked block in memory *)

Lemma set_data_ok p pid ie h m i blk r x g e s :
  bio p pid ie h m s → buf_at s i blk → m !! blk = Some (r, x) → length (g x) = Z.to_nat BSIZE →
  ∃ s', modify_buf i (λ b, set_b_data (g (b_data b)) b) e s = Ret tt e s' ∧
    bio_post p pid ie h (<[blk := (r, g x)]> m) s s' ∧ k_disk s' = k_disk s ∧ k_writes s' = k_writes s.
Proof.
  intros Hb Hat Hm Hg.
  destruct (buf_at_entry _ _ _ _ _ _ _ _ _ _ Hb Hat Hm) as (b & b0 & Hb0 & -> & Hi & Hr & Hx & He).
  eexists. split; [by eapply modify_buf_ok|]. split; [|done].
  pose proof He as (E1 & E2 & E3 & E4 & E5 & E6 & E7).
  pose (b' := set_b_data (g (b_data (strip b0))) (strip b0)).
  replace (r, g x) with (b_refcnt b', b_data b') by (unfold b'; cbn in *; congruence).
  apply (bio_change p pid ie h m s _ i (strip b0) b' blk); try done.
  - lia.
  - unfold is_entry, b'. cbn in *. rewrite Hx. split_and!; done || lia.
  - by rewrite (bufs_alter_buf _ i (strip b0)).
  - exact (rn_ctx _ _ _ _ _ (bi_runs _ _ _ _ _ _ Hb)).
  - intros l. by apply lru_alter.
Qed.

End disk.

(** * binit *)

Lemma initsleeplock_ok t L sl name e s :
  ctx t L (k_core s) → L_sleep sl ∉ L →
  ∃ c, initsleeplock sl name e s = Ret tt e (set_k_core c (upd_slock sl (λ _, mksleep 0 name 0) s)) ∧
    ctx t L c.
Proof.
  intros Hc HL. unfold initsleeplock, initlock, modify_core. mstep.
  pose proof (initlock_ctx t L (L_sleep sl) "sleep lock" (k_core s) Hc HL) as Hc'.
  eexists. split; [|exact Hc']. unfold modify. rewrite !upd_slock_upd, upd_slock_core. reflexivity.
Qed.

(** After [n] turns of the loop the first [n] buffers are linked, the last
    one first. *)
Record binit_inv (t : thread) (L : list lockid) (s0 : kstate) (n : nat) (s : kstate) : Prop := {
  bv_ctx : ctx t L (k_core s);
  bv_lru : lru (k_bcache s) (reverse (seq 0 n));
  bv_bufs : bufs s = bufs s0;
  bv_slocks : ∀ i, (i < n)%nat → sll_locked (slock_of s (SL_buf i)) = 0;
  bv_inodes : ∀ i, slock_of s (SL_inode i) = slock_of s0 (SL_inode i);
  bv_rest : ∃ c, set_k_core c (set_k_bcache (k_bcache s0) (set_k_slocks (k_slocks s0) s)) = s0
}.

Lemma binit_turn t L s0 n e s :
  binit_inv t L s0 n s → (n < length (bufs s0))%nat → (∀ sl, L_sleep sl ∉ L) →
  ∃ s', (link_front n ;;; initsleeplock (SL_buf n) "buffer" ;;; link_back_pointers n ;;; ret (@None unit)) e s =
    Ret None e s' ∧ binit_inv t L s0 (S n) s'.
Proof.
  intros [V1 [V2 V2'] V3 V4 V6 V5] Hn HL.
  destruct (dseg_next _ _ _ _ V2) as (x & Hx & Hin). destruct (dseg_valid _ _ _ _ V2) as [_ Vp].
  assert (Hb : is_Some (bc_buf (k_bcache s) !! n)).
  { apply lookup_lt_is_Some. rewrite <-V3 in Hn. unfold bufs in Hn. by rewrite length_fmap in Hn. }
  assert (Hnin : n ∉ reverse (seq 0 n)) by (rewrite elem_of_reverse, elem_of_seq; lia).
  assert (Hxn : x ≠ Some n).
  { intros ->. apply elem_of_app in Hin as [Hin|Hin%list_elem_of_singleton]; [|done].
    apply list_elem_of_fmap in Hin as (? & [= <-] & ?). done. }
  pose proof (dseg_push n (k_bcache s) _ x V2 V2' Hnin Hb Hx) as Hpush. destruct Hb as [b Hb].
  mrun (link_front_ok n x b e s Hx Hb).
  destruct (initsleeplock_ok t L (SL_buf n) "buffer" e
    (set_k_bcache (put_prev (Some n) None (put_next (Some n) x (k_bcache s))) s)) as (c & Hr & Hc); [done|done|].
  mrun Hr. erewrite bind_Ret.
  2: { apply (link_back_ok n x); unfold upd_slock; kproj.
    - rewrite bnext_put_prev, bnext_put_next, decide_False by (done || (cbn; rewrite Hb; eauto)). done.
    - rewrite bprev_put_prev, decide_False, bprev_put_next by (done || rewrite bprev_put_next; cbn; rewrite Hb; eauto).
      by apply Vp. }
  eexists. split; [reflexivity|]. split.
  - done.
  - unfold upd_slock. kproj. rewrite seq_S, reverse_snoc. split; [done|]. constructor; done.
  - rewrite <-V3. unfold bufs, upd_slock. kproj. by rewrite strip_put_next, !strip_put_prev, strip_put_next.
  - intros i Hi. change (sll_locked (slock_of (upd_slock (SL_buf n) (λ _, mksleep 0 "buffer" 0) s) (SL_buf i)) = 0).
    rewrite slock_of_upd. case_decide; [done|]. apply V4. assert (i ≠ n) by congruence. lia.
  - intros i. rewrite <-V6.
    change (slock_of (upd_slock (SL_buf n) (λ _, mksleep 0 "buffer" 0) s) (SL_inode i) = slock_of s (SL_inode i)).
    by rewrite slock_of_upd, decide_False.
  - destruct V5 as [c0 V5]. exists c0. rewrite <-V5 at 3. unfold upd_slock. kstate_eq.
Qed.

Lemma binit_ok t L e s :
  ctx t L (k_core s) → L_bcache ∉ L → (∀ sl, L_sleep sl ∉ L) → bufs s = replicate nbuf zero_buf →
  ∃ s', binit e s = Ret tt e s' ∧ ctx t L (k_core s') ∧
    lru (k_bcache s') (reverse (seq 0 nbuf)) ∧ bufs s' = replicate nbuf zero_buf ∧
    (∀ i, (i < nbuf)%nat → sll_locked (slock_of s' (SL_buf i)) = 0) ∧
    (∀ i, slock_of s' (SL_inode i) = slock_of s (SL_inode i)) ∧
    ∃ c, set_k_core c (set_k_bcache (k_bcache s) (set_k_slocks (k_slocks s) s')) = s.
Proof.
  intros Hc HL HL' Hz. unfold binit, initlock, modify_core. mstep.
  pose proof (initlock_ctx t L L_bcache "bcache" (k_core s) Hc HL) as Hc'.
  set (c0 := upd_lock _ _ (k_core s)) in *.
  erewrite bind_Ret; [|apply set_prev_ok; done]. erewrite bind_Ret; [|apply set_next_ok; done]. kproj.
  match goal with |- context [bind (for_in _ ?body) _ _ ?S] =>
    destruct (for_seq_all body (λ n e' s', e' = e ∧ binit_inv t L s n s') 0 nbuf e S)
      as (e' & s' & Hr & -> & [V1 V2 V3 V4 V6 V5]) end.
  - intros i e1 s1 Hi [-> Hinv]. destruct (binit_turn t L s i e s1) as (s2 & Hr & Hinv2);
      [done|rewrite Hz, length_replicate; lia|done|]. exists e, s2. done.
  - split; [done|]. split.
    + done.
    + split; [done|constructor].
    + unfold bufs. kproj. by rewrite strip_put_next, strip_put_prev.
    + lia.
    + done.
    + exists (k_core s). clear. destruct s. done.
  - rewrite (bind_Ret _ _ _ _ _ _ _ Hr). exists s'. rewrite V3, Hz in *. done.
Qed.

(** * The refinement

    A client reads, changes, writes, releases and pins blocks by number.  The
    specification runs on the finite map, the set of the client's locked
    blocks and the disk; an operation used against its rules has no meaning. *)

Inductive bop : Type :=
| BRead (blk : Z) | BSet (blk : Z) (y : list Z) | BWrite (blk : Z)
| BRelse (blk : Z) | BPin (blk : Z) | BUnpin (blk : Z).

Record absbio : Type := mkabs {
  ab_held : gset Z;
  ab_map : gmap Z (Z * list Z);
  ab_disk : gmap Z (list Z)
}.

Definition abs_bop (o : bop) (a : absbio) : option (list Z * absbio) :=
  let '(mkabs h m d) := a in
  match o with
  | BRead blk =>
      if decide ((blk ∉ h) ∧ 0 ≤ blk < 2 ^ 31 ∧ (is_Some (m !! blk) ∨ (size m < nbuf)%nat) ∧
                 (read_entry m d blk).1 < 2 ^ 31)
      then Some ((read_entry m d blk).2, mkabs ({[blk]} ∪ h) (<[blk := read_entry m d blk]> m) d) else None
  | BSet blk y =>
      rx ← m !! blk;
      if decide ((blk ∈ h) ∧ length y = Z.to_nat BSIZE) then Some ([], mkabs h (<[blk := (rx.1, y)]> m) d) else None
  | BWrite blk =>
      rx ← m !! blk;
      if decide (blk ∈ h) then Some ([], mkabs h m (<[blk := rx.2]> d)) else None
  | BRelse blk =>
      rx ← m !! blk;
      if decide ((blk ∈ h) ∧ (rx.1 = 1 → rx.2 = disk_block d blk))
      then Some ([], mkabs (h ∖ {[blk]}) (drop_ref blk rx.1 rx.2 m) d) else None
  | BPin blk =>
      rx ← m !! blk;
      if decide (rx.1 + 1 < 2 ^ 31) then Some ([], mkabs h (<[blk := (rx.1 + 1, rx.2)]> m) d) else None
  | BUnpin blk =>
      rx ← m !! blk;
      if decide (1 < rx.1) then Some ([], mkabs h (<[blk := (rx.1 - 1, rx.2)]> m) d) else None
  end.

Fixpoint abs_bops (os : list bop) (a : absbio) : option (list (list Z) * absbio) :=
  match os with
  | [] => Some ([], a)
  | o :: os => '(v, a) ← abs_bop o a; '(vs, a) ← abs_bops os a; Some (v :: vs, a)
  end.

(** The same client on the kernel's functions; [hd] remembers the buffers. *)
Definition run_bop (o : bop) (hd : gmap Z nat) : K (list Z * gmap Z nat) :=
  match o with
  | BRead blk => i <- bread ROOTDEV blk ;; bu <- buf_of i ;; ret (b_data bu, <[blk := i]> hd)
  | BSet blk y => i <- deref (hd !! blk) ;; modify_buf i (λ b, set_b_data ((λ _, y) (b_data b)) b) ;;; ret ([], hd)
  | BWrite blk => i <- deref (hd !! blk) ;; bwrite i ;;; ret ([], hd)
  | BRelse blk => i <- deref (hd !! blk) ;; brelse i ;;; ret ([], hd)
  | BPin blk => i <- deref (hd !! blk) ;; bpin i ;;; ret ([], hd)
  | BUnpin blk => i <- deref (hd !! blk) ;; bunpin i ;;; ret ([], hd)
  end.
Fixpoint run_bops (os : list bop) (hd : gmap Z nat) : K (list (list Z)) :=
  match os with
  | [] => ret []
  | o :: os => r <- run_bop o hd ;; vs <- run_bops os r.2 ;; ret (r.1 :: vs)
  end.

Record refines (p : nat) (pid : Z) (ie : bool) (hd : gmap Z nat) (a : absbio) (s : kstate) : Prop := {
  rf_bio : bio p pid ie (ab_held a) (ab_map a) s;
  rf_disk : k_disk s = ab_disk a;
  rf_at : ∀ blk, is_Some (ab_map a !! blk) → ∃ i, hd !! blk = Some i ∧ buf_at s i blk
}.

Section refinement.
Context {dev : VirtioDev} {ok : VirtioOk dev}.

(** What an operation's specification gives the client. *)
Lemma refines_post p pid ie hd a s s' h m d :
  refines p pid ie hd a s → bio_post p pid ie h m s s' → k_disk s' = d →
  (∀ k, is_Some (m !! k) → is_Some (ab_map a !! k)) → refines p pid ie hd (mkabs h m d) s'.
Proof.
  intros [_ _ H3] [P1 _ P3] Hd Hm. split; [done|done|]. intros k Hk. cbn in Hk.
  destruct (H3 k (Hm k Hk)) as (i & ? & ?). exists i. auto.
Qed.

Lemma insert_is_Some {A} (m : gmap Z A) blk x y :
  m !! blk = Some x → ∀ k, is_Some (<[blk := y]> m !! k) → is_Some (m !! k).
Proof. intros Hm k. rewrite lookup_insert. case_decide; subst; eauto. Qed.

Lemma run_bop_ok p pid ie hd o a a' v n e s :
  refines p pid ie hd a s → abs_bop o a = Some (v, a') → dev_env p (S n) e →
  ∃ hd' e' s', run_bop o hd e s = Ret (v, hd') e' s' ∧ dev_env p n e' ∧ refines p pid ie hd' a' s'.
Proof.
  intros Hrf Ha He. destruct a as [h m d]. pose proof Hrf as [Hb Hd Hat]. cbn in Hb, Hd, Hat. subst d.
  assert (He' : dev_env p n e) by (eapply dev_env_le; [done|lia]).
  destruct o as [blk|blk y|blk|blk|blk|blk]; cbn [abs_bop] in Ha;
    [|destruct (m !! blk) as [[r x]|] eqn:Hm; [|done]; cbn in Ha;
      destruct (Hat blk ltac:(eauto)) as (i & Hi & Hbi)..];
    case_decide as Hg; [|done|..|done]; try done; injection Ha as <- <-; cbn [run_bop];
    rewrite ?Hi; mstep.
  - destruct Hg as (G1 & G2 & G3 & G4).
    destruct (bread_ok p pid ie h m blk n e s) as (i & e1 & s1 & Hr & He1 & Hbi & Hp & Hd1 & _); try done.
    { intros r x Hm. unfold read_entry in G4. by rewrite Hm in G4. }
    mrun Hr. pose proof Hbi as (b & Hbb & _ & Hbk & Hbr). destruct (lookup_bufs_inv _ _ _ Hbb) as (b0 & Hb0 & ->).
    kbuf Hb0. exists (<[blk := i]> hd), e1, s1. split; [|split; [done|]].
    + unfold ret. do 2 f_equal.
      destruct (co_used _ _ _ (bi_cache _ _ _ _ _ _ (bp_bio _ _ _ _ _ _ _ Hp)) _ _ Hbb Hbr) as (_ & _ & Hu).
      rewrite Hbk, lookup_insert_eq in Hu. by injection Hu as ->.
    + split; [apply Hp|done|]. cbn. intros k Hk. rewrite lookup_insert. case_decide as E; [subst; eauto|].
      rewrite lookup_insert_ne in Hk by done. destruct (Hat k Hk) as (j & ? & ?). exists j. split; [done|].
      apply (bp_at _ _ _ _ _ _ _ Hp); [done|]. by rewrite lookup_insert_ne.
  - destruct (set_data_ok p pid ie h m i blk r x (λ _, y) e s) as (s1 & Hr & Hp & Hd1 & _); [done|done|done|apply Hg|].
    mrun Hr. exists hd, e, s1. split_and!; [done|done|].
    eapply refines_post; [done|done|done|]. by eapply insert_is_Some.
  - destruct (bwrite_ok p pid ie h m i blk r x n e s) as (e1 & s1 & Hr & He1 & Hp & Hd1 & _); [done..|].
    mrun Hr. exists hd, e1, s1. split_and!; [done|done|]. by eapply refines_post.
  - destruct Hg as [G1 G2].
    destruct (brelse_ok p pid ie h m i blk r x e s) as (s1 & Hr & Hp & Hd1 & _); [done..|].
    mrun Hr. exists hd, e, s1. split_and!; [done|done|]. eapply refines_post; [done|done|done|].
    cbn. intros k. unfold drop_ref. case_decide; [|by eapply insert_is_Some].
    intros [z Hz]. apply lookup_delete_Some in Hz as [_ Hz]. eauto.
  - destruct (bpin_ok p pid ie h m i blk r x e s) as (s1 & Hr & Hp & Hd1 & _); [done..|].
    mrun Hr. exists hd, e, s1. split_and!; [done|done|].
    eapply refines_post; [done|done|done|]. by eapply insert_is_Some.
  - destruct (bunpin_ok p pid ie h m i blk r x e s) as (s1 & Hr & Hp & Hd1 & _); [done..|].
    mrun Hr. exists hd, e, s1. split_and!; [done|done|].
    eapply refines_post; [done|done|done|]. by eapply insert_is_Some.
Qed.

(** C3: the buffer cache refines a finite map of blocks: whatever sequence of
    bread, data changes, bwrite, brelse, bpin and bunpin the specification
    allows, the kernel's functions return (the disk serving one request per
    operation), the contents the client reads are those of the map, and the
    disk holds what the specification says. *)
Theorem bcache_refinement p pid ie os hd a a' vs e s :
  refines p pid ie hd a s → abs_bops os a = Some (vs, a') → dev_env p (length os) e →
  ∃ e' s', run_bops os hd e s = Ret vs e' s' ∧ k_disk s' = ab_disk a' ∧
    bio p pid ie (ab_held a') (ab_map a') s'.
Proof.
  revert hd a vs e s. induction os as [|o os IH]; intros hd a vs e s Hrf Ha He; cbn in Ha.
  - injection Ha as <- <-. exists e, s. split_and!; [done|apply Hrf|apply Hrf].
  - destruct (abs_bop o a) as [[v a1]|] eqn:Ho; [|done]. cbn in Ha.
    destruct (abs_bops os a1) as [[vs1 a2]|] eqn:Hos; [|done]. injection Ha as <- <-.
    destruct (run_bop_ok p pid ie hd o a a1 v (length os) e s) as (hd1 & e1 & s1 & Hr & He1 & Hrf1); [done..|].
    destruct (IH hd1 a1 vs1 e1 s1) as (e2 & s2 & Hr2 & H2); [done..|].
    exists e2, s2. split; [|done]. cbn [run_bops]. mrun Hr. cbn [fst snd]. by mrun Hr2.
Qed.
End refinement.

(** ** The cache after boot *)

Lemma zero_cache_ok d : cache_ok (replicate nbuf zero_buf) ∅ d.
Proof.
  split.
  - apply length_replicate.
  - intros i b [-> _]%lookup_replicate. cbn. lia.
  - intros i j b b' [-> _]%lookup_replicate _ Hd. by cbn in Hd.
  - intros i b [-> _]%lookup_replicate Hr. by cbn in Hr.
  - intros blk r x Hm. by rewrite lookup_empty in Hm.
  - intros i b [-> _]%lookup_replicate _ Hv. by cbn in Hv.
Qed.

Lemma boot_refines p pid ie s d e :
  runs p pid ie [] s → bufs s = replicate nbuf zero_buf → vq_idle (k_vdisk s) → k_disk s = d →
  (∀ blk x, d !! blk = Some x → length x = Z.to_nat BSIZE) →
  ∃ s', binit e s = Ret tt e s' ∧ refines p pid ie ∅ (mkabs ∅ ∅ d) s' ∧ bio_frame s s' ∧ k_writes s' = k_writes s.
Proof.
  intros [(h & Hc) Hlen Hpid] Hz Hv Hd Hdl.
  destruct (binit_ok _ [] e s Hc) as (s' & Hr & Hc' & Hl & Hbs & Hsl & Hin & c & Hrest);
    [apply not_elem_of_nil|intros ?; apply not_elem_of_nil|done|].
  exists s'. split; [done|]. split; [|split].
  3: { rewrite <-Hrest. done. }
  2: { split; [rewrite <-Hrest; done|rewrite <-Hrest; done|done]. }
  rewrite <-Hrest in Hlen, Hpid, Hv, Hd. cbn in Hlen, Hpid, Hv, Hd.
  split; cbn; [|done|intros blk; by rewrite lookup_empty; intros []]. split.
  - split; [by exists h|done|done].
  - done.
  - eexists. split; [exact Hl|]. intros i. rewrite elem_of_reverse, elem_of_seq. lia.
  - rewrite Hbs, Hd. apply zero_cache_ok.
  - intros i b. rewrite Hbs. intros [-> Hi]%lookup_replicate. unfold buf_lock. rewrite decide_False by set_solver.
    by apply Hsl.
  - set_solver.
  - by rewrite Hd.
Qed.

Definition boot_state : kstate := set_k_vdisk (idle_vdisk 0) (proc0_state true).

Lemma boot_state_runs : runs 0 0 true [] boot_state.
Proof. split; [exists 0%nat; exact (proc0_ctx true)|reflexivity|reflexivity]. Qed.

(** Block 5 is read, filled with ones, written and released; reading it again
    gives the ones. *)
Definition five : list bop :=
  [BRead 5; BSet 5 (replicate 1024 1); BWrite 5; BRelse 5; BRead 5].

Lemma bcache_refinement_witness :
  ∃ s e' s', binit (replicate 5 (others 0)) boot_state = Ret tt (replicate 5 (others 0)) s ∧
    run_bops five ∅ (replicate 5 (others 0)) s =
      Ret [replicate 1024 0; []; []; []; replicate 1024 1] e' s' ∧
    k_disk s' = <[5 := replicate 1024 1]> ∅.
Proof.
  destruct (boot_refines 0 0 true boot_state ∅ (replicate 5 (others 0))) as (s & Hb & Hrf & _).
  - exact boot_state_runs.
  - vm_compute. reflexivity.
  - apply idle_vdisk_idle. lia.
  - reflexivity.
  - intros blk x Hx. by rewrite lookup_empty in Hx.
  - destruct (bcache_refinement 0 0 true five ∅ (mkabs ∅ ∅ ∅)
      (mkabs {[5]} {[5 := (1, replicate 1024 1)]} (<[5 := replicate 1024 1]> ∅))
      [replicate 1024 0; []; []; []; replicate 1024 1] (replicate 5 (others 0)) s Hrf) as (e' & s' & Hr & Hd & _).
    + vm_compute. reflexivity.
    + split; [cbn; lia|]. repeat constructor.
    + exists s, e', s'. split_and!; [exact Hb|exact Hr|exact Hd].
Defined.
