(* ===== verification/Log.v ===== *)
(** kernel/log.c: the write-ahead log.

    The code, and the specification of each function over the abstract buffer
    cache of Bcache.v.  [fs] is the view a file-system operation has of the
    kernel: the buffers it holds, the blocks in the cache, the disk and the
    history of the disk's writes. *)

From S2P Require Import Prelude Mem KString Params Kernel Spinlock Sched Sleeplock Virtio Bio Bcache.

(** * The code *)

Definition log_get {A} (f : logst → A) : K A := gets (λ s, f (k_log s)).
Definition log_mod (f : logst → logst) : K unit := modify (λ s, set_k_log (f (k_log s)) s).

(** [log.lh.block[i]]; an index past the array is stuck. *)
Definition get_lh_block (i : Z) : K Z :=
  l <- log_get lh_block ;; deref (l !! Z.to_nat i).
Definition set_block_at (i v : Z) : K unit :=
  get_lh_block i ;;; log_mod (λ l, set_lh_block (<[Z.to_nat i := v]> (lh_block l)) l).

(** The bytes of a buffer. *)
Definition data_of (b : nat) : K (list Z) := bu <- buf_of b ;; ret (b_data bu).
Definition modify_data (b : nat) (g : list Z → list Z) : K unit :=
  modify_buf b (λ bu, set_b_data (g (b_data bu)) bu).
(** [memmove(to->data, from->data, BSIZE)] *)
Definition copy_data (to from : nat) : K unit :=
  x <- data_of from ;; modify_data to (λ _, x).

(** [struct logheader] laid over a block: [n] and then the array. *)
Definition lh_off (i : Z) : nat := Z.to_nat (4 + 4 * i).
Definition hd_n (x : list Z) : Z := i32 (blk_get 4 0 x).
Definition hd_block (i : Z) (x : list Z) : Z := i32 (blk_get 4 (lh_off i) x).

Definition install_turn (recovering : bool) (tail : Z) : K unit :=
  dev <- log_get log_dev ;;
  start <- log_get log_start ;;
  lbuf <- bread dev (u32 (start + tail + 1)) ;;
  blk <- get_lh_block tail ;;
  dbuf <- bread dev (u32 blk) ;;
  copy_data dbuf lbuf ;;;
  bwrite dbuf ;;;
  when (negb recovering) (bunpin dbuf) ;;;
  brelse lbuf ;;;
  brelse dbuf.
Definition install_trans (recovering : bool) : K unit :=
  for_upto (log_get lh_n) (install_turn recovering).

Definition read_head : K unit :=
  dev <- log_get log_dev ;;
  start <- log_get log_start ;;
  buf <- bread dev (u32 start) ;;
  x <- data_of buf ;;
  log_mod (set_lh_n (hd_n x)) ;;;
  for_upto (log_get lh_n) (λ i,
    x <- data_of buf ;;
    set_block_at i (hd_block i x)) ;;;
  brelse buf.

Definition write_head : K unit :=
  dev <- log_get log_dev ;;
  start <- log_get log_start ;;
  buf <- bread dev (u32 start) ;;
  n <- log_get lh_n ;;
  modify_data buf (blk_put 4 0 n) ;;;
  for_upto (log_get lh_n) (λ i,
    v <- get_lh_block i ;;
    modify_data buf (blk_put 4 (lh_off i) v)) ;;;
  bwrite buf ;;;
  brelse buf.

Definition recover_from_log : K unit :=
  read_head ;;;
  install_trans true ;;;
  log_mod (set_lh_n 0) ;;;
  write_head.

Definition initlog (dev : Z) (sb : superblock) : K unit :=
  if 4 + 4 * LOGSIZE >=? BSIZE then panic "initlog: too big logheader" else
  initlock L_log "log" ;;;
  log_mod (set_log_start (i32 (sb_logstart sb))) ;;;
  log_mod (set_log_size (i32 (sb_nlog sb))) ;;;
  log_mod (set_log_dev dev) ;;;
  recover_from_log.

Definition begin_op_turn (_ : unit) : K (unit + unit) :=
  committing <- log_get log_committing ;;
  if negb (committing =? 0) then sleep Ch_log L_log ;;; ret (inl tt) else
  n <- log_get lh_n ;;
  outstanding <- log_get log_outstanding ;;
  if n + (outstanding + 1) * MAXOPBLOCKS >? LOGSIZE then sleep Ch_log L_log ;;; ret (inl tt) else
  log_mod (λ l, set_log_outstanding (i32 (log_outstanding l + 1)) l) ;;;
  release L_log ;;;
  ret (inr tt).
Definition begin_op : K unit :=
  acquire L_log ;;;
  loop begin_op_turn tt.

Definition write_log_turn (tail : Z) : K unit :=
  dev <- log_get log_dev ;;
  start <- log_get log_start ;;
  to <- bread dev (u32 (start + tail + 1)) ;;
  blk <- get_lh_block tail ;;
  from <- bread dev (u32 blk) ;;
  copy_data to from ;;;
  bwrite to ;;;
  brelse from ;;;
  brelse to.
Definition write_log : K unit := for_upto (log_get lh_n) write_log_turn.

Definition commit : K unit :=
  n <- log_get lh_n ;;
  when (n >? 0) (
    write_log ;;;
    write_head ;;;
    install_trans false ;;;
    log_mod (set_lh_n 0) ;;;
    write_head).

Definition end_op : K unit :=
  acquire L_log ;;;
  log_mod (λ l, set_log_outstanding (i32 (log_outstanding l - 1)) l) ;;;
  committing <- log_get log_committing ;;
  if negb (committing =? 0) then panic "log.committing" else
  outstanding <- log_get log_outstanding ;;
  do_commit <- (if outstanding =? 0
                then log_mod (set_log_committing 1) ;;; ret true
                else wakeup Ch_log ;;; ret false) ;;
  release L_log ;;;
  when do_commit (
    commit ;;;
    acquire L_log ;;;
    log_mod (set_log_committing 0) ;;;
    wakeup Ch_log ;;;
    release L_log).

(** The scan of [log_write]: the index of the block's entry, or [log.lh.n]. *)
Definition log_find (blockno i : Z) : K (Z + Z) :=
  n <- log_get lh_n ;;
  if i <? n then
    v <- get_lh_block i ;;
    if u32 v =? blockno then ret (inr i) else ret (inl (i + 1))
  else ret (inr i).

Definition log_write (b : nat) : K unit :=
  acquire L_log ;;;
  n <- log_get lh_n ;;
  size <- log_get log_size ;;
  if (n >=? LOGSIZE) || (n >=? size - 1) then panic "too big a transaction" else
  outstanding <- log_get log_outstanding ;;
  if outstanding <? 1 then panic "log_write outside of trans" else
  bu <- buf_of b ;;
  i <- loop (log_find (b_blockno bu)) 0 ;;
  set_block_at i (i32 (b_blockno bu)) ;;;
  n <- log_get lh_n ;;
  when (i =? n) (
    bpin b ;;;
    log_mod (λ l, set_lh_n (i32 (lh_n l + 1)) l)) ;;;
  release L_log.

(** * The view of a file-system operation *)

(** [hd] says in which buffer a block in use is; [h] are the blocks locked by
    the process, [m] the blocks in use, [d] the disk, [w] its history; [R]
    holds everything else. *)
Record fs (p : nat) (pid : Z) (ie : bool) (hd : gmap Z nat) (h : gset Z) (m : gmap Z (Z * list Z))
    (d : gmap Z (list Z)) (w : list (Z * list Z)) (R s : kstate) : Prop := {
  fs_bio : bio p pid ie h m s;
  fs_disk : k_disk s = d;
  fs_writes : k_writes s = w;
  fs_at : ∀ blk, is_Some (m !! blk) → ∃ i, hd !! blk = Some i ∧ buf_at s i blk;
  fs_frame : bio_frame R s
}.

Section view.
Context {dev : VirtioDev} {ok : VirtioOk dev}.
Context (p : nat) (pid : Z) (ie : bool).
Implicit Types (hd : gmap Z nat) (h : gset Z) (m : gmap Z (Z * list Z)) (d : gmap Z (list Z)).
Implicit Types (w : list (Z * list Z)) (R s : kstate).

Lemma fs_post hd h m d w R s h' m' d' w' s' :
  fs p pid ie hd h m d w R s → bio_post p pid ie h' m' s s' → k_disk s' = d' → k_writes s' = w' →
  (∀ k, is_Some (m' !! k) → is_Some (m !! k)) → fs p pid ie hd h' m' d' w' R s'.
Proof.
  intros [_ _ _ H3 H4] [P1 P2 P3] Hd Hw Hm. split; [done|done|done| |by etrans].
  intros k Hk. destruct (H3 k (Hm k Hk)) as (i & ? & ?). exists i. auto.
Qed.

Lemma fs_buf_at hd h m d w R s blk r x i :
  fs p pid ie hd h m d w R s → m !! blk = Some (r, x) → hd !! blk = Some i → buf_at s i blk.
Proof. intros Hf Hm Hi. destruct (fs_at _ _ _ _ _ _ _ _ _ _ Hf blk) as (j & ? & ?); [eauto|]. congruence. Qed.

Lemma fs_bread hd h m d w R s blk n e :
  fs p pid ie hd h m d w R s → blk ∉ h → 0 ≤ blk < 2 ^ 31 →
  (read_entry m d blk).1 < 2 ^ 31 → is_Some (m !! blk) ∨ (size m < nbuf)%nat → dev_env p (S n) e →
  ∃ i e' s', bread ROOTDEV blk e s = Ret i e' s' ∧ dev_env p n e' ∧
    fs p pid ie (<[blk := i]> hd) ({[blk]} ∪ h) (<[blk := read_entry m d blk]> m) d w R s'.
Proof.
  intros Hf Hh Hblk Hr Hsp He. pose proof Hf as [Hb Hd Hw Hat Hfr]. subst d.
  destruct (bread_ok p pid ie h m blk n e s) as (i & e1 & s1 & Hrun & He1 & Hbi & Hp & Hd1 & Hw1); try done.
  { intros r x Hm. unfold read_entry in Hr. by rewrite Hm in Hr. }
  exists i, e1, s1. split_and!; [done|done|]. split; [apply Hp|done|congruence| |].
  - intros k Hk. rewrite lookup_insert. case_decide as E; [subst; eauto|].
    rewrite lookup_insert_ne in Hk by done. destruct (Hat k Hk) as (j & ? & ?). exists j. split; [done|].
    apply (bp_at _ _ _ _ _ _ _ Hp); [done|]. by rewrite lookup_insert_ne.
  - etrans; [done|]. apply Hp.
Qed.

Lemma fs_buf hd h m d w R s blk r x i e :
  fs p pid ie hd h m d w R s → m !! blk = Some (r, x) → hd !! blk = Some i →
  ∃ bu, buf_of i e s = Ret bu e s ∧ bc_buf (k_bcache s) !! i = Some bu ∧ b_data bu = x ∧ b_blockno bu = blk.
Proof.
  intros Hf Hm Hi. pose proof (fs_buf_at _ _ _ _ _ _ _ _ _ _ _ Hf Hm Hi) as Hat.
  destruct (buf_at_entry _ _ _ _ _ _ _ _ _ _ (fs_bio _ _ _ _ _ _ _ _ _ _ Hf) Hat Hm)
    as (b & b0 & Hb0 & -> & _ & _ & Hx & (_ & _ & Hk & _)).
  exists b0. split_and!; [by apply buf_of_ok|done|done|done].
Qed.

Lemma fs_data hd h m d w R s blk r x i e :
  fs p pid ie hd h m d w R s → m !! blk = Some (r, x) → hd !! blk = Some i → data_of i e s = Ret x e s.
Proof.
  intros Hf Hm Hi. destruct (fs_buf _ _ _ _ _ _ _ _ _ _ _ e Hf Hm Hi) as (bu & Hr & _ & Hx & _).
  unfold data_of. mrun Hr. unfold ret. congruence.
Qed.

Lemma fs_modify_data hd h m d w R s blk r x i g e :
  fs p pid ie hd h m d w R s → m !! blk = Some (r, x) → hd !! blk = Some i →
  length (g x) = Z.to_nat BSIZE →
  ∃ s', modify_data i g e s = Ret tt e s' ∧ fs p pid ie hd h (<[blk := (r, g x)]> m) d w R s'.
Proof.
  intros Hf Hm Hi Hg. pose proof (fs_buf_at _ _ _ _ _ _ _ _ _ _ _ Hf Hm Hi) as Hat.
  destruct (set_data_ok p pid ie h m i blk r x g e s) as (s' & Hr & Hp & Hd & Hw); [apply Hf|done..|].
  exists s'. split; [done|]. destruct Hf as [? ? ? ? ?] eqn:E. clear E.
  eapply fs_post; [by split|done|congruence|congruence|]. by eapply insert_is_Some.
Qed.
Lemma fs_len hd h m d w R s blk r x :
  fs p pid ie hd h m d w R s → m !! blk = Some (r, x) → length x = Z.to_nat BSIZE ∧ 0 < r < 2 ^ 31.
Proof.
  intros Hf Hm.
  by destruct (co_map _ _ _ (bi_cache _ _ _ _ _ _ (fs_bio _ _ _ _ _ _ _ _ _ _ Hf)) _ _ _ Hm) as (? & ? & _).
Qed.

Lemma fs_disk_len hd h m d w R s blk :
  fs p pid ie hd h m d w R s → length (disk_block d blk) = Z.to_nat BSIZE.
Proof.
  intros Hf. apply disk_block_len. rewrite <-(fs_disk _ _ _ _ _ _ _ _ _ _ Hf).
  apply (bi_disk _ _ _ _ _ _ (fs_bio _ _ _ _ _ _ _ _ _ _ Hf)).
Qed.

Lemma fs_bwrite hd h m d w R s blk r x i n e :
  fs p pid ie hd h m d w R s → blk ∈ h → m !! blk = Some (r, x) → hd !! blk = Some i → dev_env p (S n) e →
  ∃ e' s', bwrite i e s = Ret tt e' s' ∧ dev_env p n e' ∧
    fs p pid ie hd h m (<[blk := x]> d) (w ++ [(blk, x)]) R s'.
Proof.
  intros Hf Hh Hm Hi He. pose proof (fs_buf_at _ _ _ _ _ _ _ _ _ _ _ Hf Hm Hi) as Hat.
  pose proof Hf as [Hb Hd Hw _ _].
  destruct (bwrite_ok p pid ie h m i blk r x n e s) as (e' & s' & Hr & He' & Hp & Hd' & Hw'); [done..|].
  exists e', s'. split_and!; [done|done|]. eapply fs_post; [done|done|congruence|congruence|done].
Qed.

Lemma fs_brelse hd h m d w R s blk r x i e :
  fs p pid ie hd h m d w R s → blk ∈ h → m !! blk = Some (r, x) → hd !! blk = Some i →
  (r = 1 → x = disk_block d blk) →
  ∃ s', brelse i e s = Ret tt e s' ∧ fs p pid ie hd (h ∖ {[blk]}) (drop_ref blk r x m) d w R s'.
Proof.
  intros Hf Hh Hm Hi Hx. pose proof (fs_buf_at _ _ _ _ _ _ _ _ _ _ _ Hf Hm Hi) as Hat.
  pose proof Hf as [Hb Hd Hw _ _]. subst d.
  destruct (brelse_ok p pid ie h m i blk r x e s) as (s' & Hr & Hp & Hd' & Hw'); [done..|].
  exists s'. split; [done|]. eapply fs_post; [done|done|congruence|congruence|].
  intros k. unfold drop_ref. case_decide; [|by eapply insert_is_Some].
  intros [z Hz]. apply lookup_delete_Some in Hz as [_ Hz]. eauto.
Qed.

Lemma fs_bunpin hd h m d w R s blk r x i e :
  fs p pid ie hd h m d w R s → m !! blk = Some (r, x) → hd !! blk = Some i → 1 < r →
  ∃ s', bunpin i e s = Ret tt e s' ∧ fs p pid ie hd h (<[blk := (r - 1, x)]> m) d w R s'.
Proof.
  intros Hf Hm Hi Hr. pose proof (fs_buf_at _ _ _ _ _ _ _ _ _ _ _ Hf Hm Hi) as Hat.
  pose proof Hf as [Hb Hd Hw _ _].
  destruct (bunpin_ok p pid ie h m i blk r x e s) as (s' & Hrun & Hp & Hd' & Hw'); [done..|].
  exists s'. split; [done|]. eapply fs_post; [done|done|congruence|congruence|]. by eapply insert_is_Some.
Qed.

Lemma fs_log_get {A} (f : logst → A) hd h m d w R s e :
  fs p pid ie hd h m d w R s → log_get f e s = Ret (f (k_log R)) e s.
Proof. intros Hf. unfold log_get, gets. by rewrite (bf_log _ _ (fs_frame _ _ _ _ _ _ _ _ _ _ Hf)). Qed.

Lemma bio_frame_log l R s : bio_frame R s → bio_frame (set_k_log l R) (set_k_log l s).
Proof. intros [F1 F2 F3]. split; [exact (f_equal (set_k_log l) F1)|exact F2|exact F3]. Qed.

Lemma fs_log_mod f hd h m d w R s e :
  fs p pid ie hd h m d w R s →
  ∃ s', log_mod f e s = Ret tt e s' ∧ fs p pid ie hd h m d w (set_k_log (f (k_log R)) R) s'.
Proof.
  intros Hf. eexists. split; [reflexivity|]. rewrite (bf_log _ _ (fs_frame _ _ _ _ _ _ _ _ _ _ Hf)).
  destruct Hf as [[[]] ? ? ? ?]. split; [split; try done; by split|done|done|done|by apply bio_frame_log].
Qed.

Lemma fs_copy hd h m d w R s b1 r1 x1 i1 b2 r2 x2 i2 e :
  fs p pid ie hd h m d w R s → m !! b1 = Some (r1, x1) → hd !! b1 = Some i1 →
  m !! b2 = Some (r2, x2) → hd !! b2 = Some i2 →
  ∃ s', copy_data i1 i2 e s = Ret tt e s' ∧ fs p pid ie hd h (<[b1 := (r1, x2)]> m) d w R s'.
Proof.
  intros Hf H1 I1 H2 I2. unfold copy_data. mrun (fs_data _ _ _ _ _ _ _ _ _ _ _ e Hf H2 I2).
  eapply (fs_modify_data _ _ _ _ _ _ _ b1 r1 x1 i1 (λ _, x2)); [done..|]. by apply (fs_len _ _ _ _ _ _ _ _ _ _ Hf H2).
Qed.

Lemma get_lh_block_ok hd h m d w R s (i : nat) v e :
  fs p pid ie hd h m d w R s → lh_block (k_log R) !! i = Some v → get_lh_block (Z.of_nat i) e s = Ret v e s.
Proof.
  intros Hf Hv. unfold get_lh_block. mrun (fs_log_get lh_block _ _ _ _ _ _ _ e Hf).
  by rewrite Nat2Z.id, Hv.
Qed.

(** One turn of [write_log]: the block of the [i]th entry, which the cache
    holds, is written to the log. *)
Lemma write_log_turn_ok hd m d w R s i lb b r x n e :
  fs p pid ie hd ∅ m d w R s → log_dev (k_log R) = ROOTDEV →
  lb = log_start (k_log R) + Z.of_nat i + 1 → 0 ≤ lb < 2 ^ 31 → m !! lb = None →
  lh_block (k_log R) !! i = Some b → 0 ≤ b < 2 ^ 31 → m !! b = Some (r, x) → r + 1 < 2 ^ 31 →
  (size m < nbuf)%nat → dev_env p (3 + n) e →
  ∃ hd' e' s', write_log_turn (Z.of_nat i) e s = Ret tt e' s' ∧ dev_env p n e' ∧
    fs p pid ie hd' ∅ m (<[lb := x]> d) (w ++ [(lb, x)]) R s'.
Proof.
  intros Hf Hdev Hlb Hlbr Hmlb Hb Hbr Hmb Hr Hsz He. unfold write_log_turn.
  assert (Hne : lb ≠ b) by congruence.
  mrun (fs_log_get log_dev _ _ _ _ _ _ _ e Hf). mrun (fs_log_get log_start _ _ _ _ _ _ _ e Hf).
  rewrite Hdev, <-Hlb, u32_id by lia.
  assert (Hre : read_entry m d lb = (1, disk_block d lb)) by (unfold read_entry; by rewrite Hmlb).
  destruct (fs_bread _ _ _ _ _ _ _ lb (2 + n) e Hf) as (i1 & e1 & s1 & Hr1 & He1 & Hf1);
    [set_solver|lia|by rewrite Hre|by right|done|]. rewrite Hre in Hf1.
  mrun Hr1. mrun (get_lh_block_ok _ _ _ _ _ _ _ i b e1 Hf1 Hb). rewrite u32_id by lia.
  assert (Hmb' : <[lb := (1, disk_block d lb)]> m !! b = Some (r, x)) by (by rewrite lookup_insert_ne).
  assert (Hre2 : read_entry (<[lb := (1, disk_block d lb)]> m) d b = (r + 1, x)) by (unfold read_entry; by rewrite Hmb').
  destruct (fs_bread _ _ _ _ _ _ _ b (1 + n) e1 Hf1) as (i2 & e2 & s2 & Hr2 & He2 & Hf2);
    [set_solver|lia|by rewrite Hre2|left; eauto|done|]. rewrite Hre2 in Hf2.
  mrun Hr2.
  destruct (fs_copy _ _ _ _ _ _ _ lb 1 (disk_block d lb) i1 b (r + 1) x i2 e2 Hf2) as (s3 & Hr3 & Hf3);
    [by simplify_map_eq..|]. mrun Hr3.
  destruct (fs_bwrite _ _ _ _ _ _ _ lb 1 x i1 n e2 Hf3) as (e4 & s4 & Hr4 & He4 & Hf4);
    [set_solver|by simplify_map_eq..|done|]. mrun Hr4.
  destruct (fs_brelse _ _ _ _ _ _ _ b (r + 1) x i2 e4 Hf4) as (s5 & Hr5 & Hf5);
    [set_solver|by simplify_map_eq..| |]. { pose proof (fs_len _ _ _ _ _ _ _ _ _ _ Hf Hmb). lia. }
  mrun Hr5. unfold drop_ref in Hf5.
  rewrite decide_False in Hf5 by (pose proof (fs_len _ _ _ _ _ _ _ _ _ _ Hf Hmb); lia).
  destruct (fs_brelse _ _ _ _ _ _ _ lb 1 x i1 e4 Hf5) as (s6 & Hr6 & Hf6);
    [set_solver|by simplify_map_eq..| |]. { intros _. unfold disk_block. by rewrite lookup_insert_eq. }
  rewrite Hr6. exists (<[b := i2]> (<[lb := i1]> hd)), e4, s6. split_and!; [done|done|].
  unfold drop_ref in Hf6. rewrite decide_True in Hf6 by done.
  replace (_ ∖ {[lb]}) with (∅ : gset Z) in Hf6 by set_solver.
  match type of Hf6 with fs _ _ _ _ _ ?M _ _ _ _ => replace M with m in Hf6; [done|] end.
  replace (r + 1 - 1) with r by lia. apply map_eq. intros k.
  destruct (decide (k = lb)) as [->|]; [by rewrite lookup_delete_eq|]. rewrite lookup_delete_ne by done.
  destruct (decide (k = b)) as [->|]; by simplify_map_eq.
Qed.

(** One turn of [install_trans]: the log's copy of the block goes home.  A
    block that the transaction pinned leaves the cache. *)
Lemma install_turn_ok (rc : bool) hd m d w R s i lb b n e :
  fs p pid ie hd ∅ m d w R s → log_dev (k_log R) = ROOTDEV →
  lb = log_start (k_log R) + Z.of_nat i + 1 → 0 ≤ lb < 2 ^ 31 → m !! lb = None →
  lh_block (k_log R) !! i = Some b → 0 ≤ b < 2 ^ 31 → lb ≠ b →
  (if rc then m !! b = None ∧ (S (size m) < nbuf)%nat else (∃ x, m !! b = Some (1, x)) ∧ (size m < nbuf)%nat) →
  dev_env p (3 + n) e →
  ∃ hd' e' s', install_turn rc (Z.of_nat i) e s = Ret tt e' s' ∧ dev_env p n e' ∧
    fs p pid ie hd' ∅ (delete b m) (<[b := disk_block d lb]> d) (w ++ [(b, disk_block d lb)]) R s'.
Proof.
  intros Hf Hdev Hlb Hlbr Hmlb Hb Hbr Hne Hrc He. unfold install_turn.
  mrun (fs_log_get log_dev _ _ _ _ _ _ _ e Hf). mrun (fs_log_get log_start _ _ _ _ _ _ _ e Hf).
  rewrite Hdev, <-Hlb, u32_id by lia. set (y := disk_block d lb).
  assert (Hre : read_entry m d lb = (1, y)) by (unfold read_entry; by rewrite Hmlb).
  destruct (fs_bread _ _ _ _ _ _ _ lb (2 + n) e Hf) as (i1 & e1 & s1 & Hr1 & He1 & Hf1);
    [set_solver|lia|by rewrite Hre|right; destruct rc; destruct Hrc; lia|done|]. rewrite Hre in Hf1.
  mrun Hr1. mrun (get_lh_block_ok _ _ _ _ _ _ _ i b e1 Hf1 Hb). rewrite u32_id by lia.
  assert (∃ x, read_entry (<[lb := (1, y)]> m) d b = ((if rc then 1 else 2) : Z, x)) as [x Hre2].
  { unfold read_entry. rewrite lookup_insert_ne by done. destruct rc.
    - destruct Hrc as [-> _]. eauto.
    - destruct Hrc as [[x ->] _]. eauto. }
  destruct (fs_bread _ _ _ _ _ _ _ b (1 + n) e1 Hf1) as (i2 & e2 & s2 & Hr2 & He2 & Hf2);
    [set_solver|lia|rewrite Hre2; by destruct rc| |done|].
  { rewrite lookup_insert_ne, map_size_insert_None by done. destruct rc; [right; apply Hrc|left; destruct Hrc as [[? ->] _]; eauto]. }
  rewrite Hre2 in Hf2. mrun Hr2.
  destruct (fs_copy _ _ _ _ _ _ _ b (if rc then 1 else 2) x i2 lb 1 y i1 e2 Hf2) as (s3 & Hr3 & Hf3);
    [by simplify_map_eq..|]. mrun Hr3.
  destruct (fs_bwrite _ _ _ _ _ _ _ b (if rc then 1 else 2) y i2 n e2 Hf3) as (e4 & s4 & Hr4 & He4 & Hf4);
    [set_solver|by simplify_map_eq..|done|]. mrun Hr4.
  assert (∃ s5, (when (negb rc) (bunpin i2)) e4 s4 = Ret tt e4 s5 ∧
    fs p pid ie (<[b := i2]> (<[lb := i1]> hd)) ({[b]} ∪ ({[lb]} ∪ ∅)) (<[b := (1, y)]> (<[lb := (1, y)]> m))
      (<[b := y]> d) (w ++ [(b, y)]) R s5) as (s5 & Hr5 & Hf5).
  { destruct rc; cbn [negb when].
    - exists s4. split; [done|]. by rewrite !insert_insert_eq in Hf4.
    - destruct (fs_bunpin _ _ _ _ _ _ _ b 2 y i2 e4 Hf4) as (s5 & Hr5 & Hf5); [by simplify_map_eq..|lia|].
      exists s5. split; [done|]. by rewrite !insert_insert_eq in Hf5. }
  mrun Hr5.
  destruct (fs_brelse _ _ _ _ _ _ _ lb 1 y i1 e4 Hf5) as (s6 & Hr6 & Hf6);
    [set_solver|by simplify_map_eq..| |]. { intros _. unfold disk_block. by rewrite lookup_insert_ne. }
  mrun Hr6. unfold drop_ref in Hf6. rewrite decide_True in Hf6 by done.
  destruct (fs_brelse _ _ _ _ _ _ _ b 1 y i2 e4 Hf6) as (s7 & Hr7 & Hf7);
    [set_solver|by simplify_map_eq..| |]. { intros _. unfold disk_block. by rewrite lookup_insert_eq. }
  rewrite Hr7. exists (<[b := i2]> (<[lb := i1]> hd)), e4, s7. split_and!; [done|done|].
  unfold drop_ref in Hf7. rewrite decide_True in Hf7 by done.
  replace (_ ∖ {[b]}) with (∅ : gset Z) in Hf7 by set_solver.
  match type of Hf7 with fs _ _ _ _ _ ?M _ _ _ _ => replace M with (delete b m) in Hf7; [done|] end.
  apply map_eq. intros k. destruct (decide (k = b)) as [->|]; [by rewrite !lookup_delete_eq|].
  rewrite !lookup_delete_ne by done. destruct (decide (k = lb)) as [->|]; [by rewrite lookup_delete_eq|].
  rewrite lookup_delete_ne by done. by simplify_map_eq.
Qed.

(** ** The loops *)

(** The log's geometry, and the home blocks of the transaction in memory. *)
Record log_ok (bs : list Z) (lg : logst) : Prop := {
  lo_dev : log_dev lg = ROOTDEV;
  lo_start : 0 ≤ log_start lg;
  lo_end : log_start lg + LOGSIZE < 2 ^ 31;
  lo_arr : length (lh_block lg) = Z.to_nat LOGSIZE;
  lo_n : lh_n lg = Z.of_nat (length bs);
  lo_le : Z.of_nat (length bs) < LOGSIZE;
  lo_bs : ∀ i b, bs !! i = Some b → lh_block lg !! i = Some b;
  lo_nodup : NoDup bs;
  lo_home : ∀ b, b ∈ bs → 0 ≤ b < 2 ^ 31 ∧ ¬ (log_start lg ≤ b < log_start lg + LOGSIZE)
}.

Definition apply_writes (d : gmap Z (list Z)) (ws : list (Z * list Z)) : gmap Z (list Z) :=
  foldl (λ d x, <[x.1 := x.2]> d) d ws.
(** The log blocks of a transaction with contents [xs]. *)
Definition log_writes (start : Z) (xs : list (list Z)) : list (Z * list Z) :=
  imap (λ i x, (start + Z.of_nat i + 1, x)) xs.

Lemma apply_writes_snoc d ws x : apply_writes d (ws ++ [x]) = <[x.1 := x.2]> (apply_writes d ws).
Proof. unfold apply_writes. by rewrite foldl_app. Qed.
Lemma apply_writes_app d ws ws' : apply_writes d (ws ++ ws') = apply_writes (apply_writes d ws) ws'.
Proof. unfold apply_writes. by rewrite foldl_app. Qed.
Lemma disk_block_apply_ne d ws b : b ∉ ws.*1 → disk_block (apply_writes d ws) b = disk_block d b.
Proof.
  intros Hb. unfold disk_block. f_equal. revert d. induction ws as [|[k x] ws IH]; intros d; [done|].
  cbn in *. rewrite IH by set_solver. rewrite lookup_insert_ne by set_solver. done.
Qed.

Lemma log_get_n bs hd h m d w R s e :
  fs p pid ie hd h m d w R s → log_ok bs (k_log R) → log_get lh_n e s = Ret (Z.of_nat (length bs)) e s.
Proof. intros Hf Hl. rewrite (fs_log_get lh_n _ _ _ _ _ _ _ e Hf). by rewrite (lo_n _ _ Hl). Qed.

Lemma write_log_ok bs xs hd m d w R s n e :
  fs p pid ie hd ∅ m d w R s → log_ok bs (k_log R) →
  Forall2 (λ b x, m !! b = Some (1, x)) bs xs →
  (∀ b, log_start (k_log R) ≤ b < log_start (k_log R) + LOGSIZE → m !! b = None) →
  (size m < nbuf)%nat → dev_env p (3 * length bs + n) e →
  ∃ hd' e' s', write_log e s = Ret tt e' s' ∧ dev_env p n e' ∧
    fs p pid ie hd' ∅ m (apply_writes d (log_writes (log_start (k_log R)) xs))
      (w ++ log_writes (log_start (k_log R)) xs) R s'.
Proof.
  intros Hf Hl Hxs Hm Hsz He. set (start := log_start (k_log R)) in *. pose proof (Forall2_length _ _ _ Hxs) as Hlen.
  pose proof (lo_le _ _ Hl) as Hle. pose proof (lo_start _ _ Hl) as Hst. pose proof (lo_end _ _ Hl) as Hend.
  unfold write_log.
  destruct (for_upto_ok (log_get lh_n) write_log_turn (λ i e s, ∃ hd, dev_env p (3 * (length bs - i) + n) e ∧
     fs p pid ie hd ∅ m (apply_writes d (take i (log_writes start xs))) (w ++ take i (log_writes start xs)) R s)
     (length bs) e s) as (e' & s' & Hr & hd' & He' & Hf').
  - change LOGSIZE with 30 in *. lia.
  - intros i e1 s1 _ (hd1 & _ & Hf1). by eapply log_get_n.
  - intros i e1 s1 Hi (hd1 & He1 & Hf1).
    destruct (lookup_lt_is_Some_2 bs i Hi) as [b Hb]. destruct (Forall2_lookup_l _ _ _ _ _ Hxs Hb) as (x & Hx & Hmb).
    destruct (lo_home _ _ Hl b) as [Hbr _]; [by eapply list_elem_of_lookup_2|].
    assert (Hlx : log_writes start xs !! i = Some (start + Z.of_nat i + 1, x))
      by (unfold log_writes; by rewrite list_lookup_imap, Hx).
    destruct (write_log_turn_ok hd1 m _ _ R s1 i (start + Z.of_nat i + 1) b 1 x (3 * (length bs - S i) + n) e1 Hf1)
      as (hd2 & e2 & s2 & Hr & He2 & Hf2); try done.
    + apply (lo_dev _ _ Hl).
    + lia.
    + apply Hm. lia.
    + by apply (lo_bs _ _ Hl).
    + by replace (3 + (3 * (length bs - S i) + n))%nat with (3 * (length bs - i) + n)%nat by lia.
    + exists e2, s2. split; [done|]. exists hd2. split; [done|].
      by rewrite (take_S_r _ _ _ Hlx), app_assoc, apply_writes_snoc.
  - exists hd. cbn [take]. rewrite app_nil_r, Nat.sub_0_r. done.
  - rewrite Nat.sub_diag in He'. exists hd', e', s'. split_and!; [done|done|].
    rewrite take_ge in Hf' by (unfold log_writes; rewrite length_imap; lia). done.
Qed.

Definition forget (m : gmap Z (Z * list Z)) (bs : list Z) : gmap Z (Z * list Z) :=
  foldl (λ m b, delete b m) m bs.
Lemma forget_lookup m bs b : forget m bs !! b = if decide (b ∈ bs) then None else m !! b.
Proof.
  revert m. induction bs as [|k bs IH]; intros m; [done|]. cbn. rewrite IH.
  destruct (decide (b ∈ bs)); [by rewrite decide_True by set_solver|].
  destruct (decide (b = k)) as [->|]; [rewrite lookup_delete_eq, decide_True by set_solver; done|].
  rewrite lookup_delete_ne by done. by rewrite decide_False by set_solver.
Qed.
Lemma forget_size m bs : (size (forget m bs) ≤ size m)%nat.
Proof.
  revert m. induction bs as [|k bs IH]; intros m; [done|]. cbn. etrans; [apply IH|].
  apply map_subseteq_size, delete_subseteq.
Qed.

(** What the log area of the disk holds for a transaction of [n] blocks. *)
Definition log_reads (start : Z) (d : gmap Z (list Z)) (n : nat) : list (list Z) :=
  (λ i : nat, disk_block d (start + Z.of_nat i + 1)) <$> seq 0 n.
Definition home_writes (bs : list Z) (start : Z) (d : gmap Z (list Z)) : list (Z * list Z) :=
  zip bs (log_reads start d (length bs)).

Lemma length_home_writes bs start d : length (home_writes bs start d) = length bs.
Proof. unfold home_writes, log_reads. rewrite length_zip_with, length_fmap, length_seq. lia. Qed.
Lemma home_writes_lookup bs start d i b :
  bs !! i = Some b → home_writes bs start d !! i = Some (b, disk_block d (start + Z.of_nat i + 1)).
Proof.
  intros Hb. unfold home_writes, log_reads.
  rewrite lookup_zip_with, Hb, list_lookup_fmap, lookup_seq_lt by (by eapply lookup_lt_Some). done.
Qed.
Lemma home_writes_fst bs start d : (home_writes bs start d).*1 = bs.
Proof. unfold home_writes, log_reads. apply fst_zip. rewrite length_fmap, length_seq. lia. Qed.

Lemma install_trans_ok (rc : bool) bs hd m d w R s n e :
  fs p pid ie hd ∅ m d w R s → log_ok bs (k_log R) →
  (∀ b, log_start (k_log R) ≤ b < log_start (k_log R) + LOGSIZE → m !! b = None) →
  (if rc then (∀ b, b ∈ bs → m !! b = None) ∧ (S (size m) < nbuf)%nat
   else (∀ b, b ∈ bs → ∃ x, m !! b = Some (1, x)) ∧ (size m < nbuf)%nat) →
  dev_env p (3 * length bs + n) e →
  ∃ hd' e' s', install_trans rc e s = Ret tt e' s' ∧ dev_env p n e' ∧
    fs p pid ie hd' ∅ (forget m bs) (apply_writes d (home_writes bs (log_start (k_log R)) d))
      (w ++ home_writes bs (log_start (k_log R)) d) R s'.
Proof.
  intros Hf Hl Hm Hrc He. set (start := log_start (k_log R)) in *.
  pose proof (lo_le _ _ Hl) as Hle. pose proof (lo_start _ _ Hl) as Hst. pose proof (lo_end _ _ Hl) as Hend.
  unfold install_trans. set (hw := home_writes bs start d).
  destruct (for_upto_ok (log_get lh_n) (install_turn rc) (λ i e s, ∃ hd, dev_env p (3 * (length bs - i) + n) e ∧
     fs p pid ie hd ∅ (forget m (take i bs)) (apply_writes d (take i hw)) (w ++ take i hw) R s)
     (length bs) e s) as (e' & s' & Hr & hd' & He' & Hf').
  - change LOGSIZE with 30 in *. lia.
  - intros i e1 s1 _ (hd1 & _ & Hf1). by eapply log_get_n.
  - intros i e1 s1 Hi (hd1 & He1 & Hf1).
    destruct (lookup_lt_is_Some_2 bs i Hi) as [b Hb]. pose proof (list_elem_of_lookup_2 _ _ _ Hb) as Hbin.
    destruct (lo_home _ _ Hl b Hbin) as [Hbr Hbn].
    pose proof (home_writes_lookup bs start d i b Hb) as Hlx. fold hw in Hlx.
    assert (Hni : b ∉ take i bs).
    { intros (j & Hj)%list_elem_of_lookup. apply lookup_take_Some in Hj as [Hj Hji].
      assert (j = i) by (eapply NoDup_lookup; [apply (lo_nodup _ _ Hl)|done|done]). lia. }
    assert (Hdl : disk_block (apply_writes d (take i hw)) (start + Z.of_nat i + 1) = disk_block d (start + Z.of_nat i + 1)).
    { apply disk_block_apply_ne. rewrite fmap_take. unfold hw. rewrite home_writes_fst.
      intros Hin. destruct (lo_home _ _ Hl (start + Z.of_nat i + 1)) as [_ Hno].
      { apply list_elem_of_lookup in Hin as [j Hj]. apply lookup_take_Some in Hj as [Hj _].
        by eapply list_elem_of_lookup_2. }
      apply Hno. lia. }
    destruct (install_turn_ok rc hd1 _ _ _ R s1 i (start + Z.of_nat i + 1) b (3 * (length bs - S i) + n) e1 Hf1)
      as (hd2 & e2 & s2 & Hr & He2 & Hf2); try done.
    + apply (lo_dev _ _ Hl).
    + lia.
    + rewrite forget_lookup. case_decide; [done|]. apply Hm. lia.
    + by apply (lo_bs _ _ Hl).
    + intros <-. apply Hbn. lia.
    + pose proof (forget_size m (take i bs)). rewrite forget_lookup, decide_False by done.
      destruct rc; (split; [by apply Hrc|destruct Hrc; lia]).
    + by replace (3 + (3 * (length bs - S i) + n))%nat with (3 * (length bs - i) + n)%nat by lia.
    + exists e2, s2. split; [done|]. exists hd2. split; [done|].
      rewrite (take_S_r _ _ _ Hlx), app_assoc, apply_writes_snoc, (take_S_r _ _ _ Hb).
      unfold forget. rewrite foldl_app, <-Hdl. done.
  - exists hd. cbn [take]. rewrite app_nil_r, Nat.sub_0_r. done.
  - rewrite Nat.sub_diag in He'. exists hd', e', s'. split_and!; [done|done|].
    rewrite take_ge in Hf' by done. rewrite take_ge in Hf' by (unfold hw; by rewrite length_home_writes). done.
Qed.

(** ** The header block *)

(** The header of a transaction with home blocks [bs]. *)
Record hdr_of (bs : list Z) (x : list Z) : Prop := {
  ho_len : length x = Z.to_nat BSIZE;
  ho_n : hd_n x = Z.of_nat (length bs);
  ho_bs : ∀ i b, bs !! i = Some b → hd_block (Z.of_nat i) x = b
}.

Lemma i32_mod v : -2 ^ 31 ≤ v < 2 ^ 31 → i32 (v mod 256 ^ Z.of_nat 4) = v.
Proof.
  intros Hv. unfold i32, swrap. change (256 ^ Z.of_nat 4) with (2 ^ 32). change (32 - 1) with 31.
  destruct (decide (0 ≤ v)).
  - rewrite (Z.mod_small v) by lia. rewrite Z.mod_small by lia. lia.
  - replace (v mod 2 ^ 32) with (v + 2 ^ 32) by (apply (Z.mod_unique_pos _ _ (-1)); lia).
    replace (v + 2 ^ 32 + 2 ^ 31) with (v + 2 ^ 31 + 1 * 2 ^ 32) by lia.
    rewrite Z.mod_add by lia. rewrite Z.mod_small by lia. lia.
Qed.

(** One more entry written into a header block. *)
Lemma hdr_put (x : list Z) i v :
  length x = Z.to_nat BSIZE → (i < Z.to_nat LOGSIZE)%nat → -2 ^ 31 ≤ v < 2 ^ 31 →
  let y := blk_put 4 (lh_off (Z.of_nat i)) v x in
  hd_n y = hd_n x ∧ hd_block (Z.of_nat i) y = v ∧
  ∀ j, j ≠ i → hd_block (Z.of_nat j) y = hd_block (Z.of_nat j) x.
Proof.
  intros Hx Hi Hv y. unfold hd_n, hd_block, y, lh_off. change (Z.to_nat BSIZE) with 1024%nat in Hx.
  change (Z.to_nat LOGSIZE) with 30%nat in Hi. split_and!.
  - rewrite blk_get_put_ne by lia. done.
  - rewrite blk_get_put_eq by lia. by apply i32_mod.
  - intros j Hj. rewrite blk_get_put_ne by lia. done.
Qed.

Lemma hdr_put_n (x : list Z) n :
  length x = Z.to_nat BSIZE → 0 ≤ n < 2 ^ 31 → hd_n (blk_put 4 0 n x) = n.
Proof.
  intros Hx Hn. unfold hd_n. change (Z.to_nat BSIZE) with 1024%nat in Hx.
  rewrite blk_get_put_eq by lia. apply i32_mod. lia.
Qed.

Lemma write_head_ok bs hd m d w R s n e :
  fs p pid ie hd ∅ m d w R s → log_ok bs (k_log R) → m !! log_start (k_log R) = None →
  (size m < nbuf)%nat → dev_env p (2 + n) e →
  ∃ y hd' e' s', hdr_of bs y ∧ write_head e s = Ret tt e' s' ∧ dev_env p n e' ∧
    fs p pid ie hd' ∅ m (<[log_start (k_log R) := y]> d) (w ++ [(log_start (k_log R), y)]) R s'.
Proof.
  intros Hf Hl Hm Hsz He. unfold write_head. set (start := log_start (k_log R)) in *.
  pose proof (lo_le _ _ Hl) as Hle. pose proof (lo_start _ _ Hl) as Hst. pose proof (lo_end _ _ Hl) as Hend.
  fold start in Hst, Hend. change LOGSIZE with 30 in *.
  mrun (fs_log_get log_dev _ _ _ _ _ _ _ e Hf). mrun (fs_log_get log_start _ _ _ _ _ _ _ e Hf).
  fold start. rewrite (lo_dev _ _ Hl), u32_id by lia.
  assert (Hre : read_entry m d start = (1, disk_block d start)) by (unfold read_entry; by rewrite Hm).
  destruct (fs_bread _ _ _ _ _ _ _ start (1 + n) e Hf) as (i1 & e1 & s1 & Hr1 & He1 & Hf1);
    [set_solver|lia|by rewrite Hre|by right|done|]. rewrite Hre in Hf1. mrun Hr1.
  mrun (log_get_n _ _ _ _ _ _ _ _ e1 Hf1 Hl).
  pose proof (fs_disk_len _ _ _ _ _ _ _ start Hf) as Hdl.
  destruct (fs_modify_data _ _ _ _ _ _ _ start 1 (disk_block d start) i1 (blk_put 4 0 (Z.of_nat (length bs))) e1 Hf1)
    as (s2 & Hr2 & Hf2); [by simplify_map_eq..|by rewrite length_blk_put|]. mrun Hr2.
  rewrite insert_insert_eq in Hf2.
  match goal with |- context [bind (for_upto ?bd ?body) _ _ _] =>
    destruct (for_upto_ok bd body (λ i e s, e = e1 ∧ ∃ y, length y = Z.to_nat BSIZE ∧
       hd_n y = Z.of_nat (length bs) ∧ (∀ j b, (j < i)%nat → bs !! j = Some b → hd_block (Z.of_nat j) y = b) ∧
       fs p pid ie (<[start := i1]> hd) ({[start]} ∪ ∅) (<[start := (1, y)]> m) d w R s) (length bs) e1 s2)
      as (e' & s' & Hr & -> & y & Hyl & Hyn & Hyb & Hf') end.
  - lia.
  - intros i e3 s3 _ (-> & y & _ & _ & _ & Hf3). by eapply log_get_n.
  - intros i e3 s3 Hi (-> & y & Hyl & Hyn & Hyb & Hf3).
    destruct (lookup_lt_is_Some_2 bs i Hi) as [b Hb]. pose proof (list_elem_of_lookup_2 _ _ _ Hb) as Hbin.
    destruct (lo_home _ _ Hl b Hbin) as [Hbr _].
    mrun (get_lh_block_ok _ _ _ _ _ _ _ i b e1 Hf3 (lo_bs _ _ Hl _ _ Hb)).
    destruct (hdr_put y i b) as (P1 & P2 & P3); [done|change (Z.to_nat LOGSIZE) with 30%nat; lia|lia|].
    destruct (fs_modify_data _ _ _ _ _ _ _ start 1 y i1 (blk_put 4 (lh_off (Z.of_nat i)) b) e1 Hf3)
      as (s4 & Hr4 & Hf4); [by simplify_map_eq..|by rewrite length_blk_put|].
    exists e1, s4. split; [done|]. split; [done|]. exists (blk_put 4 (lh_off (Z.of_nat i)) b y).
    rewrite insert_insert_eq in Hf4. split_and!; [by rewrite length_blk_put|congruence| |done].
    intros j b' Hj Hb'. destruct (decide (j = i)) as [->|]; [congruence|]. rewrite P3 by done.
    apply Hyb; [lia|done].
  - split; [done|]. exists (blk_put 4 0 (Z.of_nat (length bs)) (disk_block d start)).
    split_and!; [by rewrite length_blk_put|by apply hdr_put_n; [|lia]|lia|done].
  - mrun Hr.
    destruct (fs_bwrite _ _ _ _ _ _ _ start 1 y i1 n e1 Hf') as (e4 & s4 & Hr4 & He4 & Hf4);
      [set_solver|by simplify_map_eq..|done|]. mrun Hr4.
    destruct (fs_brelse _ _ _ _ _ _ _ start 1 y i1 e4 Hf4) as (s6 & Hr6 & Hf6);
      [set_solver|by simplify_map_eq..| |]. { intros _. unfold disk_block. by rewrite lookup_insert_eq. }
    rewrite Hr6. exists y, (<[start := i1]> hd), e4, s6. split_and!; [|done|done|].
    { split; [done|done|]. intros i b Hb. eapply Hyb; [by eapply lookup_lt_Some|done]. }
    unfold drop_ref in Hf6. rewrite decide_True, delete_insert_id in Hf6 by done.
    by replace (_ ∖ {[start]}) with (∅ : gset Z) in Hf6 by set_solver.
Qed.

Lemma read_head_ok bs hd m d w R s n e :
  fs p pid ie hd ∅ m d w R s → log_dev (k_log R) = ROOTDEV →
  0 ≤ log_start (k_log R) < 2 ^ 31 → length (lh_block (k_log R)) = Z.to_nat LOGSIZE →
  m !! log_start (k_log R) = None → (size m < nbuf)%nat →
  hdr_of bs (disk_block d (log_start (k_log R))) → Z.of_nat (length bs) < LOGSIZE → dev_env p (1 + n) e →
  ∃ l hd' e' s', read_head e s = Ret tt e' s' ∧ dev_env p n e' ∧ length l = Z.to_nat LOGSIZE ∧
    (∀ i b, bs !! i = Some b → l !! i = Some b) ∧
    fs p pid ie hd' ∅ m d w (set_k_log (set_lh_block l (set_lh_n (Z.of_nat (length bs)) (k_log R))) R) s'.
Proof.
  intros Hf Hdev Hst Hla Hm Hsz [Hx1 Hx2 Hx3] Hle He. unfold read_head. set (start := log_start (k_log R)) in *.
  change LOGSIZE with 30 in *. change (Z.to_nat 30) with 30%nat in *.
  mrun (fs_log_get log_dev _ _ _ _ _ _ _ e Hf). mrun (fs_log_get log_start _ _ _ _ _ _ _ e Hf).
  fold start. rewrite Hdev, u32_id by lia.
  assert (Hre : read_entry m d start = (1, disk_block d start)) by (unfold read_entry; by rewrite Hm).
  destruct (fs_bread _ _ _ _ _ _ _ start n e Hf) as (i1 & e1 & s1 & Hr1 & He1 & Hf1);
    [set_solver|lia|by rewrite Hre|by right|done|]. rewrite Hre in Hf1. mrun Hr1.
  mrun (fs_data _ _ _ _ _ _ _ start 1 (disk_block d start) i1 e1 Hf1 ltac:(by simplify_map_eq) ltac:(by simplify_map_eq)).
  destruct (fs_log_mod (set_lh_n (hd_n (disk_block d start))) _ _ _ _ _ _ _ e1 Hf1) as (s2 & Hr2 & Hf2). mrun Hr2.
  rewrite Hx2 in Hf2.
  match goal with |- context [bind (for_upto ?bd ?body) _ _ _] =>
    destruct (for_upto_ok bd body (λ i e s, e = e1 ∧ ∃ l, length l = 30%nat ∧
       (∀ j b, (j < i)%nat → bs !! j = Some b → l !! j = Some b) ∧
       fs p pid ie (<[start := i1]> hd) ({[start]} ∪ ∅) (<[start := (1, disk_block d start)]> m) d w
         (set_k_log (set_lh_block l (set_lh_n (Z.of_nat (length bs)) (k_log R))) R) s) (length bs) e1 s2)
      as (e' & s' & Hr & -> & l & Hl1 & Hl2 & Hf') end.
  - lia.
  - intros i e3 s3 _ (-> & l & _ & _ & Hf3). by rewrite (fs_log_get lh_n _ _ _ _ _ _ _ e1 Hf3).
  - intros i e3 s3 Hi (-> & l & Hl1 & Hl2 & Hf3).
    destruct (lookup_lt_is_Some_2 bs i Hi) as [b Hb].
    mrun (fs_data _ _ _ _ _ _ _ start 1 (disk_block d start) i1 e1 Hf3 ltac:(by simplify_map_eq) ltac:(by simplify_map_eq)).
    destruct (lookup_lt_is_Some_2 l i) as [v Hv]; [lia|]. unfold set_block_at.
    mrun (get_lh_block_ok _ _ _ _ _ _ _ i v e1 Hf3 Hv).
    match goal with |- context [log_mod ?f _ _] => destruct (fs_log_mod f _ _ _ _ _ _ _ e1 Hf3) as (s4 & Hr4 & Hf4) end.
    exists e1, s4. split; [done|]. split; [done|]. exists (<[i := b]> l).
    split_and!; [by rewrite length_insert| |].
    + intros j b' Hj Hb'. destruct (decide (j = i)) as [->|].
      * rewrite list_lookup_insert, decide_True by (done || lia). congruence.
      * rewrite list_lookup_insert_ne by done. apply Hl2; [lia|done].
    + rewrite Nat2Z.id in Hf4. rewrite (Hx3 _ _ Hb) in Hf4. exact Hf4.
  - split; [done|]. exists (lh_block (k_log R)). split_and!; [done|lia|].
    by replace (set_lh_block (lh_block (k_log R)) (set_lh_n (Z.of_nat (length bs)) (k_log R)))
      with (set_lh_n (Z.of_nat (length bs)) (k_log R)) by (by destruct (k_log R)).
  - mrun Hr.
    destruct (fs_brelse _ _ _ _ _ _ _ start 1 (disk_block d start) i1 e1 Hf') as (s6 & Hr6 & Hf6);
      [set_solver|by simplify_map_eq..|done|].
    rewrite Hr6. exists l, (<[start := i1]> hd), e1, s6. split_and!; [done|done|done| |].
    { intros i b Hb. eapply Hl2; [by eapply lookup_lt_Some|done]. }
    unfold drop_ref in Hf6. rewrite decide_True, delete_insert_id in Hf6 by done.
    by replace (_ ∖ {[start]}) with (∅ : gset Z) in Hf6 by set_solver.
Qed.
(** ** Recovery and commit *)

Lemma disk_block_insert d b x k : disk_block (<[b := x]> d) k = if decide (b = k) then x else disk_block d k.
Proof. unfold disk_block. rewrite lookup_insert. by case_decide. Qed.

Lemma disk_block_apply d ws i b x :
  NoDup ws.*1 → ws !! i = Some (b, x) → disk_block (apply_writes d ws) b = x.
Proof.
  revert d i. induction ws as [|[k y] ws IH]; intros d i Hnd Hi; [done|].
  cbn in Hnd. apply NoDup_cons in Hnd as [Hk Hnd]. destruct i as [|i]; cbn in *.
  - injection Hi as -> ->. rewrite disk_block_apply_ne by done. rewrite disk_block_insert. by rewrite decide_True.
  - by eapply IH.
Qed.

Lemma log_writes_fst start xs : (log_writes start xs).*1 = (λ i : nat, start + Z.of_nat i + 1) <$> seq 0 (length xs).
Proof.
  apply list_eq. intros i. unfold log_writes. rewrite !list_lookup_fmap, list_lookup_imap.
  destruct (xs !! i) eqn:E; cbn.
  - rewrite lookup_seq_lt by (by eapply lookup_lt_Some). done.
  - rewrite lookup_seq_ge; [done|]. by apply lookup_ge_None.
Qed.
Lemma log_writes_in start xs b : b ∈ (log_writes start xs).*1 ↔ start < b ≤ start + Z.of_nat (length xs).
Proof.
  rewrite log_writes_fst, list_elem_of_fmap. split.
  - intros (i & -> & Hi). apply elem_of_seq in Hi. lia.
  - intros Hb. exists (Z.to_nat (b - start - 1)). rewrite elem_of_seq. lia.
Qed.
Lemma log_writes_nodup start xs : NoDup (log_writes start xs).*1.
Proof. rewrite log_writes_fst. apply NoDup_fmap_2; [|apply NoDup_seq]. intros i j. lia. Qed.

(** The log area read back. *)
Lemma log_reads_written start xs d y :
  log_reads start (<[start := y]> (apply_writes d (log_writes start xs))) (length xs) = xs.
Proof.
  apply list_eq. intros i. unfold log_reads. rewrite list_lookup_fmap. destruct (xs !! i) as [x|] eqn:Hx.
  - rewrite lookup_seq_lt by (by eapply lookup_lt_Some). cbn. f_equal.
    rewrite disk_block_insert, decide_False by lia.
    eapply (disk_block_apply _ _ i); [apply log_writes_nodup|]. unfold log_writes. by rewrite list_lookup_imap, Hx.
  - rewrite lookup_seq_ge; [done|]. by apply lookup_ge_None.
Qed.

Lemma forget_all m bs : (∀ b, is_Some (m !! b) → b ∈ bs) → forget m bs = ∅.
Proof.
  intros H. apply map_eq. intros b. rewrite forget_lookup, lookup_empty. case_decide as Hb; [done|].
  destruct (m !! b) eqn:E; [|done]. destruct Hb. apply H. eauto.
Qed.

Lemma empty_size : (S (size (∅ : gmap Z (Z * list Z))) < nbuf)%nat.
Proof. rewrite map_size_empty. apply Nat.ltb_lt. reflexivity. Qed.

Lemma recover_ok bs hd d w R s n e :
  fs p pid ie hd ∅ ∅ d w R s → log_dev (k_log R) = ROOTDEV →
  0 ≤ log_start (k_log R) → log_start (k_log R) + LOGSIZE < 2 ^ 31 →
  length (lh_block (k_log R)) = Z.to_nat LOGSIZE →
  hdr_of bs (disk_block d (log_start (k_log R))) → Z.of_nat (length bs) < LOGSIZE → NoDup bs →
  (∀ b, b ∈ bs → 0 ≤ b < 2 ^ 31 ∧ ¬ (log_start (k_log R) ≤ b < log_start (k_log R) + LOGSIZE)) →
  dev_env p (3 + 3 * length bs + n) e →
  ∃ y l hd' e' s', recover_from_log e s = Ret tt e' s' ∧ dev_env p n e' ∧ hdr_of [] y ∧
    length l = Z.to_nat LOGSIZE ∧
    let ws := home_writes bs (log_start (k_log R)) d ++ [(log_start (k_log R), y)] in
    fs p pid ie hd' ∅ ∅ (apply_writes d ws) (w ++ ws) (set_k_log (set_lh_block l (set_lh_n 0 (k_log R))) R) s'.
Proof.
  intros Hf Hdev Hst Hend Hla Hh Hle Hnd Hhome He. unfold recover_from_log.
  set (start := log_start (k_log R)) in *. change LOGSIZE with 30 in *. pose proof empty_size as Hes.
  destruct (read_head_ok bs hd ∅ d w R s (2 + 3 * length bs + n) e) as (l & hd1 & e1 & s1 & Hr1 & He1 & Hll & Hlb & Hf1);
    try done; [lia|lia|]. mrun Hr1.
  destruct (install_trans_ok true bs _ _ _ _ _ s1 (2 + n) e1 Hf1) as (hd2 & e2 & s2 & Hr2 & He2 & Hf2).
  { split; cbn; try done. }
  { done. } { done. }
  { by replace (3 * length bs + (2 + n))%nat with (2 + 3 * length bs + n)%nat by lia. }
  mrun Hr2. rewrite forget_all in Hf2 by (intros b [? Hb]; by rewrite lookup_empty in Hb).
  destruct (fs_log_mod (set_lh_n 0) _ _ _ _ _ _ _ e2 Hf2) as (s3 & Hr3 & Hf3). mrun Hr3.
  destruct (write_head_ok [] _ _ _ _ _ s3 n e2 Hf3) as (y & hd4 & e4 & s4 & Hy & Hr4 & He4 & Hf4); try done.
  { split; cbn; try done. constructor. set_solver. }
  { lia. }
  exists y, l, hd4, e4, s4. split_and!; [done|done|done|done|]. cbv zeta.
  rewrite app_assoc, apply_writes_snoc. exact Hf4.
Qed.

(** The writes of a commit, in order. *)
Definition commit_writes (start : Z) (bs : list Z) (xs : list (list Z)) (y1 y2 : list Z) : list (Z * list Z) :=
  log_writes start xs ++ [(start, y1)] ++ zip bs xs ++ [(start, y2)].

Lemma commit_ok bs xs hd m d w R s n e :
  fs p pid ie hd ∅ m d w R s → log_ok bs (k_log R) → bs ≠ [] →
  Forall2 (λ b x, m !! b = Some (1, x)) bs xs → (∀ b, is_Some (m !! b) → b ∈ bs) →
  (size m < nbuf)%nat → dev_env p (4 + 6 * length bs + n) e →
  ∃ y1 y2 hd' e' s', commit e s = Ret tt e' s' ∧ dev_env p n e' ∧ hdr_of bs y1 ∧ hdr_of [] y2 ∧
    let ws := commit_writes (log_start (k_log R)) bs xs y1 y2 in
    fs p pid ie hd' ∅ ∅ (apply_writes d ws) (w ++ ws) (set_k_log (set_lh_n 0 (k_log R)) R) s'.
Proof.
  intros Hf Hl Hbs Hxs Hdom Hsz He. unfold commit. mrun (log_get_n _ _ _ _ _ _ _ _ e Hf Hl).
  rewrite (proj2 (Z.gtb_lt _ _)) by (destruct bs; [done|cbn; lia]). cbn [when].
  pose proof (Forall2_length _ _ _ Hxs) as Hlen. set (start := log_start (k_log R)) in *.
  assert (Hnone : ∀ b, start ≤ b < start + LOGSIZE → m !! b = None).
  { intros b Hb. destruct (m !! b) eqn:E; [|done].
    destruct (lo_home _ _ Hl b) as [_ []]; [apply Hdom; eauto|done]. }
  destruct (write_log_ok bs xs _ _ _ _ _ s (4 + 3 * length bs + n) e Hf) as (hd1 & e1 & s1 & Hr1 & He1 & Hf1);
    [done|done|done|done| |]. { eapply dev_env_le; [exact He|lia]. }
  mrun Hr1. fold start in Hf1.
  destruct (write_head_ok bs _ _ _ _ _ s1 (2 + 3 * length bs + n) e1 Hf1) as (y1 & hd2 & e2 & s2 & Hy1 & Hr2 & He2 & Hf2);
    [done|apply Hnone; fold start; change LOGSIZE with 30; lia|done|done|].
  mrun Hr2. fold start in Hf2.
  destruct (install_trans_ok false bs _ _ _ _ _ s2 (2 + n) e2 Hf2) as (hd3 & e3 & s3 & Hr3 & He3 & Hf3).
  { done. } { done. }
  { split; [|done]. intros b Hb. apply list_elem_of_lookup in Hb as [i Hi].
    destruct (Forall2_lookup_l _ _ _ _ _ Hxs Hi) as (x & _ & ?). eauto. }
  { eapply dev_env_le; [exact He2|lia]. }
  mrun Hr3. fold start in Hf3. rewrite forget_all in Hf3 by done.
  unfold home_writes in Hf3. rewrite Hlen, log_reads_written in Hf3.
  destruct (fs_log_mod (set_lh_n 0) _ _ _ _ _ _ _ e3 Hf3) as (s4 & Hr4 & Hf4). mrun Hr4.
  destruct (write_head_ok [] _ _ _ _ _ s4 n e3 Hf4) as (y2 & hd5 & e5 & s5 & Hy2 & Hr5 & He5 & Hf5).
  { destruct Hl. split; cbn; try done. constructor. set_solver. } { done. } { pose proof empty_size. lia. } { done. }
  exists y1, y2, hd5, e5, s5. split_and!; [done|done|done|done|]. cbv zeta. unfold commit_writes.
  rewrite !apply_writes_app, !app_assoc. exact Hf5.
Qed.

(** ** Transactions *)

Lemma fs_set_core hd h m d w R s c :
  fs p pid ie hd h m d w R s → (∃ hh, ctx (mkthread hh (Some p) ie) [] c) →
  fs p pid ie hd h m d w R (set_k_core c s).
Proof.
  intros [[[]] ? ? ? []] Hc. do 2 (split; try done).
Qed.

Lemma fs_ctx hd h m d w R s : fs p pid ie hd h m d w R s → ∃ hh, ctx (mkthread hh (Some p) ie) [] (k_core s).
Proof. intros Hf. exact (rn_ctx _ _ _ _ _ (bi_runs _ _ _ _ _ _ (fs_bio _ _ _ _ _ _ _ _ _ _ Hf))). Qed.

(** A critical section that only changes the log's state. *)
Lemma fs_log_section f hd h m d w R s c :
  fs p pid ie hd h m d w R s → (∃ hh, ctx (mkthread hh (Some p) ie) [] c) →
  fs p pid ie hd h m d w (set_k_log (f (k_log R)) R) (set_k_core c (set_k_log (f (k_log s)) s)).
Proof.
  intros Hf Hc. destruct (fs_log_mod f _ _ _ _ _ _ _ [] Hf) as (s' & Hr & Hf'). injection Hr as <-.
  by apply fs_set_core.
Qed.

(** [begin_op] when there is room. *)
Lemma begin_op_ok hd h m d w R s e :
  fs p pid ie hd h m d w R s → log_committing (k_log R) = 0 → 0 ≤ log_outstanding (k_log R) < 2 ^ 31 - 1 →
  lh_n (k_log R) + (log_outstanding (k_log R) + 1) * MAXOPBLOCKS ≤ LOGSIZE →
  ∃ s', begin_op e s = Ret tt e s' ∧
    fs p pid ie hd h m d w
      (set_k_log (set_log_outstanding (log_outstanding (k_log R) + 1) (k_log R)) R) s'.
Proof.
  intros Hf Hcom Ho Hroom. destruct (fs_ctx _ _ _ _ _ _ _ Hf) as [hh Hc]. unfold begin_op.
  pose proof (bf_log _ _ (fs_frame _ _ _ _ _ _ _ _ _ _ Hf)) as Hlog.
  kacquire c1 Hc1; [apply not_elem_of_nil|].
  assert (Hturn : ∃ c2, begin_op_turn tt e (set_k_core c1 s) = Ret (inr tt) e (set_k_core c2
      (set_k_log (set_log_outstanding (log_outstanding (k_log s) + 1) (k_log s)) s)) ∧
      ctx (mkthread hh (Some p) ie) [] c2).
  { unfold begin_op_turn, log_get, log_mod. mstep. kproj. rewrite Hlog, Hcom. cbn [negb Z.eqb]. mstep. kproj. rewrite Hlog.
    rewrite Z.gtb_ltb, (proj2 (Z.ltb_ge _ _)) by lia. mstep. krelease c2 Hc2.
    exists c2. split; [|done]. unfold ret. kproj. rewrite Hlog.
    replace (i32 (log_outstanding (k_log R) + 1)) with (log_outstanding (k_log R) + 1).
    2: { unfold i32, swrap. change (32 - 1) with 31. rewrite Z.mod_small by lia. lia. }
    kstate_eq. }
  destruct Hturn as (c2 & Hturn & Hc2). rewrite (loop_exit _ _ _ _ _ _ _ Hturn).
  eexists. split; [reflexivity|].
  apply (fs_log_section (λ l, set_log_outstanding (log_outstanding l + 1) l)); [done|by exists hh].
Qed.

Lemma log_find_ok bs blk hd h m d w R s c e :
  fs p pid ie hd h m d w R s → log_ok bs (k_log R) → 0 ≤ blk < 2 ^ 31 →
  ∃ j : nat, loop (log_find blk) 0 e (set_k_core c s) = Ret (Z.of_nat j) e (set_k_core c s) ∧
    (bs !! j = Some blk ∨ (j = length bs ∧ blk ∉ bs)).
Proof.
  intros Hf Hl Hblk. pose proof (bf_log _ _ (fs_frame _ _ _ _ _ _ _ _ _ _ Hf)) as Hlog.
  pose proof (lo_le _ _ Hl) as Hle. change LOGSIZE with 30 in Hle.
  destruct (loop_measure (log_find blk) (λ i _ _, Z.of_nat (length bs) - i)
    (λ i e' s', e' = e ∧ s' = set_k_core c s ∧ 0 ≤ i ≤ Z.of_nat (length bs) ∧
       ∀ k, (k < Z.to_nat i)%nat → bs !! k ≠ Some blk)
    (λ v e' s', e' = e ∧ s' = set_k_core c s ∧ ∃ j : nat, v = Z.of_nat j ∧
       (bs !! j = Some blk ∨ (j = length bs ∧ blk ∉ bs))) 0 e (set_k_core c s))
    as (v & e' & s' & Hr & -> & -> & j & -> & Hj); [|by split_and!; try done; lia|lia|eauto].
  intros i e' s' (-> & -> & Hi & Hno). split; [lia|]. unfold log_find, log_get. mstep. kproj.
  rewrite Hlog, (lo_n _ _ Hl). destruct (Z.ltb_spec i (Z.of_nat (length bs))) as [Hlt|Hge].
  - destruct (lookup_lt_is_Some_2 bs (Z.to_nat i)) as [b Hb]; [lia|].
    unfold get_lh_block, log_get. mstep. kproj. rewrite Hlog, (lo_bs _ _ Hl _ _ Hb). mstep.
    destruct (lo_home _ _ Hl b) as [Hbr _]; [by eapply list_elem_of_lookup_2|]. rewrite u32_id by lia.
    destruct (Z.eqb_spec b blk) as [->|Hne].
    + exists (inr i), e, (set_k_core c s). split; [done|]. split_and!; [done|done|]. exists (Z.to_nat i).
      split; [lia|by left].
    + exists (inl (i + 1)), e, (set_k_core c s). split; [done|]. split_and!; try done; try lia.
      intros k Hk. destruct (decide (k = Z.to_nat i)) as [->|]; [congruence|]. apply Hno. lia.
  - exists (inr i), e, (set_k_core c s). split; [done|]. split_and!; [done|done|]. exists (length bs).
    split; [lia|]. right. split; [done|]. intros (k & Hk)%list_elem_of_lookup.
    apply (Hno k); [apply lookup_lt_Some in Hk; lia|done].
Qed.

(** The transaction's blocks and the cache after [log_write] of a block. *)
Definition log_add (blk : Z) (bs : list Z) : list Z := if decide (blk ∈ bs) then bs else bs ++ [blk].
Definition log_pin (bs : list Z) (blk r : Z) (x : list Z) (m : gmap Z (Z * list Z)) : gmap Z (Z * list Z) :=
  if decide (blk ∈ bs) then m else <[blk := (r + 1, x)]> m.

(** The fields [log_write] leaves alone. *)
Definition log_fixed (lg : logst) : logst := set_lh_n 0 (set_lh_block [] lg).

Lemma log_ok_absorb bs lg (j : nat) blk :
  log_ok bs lg → bs !! j = Some blk → log_ok bs (set_lh_block (<[j := blk]> (lh_block lg)) lg).
Proof.
  intros Hl Hj. rewrite list_insert_id by (by apply (lo_bs _ _ Hl)). by destruct lg.
Qed.

Lemma log_ok_append bs lg blk :
  log_ok bs lg → blk ∉ bs → Z.of_nat (length bs) < LOGSIZE - 1 → 0 ≤ blk < 2 ^ 31 →
  ¬ (log_start lg ≤ blk < log_start lg + LOGSIZE) →
  log_ok (bs ++ [blk]) (set_lh_n (lh_n lg + 1) (set_lh_block (<[length bs := blk]> (lh_block lg)) lg)).
Proof.
  intros Hl Hni Hlt Hb Hh. destruct Hl as [H1 H2 H3 H4 H5 H6 H7 H8 H9]. split; cbn; try done.
  - by rewrite length_insert.
  - rewrite H5, length_app. cbn. lia.
  - rewrite length_app. cbn. lia.
  - intros i b Hi. apply lookup_app_Some in Hi as [Hi|[Hge Hi]].
    + rewrite list_lookup_insert_ne; [by apply H7|]. apply lookup_lt_Some in Hi. lia.
    + apply list_lookup_singleton_Some in Hi as [Hi <-]. replace i with (length bs) by lia.
      rewrite list_lookup_insert, decide_True; [done|]. rewrite H4. lia.
  - apply NoDup_app. split_and!; [done|set_solver|apply NoDup_singleton].
  - intros b. rewrite elem_of_app, list_elem_of_singleton. intros [?| ->]; auto.
Qed.

Lemma log_write_ok bs hd h m d w R s blk r x i e :
  fs p pid ie hd h m d w R s → log_ok bs (k_log R) → blk ∈ h → m !! blk = Some (r, x) → hd !! blk = Some i →
  r + 1 < 2 ^ 31 → 1 ≤ log_outstanding (k_log R) →
  Z.of_nat (length bs) < LOGSIZE - 1 → Z.of_nat (length bs) < log_size (k_log R) - 1 →
  0 ≤ blk < 2 ^ 31 → ¬ (log_start (k_log R) ≤ blk < log_start (k_log R) + LOGSIZE) →
  ∃ lg s', log_write i e s = Ret tt e s' ∧ log_ok (log_add blk bs) lg ∧ log_fixed lg = log_fixed (k_log R) ∧
    fs p pid ie hd h (log_pin bs blk r x m) d w (set_k_log lg R) s'.
Proof.
  intros Hf Hl Hh Hm Hi Hr Ho Hlt Hlt' Hblk Hhome. destruct (fs_ctx _ _ _ _ _ _ _ Hf) as [hh Hc].
  pose proof (bf_log _ _ (fs_frame _ _ _ _ _ _ _ _ _ _ Hf)) as Hlog.
  destruct (fs_buf _ _ _ _ _ _ _ _ _ _ _ e Hf Hm Hi) as (bu & _ & Hbu & _ & Hbk).
  unfold log_write. kacquire c1 Hc1; [apply not_elem_of_nil|]. unfold log_get at 1 2. mstep. kproj.
  rewrite Hlog, (lo_n _ _ Hl), !Z.geb_leb, !(proj2 (Z.leb_gt _ _)) by lia. cbn [orb].
  unfold log_get at 1. mstep. kproj. rewrite Hlog, (proj2 (Z.ltb_ge _ _)) by lia. kbuf Hbu. rewrite Hbk.
  destruct (log_find_ok bs blk _ _ _ _ _ _ _ c1 e Hf Hl Hblk) as (j & Hfind & Hj). mrun Hfind.
  assert (Hjb : (j < length (lh_block (k_log R)))%nat).
  { rewrite (lo_arr _ _ Hl). destruct Hj as [Hj|[-> _]]; [apply lookup_lt_Some in Hj|]; lia. }
  destruct (lookup_lt_is_Some_2 _ _ Hjb) as [v Hv].
  unfold set_block_at, get_lh_block, log_get, log_mod. mstep. kproj. rewrite Hlog, Nat2Z.id, Hv. mstep. kproj.
  rewrite Hlog, i32_id by lia. cbn [lh_n set_lh_block]. rewrite (lo_n _ _ Hl). unfold log_add, log_pin.
  destruct Hj as [Hj|[-> Hni]].
  - assert (Hjlt := lookup_lt_Some _ _ _ Hj). rewrite (proj2 (Z.eqb_neq _ _)) by lia. mstep. krelease c2 Hc2.
    assert (Hin : blk ∈ bs) by (by eapply list_elem_of_lookup_2). rewrite !decide_True by done.
    exists (set_lh_block (<[j := blk]> (lh_block (k_log R))) (k_log R)). eexists. split; [reflexivity|].
    split_and!; [by apply log_ok_absorb|done|].
    pose proof (fs_log_section (λ l, set_lh_block (<[j := blk]> (lh_block l)) l) _ _ _ _ _ _ _ c2 Hf ltac:(by exists hh)) as Hf2.
    rewrite Hlog in Hf2. exact Hf2.
  - rewrite Z.eqb_refl. mstep.
    set (lg1 := set_lh_block (<[length bs := blk]> (lh_block (k_log R))) (k_log R)).
    destruct (set_ref_run (mkthread hh (Some p) ie) [L_log] i bu 1 e (set_k_log lg1 (set_k_core c1 s))) as (c2 & Hr2 & Hc2).
    { kproj. done. } { set_solver. } { kproj. done. }
    erewrite bind_Ret; [|exact Hr2]. mstep. krelease c3 Hc3. rewrite !decide_False by done.
    exists (set_lh_n (lh_n (k_log R) + 1) lg1). eexists. split; [reflexivity|].
    split_and!; [by apply log_ok_append|done|]. kproj.
    pose proof (add_ref_post p pid ie h m i blk r x 1 c3 s (fs_bio _ _ _ _ _ _ _ _ _ _ Hf)
      (fs_buf_at _ _ _ _ _ _ _ _ _ _ _ Hf Hm Hi) Hm ltac:(pose proof (fs_len _ _ _ _ _ _ _ _ _ _ Hf Hm); lia)
      ltac:(by exists hh)) as Hpost.
    assert (Hf2 : fs p pid ie hd h (<[blk := (r + 1, x)]> m) d w R (set_k_core c3 (alter_buf i (add_ref 1) s))).
    { eapply fs_post; [done|done|apply Hf|apply Hf|]. by eapply insert_is_Some. }
    pose proof (fs_log_section (λ l, set_lh_n (lh_n l + 1) (set_lh_block (<[length bs := blk]> (lh_block l)) l))
      _ _ _ _ _ _ _ c3 Hf2 ltac:(by exists hh)) as Hf3.
    unfold alter_buf in Hf3 |- *. kproj. rewrite i32_id by (change (lh_n lg1) with (lh_n (k_log R)); rewrite (lo_n _ _ Hl); change LOGSIZE with 30 in Hlt; lia).
    revert Hf3. kproj. rewrite Hlog. intros Hf3. exact Hf3.
Qed.

Lemma fs_woken me ch hd h m d w R s c :
  fs p pid ie hd h m d w R s → (∃ hh, ctx (mkthread hh (Some p) ie) [] c) →
  fs p pid ie hd h m d w R (set_k_core c (set_k_procs (woken me ch (k_procs s)) s)).
Proof.
  intros [[? ? ? ? ? ? ?] ? ? ? [F1 F2 F3]] Hc.
  split; [split; try done; by eapply runs_woken|done|done|done|].
  split; [done| |done]. kproj. by rewrite pstatic_woken.
Qed.

(** The end of [end_op]: the log is open again and the waiters are woken. *)
Lemma fs_log_wakeup f hd h m d w R s e :
  fs p pid ie hd h m d w R s →
  ∃ s', (acquire L_log ;;; log_mod f ;;; wakeup Ch_log ;;; release L_log) e s = Ret tt e s' ∧
    fs p pid ie hd h m d w (set_k_log (f (k_log R)) R) s'.
Proof.
  intros Hf. destruct (fs_ctx _ _ _ _ _ _ _ Hf) as [hh Hc].
  kacquire c1 Hc1; [apply not_elem_of_nil|]. unfold log_mod. mstep. kproj.
  match goal with |- context [bind (wakeup ?ch) _ ?e ?S] =>
    destruct (wakeup_ok (mkthread hh (Some p) ie) [L_log] ch e S) as (c2 & Hr & Hc2) end.
  { kproj. done. } { kproj. exact (rn_len _ _ _ _ _ (bi_runs _ _ _ _ _ _ (fs_bio _ _ _ _ _ _ _ _ _ _ Hf))). }
  { intros i Hi. set_solver. }
  mrun Hr. krelease c3 Hc3. eexists. split; [reflexivity|]. kproj. cbn [t_proc].
  pose proof (fs_woken (Some p) Ch_log _ _ _ _ _ _ _ c3 (fs_log_section f _ _ _ _ _ _ _ c3 Hf ltac:(by exists hh))
    ltac:(by exists hh)) as Hf2. revert Hf2. kproj. done.
Qed.

(** [end_op] of an operation that is not the last one. *)
Lemma end_op_more hd h m d w R s e :
  fs p pid ie hd h m d w R s → log_committing (k_log R) = 0 → 1 < log_outstanding (k_log R) < 2 ^ 31 →
  ∃ s', end_op e s = Ret tt e s' ∧
    fs p pid ie hd h m d w (set_k_log (set_log_outstanding (log_outstanding (k_log R) - 1) (k_log R)) R) s'.
Proof.
  intros Hf Hcom Ho. destruct (fs_ctx _ _ _ _ _ _ _ Hf) as [hh Hc].
  pose proof (bf_log _ _ (fs_frame _ _ _ _ _ _ _ _ _ _ Hf)) as Hlog.
  unfold end_op, log_get, log_mod. kacquire c1 Hc1; [apply not_elem_of_nil|]. mstep. kproj.
  rewrite Hlog. cbn [log_committing log_outstanding set_log_outstanding]. rewrite Hcom. cbn [negb Z.eqb]. mstep.
  kproj. cbn [log_outstanding set_log_outstanding]. rewrite i32_id by lia.
  rewrite (proj2 (Z.eqb_neq _ _)) by lia. rewrite !bind_assoc.
  destruct (wakeup_ok (mkthread hh (Some p) ie) [L_log] Ch_log e
    (set_k_log (set_log_outstanding (log_outstanding (k_log R) - 1) (k_log R)) (set_k_core c1 s))) as (c2 & Hr2 & Hc2).
  { kproj. done. } { kproj. exact (rn_len _ _ _ _ _ (bi_runs _ _ _ _ _ _ (fs_bio _ _ _ _ _ _ _ _ _ _ Hf))). }
  { intros i Hi. set_solver. }
  mrun Hr2. mstep. krelease c3 Hc3. eexists. split; [reflexivity|]. kproj. cbn [t_proc].
  pose proof (fs_woken (Some p) Ch_log _ _ _ _ _ _ _ c3
    (fs_log_section (λ l, set_log_outstanding (log_outstanding l - 1) l) _ _ _ _ _ _ _ c3 Hf ltac:(by exists hh))
    ltac:(by exists hh)) as Hf2. revert Hf2. kproj. rewrite Hlog. done.
Qed.
(** The first half of [end_op] of the last operation. *)
Lemma end_op_close hd h m d w R s e :
  fs p pid ie hd h m d w R s → log_committing (k_log R) = 0 → log_outstanding (k_log R) = 1 →
  ∃ s', end_op e s = (commit ;;; acquire L_log ;;; log_mod (set_log_committing 0) ;;; wakeup Ch_log ;;;
      release L_log) e s' ∧
    fs p pid ie hd h m d w (set_k_log (set_log_committing 1 (set_log_outstanding 0 (k_log R))) R) s'.
Proof.
  intros Hf Hcom Ho. destruct (fs_ctx _ _ _ _ _ _ _ Hf) as [hh Hc].
  pose proof (bf_log _ _ (fs_frame _ _ _ _ _ _ _ _ _ _ Hf)) as Hlog.
  unfold end_op, log_get, log_mod at 1 2. kacquire c1 Hc1; [apply not_elem_of_nil|]. mstep. kproj.
  rewrite Hlog. cbn [log_committing log_outstanding set_log_outstanding]. rewrite Hcom. cbn [negb Z.eqb]. mstep.
  kproj. cbn [log_outstanding set_log_outstanding]. rewrite Ho. change (i32 (1 - 1)) with 0.
  cbn [Z.eqb]. mstep. kproj. krelease c2 Hc2. cbn [when]. eexists. split; [reflexivity|].
  pose proof (fs_log_section (λ l, set_log_committing 1 (set_log_outstanding 0 l)) _ _ _ _ _ _ _ c2 Hf ltac:(by exists hh)) as Hf2.
  revert Hf2. kproj. rewrite Hlog. done.
Qed.

(** The writes of a transaction: none if it logged nothing. *)
Definition txn_writes (start : Z) (bs : list Z) (xs : list (list Z)) (ws : list (Z * list Z)) : Prop :=
  (bs = [] ∧ ws = []) ∨
  ∃ y1 y2, hdr_of bs y1 ∧ hdr_of [] y2 ∧ ws = commit_writes start bs xs y1 y2.

Lemma end_op_last bs xs hd m d w R s n e :
  fs p pid ie hd ∅ m d w R s → log_ok bs (k_log R) →
  log_committing (k_log R) = 0 → log_outstanding (k_log R) = 1 →
  Forall2 (λ b x, m !! b = Some (1, x)) bs xs → (∀ b, is_Some (m !! b) → b ∈ bs) →
  (size m < nbuf)%nat → dev_env p (4 + 6 * length bs + n) e →
  ∃ ws hd' e' s', end_op e s = Ret tt e' s' ∧ dev_env p n e' ∧
    txn_writes (log_start (k_log R)) bs xs ws ∧
    fs p pid ie hd' ∅ ∅ (apply_writes d ws) (w ++ ws)
      (set_k_log (set_lh_n 0 (set_log_outstanding 0 (k_log R))) R) s'.
Proof.
  intros Hf Hl Hcom Ho Hxs Hdom Hsz He.
  destruct (end_op_close _ _ _ _ _ _ _ e Hf Hcom Ho) as (s1 & -> & Hf1).
  set (R1 := set_k_log _ R) in Hf1.
  assert (Hl1 : log_ok bs (k_log R1)) by (destruct Hl; by split).
  assert (∃ ws hd' e' s', commit e s1 = Ret tt e' s' ∧ dev_env p n e' ∧ txn_writes (log_start (k_log R)) bs xs ws ∧
    fs p pid ie hd' ∅ ∅ (apply_writes d ws) (w ++ ws) (set_k_log (set_lh_n 0 (k_log R1)) R1) s')
    as (ws & hd2 & e2 & s2 & Hr2 & He2 & Hws & Hf2).
  { destruct (decide (bs = [])) as [->|Hne].
    - exists [], hd, e, s1. split_and!.
      + unfold commit. by mrun (log_get_n _ _ _ _ _ _ _ _ e Hf1 Hl1).
      + eapply dev_env_le; [done|lia].
      + by left.
      + assert (m = ∅) as ->.
        { apply map_eq. intros b. rewrite lookup_empty. destruct (m !! b) eqn:E; [|done].
          exfalso. apply (not_elem_of_nil b), Hdom. eauto. }
        rewrite app_nil_r. replace (set_k_log (set_lh_n 0 (k_log R1)) R1) with R1; [done|].
        pose proof (lo_n _ _ Hl1) as Hn. unfold R1 in *. kproj.
        assert (Hn' : lh_n (k_log R) = 0) by exact Hn. clear -Hn'.
        replace (set_lh_n 0 (set_log_committing 1 (set_log_outstanding 0 (k_log R))))
          with (set_log_committing 1 (set_log_outstanding 0 (k_log R))); [kstate_eq|].
        destruct (k_log R). cbn in *. by subst.
    - destruct (commit_ok bs xs _ _ _ _ _ s1 n e Hf1) as (y1 & y2 & hd2 & e2 & s2 & Hr2 & He2 & Hy1 & Hy2 & Hf2); try done.
      exists (commit_writes (log_start (k_log R)) bs xs y1 y2), hd2, e2, s2. split_and!; [done|done| |done].
      right. by exists y1, y2. }
  mrun Hr2. destruct (fs_log_wakeup (set_log_committing 0) _ _ _ _ _ _ _ e2 Hf2) as (s3 & Hr3 & Hf3).
  exists ws, hd2, e2, s3. split_and!; [done|done|done|]. unfold R1 in Hf3. revert Hf3. kproj.
  replace (set_log_committing 0 (set_lh_n 0 (set_log_committing 1 (set_log_outstanding 0 (k_log R)))))
    with (set_lh_n 0 (set_log_outstanding 0 (k_log R))); [|clear -Hcom; destruct (k_log R); cbn in *; by subst].
  match goal with |- fs _ _ _ _ _ _ _ _ ?A _ → fs _ _ _ _ _ _ _ _ ?B _ => replace A with B by kstate_eq end.
  done.
Qed.

End view.
