(* ===== verification/LogCrash.v ===== *)
(** Crash safety of the write-ahead log of kernel/log.c.

    A disk "recovers to" some contents if replaying its log gives them.  The
    disk's history of writes is cut at an arbitrary point, the machine
    restarts and [initlog] runs, possibly crashing again: the home blocks end
    up as they were before the transaction or as they are after it, never in
    between. *)

From S2P Require Import Prelude Mem KString Params Kernel Spinlock Sched Sleeplock Virtio Bio Bcache Log.

(** * Disks and recovery *)

Definition in_log (start b : Z) : Prop := start ≤ b < start + LOGSIZE.

(** The same home blocks. *)
Definition home_eq (start : Z) (d d' : gmap Z (list Z)) : Prop :=
  ∀ b, ¬ in_log start b → disk_block d b = disk_block d' b.

#[export] Instance home_eq_equiv start : Equivalence (home_eq start).
Proof. split; [done| |]; intros d1 d2 ** b Hb; [symmetry; auto|etrans; auto]. Qed.

(** A list of home blocks a header may hold. *)
Record txn_blocks (start : Z) (bs : list Z) : Prop := {
  tb_len : Z.of_nat (length bs) < LOGSIZE;
  tb_nodup : NoDup bs;
  tb_home : ∀ b, b ∈ bs → 0 ≤ b < 2 ^ 31 ∧ ¬ in_log start b
}.

(** Replaying the log of [d] gives the home blocks of [dn]. *)
Definition recovers_to (start : Z) (d dn : gmap Z (list Z)) : Prop :=
  ∃ bs, txn_blocks start bs ∧ hdr_of bs (disk_block d start) ∧
    home_eq start (apply_writes d (home_writes bs start d)) dn.

Lemma txn_blocks_nil start : txn_blocks start [].
Proof. split; [done|constructor|set_solver]. Qed.

Lemma prefix_app_cases {A} (l k1 k2 : list A) :
  l `prefix_of` k1 ++ k2 → l `prefix_of` k1 ∨ ∃ k, l = k1 ++ k ∧ k `prefix_of` k2.
Proof.
  revert l. induction k1 as [|x k1 IH]; intros l Hl; [right; by exists l|].
  destruct l as [|y l]; [left; apply prefix_nil|]. cbn in Hl.
  pose proof (prefix_cons_inv_1 _ _ _ _ Hl) as ->. apply prefix_cons_inv_2 in Hl.
  destruct (IH _ Hl) as [H|(k & -> & H)]; [left; by apply prefix_cons|right; by exists k].
Qed.

Lemma prefix_snoc_cases {A} (l k : list A) x : l `prefix_of` k ++ [x] → l `prefix_of` k ∨ l = k ++ [x].
Proof.
  intros [H|(k' & -> & H)]%prefix_app_cases; [by left|].
  destruct k' as [|y k']; [left; by rewrite app_nil_r|]. right.
  pose proof (prefix_cons_inv_1 _ _ _ _ H) as ->. apply prefix_cons_inv_2, prefix_nil_inv in H. by subst.
Qed.

(** Home blocks written over: all that counts is the last value. *)
Lemma disk_block_zip d bs xs i b x :
  NoDup bs → bs !! i = Some b → xs !! i = Some x → length xs = length bs →
  disk_block (apply_writes d (zip bs xs)) b = x.
Proof.
  intros Hnd Hb Hx Hl. eapply (disk_block_apply _ _ i); [by rewrite fst_zip by lia|].
  by rewrite lookup_zip_with, Hb, Hx.
Qed.

(** Only home blocks are written: the log area stays. *)
Lemma apply_home_log start bs (ws : list (Z * list Z)) d b :
  txn_blocks start bs → (∀ k, k ∈ ws.*1 → k ∈ bs) → in_log start b →
  disk_block (apply_writes d ws) b = disk_block d b.
Proof.
  intros Hb Hws Hin. apply disk_block_apply_ne. intros Hk. by destruct (tb_home _ _ Hb b (Hws b Hk)).
Qed.
Lemma log_reads_ext start d d' n :
  Z.of_nat n < LOGSIZE → (∀ b, in_log start b → disk_block d b = disk_block d' b) →
  log_reads start d n = log_reads start d' n.
Proof.
  intros Hn H. unfold log_reads. apply list_fmap_ext. intros i j Hj. apply lookup_seq in Hj as [-> Hj].
  apply H. unfold in_log. lia.
Qed.

(** Writing, over a disk that already got some of them, the home blocks of a
    transaction. *)
Lemma home_writes_again start bs xs (ws : list (Z * list Z)) d d' :
  txn_blocks start bs → length xs = length bs → (∀ k, k ∈ ws.*1 → k ∈ bs) →
  home_eq start d d' →
  home_eq start (apply_writes (apply_writes d ws) (zip bs xs)) (apply_writes d' (zip bs xs)).
Proof.
  intros Hb Hl Hws Hd b Hnb. destruct (decide (b ∈ bs)) as [Hin|Hni].
  - apply list_elem_of_lookup in Hin as [i Hi]. destruct (lookup_lt_is_Some_2 xs i) as [x Hx].
    { rewrite Hl. by eapply lookup_lt_Some. }
    by rewrite !(disk_block_zip _ bs xs i b x) by (done || apply Hb).
  - rewrite !(disk_block_apply_ne _ (zip bs xs)) by (by rewrite fst_zip by lia).
    rewrite disk_block_apply_ne; [by apply Hd|]. intros Hk. by apply Hni, Hws.
Qed.

Lemma home_eq_log_writes start xs d y :
  Z.of_nat (length xs) < LOGSIZE → home_eq start (<[start := y]> (apply_writes d (log_writes start xs))) d.
Proof.
  intros Hl b Hb. unfold in_log in Hb. change LOGSIZE with 30 in *. rewrite disk_block_insert, decide_False by lia.
  apply disk_block_apply_ne. rewrite log_writes_in. lia.
Qed.

Lemma zip_fst_prefix {A} (k : list (Z * A)) bs xs :
  k `prefix_of` zip bs xs → ∀ b, b ∈ k.*1 → b ∈ bs.
Proof.
  intros [k' Hk] b Hb. apply list_elem_of_fmap in Hb as ([b' x] & -> & Hin).
  assert (H : (b', x) ∈ zip bs xs) by (rewrite Hk; set_solver). by apply elem_of_zip_l in H.
Qed.

(** ** Crashes during a transaction *)

(** Before the header is written the old contents survive. *)
Lemma crash_before start xs ws d :
  Z.of_nat (length xs) < LOGSIZE → hdr_of [] (disk_block d start) → ws `prefix_of` log_writes start xs →
  recovers_to start (apply_writes d ws) d.
Proof.
  intros Hl Hh [k Hk].
  assert (Hws : ∀ b, b ∈ ws.*1 → start < b < start + LOGSIZE).
  { intros b Hb. assert (H : b ∈ (log_writes start xs).*1) by (rewrite Hk, fmap_app; set_solver).
    rewrite log_writes_in in H. lia. }
  exists []. split_and!; [apply txn_blocks_nil| |].
  - rewrite disk_block_apply_ne; [done|]. intros H%Hws. lia.
  - intros b Hb. cbn. apply disk_block_apply_ne. intros H%Hws. apply Hb. unfold in_log. lia.
Qed.

(** After it the log has the new ones, however much was installed. *)
Lemma crash_after start bs xs k y d :
  txn_blocks start bs → length xs = length bs → hdr_of bs y → k `prefix_of` zip bs xs →
  recovers_to start (apply_writes (<[start := y]> (apply_writes d (log_writes start xs))) k)
    (apply_writes d (zip bs xs)).
Proof.
  intros Hb Hl Hy Hk. pose proof (zip_fst_prefix _ _ _ Hk) as Hws. pose proof (tb_len _ _ Hb) as Hle.
  set (d1 := <[start := y]> (apply_writes d (log_writes start xs))).
  assert (Hlog : ∀ b, in_log start b → disk_block (apply_writes d1 k) b = disk_block d1 b)
    by (intros b; by apply (apply_home_log _ bs)).
  exists bs. split_and!; [done| |].
  - rewrite Hlog by (unfold in_log; change LOGSIZE with 30; lia). unfold d1.
    by rewrite disk_block_insert, decide_True.
  - unfold home_writes. rewrite (log_reads_ext _ _ d1) by done. unfold d1 at 2. rewrite <-Hl, log_reads_written.
    apply home_writes_again; [done..|]. apply home_eq_log_writes. lia.
Qed.

Lemma crash_commit start bs xs ws ws1 d :
  txn_blocks start bs → length xs = length bs → hdr_of [] (disk_block d start) →
  txn_writes start bs xs ws → ws1 `prefix_of` ws →
  recovers_to start (apply_writes d ws1) d ∨ recovers_to start (apply_writes d ws1) (apply_writes d (zip bs xs)).
Proof.
  intros Hb Hl Hh [[-> ->]|(y1 & y2 & Hy1 & Hy2 & ->)] Hp; pose proof (tb_len _ _ Hb) as Hle.
  { apply prefix_nil_inv in Hp as ->. left. exists []. by split_and!. }
  unfold commit_writes in Hp. apply prefix_app_cases in Hp as [Hp|(k & -> & Hp)].
  { left. eapply crash_before; [|done|done]. lia. }
  destruct k as [|x k]. { left. rewrite app_nil_r. eapply crash_before; [|done|done]. lia. }
  right. cbn [app] in Hp. pose proof (prefix_cons_inv_1 _ _ _ _ Hp) as ->. apply prefix_cons_inv_2 in Hp.
  rewrite apply_writes_app. change ((start, y1) :: k) with ([(start, y1)] ++ k). rewrite apply_writes_app.
  apply prefix_snoc_cases in Hp as [Hp| ->]; [by apply crash_after|].
  exists []. split_and!; [apply txn_blocks_nil| |].
  - rewrite apply_writes_snoc. cbn. by rewrite disk_block_insert, decide_True.
  - rewrite apply_writes_snoc. intros b Hnb. cbn. unfold in_log in Hnb. change LOGSIZE with 30 in *.
    rewrite disk_block_insert, decide_False by lia.
    apply (home_writes_again start bs xs []); try done; [set_solver|]. apply home_eq_log_writes. change LOGSIZE with 30. lia.
Qed.

(** ** Crashes during recovery *)

Lemma crash_recovery start bs d dn y ws1 :
  txn_blocks start bs → hdr_of bs (disk_block d start) → hdr_of [] y →
  home_eq start (apply_writes d (home_writes bs start d)) dn →
  ws1 `prefix_of` home_writes bs start d ++ [(start, y)] → recovers_to start (apply_writes d ws1) dn.
Proof.
  intros Hb Hh Hy Hn Hp. pose proof (tb_len _ _ Hb) as Hle.
  apply prefix_snoc_cases in Hp as [Hp| ->].
  - pose proof (zip_fst_prefix _ _ _ Hp) as Hws.
    assert (Hlog : ∀ b, in_log start b → disk_block (apply_writes d ws1) b = disk_block d b)
      by (intros b; by apply (apply_home_log _ bs)).
    exists bs. split_and!; [done| |].
    + rewrite Hlog; [done|]. unfold in_log. change LOGSIZE with 30. lia.
    + unfold home_writes. rewrite (log_reads_ext _ _ d) by done. etrans; [|exact Hn].
      apply home_writes_again; [done| |done|done]. unfold log_reads. by rewrite length_fmap, length_seq.
  - exists []. split_and!; [apply txn_blocks_nil| |].
    + rewrite apply_writes_snoc. cbn. by rewrite disk_block_insert, decide_True.
    + etrans; [|exact Hn]. rewrite apply_writes_snoc. intros b Hnb. cbn. unfold in_log in Hnb.
      change LOGSIZE with 30 in *. by rewrite disk_block_insert, decide_False by lia.
Qed.

(** * Transactions

    A file-system operation as the rest of the kernel writes it: between
    [begin_op] and [end_op], blocks are read, changed in the cache, given to
    [log_write] and released. *)

Definition update : Type := Z * (list Z → list Z).

Definition txn_op (u : update) : K unit :=
  b <- bread ROOTDEV u.1 ;; modify_data b u.2 ;;; log_write b ;;; brelse b.
Fixpoint txn_ops (us : list update) : K unit :=
  match us with [] => ret tt | u :: us => txn_op u ;;; txn_ops us end.
Definition transaction (us : list update) : K unit := begin_op ;;; txn_ops us ;;; end_op.

(** What it means: the updates applied to the blocks, one after the other. *)
Definition apply_update (d : gmap Z (list Z)) (u : update) : gmap Z (list Z) :=
  <[u.1 := u.2 (disk_block d u.1)]> d.
Definition apply_updates (d : gmap Z (list Z)) (us : list update) : gmap Z (list Z) := foldl apply_update d us.

Definition update_ok (start : Z) (u : update) : Prop :=
  0 ≤ u.1 < 2 ^ 31 ∧ ¬ in_log start u.1 ∧ ∀ x, length x = Z.to_nat BSIZE → length (u.2 x) = Z.to_nat BSIZE.

Section transactions.
Context {dev : VirtioDev} {ok : VirtioOk dev}.
Context (p : nat) (pid : Z) (ie : bool).

(** In the middle of a transaction: the blocks [bs] changed so far are pinned
    with their new contents [dn], and the disk is still [d]. *)
Record in_txn (bs : list Z) (m : gmap Z (Z * list Z)) (d dn : gmap Z (list Z)) (lg : logst) : Prop := {
  it_log : log_ok bs lg;
  it_pin : ∀ b, b ∈ bs → m !! b = Some (1, disk_block dn b);
  it_dom : ∀ b, is_Some (m !! b) → b ∈ bs;
  it_rest : ∀ b, b ∉ bs → disk_block dn b = disk_block d b
}.

Lemma in_txn_size bs m d dn lg : in_txn bs m d dn lg → (size m ≤ length bs)%nat.
Proof.
  intros H. rewrite <-size_dom. rewrite <-(size_list_to_set (C := gset Z) bs) by apply (lo_nodup _ _ (it_log _ _ _ _ _ H)).
  apply subseteq_size. intros b Hb%elem_of_dom. apply elem_of_list_to_set. by apply (it_dom _ _ _ _ _ H).
Qed.

Lemma in_txn_entry bs m d dn lg b :
  in_txn bs m d dn lg → read_entry m d b = (if decide (b ∈ bs) then 2 else 1, disk_block dn b).
Proof.
  intros H. unfold read_entry. case_decide as Hb.
  - by rewrite (it_pin _ _ _ _ _ H b Hb).
  - destruct (m !! b) eqn:E; [destruct Hb; apply (it_dom _ _ _ _ _ H); eauto|].
    by rewrite (it_rest _ _ _ _ _ H b Hb).
Qed.

(** One update keeps the transaction's invariant. *)
Lemma in_txn_step bs m d dn lg lg' u :
  in_txn bs m d dn lg → log_ok (log_add u.1 bs) lg' →
  in_txn (log_add u.1 bs) (<[u.1 := (1, u.2 (disk_block dn u.1))]> m) d (apply_update dn u) lg'.
Proof.
  intros [H1 H2 H3 H4] Hl. unfold apply_update.
  assert (Hin : ∀ b, b ∈ log_add u.1 bs ↔ b = u.1 ∨ b ∈ bs) by (intros b; unfold log_add; case_decide; set_solver).
  split; [done|..].
  - intros b Hb%Hin. rewrite disk_block_insert, lookup_insert. case_decide; [by subst|].
    destruct Hb; [done|]. by apply H2.
  - intros b. rewrite lookup_insert, Hin. case_decide; [auto|]. auto.
  - intros b Hb. rewrite Hin in Hb. rewrite disk_block_insert, decide_False by naive_solver. apply H4. tauto.
Qed.

Lemma txn_op_ok u bs hd m d dn w R s n e :
  fs p pid ie hd ∅ m d w R s → in_txn bs m d dn (k_log R) → update_ok (log_start (k_log R)) u →
  1 ≤ log_outstanding (k_log R) → Z.of_nat (length bs) < LOGSIZE - 1 →
  Z.of_nat (length bs) < log_size (k_log R) - 1 → dev_env p (1 + n) e →
  ∃ lg hd' e' s', txn_op u e s = Ret tt e' s' ∧ dev_env p n e' ∧ log_fixed lg = log_fixed (k_log R) ∧
    in_txn (log_add u.1 bs) (<[u.1 := (1, u.2 (disk_block dn u.1))]> m) d (apply_update dn u) lg ∧
    fs p pid ie hd' ∅ (<[u.1 := (1, u.2 (disk_block dn u.1))]> m) d w (set_k_log lg R) s'.
Proof.
  intros Hf Ht (Hu1 & Hu2 & Hu3) Ho Hlt Hlt' He. unfold txn_op. destruct u as [blk g]. cbn [fst snd] in *.
  pose proof (in_txn_size _ _ _ _ _ Ht) as Hsz. pose proof (in_txn_entry _ _ _ _ _ blk Ht) as Hre.
  set (r := if decide (blk ∈ bs) then 2 else 1) in Hre. set (x := disk_block dn blk) in *.
  assert (Hr : r = 1 ∨ r = 2) by (unfold r; case_decide; auto).
  destruct (fs_bread p pid ie _ _ _ _ _ _ _ blk n e Hf) as (i & e1 & s1 & Hr1 & He1 & Hf1);
    [set_solver|done|rewrite Hre; cbn; lia|right; change nbuf with 30%nat; change LOGSIZE with 30 in *; lia|done|].
  mrun Hr1. rewrite Hre in Hf1.
  destruct (fs_len p pid ie _ _ _ _ _ _ _ blk r x Hf1) as [Hxl _]; [by simplify_map_eq|].
  destruct (fs_modify_data p pid ie _ _ _ _ _ _ _ blk r x i g e1 Hf1) as (s2 & Hr2 & Hf2);
    [by simplify_map_eq..|auto|]. mrun Hr2. rewrite insert_insert_eq in Hf2.
  destruct (log_write_ok p pid ie bs _ _ _ _ _ _ _ blk r (g x) i e1 Hf2) as (lg & s3 & Hr3 & Hl3 & Hfix & Hf3);
    [apply Ht|set_solver|by simplify_map_eq|by simplify_map_eq|lia|done|lia|done|done|done|].
  mrun Hr3.
  assert (Hpin : log_pin bs blk r (g x) (<[blk := (r, g x)]> m) = <[blk := (2, g x)]> m).
  { unfold log_pin, r. case_decide; [done|]. by rewrite insert_insert_eq. }
  rewrite Hpin in Hf3.
  destruct (fs_brelse p pid ie _ _ _ _ _ _ _ blk 2 (g x) i e1 Hf3) as (s4 & Hr4 & Hf4);
    [set_solver|by simplify_map_eq..|done|].
  rewrite Hr4. exists lg, (<[blk := i]> hd), e1, s4. split_and!; [done|done|done| |].
  - by eapply (in_txn_step bs m d dn (k_log R) lg (blk, g)).
  - unfold drop_ref in Hf4. rewrite decide_False, insert_insert_eq in Hf4 by done.
    by replace (_ ∖ {[blk]}) with (∅ : gset Z) in Hf4 by set_solver.
Qed.

Lemma log_add_length blk bs : (length (log_add blk bs) ≤ S (length bs))%nat.
Proof. unfold log_add. case_decide; [lia|]. rewrite length_app. cbn. lia. Qed.

Lemma txn_ops_ok us bs hd m d dn w R s n e :
  fs p pid ie hd ∅ m d w R s → in_txn bs m d dn (k_log R) → Forall (update_ok (log_start (k_log R))) us →
  1 ≤ log_outstanding (k_log R) → Z.of_nat (length bs + length us) < LOGSIZE →
  Z.of_nat (length bs + length us) < log_size (k_log R) → dev_env p (length us + n) e →
  ∃ bs' m' lg hd' e' s', txn_ops us e s = Ret tt e' s' ∧ dev_env p n e' ∧ log_fixed lg = log_fixed (k_log R) ∧
    (length bs' ≤ length bs + length us)%nat ∧ in_txn bs' m' d (apply_updates dn us) lg ∧
    fs p pid ie hd' ∅ m' d w (set_k_log lg R) s'.
Proof.
  revert bs hd m dn R s e. induction us as [|u us IH]; intros bs hd m dn R s e Hf Ht Hus Ho Hlt Hlt' He.
  - exists bs, m, (k_log R), hd, e, s. split_and!; try done; [cbn; lia|].
    by replace (set_k_log (k_log R) R) with R by (by destruct R).
  - apply Forall_cons in Hus as [Hu Hus]. cbn [length] in *.
    destruct (txn_op_ok u bs hd m d dn w R s (length us + n) e) as (lg & hd1 & e1 & s1 & Hr1 & He1 & Hfix & Ht1 & Hf1);
      try done; try lia.
    pose proof (log_add_length u.1 bs) as Hal.
    assert (Hfs : log_start lg = log_start (k_log R) ∧ log_outstanding lg = log_outstanding (k_log R) ∧
      log_size lg = log_size (k_log R)).
    { split_and!; [exact (f_equal log_start Hfix)|exact (f_equal log_outstanding Hfix)|exact (f_equal log_size Hfix)]. }
    destruct Hfs as (F1 & F2 & F3).
    destruct (IH _ _ _ _ _ s1 e1 Hf1 Ht1) as (bs' & m' & lg' & hd' & e' & s' & Hr & He' & Hfix' & Hlen & Ht' & Hf').
    { kproj. by rewrite F1. } { kproj. by rewrite F2. } { lia. } { kproj. rewrite F3. lia. } { done. }
    exists bs', m', lg', hd', e', s'. split_and!; [cbn [txn_ops]; by mrun Hr1|done| |lia|done|].
    + rewrite Hfix'. kproj. done.
    + by replace (set_k_log lg' R) with (set_k_log lg' (set_k_log lg R)) by kstate_eq.
Qed.
(** No transaction is in progress. *)
Record log_idle (sb : superblock) (lg : logst) : Prop := {
  li_ok : log_ok [] lg;
  li_out : log_outstanding lg = 0;
  li_com : log_committing lg = 0;
  li_start : log_start lg = sb_logstart sb;
  li_size : log_size lg = sb_nlog sb
}.

Lemma log_ok_blocks bs lg : log_ok bs lg → txn_blocks (log_start lg) bs.
Proof. intros []. by split. Qed.

(** The home blocks after the transaction. *)
Lemma in_txn_new bs m d dn lg :
  in_txn bs m d dn lg → home_eq (log_start lg) (apply_writes d (zip bs (disk_block dn <$> bs))) dn.
Proof.
  intros H b Hb. destruct (decide (b ∈ bs)) as [Hin|Hni].
  - apply list_elem_of_lookup in Hin as [i Hi].
    apply (disk_block_zip _ _ _ i); [apply (lo_nodup _ _ (it_log _ _ _ _ _ H))|done| |by rewrite length_fmap].
    by rewrite list_lookup_fmap, Hi.
  - rewrite disk_block_apply_ne by (by rewrite fst_zip by (by rewrite length_fmap)).
    by rewrite (it_rest _ _ _ _ _ H).
Qed.

Lemma transaction_ok sb us hd d w R s n e :
  fs p pid ie hd ∅ ∅ d w R s → log_idle sb (k_log R) → Forall (update_ok (sb_logstart sb)) us →
  Z.of_nat (length us) < LOGSIZE → Z.of_nat (length us) < sb_nlog sb → dev_env p (4 + 7 * length us + n) e →
  ∃ bs xs ws hd' lg e' s', transaction us e s = Ret tt e' s' ∧ dev_env p n e' ∧
    txn_writes (sb_logstart sb) bs xs ws ∧ txn_blocks (sb_logstart sb) bs ∧ length xs = length bs ∧
    home_eq (sb_logstart sb) (apply_writes d (zip bs xs)) (apply_updates d us) ∧ log_idle sb lg ∧
    fs p pid ie hd' ∅ ∅ (apply_writes d ws) (w ++ ws) (set_k_log lg R) s'.
Proof.
  intros Hf [L1 L2 L3 L4 L5] Hus Hlen Hlen' He. unfold transaction. pose proof (lo_n _ _ L1) as Hn0. cbn in Hn0.
  change LOGSIZE with 30 in Hlen.
  destruct (begin_op_ok p pid ie _ _ _ _ _ _ _ e Hf L3) as (s1 & Hr1 & Hf1).
  { rewrite L2. lia. } { rewrite L2, Hn0. vm_compute. done. }
  mrun Hr1. rewrite L2 in Hf1. set (R1 := set_k_log _ R) in Hf1.
  assert (Hl1 : log_ok [] (k_log R1)) by (destruct L1; by split).
  destruct (txn_ops_ok us [] hd ∅ d d w R1 s1 (4 + 6 * length us + n) e Hf1)
    as (bs & m & lg & hd2 & e2 & s2 & Hr2 & He2 & Hfix & Hbl & Ht & Hf2).
  { split; [done|set_solver|intros b [? Hb]; by rewrite lookup_empty in Hb|done]. }
  { unfold R1. kproj. cbn. by rewrite L4. } { unfold R1. kproj. cbn. done. }
  { change LOGSIZE with 30. cbn. lia. } { unfold R1. kproj. cbn. rewrite L5. lia. }
  { eapply dev_env_le; [done|lia]. }
  mrun Hr2. cbn in Hbl.
  assert (F1 : log_start lg = sb_logstart sb) by (rewrite <-L4; exact (f_equal log_start Hfix)).
  assert (F2 : log_committing lg = 0) by (rewrite <-L3; exact (f_equal log_committing Hfix)).
  assert (F3 : log_outstanding lg = 1) by exact (f_equal log_outstanding Hfix).
  assert (F4 : log_size lg = sb_nlog sb) by (rewrite <-L5; exact (f_equal log_size Hfix)).
  pose proof (in_txn_size _ _ _ _ _ Ht) as Hsz. set (dn := apply_updates d us) in *.
  destruct (end_op_last p pid ie bs (disk_block dn <$> bs) _ _ _ _ _ s2 n e2 Hf2)
    as (ws & hd3 & e3 & s3 & Hr3 & He3 & Hws & Hf3).
  { apply Ht. } { done. } { done. }
  { apply Forall2_fmap_r, Forall_Forall2_diag, Forall_forall. intros b Hb. by apply (it_pin _ _ _ _ _ Ht). }
  { apply Ht. } { change nbuf with 30%nat. lia. } { eapply dev_env_le; [done|lia]. }
  revert Hws Hf3. kproj. rewrite F1. intros Hws Hf3.
  exists bs, (disk_block dn <$> bs), ws, hd3, (set_lh_n 0 (set_log_outstanding 0 lg)), e3, s3.
  split_and!; [done|done|done| |by rewrite length_fmap| | |].
  - rewrite <-F1. apply log_ok_blocks, Ht.
  - rewrite <-F1. by eapply in_txn_new.
  - destruct (it_log _ _ _ _ _ Ht). split; [|done..]. split; try done. constructor. set_solver.
  - unfold R1 in Hf3. by match type of Hf3 with fs _ _ _ _ _ _ _ _ ?A _ =>
      replace (set_k_log (set_lh_n 0 (set_log_outstanding 0 lg)) R) with A by kstate_eq end.
Qed.

(** [initlog] replays the log. *)
Lemma initlog_ok sb hd d dn w R s n e :
  fs p pid ie hd ∅ ∅ d w R s → 0 ≤ sb_logstart sb → sb_logstart sb + LOGSIZE < 2 ^ 31 → 0 ≤ sb_nlog sb < 2 ^ 31 →
  length (lh_block (k_log R)) = Z.to_nat LOGSIZE → recovers_to (sb_logstart sb) d dn →
  dev_env p (3 + 3 * Z.to_nat LOGSIZE + n) e →
  ∃ bs y hd' lg e' s', initlog ROOTDEV sb e s = Ret tt e' s' ∧ dev_env p n e' ∧ txn_blocks (sb_logstart sb) bs ∧
    hdr_of bs (disk_block d (sb_logstart sb)) ∧ hdr_of [] y ∧
    home_eq (sb_logstart sb) (apply_writes d (home_writes bs (sb_logstart sb) d)) dn ∧
    let ws := home_writes bs (sb_logstart sb) d ++ [(sb_logstart sb, y)] in
    fs p pid ie hd' ∅ ∅ (apply_writes d ws) (w ++ ws) (set_k_log lg R) s'.
Proof.
  intros Hf Hst Hend Hnl Hla (bs & Hb & Hh & Hn) He. unfold initlog. change LOGSIZE with 30 in *.
  cbn [Z.geb Z.add Z.mul Z.compare Pos.compare]. destruct (fs_ctx p pid ie _ _ _ _ _ _ _ Hf) as [hh Hc].
  change (4 + 4 * 30 >=? BSIZE) with false. cbv iota. unfold initlock, modify_core. mstep.
  pose proof (initlock_ctx _ [] L_log "log" (k_core s) Hc (not_elem_of_nil _)) as Hc'.
  pose proof (fs_set_core p pid ie _ _ _ _ _ _ _ _ Hf ltac:(by exists hh)) as Hf1.
  set (s1 := set_k_core _ s) in *. clearbody s1.
  destruct (fs_log_mod p pid ie (set_log_start (i32 (sb_logstart sb))) _ _ _ _ _ _ _ e Hf1) as (s2 & Hr2 & Hf2). mrun Hr2.
  destruct (fs_log_mod p pid ie (set_log_size (i32 (sb_nlog sb))) _ _ _ _ _ _ _ e Hf2) as (s3 & Hr3 & Hf3). mrun Hr3.
  destruct (fs_log_mod p pid ie (set_log_dev ROOTDEV) _ _ _ _ _ _ _ e Hf3) as (s4 & Hr4 & Hf4). mrun Hr4.
  revert Hf4. kproj. rewrite !i32_id by lia. intros Hf4.
  set (lg0 := set_log_dev ROOTDEV _) in Hf4.
  pose proof (tb_len _ _ Hb) as Hle. change LOGSIZE with 30 in Hle.
  destruct (recover_ok p pid ie bs _ _ _ _ s4 n e Hf4) as (y & l & hd5 & e5 & s5 & Hr5 & He5 & Hy & Hl5 & Hf5).
  { done. } { done. } { done. } { done. } { done. } { done. } { apply Hb. }
  { intros b Hbin. exact (tb_home _ _ Hb b Hbin). } { eapply dev_env_le; [exact He|]. change (Z.to_nat 30) with 30%nat. lia. }
  rewrite Hr5. exists bs, y, hd5. eexists (set_lh_block l (set_lh_n 0 lg0)), e5, s5.
  split_and!; [done|done|done|done|done|done|]. cbv zeta in Hf5 |- *. revert Hf5. kproj.
  match goal with |- fs _ _ _ _ _ _ _ _ ?A _ → fs _ _ _ _ _ _ _ _ ?B _ => replace A with B by kstate_eq end. done.
Qed.

End transactions.

(** * Crashing and restarting *)

(** The machine restarts with disk [d], runs [initlog] in some process, and
    crashes again after any number of its writes; then once more, and so on. *)
Inductive crashed_recovery {dev : VirtioDev} (sb : superblock) : gmap Z (list Z) → gmap Z (list Z) → Prop :=
| cr_none d : crashed_recovery sb d d
| cr_crash d p pid ie hd w R s e e' s' ws1 ws2 d' :
    fs p pid ie hd ∅ ∅ d w R s → length (lh_block (k_log R)) = Z.to_nat LOGSIZE →
    initlog ROOTDEV sb e s = Ret tt e' s' → dev_env p (3 + 3 * Z.to_nat LOGSIZE) e →
    k_writes s' = w ++ ws1 ++ ws2 →
    crashed_recovery sb (apply_writes d ws1) d' → crashed_recovery sb d d'.

Record sb_log_ok (sb : superblock) : Prop := {
  so_start : 0 ≤ sb_logstart sb;
  so_end : sb_logstart sb + LOGSIZE < 2 ^ 31;
  so_nlog : 0 ≤ sb_nlog sb < 2 ^ 31
}.

Section crash.
Context {dev : VirtioDev} {ok : VirtioOk dev}.

Lemma crashed_recovery_keeps sb d d' dn :
  sb_log_ok sb → crashed_recovery sb d d' → recovers_to (sb_logstart sb) d dn → recovers_to (sb_logstart sb) d' dn.
Proof.
  intros [S1 S2 S3] H. induction H as [|d p pid ie hd w R s e e' s' ws1 ws2 d' Hf Hla Hr He Hw _ IH]; [done|].
  intros Hrec. apply IH.
  destruct (initlog_ok p pid ie sb hd d dn w R s 0 e) as (bs & y & hd2 & lg & e2 & s2 & Hr2 & _ & Hb & Hh & Hy & Hn & Hf2);
    try done.
  rewrite Hr in Hr2. injection Hr2 as <- <-. rewrite (fs_writes _ _ _ _ _ _ _ _ _ _ Hf2) in Hw.
  apply app_inv_head in Hw. eapply crash_recovery; try done. rewrite Hw. by exists ws2.
Qed.

(** Recovery of a disk that recovers to [dn] installs [dn]'s home blocks. *)
Lemma initlog_installs sb p pid ie hd d dn w R s e :
  sb_log_ok sb → fs p pid ie hd ∅ ∅ d w R s → length (lh_block (k_log R)) = Z.to_nat LOGSIZE →
  recovers_to (sb_logstart sb) d dn → dev_env p (3 + 3 * Z.to_nat LOGSIZE) e →
  ∃ e' s', initlog ROOTDEV sb e s = Ret tt e' s' ∧ home_eq (sb_logstart sb) (k_disk s') dn ∧
    hdr_of [] (disk_block (k_disk s') (sb_logstart sb)).
Proof.
  intros [S1 S2 S3] Hf Hla Hrec He.
  destruct (initlog_ok p pid ie sb hd d dn w R s 0 e) as (bs & y & hd2 & lg & e2 & s2 & Hr2 & _ & Hb & Hh & Hy & Hn & Hf2);
    try done.
  exists e2, s2. rewrite (fs_disk _ _ _ _ _ _ _ _ _ _ Hf2), apply_writes_snoc. cbn [fst snd].
  split_and!; [done| |by rewrite disk_block_insert, decide_True].
  etrans; [|exact Hn]. intros b Hb'. unfold in_log in Hb'. change LOGSIZE with 30 in *.
  by rewrite disk_block_insert, decide_False by lia.
Qed.

(** C2: transactions are atomic under crashes.  A transaction of fewer than
    LOGSIZE updates started on an idle log returns, leaves the log idle and
    installs its updates.  If instead the machine crashes after any prefix of
    the disk writes it makes, and recovery itself crashes any number of times,
    then there is one state, the one before the transaction or the one after
    it, whose home blocks the next complete [initlog] leaves on the disk, with
    an empty log. *)
Theorem crash_atomicity sb p pid ie us hd d w R s e :
  sb_log_ok sb → fs p pid ie hd ∅ ∅ d w R s → log_idle sb (k_log R) →
  hdr_of [] (disk_block d (sb_logstart sb)) → Forall (update_ok (sb_logstart sb)) us →
  Z.of_nat (length us) < LOGSIZE → Z.of_nat (length us) < sb_nlog sb →
  dev_env p (4 + 7 * length us) e →
  ∃ e' s' ws hd' lg, transaction us e s = Ret tt e' s' ∧ log_idle sb lg ∧
    fs p pid ie hd' ∅ ∅ (apply_writes d ws) (w ++ ws) (set_k_log lg R) s' ∧
    home_eq (sb_logstart sb) (k_disk s') (apply_updates d us) ∧
    ∀ ws1, ws1 `prefix_of` ws →
      ∃ dn, (dn = d ∨ dn = apply_updates d us) ∧
        ∀ d2 p2 pid2 ie2 hd2 w2 R2 s2 e2,
          crashed_recovery sb (apply_writes d ws1) d2 →
          fs p2 pid2 ie2 hd2 ∅ ∅ d2 w2 R2 s2 → length (lh_block (k_log R2)) = Z.to_nat LOGSIZE →
          dev_env p2 (3 + 3 * Z.to_nat LOGSIZE) e2 →
          ∃ e3 s3, initlog ROOTDEV sb e2 s2 = Ret tt e3 s3 ∧ home_eq (sb_logstart sb) (k_disk s3) dn ∧
            hdr_of [] (disk_block (k_disk s3) (sb_logstart sb)).
Proof.
  intros Hsb Hf Hi Hh Hus Hlen Hlen' He.
  destruct (transaction_ok p pid ie sb us hd d w R s 0 e)
    as (bs & xs & ws & hd' & lg & e' & s' & Hr & _ & Hws & Hb & Hxl & Hn & Hi' & Hf'); try done.
  { eapply dev_env_le; [done|lia]. }
  assert (Hcrash : ∀ ws1, ws1 `prefix_of` ws → ∃ dn, (dn = d ∨ dn = apply_updates d us) ∧
    recovers_to (sb_logstart sb) (apply_writes d ws1) dn).
  { intros ws1 Hp. destruct (crash_commit _ bs xs ws ws1 d Hb Hxl Hh Hws Hp) as [H|(bs1 & H1 & H2 & H3)]; [eauto|].
    exists (apply_updates d us). split; [by right|]. exists bs1. split_and!; [done|done|by etrans]. }
  exists e', s', ws, hd', lg. split_and!; [done|done|done| |].
  - rewrite (fs_disk _ _ _ _ _ _ _ _ _ _ Hf'). etrans; [|exact Hn].
    destruct Hws as [[-> ->]|(y1 & y2 & _ & _ & ->)]; [done|]. unfold commit_writes.
    rewrite app_assoc, app_assoc, apply_writes_snoc, apply_writes_app, apply_writes_snoc.
    pose proof (tb_len _ _ Hb) as Hle. intros b Hnb.
    rewrite disk_block_insert, decide_False by (cbn; unfold in_log in Hnb; change LOGSIZE with 30 in *; lia).
    apply (home_writes_again (sb_logstart sb) bs xs []); [done|done|set_solver| |done]. apply home_eq_log_writes. lia.
  - intros ws1 Hp. destruct (Hcrash ws1 Hp) as (dn & Hdn & Hrec). exists dn. split; [done|].
    intros d2 p2 pid2 ie2 hd2 w2 R2 s2 e2 Hcr Hf2 Hla He2.
    eapply initlog_installs; try done. by eapply crashed_recovery_keeps.
Qed.
End crash.

(** * An example *)

Lemma boot_fs p pid ie s d w e :
  runs p pid ie [] s → bufs s = replicate nbuf zero_buf → vq_idle (k_vdisk s) → k_disk s = d → k_writes s = w →
  (∀ blk x, d !! blk = Some x → length x = Z.to_nat BSIZE) →
  ∃ s', binit e s = Ret tt e s' ∧ fs p pid ie ∅ ∅ ∅ d w s s'.
Proof.
  intros Hr Hb Hv Hd Hw Hdl. destruct (boot_refines p pid ie s d e) as (s' & Hrun & [R1 R2 R3] & Hfr & Hw'); [done..|].
  exists s'. split; [done|]. split; [done|done|congruence| |done]. intros blk [? Hm]. by rewrite lookup_empty in Hm.
Qed.

Definition log_sb : superblock := mksb FSMAGIC 1000 954 200 30 2 32 45.
(** The kernel after boot, its log idle, with disk [d]. *)
Definition log_boot (d : gmap Z (list Z)) : kstate :=
  set_k_disk d (set_k_log (mklog 2 30 0 0 ROOTDEV 0 (replicate 30 0)) boot_state).

Lemma log_boot_fs d e :
  (∀ blk x, d !! blk = Some x → length x = Z.to_nat BSIZE) →
  ∃ s, binit e (log_boot d) = Ret tt e s ∧ fs 0 0 true ∅ ∅ ∅ d [] (log_boot d) s.
Proof.
  intros Hd. apply boot_fs; try done.
  - split; [exists 0%nat; exact (proc0_ctx true)|reflexivity|reflexivity].
Qed.

Lemma log_sb_ok : sb_log_ok log_sb.
Proof. split; cbn; change LOGSIZE with 30; lia. Qed.

Lemma log_boot_idle d : log_idle log_sb (k_log (log_boot d)).
Proof.
  split; try done. split; try done; try (cbn; lia); [constructor|]. intros b Hb. by apply not_elem_of_nil in Hb.
Qed.

Lemma zero_hdr : hdr_of [] (replicate (Z.to_nat BSIZE) 0).
Proof. split; [apply length_replicate|reflexivity|done]. Qed.

(** Blocks 100 and 101 are filled with ones in one transaction; the machine
    crashes right after it, and the restarted kernel's recovery returns. *)
Definition fill (b : Z) : update := (b, λ _, replicate (Z.to_nat BSIZE) 1).

Lemma fill_ok b : sb_logstart log_sb + 30 < b < 2 ^ 31 → update_ok (sb_logstart log_sb) (fill b).
Proof.
  cbn. intros Hb. split_and!; [cbn; lia|cbn; lia| |intros; apply length_replicate].
  unfold in_log. change LOGSIZE with 30. cbn. lia.
Qed.

Lemma crash_atomicity_witness :
  ∃ s e' s', binit (replicate 20 (others 0)) (log_boot ∅) = Ret tt (replicate 20 (others 0)) s ∧
    transaction [fill 100; fill 101] (replicate 20 (others 0)) s = Ret tt e' s' ∧
    disk_block (k_disk s') 101 = replicate (Z.to_nat BSIZE) 1 ∧
    ∃ s2 e3 s3, binit (replicate 93 (others 0)) (log_boot (k_disk s')) = Ret tt (replicate 93 (others 0)) s2 ∧
      initlog ROOTDEV log_sb (replicate 93 (others 0)) s2 = Ret tt e3 s3 ∧
      hdr_of [] (disk_block (k_disk s3) 2).
Proof.
  destruct (log_boot_fs ∅ (replicate 20 (others 0))) as (s & Hb & Hf).
  { intros blk x Hx. by rewrite lookup_empty in Hx. }
  destruct (crash_atomicity log_sb 0 0 true [fill 100; fill 101] ∅ ∅ [] (log_boot ∅) s (replicate 20 (others 0)))
    as (e' & s' & ws & hd' & lg & Hr & _ & Hf' & Hn & Hcr).
  - exact log_sb_ok.
  - exact Hf.
  - apply log_boot_idle.
  - exact zero_hdr.
  - apply Forall_cons_2; [apply fill_ok; cbn; lia|]. apply Forall_cons_2; [apply fill_ok; cbn; lia|]. apply Forall_nil_2.
  - reflexivity.
  - reflexivity.
  - split; [cbn; lia|]. repeat constructor.
  - exists s, e', s'. split_and!; [exact Hb|exact Hr| |].
    + rewrite (Hn 101) by (unfold in_log; change LOGSIZE with 30; cbn; lia). reflexivity.
    + destruct (log_boot_fs (k_disk s') (replicate 93 (others 0))) as (s2 & Hb2 & Hf2).
      { exact (bi_disk _ _ _ _ _ _ (fs_bio _ _ _ _ _ _ _ _ _ _ Hf')). }
      destruct (Hcr ws) as (dn & _ & Hrec); [done|].
      destruct (Hrec (k_disk s') 0%nat 0 true ∅ [] (log_boot (k_disk s')) s2 (replicate 93 (others 0)))
        as (e3 & s3 & Hr3 & _ & Hh3).
      * rewrite (fs_disk _ _ _ _ _ _ _ _ _ _ Hf'). constructor.
      * exact Hf2.
      * reflexivity.
      * split; [apply Nat.leb_le; reflexivity|]. repeat constructor.
      * exists s2, e3, s3. split_and!; [exact Hb2|exact Hr3|exact Hh3].
Defined.
