(* ===== verification/User.v ===== *)
(** What a user program sees of the kernel: its open files, the console, and
    system calls that may transfer less than was asked for.

    [ustate] holds the bytes still to be read from every open descriptor, the
    files that can be opened, the history of writes, and two oracles: how many
    bytes each [read] delivers and how many each [write] accepts.  The
    theorems about programs quantify over both. *)

From S2P Require Import Prelude.

Record ustate : Type := mkustate {
  u_fds : gmap Z (list Z);
  u_files : gmap (list Z) (list Z);
  u_reads : list Z;
  u_writes : list Z;
  u_out : list (Z * list Z)
}.
Abbreviation U := (M ustate).

Definition set_u_fds (v : gmap Z (list Z)) (s : ustate) : ustate :=
  mkustate v (u_files s) (u_reads s) (u_writes s) (u_out s).
Definition set_u_reads (v : list Z) (s : ustate) : ustate :=
  mkustate (u_fds s) (u_files s) v (u_writes s) (u_out s).
Definition set_u_writes (v : list Z) (s : ustate) : ustate :=
  mkustate (u_fds s) (u_files s) (u_reads s) v (u_out s).
Definition set_u_out (v : list (Z * list Z)) (s : ustate) : ustate :=
  mkustate (u_fds s) (u_files s) (u_reads s) (u_writes s) v.

(** [read(fd, buf, n)]: at least one byte unless none is left or [n] is 0; the
    bytes read and the return value. *)
Definition read_size (ks : list Z) (n : Z) : Z :=
  match ks with [] => n | k :: _ => Z.min n (Z.max 1 k) end.
Definition read (fd n : Z) : U (Z * list Z) := λ e s,
  match u_fds s !! fd with
  | None => Ret (-1, []) e s
  | Some inp =>
      let k := Z.to_nat (read_size (u_reads s) n) in
      Ret (Z.of_nat (length (take k inp)), take k inp) e
        (set_u_fds (<[fd := drop k inp]> (u_fds s)) (set_u_reads (tail (u_reads s)) s))
  end.

(** [write(fd, p, n)] of the bytes [bs]; a negative answer is an error. *)
Definition write_size (ks : list Z) (n : Z) : Z :=
  match ks with [] => n | k :: _ => Z.min n k end.
Definition write (fd : Z) (bs : list Z) : U Z := λ e s,
  let k := write_size (u_writes s) (Z.of_nat (length bs)) in
  Ret k e (set_u_out (u_out s ++ [(fd, take (Z.to_nat k) bs)]) (set_u_writes (tail (u_writes s)) s)).

(** [open(path, mode)] takes the lowest free descriptor. *)
Definition open (path : list Z) (mode : Z) : U Z := λ e s,
  match u_files s !! path, find (λ fd, bool_decide (u_fds s !! fd = None)) (seqZ 0 16) with
  | Some inp, Some fd => Ret fd e (set_u_fds (<[fd := inp]> (u_fds s)) s)
  | _, _ => Ret (-1) e s
  end.
Definition close (fd : Z) : U Z := λ e s,
  match u_fds s !! fd with
  | None => Ret (-1) e s
  | Some _ => Ret 0 e (set_u_fds (delete fd (u_fds s)) s)
  end.

(** All bytes written to a descriptor. *)
Definition output (fd : Z) (s : ustate) : list Z :=
  concat (snd <$> filter (λ w, w.1 = fd) (u_out s)).

Lemma output_app fd fd' bs s s' :
  u_out s' = u_out s ++ [(fd', bs)] →
  output fd s' = output fd s ++ (if decide (fd' = fd) then bs else []).
Proof.
  intros H. unfold output. rewrite H, filter_app, fmap_app, concat_app. f_equal.
  destruct (decide (fd' = fd)) as [->|Hne].
  - rewrite filter_cons_True by done. cbn. by rewrite app_nil_r.
  - by rewrite filter_cons_False by done.
Qed.

(** ** Reading a descriptor to its end *)

(** A [read] of [n > 0] bytes from a descriptor with input left makes
    progress; without input it returns 0. *)
Lemma read_ok fd n inp e s :
  u_fds s !! fd = Some inp → 0 < n →
  ∃ bs rest s', read fd n e s = Ret (Z.of_nat (length bs), bs) e s' ∧ inp = bs ++ rest ∧
    (inp = [] ∨ 0 < Z.of_nat (length bs)) ∧ Z.of_nat (length bs) ≤ n ∧
    s' = set_u_fds (<[fd := rest]> (u_fds s)) (set_u_reads (tail (u_reads s)) s).
Proof.
  intros Hfd Hn. unfold read. rewrite Hfd. set (k := Z.to_nat (read_size (u_reads s) n)).
  assert (Hk : (0 < k)%nat ∧ Z.of_nat k ≤ n).
  { unfold k, read_size. destruct (u_reads s); lia. }
  exists (take k inp), (drop k inp). eexists. split; [reflexivity|]. split_and!; [by rewrite take_drop| | |done].
  - destruct inp; [by left|right]. rewrite length_take. cbn. lia.
  - rewrite length_take. lia.
Qed.
