(* ===== verification/Print.v ===== *)
(** Integer to text: the conversion loop that kernel/printf.c and
    user/printf.c share, and its inverse, atoi of user/ulib.c. *)

From S2P Require Import Prelude.

(** [do { buf[i++] = digits[x % base]; } while((x /= base) != 0);] for a
    table of digits; 32 turns are enough for a 32-bit number. *)
Fixpoint digit_loop (tbl : Z → Z) (fuel : nat) (x base : Z) : list Z :=
  match fuel with
  | O => []
  | S fuel' =>
      tbl (x mod base) :: (if x / base =? 0 then [] else digit_loop tbl fuel' (x / base) base)
  end.
Definition int_digits (tbl : Z → Z) (x base : Z) : list Z := digit_loop tbl 32 x base.

(** ** Arguments *)

(** An argument: a register, or a pointer to a string (null or its bytes). *)
Inductive varg : Type := VA (v : Z) | VAs (s : option (list Z)).

(** The bytes of a string up to its NUL. *)
Fixpoint cbytes (s : list Z) : list Z :=
  match s with [] => [] | c :: s' => if c =? 0 then [] else c :: cbytes s' end.

Definition null_str : list Z := [40; 110; 117; 108; 108; 41]. (* "(null)" *)

(** The digits, least significant first, as numbers. *)
Definition digits_val (base : Z) (l : list Z) : Z := foldr (λ d a, d + base * a) 0 l.

Lemma digit_loop_val tbl fuel x base :
  2 ≤ base → 0 ≤ x < base ^ Z.of_nat fuel → (0 < fuel)%nat →
  ∃ ds, digit_loop tbl fuel x base = tbl <$> ds ∧ digits_val base ds = x ∧
    Forall (λ d, 0 ≤ d < base) ds ∧ ds ≠ [] ∧
    (length ds = 1%nat ∨ base ^ Z.of_nat (length ds - 1) ≤ x).
Proof.
  intros Hb. revert x. induction fuel as [|fuel IH]; intros x Hx Hf; [lia|].
  rewrite Nat2Z.inj_succ, Z.pow_succ_r in Hx by lia. cbn [digit_loop].
  pose proof (Z.mod_pos_bound x base) as Hm. pose proof (Z_div_mod_eq_full x base) as Hdm.
  destruct (Z.eqb_spec (x / base) 0) as [Hz|Hz].
  - exists [x mod base]. unfold digits_val. cbn [foldr fmap list_fmap length].
    split_and!; [done|lia|repeat constructor; lia|done|by left].
  - assert (0 < x / base) by (apply Z.le_neq; split; [apply Z.div_pos; lia|lia]).
    destruct (IH (x / base)) as (ds & H1 & H2 & H3 & H4 & H5).
    { split; [lia|]. apply Z.div_lt_upper_bound; lia. }
    { destruct fuel; [|lia]. cbn in Hx. assert (x / base = 0) by (apply Z.div_small; lia). lia. }
    exists (x mod base :: ds). unfold digits_val in *. cbn [foldr fmap list_fmap length]. rewrite H1, H2.
    split_and!; [done|lia|constructor; [lia|done]|done|right].
    destruct ds as [|d ds]; [done|]. cbn [length] in *. rewrite !Nat.sub_succ, !Nat.sub_0_r in *.
    rewrite Nat2Z.inj_succ, Z.pow_succ_r by lia. destruct H5 as [H5|H5]; [|nia].
    injection H5 as ->. cbn. nia.
Qed.

Lemma int_digits_val tbl x base :
  2 ≤ base → 0 ≤ x < 2 ^ 32 →
  ∃ ds, int_digits tbl x base = tbl <$> ds ∧ digits_val base ds = x ∧
    Forall (λ d, 0 ≤ d < base) ds ∧ ds ≠ [] ∧ (length ds = 1%nat ∨ base ^ Z.of_nat (length ds - 1) ≤ x).
Proof.
  intros Hb Hx. apply digit_loop_val; [done| |lia].
  split; [lia|]. eapply Z.lt_le_trans; [apply Hx|]. apply Z.pow_le_mono_l. lia.
Qed.

(** A number below [base^k] has at most [k] digits. *)
Lemma int_digits_len tbl x base (k : nat) :
  2 ≤ base → 0 ≤ x < 2 ^ 32 → x < base ^ Z.of_nat k → (0 < k)%nat → (length (int_digits tbl x base) ≤ k)%nat.
Proof.
  intros Hb Hx Hk Hk0. destruct (int_digits_val tbl x base Hb Hx) as (ds & -> & _ & _ & _ & [H|H]).
  - rewrite length_fmap. lia.
  - rewrite length_fmap. apply Nat.nlt_ge. intros Hlt.
    assert (base ^ Z.of_nat k ≤ base ^ Z.of_nat (length ds - 1)) by (apply Z.pow_le_mono_r; lia). lia.
Qed.

(** ** Reading it back *)

(** user/ulib.c: [while('0' <= *s && *s <= '9') n = n*10 + *s++ - '0';] *)
Fixpoint atoi_loop (s : list Z) (n : Z) : Z :=
  match s with
  | [] => n
  | c :: s' => if (48 <=? c) && (c <=? 57) then atoi_loop s' (i32 (n * 10 + c - 48)) else n
  end.
Definition atoi (s : list Z) : Z := atoi_loop s 0.

Lemma digits_val_snoc base ds d :
  digits_val base (ds ++ [d]) = digits_val base ds + base ^ Z.of_nat (length ds) * d.
Proof.
  induction ds as [|x ds IH]; unfold digits_val in *; cbn [foldr app length]; [cbn; lia|].
  rewrite IH, Nat2Z.inj_succ, Z.pow_succ_r by lia. lia.
Qed.
Lemma digits_val_nonneg base ds : 0 ≤ base → Forall (λ d, 0 ≤ d) ds → 0 ≤ digits_val base ds.
Proof. intros Hb. induction 1; unfold digits_val in *; cbn; [done|]. nia. Qed.

(** Scanning decimal digits, most significant first. *)
Lemma atoi_digits ds n rest :
  Forall (λ d, 0 ≤ d < 10) ds → 0 ≤ n →
  n * 10 ^ Z.of_nat (length ds) + digits_val 10 ds < 2 ^ 31 →
  atoi_loop (reverse ((λ d, 48 + d) <$> ds) ++ rest) n =
    atoi_loop rest (n * 10 ^ Z.of_nat (length ds) + digits_val 10 ds).
Proof.
  revert n. induction ds as [|d ds IH] using rev_ind; intros n Hds Hn Hlt.
  - cbn. f_equal. lia.
  - apply Forall_app in Hds as [Hds Hd]. apply Forall_cons in Hd as [Hd _].
    rewrite fmap_app, reverse_app. change (reverse ((λ d, 48 + d) <$> [d])) with [48 + d]. cbn [app atoi_loop].
    rewrite length_app, digits_val_snoc in *. cbn [length] in *.
    rewrite Nat.add_1_r, Nat2Z.inj_succ, Z.pow_succ_r in * by lia.
    assert (0 ≤ digits_val 10 ds).
    { apply digits_val_nonneg; [lia|]. eapply Forall_impl; [exact Hds|]. cbn. lia. }
    assert (0 < 10 ^ Z.of_nat (length ds)) by (apply Z.pow_pos_nonneg; lia).
    rewrite (proj2 (Z.leb_le 48 _)), (proj2 (Z.leb_le _ 57)) by lia. cbn [andb].
    rewrite i32_id by nia. rewrite IH; [f_equal; nia|done|nia|nia].
Qed.
