(* ===== verification/Uprintf.v ===== *)
(** user/printf.c: formatted output of user programs, one [write] per byte.

    [render] is what a format and its arguments mean; the theorems say that
    [vprintf] writes exactly that, that the digit buffer of [printint] is
    never overrun, and that atoi reads back what ["%d"] printed. *)

From S2P Require Import Prelude User Print.

(** * The code *)

(** [digits[]], upper case. *)
Definition udigit (d : Z) : Z := if d <? 10 then 48 + d else 55 + d.

Definition putc (fd c : Z) : U unit := write fd [u8 c] ;;; ret tt.
Fixpoint putcs (fd : Z) (l : list Z) : U unit :=
  match l with [] => ret tt | c :: l' => putc fd c ;;; putcs fd l' end.

(** The contents of [printint]'s buffer, lowest index first. *)
Definition printint_buf (xx base : Z) (sgn : bool) : list Z :=
  let neg := sgn && (xx <? 0) in
  let x := if neg then u32 (- xx) else u32 xx in
  int_digits udigit x base ++ (if neg then [45] else []).
(** The buffer printed from its end; it has room for 16 characters. *)
Definition printint (fd xx base : Z) (sgn : bool) : U unit :=
  let buf := printint_buf xx base sgn in
  if (16 <? length buf)%nat then stuck else putcs fd (reverse buf).

Fixpoint printptr_loop (fd : Z) (n : nat) (x : Z) : U unit :=
  match n with
  | O => ret tt
  | S n' => putc fd (udigit (Z.shiftr x 60)) ;;; printptr_loop fd n' (u64 (Z.shiftl x 4))
  end.
Definition printptr (fd x : Z) : U unit :=
  putc fd 48 ;;; putc fd 120 ;;; printptr_loop fd 16 x.

(** One conversion; the remaining arguments. *)
Definition conversion (fd c : Z) (ap : list varg) : U (list varg) :=
  if c =? 100 (* d *) then
    match ap with VA v :: ap' => printint fd (i32 v) 10 true ;;; ret ap' | _ => stuck end
  else if c =? 108 (* l *) then
    match ap with VA v :: ap' => printint fd (i32 (u64 v)) 10 false ;;; ret ap' | _ => stuck end
  else if c =? 120 (* x *) then
    match ap with VA v :: ap' => printint fd (i32 v) 16 false ;;; ret ap' | _ => stuck end
  else if c =? 112 (* p *) then
    match ap with VA v :: ap' => printptr fd (u64 v) ;;; ret ap' | _ => stuck end
  else if c =? 115 (* s *) then
    match ap with
    | VAs s :: ap' => putcs fd (cbytes (default null_str s)) ;;; ret ap'
    | _ => stuck
    end
  else if c =? 99 (* c *) then
    match ap with VA v :: ap' => putc fd (u32 v) ;;; ret ap' | _ => stuck end
  else if c =? 37 (* % *) then putc fd c ;;; ret ap
  else putc fd 37 ;;; putc fd c ;;; ret ap.

Fixpoint vprintf_loop (fd : Z) (fmt : list Z) (pct : bool) (ap : list varg) : U unit :=
  match fmt with
  | [] => ret tt
  | c :: fmt' =>
      if c =? 0 then ret tt
      else if pct then ap' <- conversion fd c ap ;; vprintf_loop fd fmt' false ap'
      else if c =? 37 then vprintf_loop fd fmt' true ap
      else putc fd c ;;; vprintf_loop fd fmt' false ap
  end.
Definition vprintf (fd : Z) (fmt : list Z) (ap : list varg) : U unit := vprintf_loop fd fmt false ap.
Definition fprintf (fd : Z) (fmt : list Z) (ap : list varg) : U unit := vprintf fd fmt ap.
Definition printf (fmt : list Z) (ap : list varg) : U unit := vprintf 1 fmt ap.

(** * What a format means *)

(** Sixteen hexadecimal digits, most significant first. *)
Definition hex16 (x : Z) : list Z := (λ i : nat, udigit (x / 16 ^ (15 - Z.of_nat i) mod 16)) <$> seq 0 16.

(** Decimal and hexadecimal numbers: the digits of the value, without leading
    zeroes. *)
Definition dec (x : Z) : list Z :=
  if x <? 0 then 45 :: reverse (int_digits udigit (- x) 10) else reverse (int_digits udigit x 10).
Definition hex (x : Z) : list Z := reverse (int_digits udigit x 16).

Definition render_conv (c : Z) (ap : list varg) : option (list Z * list varg) :=
  if c =? 100 then match ap with VA v :: ap' => Some (dec (i32 v), ap') | _ => None end
  else if c =? 108 then match ap with VA v :: ap' => Some (dec (u32 v), ap') | _ => None end
  else if c =? 120 then match ap with VA v :: ap' => Some (hex (u32 v), ap') | _ => None end
  else if c =? 112 then match ap with VA v :: ap' => Some ([48; 120] ++ hex16 (u64 v), ap') | _ => None end
  else if c =? 115 then
    match ap with VAs s :: ap' => Some (u8 <$> cbytes (default null_str s), ap') | _ => None end
  else if c =? 99 then match ap with VA v :: ap' => Some ([u8 v], ap') | _ => None end
  else if c =? 37 then Some ([37], ap)
  else Some ([37; u8 c], ap).

Fixpoint render (fmt : list Z) (ap : list varg) : option (list Z) :=
  match fmt with
  | [] => Some []
  | c :: fmt' =>
      if c =? 0 then Some []
      else if c =? 37 then
        match fmt' with
        | [] => Some []
        | c' :: fmt'' =>
            if c' =? 0 then Some [] else
            '(bs, ap') ← render_conv c' ap; bs' ← render fmt'' ap'; Some (bs ++ bs')
        end
      else bs ← render fmt' ap; Some (u8 c :: bs)
  end.

(** * Proofs *)

(** The state after the bytes [bs] were written to [fd] one at a time. *)
Definition wrote (fd : Z) (bs : list Z) (s : ustate) : ustate :=
  set_u_out (u_out s ++ ((λ b, (fd, [b])) <$> bs)) s.

Lemma wrote_nil fd s : wrote fd [] s = s.
Proof. unfold wrote, set_u_out. rewrite app_nil_r. by destruct s. Qed.
Lemma wrote_app fd bs bs' s : wrote fd bs' (wrote fd bs s) = wrote fd (bs ++ bs') s.
Proof. unfold wrote. cbn. by rewrite fmap_app, app_assoc. Qed.
Lemma wrote_writes fd bs s : u_writes (wrote fd bs s) = u_writes s.
Proof. done. Qed.

Lemma output_wrote fd bs s : output fd (wrote fd bs s) = output fd s ++ bs.
Proof.
  unfold output, wrote. cbn. rewrite filter_app, fmap_app, concat_app. f_equal.
  induction bs as [|b bs IH]; [done|]. cbn [fmap list_fmap]. rewrite filter_cons_True by done. cbn. by f_equal.
Qed.

Lemma putc_ok fd c e s : u_writes s = [] → putc fd c e s = Ret tt e (wrote fd [u8 c] s).
Proof. intros H. unfold putc, bind, write. rewrite H. destruct s; cbn in *. by subst. Qed.

Lemma putcs_ok fd l e s : u_writes s = [] → putcs fd l e s = Ret tt e (wrote fd (u8 <$> l) s).
Proof.
  revert s. induction l as [|c l IH]; intros s H; [cbn; by rewrite wrote_nil|]. cbn [putcs].
  mrun (putc_ok fd c e s H). rewrite IH by done. by rewrite wrote_app.
Qed.

Lemma u8_udigit d : 0 ≤ d < 16 → u8 (udigit d) = udigit d.
Proof. intros H. unfold u8, udigit. destruct (Z.ltb_spec d 10); rewrite Z.mod_small; lia. Qed.

Lemma u8_digits x base : 2 ≤ base ≤ 16 → 0 ≤ x < 2 ^ 32 → u8 <$> int_digits udigit x base = int_digits udigit x base.
Proof.
  intros Hb Hx. destruct (int_digits_val udigit x base) as (ds & -> & _ & Hds & _); [lia|done|].
  rewrite <-list_fmap_compose. apply list_fmap_ext. intros i d Hd.
  rewrite Forall_lookup in Hds. specialize (Hds _ _ Hd). cbn in Hds. apply u8_udigit. lia.
Qed.

(** The digit buffer is large enough for every 32-bit number. *)
Lemma printint_buf_len xx base sgn :
  base = 10 ∨ base = 16 → - 2 ^ 31 ≤ xx < 2 ^ 31 → (length (printint_buf xx base sgn) ≤ 11)%nat.
Proof.
  intros Hb Hx. unfold printint_buf. cbv zeta. set (x := if sgn && (xx <? 0) then _ else _).
  assert (Hx' : 0 ≤ x < 2 ^ 32) by (unfold x, u32; destruct (_ && _); apply Z.mod_pos_bound; lia).
  clearbody x. rewrite length_app.
  assert ((length (int_digits udigit x base) ≤ 10)%nat).
  { destruct Hb as [-> | ->]; apply int_digits_len; cbn; lia. }
  destruct (sgn && (xx <? 0)); cbn [length]; lia.
Qed.

Lemma printint_ok fd xx base (sgn : bool) e s :
  base = 10 ∨ base = 16 → - 2 ^ 31 ≤ xx < 2 ^ 31 → u_writes s = [] →
  printint fd xx base sgn e s =
    Ret tt e (wrote fd (if sgn && (xx <? 0) then 45 :: reverse (int_digits udigit (- xx) base)
                        else reverse (int_digits udigit (u32 xx) base)) s).
Proof.
  intros Hb Hx Hw. pose proof (printint_buf_len xx base sgn Hb Hx) as Hlen. unfold printint. cbv zeta.
  rewrite (proj2 (Nat.ltb_ge _ _)) by lia. rewrite putcs_ok by done. do 2 f_equal. unfold printint_buf. cbv zeta.
  destruct (sgn && (xx <? 0)) eqn:E.
  - apply andb_true_iff in E as [_ ?%Z.ltb_lt]. rewrite reverse_app, fmap_app. rewrite (u32_id (- xx)) by lia.
    rewrite !fmap_reverse, u8_digits by lia. done.
  - rewrite app_nil_r, fmap_reverse, u8_digits; [done|lia|]. apply Z.mod_pos_bound. lia.
Qed.

(** The digits of [printptr]. *)
Lemma printptr_digit x (i : nat) :
  0 ≤ x < 2 ^ 64 → (i < 16)%nat →
  Z.shiftr (x * 16 ^ Z.of_nat i mod 2 ^ 64) 60 = x / 16 ^ (15 - Z.of_nat i) mod 16.
Proof.
  intros Hx Hi. rewrite Z.shiftr_div_pow2 by lia. set (k := 16 ^ Z.of_nat i). set (q := 16 ^ (15 - Z.of_nat i)).
  assert (Hk : 0 < k) by (apply Z.pow_pos_nonneg; lia). assert (Hq : 0 < q) by (apply Z.pow_pos_nonneg; lia).
  assert (Hkq : k * q = 2 ^ 60).
  { unfold k, q. rewrite <-Z.pow_add_r by lia. replace (Z.of_nat i + (15 - Z.of_nat i)) with 15 by lia. done. }
  replace (2 ^ 64) with (k * (q * 16)) by lia. rewrite <-Hkq.
  rewrite (Z.mul_comm x k), Z.mul_mod_distr_l by lia. rewrite Z.div_mul_cancel_l by lia.
  rewrite (Z.rem_mul_r x q 16) by lia. rewrite Z.add_comm, Z.mul_comm, Z.div_add_l by lia.
  rewrite (Z.div_small (x mod q)) by (apply Z.mod_pos_bound; lia). lia.
Qed.

Lemma printptr_loop_ok fd x n i e s :
  0 ≤ x < 2 ^ 64 → (i + n = 16)%nat → u_writes s = [] →
  printptr_loop fd n (x * 16 ^ Z.of_nat i mod 2 ^ 64) e s =
    Ret tt e (wrote fd ((λ j : nat, udigit (x / 16 ^ (15 - Z.of_nat j) mod 16)) <$> seq i n) s).
Proof.
  intros Hx. revert i s. induction n as [|n IH]; intros i s Hi Hw; [cbn; by rewrite wrote_nil|].
  cbn [printptr_loop seq fmap list_fmap]. mrun (putc_ok fd (udigit (Z.shiftr (x * 16 ^ Z.of_nat i mod 2 ^ 64) 60)) e s Hw).
  rewrite printptr_digit by lia. rewrite u8_udigit by (apply Z.mod_pos_bound; lia).
  replace (u64 (Z.shiftl (x * 16 ^ Z.of_nat i mod 2 ^ 64) 4)) with (x * 16 ^ Z.of_nat (S i) mod 2 ^ 64).
  - rewrite IH by (done || lia). by rewrite wrote_app.
  - unfold u64. rewrite Z.shiftl_mul_pow2, Z.mul_mod_idemp_l by lia. f_equal.
    rewrite Nat2Z.inj_succ, Z.pow_succ_r by lia. change (2 ^ 4) with 16. lia.
Qed.

Lemma printptr_ok fd x e s :
  0 ≤ x < 2 ^ 64 → u_writes s = [] → printptr fd x e s = Ret tt e (wrote fd ([48; 120] ++ hex16 x) s).
Proof.
  intros Hx Hw. unfold printptr. mrun (putc_ok fd 48 e s Hw). erewrite bind_Ret; [|by apply putc_ok]. cbv beta.
  rewrite <-(Z.mod_small x (2 ^ 64)) at 1 by done. rewrite <-(Z.mul_1_r x) at 1.
  change 1 with (16 ^ Z.of_nat 0) at 1. rewrite printptr_loop_ok by done. by rewrite !wrote_app.
Qed.

Lemma i32_range x : - 2 ^ 31 ≤ i32 x < 2 ^ 31.
Proof. unfold i32, swrap. change (32 - 1) with 31. pose proof (Z.mod_pos_bound (x + 2 ^ 31) (2 ^ 32)). lia. Qed.
Lemma u32_i32 x : u32 (i32 x) = u32 x.
Proof.
  unfold u32, i32, swrap. change (32 - 1) with 31. rewrite Zminus_mod_idemp_l. f_equal. lia.
Qed.
Lemma u32_u64 x : u32 (u64 x) = u32 x.
Proof.
  unfold u32, u64. change (2 ^ 64) with (2 ^ 32 * 2 ^ 32). rewrite Z.rem_mul_r by lia.
  rewrite Z.mul_comm, Z.mod_add by lia. apply Z.mod_mod. lia.
Qed.

Lemma conversion_ok fd c ap bs ap' e s :
  u_writes s = [] → render_conv c ap = Some (bs, ap') → conversion fd c ap e s = Ret ap' e (wrote fd bs s).
Proof.
  intros Hw. unfold render_conv, conversion.
  destruct (c =? 100); [|destruct (c =? 108); [|destruct (c =? 120); [|destruct (c =? 112);
    [|destruct (c =? 115); [|destruct (c =? 99); [|destruct (c =? 37) eqn:E37]]]]]].
  all: try (destruct ap as [|[v|so] ap]; [done|try done|try done]); intros [= <- <-].
  - erewrite bind_Ret; [|apply printint_ok; [by left|apply i32_range|done]]. unfold dec. cbn [andb].
    destruct (Z.ltb_spec (i32 v) 0); [done|]. rewrite u32_id; [done|]. pose proof (i32_range v). lia.
  - erewrite bind_Ret; [|apply printint_ok; [by left|apply i32_range|done]]. cbn [andb]. unfold dec.
    rewrite u32_i32, u32_u64, (proj2 (Z.ltb_ge _ _)); [done|]. unfold u32. apply Z.mod_pos_bound. lia.
  - erewrite bind_Ret; [|apply printint_ok; [by right|apply i32_range|done]]. cbn [andb]. by rewrite u32_i32.
  - erewrite bind_Ret; [|apply printptr_ok; [apply Z.mod_pos_bound; lia|done]]. done.
  - erewrite bind_Ret; [|by apply putcs_ok]. done.
  - erewrite bind_Ret; [|by apply putc_ok]. unfold u8, u32.
    change (2 ^ 32) with (2 ^ 8 * 2 ^ 24). rewrite Z.rem_mul_r, Z.mul_comm, Z.mod_add, Z.mod_mod by lia. done.
  - erewrite bind_Ret; [|by apply putc_ok]. by apply Z.eqb_eq in E37 as ->.
  - erewrite bind_Ret; [|by apply putc_ok]. erewrite bind_Ret; [|by apply putc_ok]. by rewrite wrote_app.
Qed.

Lemma vprintf_loop_ok fd fmt ap bs e s :
  u_writes s = [] → render fmt ap = Some bs → vprintf_loop fd fmt false ap e s = Ret tt e (wrote fd bs s).
Proof.
  remember (length fmt) as n eqn:Hn. assert (Hle : (length fmt ≤ n)%nat) by lia. clear Hn.
  revert fmt ap bs s Hle. induction n as [|n IH]; intros fmt ap bs s Hle Hw Hr.
  { destruct fmt; [|cbn in Hle; lia]. injection Hr as <-. by rewrite wrote_nil. }
  destruct fmt as [|c fmt]; [injection Hr as <-; by rewrite wrote_nil|]. cbn [render vprintf_loop] in *.
  destruct (c =? 0); [injection Hr as <-; by rewrite wrote_nil|].
  destruct (c =? 37).
  - destruct fmt as [|c' fmt]; [injection Hr as <-; by rewrite wrote_nil|]. cbn [vprintf_loop].
    destruct (c' =? 0); [injection Hr as <-; by rewrite wrote_nil|].
    destruct (render_conv c' ap) as [[b1 ap1]|] eqn:Hc; [|done]. cbn in Hr.
    destruct (render fmt ap1) as [b2|] eqn:H2; [|done]. injection Hr as <-.
    erewrite bind_Ret; [|by apply conversion_ok]. cbn in Hle. erewrite IH; [|lia|done|done]. by rewrite wrote_app.
  - destruct (render fmt ap) as [b2|] eqn:H2; [|done]. injection Hr as <-.
    mrun (putc_ok fd c e s Hw). cbn in Hle. erewrite IH; [|lia|done|done]. by rewrite wrote_app.
Qed.

(** C36: formatted output writes exactly what the format means: for every
    format and argument list that [render] accepts, [fprintf] returns without
    overrunning the digit buffer and the descriptor receives the rendered
    bytes, and no other. *)
Theorem printf_renders fd fmt ap bs e s :
  u_writes s = [] → render fmt ap = Some bs →
  ∃ s', fprintf fd fmt ap e s = Ret tt e s' ∧ output fd s' = output fd s ++ bs ∧ u_fds s' = u_fds s.
Proof.
  intros Hw Hr. exists (wrote fd bs s). unfold fprintf, vprintf. rewrite (vprintf_loop_ok _ _ _ _ _ _ Hw Hr).
  split_and!; [done|apply output_wrote|done].
Qed.

Definition ustate0 : ustate := mkustate ∅ ∅ [] [] [].

(** "%d %x" of 10 and 255 *)
Lemma printf_renders_witness :
  ∃ s', fprintf 2 [37; 100; 32; 37; 120] [VA 10; VA 255] [] ustate0 = Ret tt [] s' ∧
    output 2 s' = output 2 ustate0 ++ [49; 48; 32; 70; 70] ∧ u_fds s' = u_fds ustate0.
Proof. apply printf_renders; vm_compute; reflexivity. Defined.

Lemma dec_atoi n : 0 ≤ n < 2 ^ 31 → atoi (dec n) = n.
Proof.
  intros Hn. unfold dec, atoi. rewrite (proj2 (Z.ltb_ge _ _)) by lia.
  destruct (int_digits_val udigit n 10) as (ds & -> & Hv & Hds & _); [lia|lia|].
  rewrite (list_fmap_ext udigit (λ d, 48 + d)).
  - rewrite <-(app_nil_r (reverse _)). rewrite atoi_digits; [cbn; lia|done|lia|lia].
  - intros i d Hd. rewrite Forall_lookup in Hds. specialize (Hds _ _ Hd). cbn in Hds. unfold udigit.
    by rewrite (proj2 (Z.ltb_lt _ _)) by lia.
Qed.

(** C37: atoi reads back every non-negative number that printf("%d") wrote. *)
Theorem printf_atoi_roundtrip n e s :
  0 ≤ n < 2 ^ 31 → u_writes s = [] →
  ∃ bs s', printf [37; 100] [VA n] e s = Ret tt e s' ∧ output 1 s' = output 1 s ++ bs ∧ atoi bs = n.
Proof.
  intros Hn Hw. exists (dec n), (wrote 1 (dec n) s). split_and!; [|apply output_wrote|by apply dec_atoi].
  unfold printf, vprintf. apply vprintf_loop_ok; [done|]. cbn [render render_conv Z.eqb Pos.eqb mbind option_bind].
  rewrite i32_id by lia. by rewrite app_nil_r.
Qed.

Lemma printf_atoi_roundtrip_witness :
  ∃ bs s', printf [37; 100] [VA 2147483647] [] ustate0 = Ret tt [] s' ∧
    output 1 s' = output 1 ustate0 ++ bs ∧ atoi bs = 2147483647.
Proof. apply printf_atoi_roundtrip; [lia|reflexivity]. Defined.
