(* ===== verification/Ulib.v ===== *)
(** user/ulib.c: the string, memory and input routines of user programs.

    Memory is a map from addresses to bytes as in Mem.v; a [char*] that is
    only read is the list of the bytes from the pointer on, the end of the
    list reading as NUL.  [atoi] is in Print.v. *)

From S2P Require Import Prelude Mem KString User Print.

(** * The code *)

(** The bytes stored by the loop that copies up to and with the NUL. *)
Fixpoint strcpy_bytes (t : list Z) : list Z :=
  match t with
  | [] => [0]
  | c :: t' => if c =? 0 then [0] else c :: strcpy_bytes t'
  end.
Definition strcpy (s t : list Z) : list Z := list_inserts 0 (strcpy_bytes t) s.

Fixpoint strcmp (p q : list Z) : Z :=
  match p with
  | [] => 0 - hd 0 q
  | c :: p' =>
      if negb (c =? 0) && (c =? hd 0 q) then strcmp p' (tail q) else c - hd 0 q
  end.

Fixpoint strlen (s : list Z) : Z :=
  match s with [] => 0 | c :: s' => if c =? 0 then 0 else 1 + strlen s' end.

Definition memset (m : mem) (dst c n : Z) : mem :=
  foldl (λ m i, stb m (dst + i) c) m (seqZ 0 n).

(** [strchr] returns the offset of the character. *)
Fixpoint strchr (s : list Z) (c : Z) : option nat :=
  match s with
  | [] => None
  | x :: s' => if x =? 0 then None else if x =? c then Some O else S <$> strchr s' c
  end.

(** One turn of the loop of [gets]; the bytes stored so far. *)
Definition gets_turn (max : Z) (acc : list Z) : U (list Z + list Z) :=
  if Z.of_nat (length acc) + 1 <? max then
    r <- read 0 1 ;;
    if r.1 <? 1 then ret (inr acc)
    else
      let c := hd 0 r.2 in
      if (c =? 10) || (c =? 13) then ret (inr (acc ++ [c])) else ret (inl (acc ++ [c]))
  else ret (inr acc).
(** The buffer afterwards. *)
Definition gets (buf : list Z) (max : Z) : U (list Z) :=
  acc <- loop (gets_turn max) [] ;; ret (list_inserts 0 (acc ++ [0]) buf).

Definition memmove (m : mem) (vdst vsrc n : Z) : mem :=
  if vsrc >? vdst then copy_up m vdst vsrc (Z.to_nat n)
  else copy_down m (vdst + n) (vsrc + n) (Z.to_nat n).

Fixpoint memcmp (m : mem) (s1 s2 : Z) (n : nat) : Z :=
  match n with
  | O => 0
  | S n' =>
      if negb (ldb m s1 =? ldb m s2) then ldb m s1 - ldb m s2
      else memcmp m (s1 + 1) (s2 + 1) n'
  end.
Definition memcpy (m : mem) (dst src n : Z) : mem := memmove m dst src n.

(** * Specifications *)

Lemma strlen_cbytes s : strlen s = Z.of_nat (length (cbytes s)).
Proof. induction s as [|c s IH]; cbn [strlen cbytes]; [done|]. destruct (c =? 0); cbn [length]; lia. Qed.

Lemma strcpy_bytes_eq t : strcpy_bytes t = cbytes t ++ [0].
Proof. induction t as [|c t IH]; cbn; [done|]. destruct (c =? 0); cbn; congruence. Qed.

Lemma strcmp_zero p q : strcmp p q = 0 ↔ cbytes p = cbytes q.
Proof.
  revert q. induction p as [|c p IH]; intros q; cbn [strcmp cbytes].
  - destruct q as [|d q]; cbn; [done|]. destruct (Z.eqb_spec d 0); split; try done; lia.
  - destruct q as [|d q]; cbn [hd tail cbytes].
    + destruct (Z.eqb_spec c 0) as [->|Hc]; cbn [negb andb]; [done|]. split; [lia|done].
    + destruct (Z.eqb_spec c 0) as [->|Hc]; cbn [negb andb].
      * destruct (Z.eqb_spec d 0); split; try done; lia.
      * destruct (Z.eqb_spec c d) as [->|Hcd].
        -- rewrite IH, (proj2 (Z.eqb_neq _ _)) by done. split; [by intros ->|by intros [= ->]].
        -- destruct (Z.eqb_spec d 0); split; try lia; try done. by intros [= ? ?].
Qed.

Lemma cbytes_app_0 l r : Forall (λ c, c ≠ 0) l → cbytes (l ++ 0 :: r) = l.
Proof. induction 1 as [|c l Hc Hl IH]; cbn; [done|]. by rewrite (proj2 (Z.eqb_neq _ _)), IH. Qed.
Lemma cbytes_nonzero s : Forall (λ c, c ≠ 0) (cbytes s).
Proof. induction s as [|c s IH]; cbn; [constructor|]. destruct (Z.eqb_spec c 0); by constructor. Qed.

(** Copying with [strcpy] makes the two strings equal. *)
Lemma strcpy_ok s t :
  strlen t < Z.of_nat (length s) → length (strcpy s t) = length s ∧ strcmp (strcpy s t) t = 0.
Proof.
  intros Hlen. rewrite strlen_cbytes in Hlen. split; [apply length_inserts|].
  apply strcmp_zero. unfold strcpy. rewrite strcpy_bytes_eq, inserts_splice by (rewrite length_app; cbn; lia).
  cbn [take app]. rewrite <-app_assoc. apply cbytes_app_0, cbytes_nonzero.
Qed.

(** [strchr] finds the first occurrence. *)
Lemma strchr_spec s c :
  c ≠ 0 →
  match strchr s c with
  | Some i => cbytes s !! i = Some c ∧ c ∉ take i (cbytes s)
  | None => c ∉ cbytes s
  end.
Proof.
  intros Hc. induction s as [|x s IH]; cbn [strchr cbytes]; [set_solver|].
  destruct (Z.eqb_spec x 0) as [->|Hx]; [set_solver|]. destruct (Z.eqb_spec x c) as [->|Hxc]; [cbn; set_solver|].
  destruct (strchr s c) as [i|]; cbn; set_solver.
Qed.

(** The user library's memmove and the kernel's are the same function on
    memory, although they choose the direction of the copy by different
    tests. *)
Lemma memmove_same m dst src n x :
  0 ≤ n → ldb (memmove m dst src n) x = ldb (KString.memmove m dst src n) x.
Proof.
  intros Hn. rewrite ldb_memmove by done. unfold memmove. destruct (Z.gtb_spec src dst).
  - rewrite ldb_copy_up by lia. by rewrite Z2Nat.id by lia.
  - rewrite ldb_copy_down by lia. rewrite Z2Nat.id by lia. repeat case_decide; try (f_equal; lia); lia.
Qed.

(** ** gets *)

(** The first line of the input, at most [n] bytes of it. *)
Fixpoint line_of (n : nat) (inp : list Z) : list Z :=
  match n, inp with
  | S n', c :: inp' => c :: (if (c =? 10) || (c =? 13) then [] else line_of n' inp')
  | _, _ => []
  end.

Lemma line_of_nil n : line_of n [] = [].
Proof. by destruct n. Qed.

Lemma read_one fd inp e s :
  u_fds s !! fd = Some inp →
  ∃ s', read fd 1 e s = Ret (Z.of_nat (length (take 1 inp)), take 1 inp) e s' ∧
    u_fds s' = <[fd := drop 1 inp]> (u_fds s).
Proof.
  intros Hfd. unfold read. rewrite Hfd.
  assert (Hk : Z.to_nat (read_size (u_reads s) 1) = 1%nat) by (unfold read_size; destruct (u_reads s); lia).
  rewrite Hk. by eexists.
Qed.

Lemma gets_loop max inp e s :
  u_fds s !! 0 = Some inp → 0 ≤ max < 2 ^ 31 →
  ∃ s', loop (gets_turn max) [] e s = Ret (line_of (Z.to_nat (max - 1)) inp) e s' ∧
    u_fds s' = <[0 := drop (length (line_of (Z.to_nat (max - 1)) inp)) inp]> (u_fds s).
Proof.
  intros Hfd Hmax. set (ln := line_of (Z.to_nat (max - 1)) inp).
  destruct (loop_measure (gets_turn max) (λ acc _ _, max - Z.of_nat (length acc))
    (λ acc e' s', e' = e ∧ ∃ rest, u_fds s' = <[0 := rest]> (u_fds s) ∧ inp = acc ++ rest ∧
       (Z.of_nat (length acc) < Z.max 1 max) ∧
       ln = acc ++ line_of (Z.to_nat (max - 1 - Z.of_nat (length acc))) rest)
    (λ v e' s', e' = e ∧ v = ln ∧ u_fds s' = <[0 := drop (length ln) inp]> (u_fds s)) [] e s)
    as (v & e' & s' & Hr & -> & -> & Hs).
  - intros acc e' s' (-> & rest & Hs' & Hinp & Hlen & Hln). split; [lia|]. unfold gets_turn.
    destruct (Z.ltb_spec (Z.of_nat (length acc) + 1) max) as [Hlt|Hge].
    2: { exists (inr acc), e, s'. split; [done|]. split_and!; [done| |].
         - rewrite Hln. replace (Z.to_nat (max - 1 - Z.of_nat (length acc))) with O by lia. cbn. by rewrite app_nil_r.
         - rewrite Hs', Hln. replace (Z.to_nat (max - 1 - Z.of_nat (length acc))) with O by lia.
           cbn. rewrite app_nil_r, Hinp, drop_app_length. done. }
    destruct (read_one 0 rest e s') as (s2 & Hr2 & Hs2); [by rewrite Hs', lookup_insert_eq|].
    mrun Hr2. cbn [fst snd]. rewrite Hs', insert_insert_eq in Hs2.
    destruct rest as [|c rest]; cbn [take drop length hd] in *.
    + exists (inr acc), e, s2. split; [done|].
      assert (Hla : ln = acc) by (rewrite Hln, line_of_nil; apply app_nil_r).
      rewrite app_nil_r in Hinp. split_and!; [done|by rewrite Hla|]. rewrite Hs2, Hla, Hinp, drop_all. done.
    + replace (Z.to_nat (max - 1 - Z.of_nat (length acc))) with (S (Z.to_nat (max - 2 - Z.of_nat (length acc)))) in Hln by lia.
      cbn [line_of] in Hln. destruct ((c =? 10) || (c =? 13)) eqn:Ec.
      * exists (inr (acc ++ [c])), e, s2. split; [reflexivity|].
        split_and!; [done|done|]. rewrite Hs2, Hln, Hinp. change (acc ++ c :: rest) with (acc ++ [c] ++ rest).
        by rewrite app_assoc, drop_app_length.
      * exists (inl (acc ++ [c])), e, s2. split; [reflexivity|].
        rewrite length_app. cbn [length]. split; [|lia]. split; [done|]. exists rest.
        split_and!; [done|by rewrite <-app_assoc|lia|].
        rewrite Hln, <-app_assoc. cbn. do 3 f_equal. lia.
  - split; [done|]. exists inp. rewrite insert_id by done. cbn. split_and!; [done|done|lia|].
    unfold ln. do 2 f_equal. lia.
  - cbn. lia.
  - exists s'. done.
Qed.

(** C38: gets reads exactly the first line of its input, including its line
    terminator and at most [max - 1] bytes of it, stores it NUL-terminated in
    the buffer, and leaves the rest of the input to be read. *)
Theorem gets_first_line buf max inp e s :
  u_fds s !! 0 = Some inp → 0 < max < 2 ^ 31 → Z.of_nat (length buf) = max →
  ∃ buf' s', gets buf max e s = Ret buf' e s' ∧ length buf' = length buf ∧
    take (length (line_of (Z.to_nat max - 1) inp) + 1) buf' = line_of (Z.to_nat max - 1) inp ++ [0] ∧
    u_fds s' !! 0 = Some (drop (length (line_of (Z.to_nat max - 1) inp)) inp).
Proof.
  intros Hfd Hmax Hbuf. destruct (gets_loop max inp e s Hfd) as (s' & Hr & Hs'); [lia|].
  replace (Z.to_nat (max - 1)) with (Z.to_nat max - 1)%nat in * by lia.
  set (ln := line_of (Z.to_nat max - 1) inp) in *.
  assert (Hln : (length ln ≤ Z.to_nat max - 1)%nat).
  { unfold ln. clear. generalize (Z.to_nat max - 1)%nat. intros n. revert inp. induction n as [|n IH]; intros [|c inp]; cbn; try lia.
    destruct (_ || _); cbn; [lia|]. specialize (IH inp). lia. }
  unfold gets. mrun Hr. eexists _, s'. split; [reflexivity|]. split_and!; [apply length_inserts| |].
  - rewrite inserts_splice by (rewrite length_app; cbn; lia). rewrite take_0, app_nil_l.
    replace (length ln + 1)%nat with (length (ln ++ [0])) by (by rewrite length_app). apply take_app_length.
  - by rewrite Hs', lookup_insert_eq.
Qed.

Lemma gets_first_line_witness :
  ∃ buf' s', gets (replicate 8 7) 8 [] (mkustate {[0 := [104; 105; 10; 120]]} ∅ [] [] []) = Ret buf' [] s' ∧
    length buf' = 8%nat ∧ take 4 buf' = [104; 105; 10; 0] ∧ u_fds s' !! 0 = Some [120].
Proof.
  apply (gets_first_line (replicate 8 7) 8 [104; 105; 10; 120] []); [reflexivity|lia|reflexivity].
Defined.
