(* ===== verification/Grep.v ===== *)
(** user/grep.c: the regular-expression matcher and the line reader.

    [match_re] and its helpers are the code; [sem] says what a parsed pattern
    means, and [match_correct] relates the two.  The reader is proved to print
    exactly the matching lines, whatever the sizes of the reads, up to the
    first line that does not fit the buffer ([until_long]). *)

From S2P Require Import Prelude Mem User Print Uprintf Ulib.

(** * The matcher *)

(** [matchhere] and [matchstar]; a string is the list of its bytes up to the
    NUL.  The inner recursion is [matchstar]'s loop over the text. *)
Definition starloop (c : Z) (here : list Z → bool) : list Z → bool :=
  fix star (text : list Z) : bool :=
    if here text then true
    else match text with
         | [] => false
         | t :: text' => if (t =? c) || (c =? 46) then star text' else false
         end.

Fixpoint matchhere (re text : list Z) : bool :=
  match re with
  | [] => true
  | c :: re1 =>
      match re1 with
      | 42 :: re2 => starloop c (matchhere re2) text
      | _ =>
          if (c =? 36) && (match re1 with [] => true | _ => false end)
          then match text with [] => true | _ => false end
          else match text with
               | [] => false
               | t :: text' => if (c =? 46) || (c =? t) then matchhere re1 text' else false
               end
      end
  end.
Definition matchstar (c : Z) (re text : list Z) : bool := starloop c (matchhere re) text.

(** [match]: the loop over the starting positions. *)
Fixpoint match_loop (re text : list Z) : bool :=
  if matchhere re text then true
  else match text with [] => false | _ :: text' => match_loop re text' end.
Definition match_re (re text : list Z) : bool :=
  match re with
  | 94 :: re' => matchhere re' text
  | _ => match_loop re text
  end.

(** * What a pattern means *)

Inductive item : Type := One (c : Z) | Star (c : Z) | AtEnd.

Fixpoint parse (re : list Z) : list item :=
  match re with
  | [] => []
  | c :: re1 =>
      match re1 with
      | 42 :: re2 => Star c :: parse re2
      | [] => if c =? 36 then [AtEnd] else [One c]
      | _ => One c :: parse re1
      end
  end.

(** The character [x] matches [c]: '.' matches any. *)
Definition chr (c x : Z) : Prop := c = 46 ∨ c = x.

(** The pattern matches at the beginning of the text. *)
Fixpoint sem (l : list item) (text : list Z) : Prop :=
  match l with
  | [] => True
  | One c :: l' => ∃ x t, text = x :: t ∧ chr c x ∧ sem l' t
  | Star c :: l' => ∃ u v, text = u ++ v ∧ Forall (chr c) u ∧ sem l' v
  | AtEnd :: l' => text = [] ∧ sem l' text
  end.

(** '^' anchors the match; otherwise it may start anywhere. *)
Definition sem_match (re text : list Z) : Prop :=
  match re with
  | 94 :: re' => sem (parse re') text
  | _ => ∃ u v, text = u ++ v ∧ sem (parse re) v
  end.

(** * Correctness *)

Lemma starloop_ok c here text :
  starloop c here text = true ↔ ∃ u v, text = u ++ v ∧ Forall (chr c) u ∧ here v = true.
Proof.
  induction text as [|t text IH]; cbn.
  - destruct (here []) eqn:E; split; try done.
    + intros _. exists [], []. by split_and!.
    + intros (u & v & H & _ & Hv). apply eq_sym, app_nil in H as [-> ->]. congruence.
  - destruct (here (t :: text)) eqn:E.
    { split; [|done]. intros _. exists [], (t :: text). by split_and!. }
    destruct ((t =? c) || (c =? 46)) eqn:Ec.
    + rewrite IH. assert (Hc : chr c t).
      { apply orb_true_iff in Ec as [->%Z.eqb_eq| ->%Z.eqb_eq]; [by right|by left]. }
      split; intros (u & v & H & Hu & Hv).
      * exists (t :: u), v. rewrite H. split_and!; [done|by constructor|done].
      * destruct u as [|x u]; cbn in H; [subst v; congruence|]. injection H as <- ->.
        exists u, v. apply Forall_cons in Hu as [_ Hu]. done.
    + split; [done|]. intros (u & v & H & Hu & Hv). destruct u as [|x u]; cbn in H; [subst v; congruence|].
      injection H as <- ->. apply Forall_cons in Hu as [[->|Hx] _].
      * rewrite orb_true_r in Ec. done.
      * rewrite Hx, Z.eqb_refl in Ec. done.
Qed.

Lemma one_ok c t : ((c =? 46) || (c =? t)) = true ↔ chr c t.
Proof. rewrite orb_true_iff, !Z.eqb_eq. done. Qed.

(** A pattern that does not continue with a star. *)
Lemma matchhere_one c re1 text :
  hd 0 re1 ≠ 42 → ¬ (c = 36 ∧ re1 = []) →
  matchhere (c :: re1) text = match text with [] => false | t :: text' => ((c =? 46) || (c =? t)) && matchhere re1 text' end.
Proof.
  intros H1 H2. cbn [matchhere]. destruct re1 as [|d re1].
  - destruct (Z.eqb_spec c 36); [tauto|]. cbn [andb]. destruct text; [done|]. by destruct (_ || _).
  - cbn in H1. rewrite andb_false_r.
    destruct text as [|t text]; [|destruct ((c =? 46) || (c =? t)); cbn [andb]].
    all: destruct d as [|d|d]; try done; do 6 (try (destruct d as [d|d|]; try done)).
Qed.
Lemma parse_one c re1 :
  hd 0 re1 ≠ 42 → ¬ (c = 36 ∧ re1 = []) → parse (c :: re1) = One c :: parse re1.
Proof.
  intros H1 H2. cbn [parse]. destruct re1 as [|d re1]; [destruct (Z.eqb_spec c 36); [tauto|done]|]. cbn in H1.
  destruct d as [|d|d]; try done; do 6 (try (destruct d as [d|d|]; try done)).
Qed.

Lemma matchhere_ok re text : matchhere re text = true ↔ sem (parse re) text.
Proof.
  remember (length re) as n eqn:Hn. assert (Hle : (length re ≤ n)%nat) by lia. clear Hn.
  revert re text Hle. induction n as [|n IH]; intros re text Hle.
  { destruct re; [done|cbn in Hle; lia]. }
  destruct re as [|c re1]; [done|]. cbn [length] in Hle.
  destruct (decide (hd 0 re1 = 42)) as [Hs|Hs].
  { destruct re1 as [|d re2]; [done|]. cbn in Hs. subst d. cbn [length] in Hle.
    change (matchhere (c :: 42 :: re2) text) with (starloop c (matchhere re2) text).
    change (parse (c :: 42 :: re2)) with (Star c :: parse re2). rewrite starloop_ok. cbn [sem].
    split; intros (u & v & ? & ? & Hv); exists u, v; (split_and!; [done|done|]); apply IH in Hv; (done || lia). }
  destruct (decide (c = 36 ∧ re1 = [])) as [[-> ->]|Hd].
  { cbn. destruct text; split; try done. by intros [? _]. }
  rewrite matchhere_one, parse_one by done. cbn [sem]. destruct text as [|t text].
  - split; [done|]. by intros (? & ? & ? & _).
  - rewrite andb_true_iff, one_ok, IH by lia. split.
    + intros [? ?]. by exists t, text.
    + by intros (? & ? & [= <- <-] & ? & ?).
Qed.

Lemma match_loop_ok re text : match_loop re text = true ↔ ∃ u v, text = u ++ v ∧ sem (parse re) v.
Proof.
  induction text as [|t text IH]; cbn.
  - destruct (matchhere re []) eqn:E.
    + split; [|done]. intros _. exists [], []. apply matchhere_ok in E. done.
    + split; [done|]. intros (u & v & H & Hv). apply eq_sym, app_nil in H as [-> ->].
      apply matchhere_ok in Hv. congruence.
  - destruct (matchhere re (t :: text)) eqn:E.
    + split; [|done]. intros _. exists [], (t :: text). apply matchhere_ok in E. done.
    + rewrite IH. split; intros (u & v & H & Hv).
      * exists (t :: u), v. by rewrite H.
      * destruct u as [|x u]; cbn in H; [subst v; apply matchhere_ok in Hv; congruence|].
        injection H as <- ->. by exists u, v.
Qed.

Lemma sem_match_other re text :
  hd 0 re ≠ 94 → sem_match re text ↔ ∃ u v, text = u ++ v ∧ sem (parse re) v.
Proof.
  intros H. destruct re as [|c re]; [done|]. cbn in H. unfold sem_match.
  destruct c as [|c|c]; try done; do 7 (try (destruct c as [c|c|]; try done)).
Qed.
Lemma match_re_other re text : hd 0 re ≠ 94 → match_re re text = match_loop re text.
Proof.
  intros H. destruct re as [|c re]; [done|]. cbn in H. unfold match_re.
  destruct c as [|c|c]; try done; do 7 (try (destruct c as [c|c|]; try done)).
Qed.

Lemma match_re_ok re text : match_re re text = true ↔ sem_match re text.
Proof.
  destruct (decide (hd 0 re = 94)) as [H|H].
  - destruct re as [|c re]; [done|]. cbn in H. subst c. apply matchhere_ok.
  - rewrite match_re_other, sem_match_other by done. apply match_loop_ok.
Qed.

(** C34: the matcher decides the language of the pattern: it returns true
    exactly when the text has a substring (anchored at the start by '^' and at
    the end by '$') that the pattern's sequence of characters, dots and
    starred items describes; it terminates on every input. *)
Theorem match_correct re text : match_re re text = true ↔ sem_match re text.
Proof. apply match_re_ok. Qed.

(** * The line reader *)

(** One line of the buffer, from offset [p]: its newline is replaced by a NUL
    for the match, and put back before the line is written. *)
Definition line_turn (pattern : list Z) (st : nat * list Z) : U (nat * list Z + nat * list Z) :=
  let '(p, buf) := st in
  match strchr (drop p buf) 10 with
  | None => ret (inr (p, buf))
  | Some k =>
      let q := (p + k)%nat in
      let buf := <[q := 0]> buf in
      if match_re pattern (cbytes (drop p buf)) then
        let buf := <[q := 10]> buf in
        write 1 (take (q + 1 - p) (drop p buf)) ;;; ret (inl ((q + 1)%nat, buf))
      else ret (inl ((q + 1)%nat, buf))
  end.

(** One turn of [grep]'s loop: [m] bytes of an unfinished line are at the
    start of the buffer. *)
Definition grep_turn (pattern : list Z) (fd : Z) (st : nat * list Z) : U (nat * list Z + unit) :=
  let '(m, buf) := st in
  r <- read fd (1024 - Z.of_nat m - 1) ;;
  if r.1 <=? 0 then ret (inr tt) else
  let buf := list_inserts m r.2 buf in
  let m := (m + length r.2)%nat in
  let buf := <[m := 0]> buf in
  pb <- loop (line_turn pattern) (0%nat, buf) ;;
  let '(p, buf) := pb in
  if (0 <? m)%nat then
    let m := (m - p)%nat in
    ret (inl (m, list_inserts 0 (take m (drop p buf)) buf))
  else ret (inl (m, buf)).

Definition grep (pattern : list Z) (fd : Z) : U unit :=
  loop (grep_turn pattern fd) (0%nat, replicate 1024 0).

Definition usage_msg : list Z :=
  [117; 115; 97; 103; 101; 58; 32; 103; 114; 101; 112; 32; 112; 97; 116; 116; 101; 114; 110; 32;
   91; 102; 105; 108; 101; 32; 46; 46; 46; 93; 10]. (* "usage: grep pattern [file ...]\n" *)
Definition cannot_open_msg : list Z :=
  [103; 114; 101; 112; 58; 32; 99; 97; 110; 110; 111; 116; 32; 111; 112; 101; 110; 32; 37; 115; 10]. (* "grep: cannot open %s\n" *)

(** [main]; the value is the exit status. *)
Definition grep_main (argv : list (list Z)) : U Z :=
  match argv with
  | [] | [_] => fprintf 2 usage_msg [] ;;; ret 1
  | [_; pattern] => grep pattern 0 ;;; ret 0
  | _ :: pattern :: files =>
      r <- for_in files (λ f,
        fd <- open f 0 ;;
        if fd <? 0 then printf cannot_open_msg [VAs (Some f)] ;;; ret (Some 1)
        else grep pattern fd ;;; close fd ;;; ret None) ;;
      ret (default 0 r)
  end.

(** ** What it prints *)

(** The complete lines of the input, without their newlines. *)
Fixpoint lines_from (acc inp : list Z) : list (list Z) :=
  match inp with
  | [] => []
  | c :: inp' => if c =? 10 then acc :: lines_from [] inp' else lines_from (acc ++ [c]) inp'
  end.
Definition lines (inp : list Z) : list (list Z) := lines_from [] inp.
(** The lines before the first one that does not fit the buffer. *)
Fixpoint until_long (ls : list (list Z)) : list (list Z) :=
  match ls with
  | [] => []
  | l :: ls => if (length l <=? 1022)%nat then l :: until_long ls else []
  end.
(** What [grep] prints of the input: it sees the input up to its first NUL. *)
Definition grep_out (pattern inp : list Z) : list Z :=
  concat ((λ l, if match_re pattern l then l ++ [10] else []) <$> until_long (lines (cbytes inp))).

Lemma lines_from_app l acc inp : 10 ∉ l → lines_from acc (l ++ inp) = lines_from (acc ++ l) inp.
Proof.
  revert acc. induction l as [|c l IH]; intros acc Hl; [by rewrite app_nil_r|]. cbn.
  destruct (Z.eqb_spec c 10) as [->|]; [set_solver|]. rewrite IH by set_solver. by rewrite <-app_assoc.
Qed.
Lemma lines_from_long acc inp : (1022 < length acc)%nat → until_long (lines_from acc inp) = [].
Proof.
  revert acc. induction inp as [|c inp IH]; intros acc Hl; [done|]. cbn [lines_from]. destruct (c =? 10).
  - cbn [until_long]. by rewrite (proj2 (Nat.leb_gt _ _)) by lia.
  - apply IH. rewrite length_app. lia.
Qed.
Lemma cbytes_app l r : Forall (λ c, c ≠ 0) l → cbytes (l ++ r) = l ++ cbytes r.
Proof. induction 1 as [|c l Hc _ IH]; [done|]. cbn. rewrite (proj2 (Z.eqb_neq c 0)) by done. by rewrite IH. Qed.
Lemma cbytes_cases l : Forall (λ c, c ≠ 0) l ∨ ∀ r, cbytes (l ++ r) = cbytes l.
Proof.
  induction l as [|c l IH]; [by left; constructor|]. cbn. destruct (Z.eqb_spec c 0) as [->|Hc]; [by right|].
  destruct IH as [IH|IH]; [left; by constructor|right]. intros r. by rewrite IH.
Qed.

Lemma grep_out_line pattern l inp :
  10 ∉ l → Forall (λ c, c ≠ 0) l → (length l ≤ 1022)%nat →
  grep_out pattern (l ++ 10 :: inp) = (if match_re pattern l then l ++ [10] else []) ++ grep_out pattern inp.
Proof.
  intros Hl Hnz Hlen. unfold grep_out, lines. rewrite cbytes_app by done. rewrite lines_from_app by done.
  cbn [cbytes app Z.eqb Pos.eqb lines_from until_long]. by rewrite (proj2 (Nat.leb_le _ _)) by lia.
Qed.
Lemma grep_out_partial pattern l : 10 ∉ cbytes l → grep_out pattern l = [].
Proof. intros Hl. unfold grep_out, lines. rewrite <-(app_nil_r (cbytes l)). by rewrite lines_from_app by done. Qed.
(** A buffer that is full of an unfinished line. *)
Lemma grep_out_full pattern l rest : 10 ∉ cbytes l → (1022 < length l)%nat → grep_out pattern (l ++ rest) = [].
Proof.
  intros Hl Hlen. destruct (cbytes_cases l) as [Hnz|Hnul].
  - assert (Hl' : 10 ∉ l) by (by rewrite <-(app_nil_r l), cbytes_app, app_nil_r in Hl).
    unfold grep_out, lines. rewrite cbytes_app, lines_from_app, lines_from_long by done. done.
  - unfold grep_out. rewrite Hnul. by apply grep_out_partial.
Qed.

(** ** The lines of the buffer *)

(** Data [D] at offset [p], followed by a NUL. *)
Definition holds (buf : list Z) (p : nat) (D : list Z) : Prop :=
  length buf = 1024%nat ∧ (p + length D < 1024)%nat ∧ take (length D + 1) (drop p buf) = D ++ [0].

Lemma holds_split buf p D : holds buf p D → ∃ r, drop p buf = D ++ 0 :: r.
Proof.
  intros (_ & _ & H). exists (drop (length D + 1) (drop p buf)).
  rewrite <-(take_drop (length D + 1) (drop p buf)) at 1. rewrite H. by rewrite <-app_assoc.
Qed.

Lemma strchr_none l r : 10 ∉ cbytes l → strchr (l ++ 0 :: r) 10 = None.
Proof.
  induction l as [|c l IH]; [done|]. cbn. destruct (c =? 0); [done|]. intros Hl.
  rewrite (proj2 (Z.eqb_neq c 10)) by set_solver. rewrite IH by set_solver. done.
Qed.
Lemma strchr_some l r : 10 ∉ l → Forall (λ c, c ≠ 0) l → strchr (l ++ 10 :: r) 10 = Some (length l).
Proof.
  intros Hl. induction 1 as [|c l Hc Hnz IH]; [done|]. cbn.
  rewrite (proj2 (Z.eqb_neq c 0)) by done. rewrite (proj2 (Z.eqb_neq c 10)) by set_solver. rewrite IH by set_solver. done.
Qed.

(** The first newline of some data. *)
Lemma first_newline (D : list Z) : 10 ∈ cbytes D → ∃ l D', D = l ++ 10 :: D' ∧ (10 ∉ l) ∧ Forall (λ c, c ≠ 0) l.
Proof.
  induction D as [|c D IH]; [by intros ?%not_elem_of_nil|]. cbn. destruct (Z.eqb_spec c 0) as [->|Hz]; [by intros ?%not_elem_of_nil|].
  destruct (decide (c = 10)) as [->|Hc].
  - intros _. exists [], D. split_and!; [done|apply not_elem_of_nil|constructor].
  - intros Hin. destruct IH as (l & D' & -> & Hl & Hnz); [set_solver|]. exists (c :: l), D'. split_and!; [done|set_solver|by constructor].
Qed.

Lemma drop_insert_at (buf : list Z) p (l r : list Z) x y :
  drop p buf = l ++ x :: r → drop p (<[(p + length l)%nat := y]> buf) = l ++ y :: r.
Proof.
  intros H. pose proof (f_equal length H) as Hlen. rewrite length_drop, length_app in Hlen. cbn in Hlen.
  assert (Hp : length (take p buf) = p) by (rewrite length_take; lia).
  rewrite <-(take_drop p buf), H at 1. rewrite insert_app_r_alt by lia. rewrite drop_app_length' by done.
  replace (p + length l - length (take p buf))%nat with (length l + 0)%nat by lia. by rewrite insert_app_r.
Qed.

Lemma line_turns pattern rest D p buf e s out0 :
  holds buf p D → u_writes s = [] → out0 = output 1 s ++ grep_out pattern (D ++ rest) →
  ∃ D' p' buf' s', loop (line_turn pattern) (p, buf) e s = Ret (p', buf') e s' ∧
    holds buf' p' D' ∧ (p + length D = p' + length D')%nat ∧ (10 ∉ cbytes D') ∧
    (∃ u, D = u ++ D') ∧ s' = set_u_out (u_out s') s ∧ out0 = output 1 s' ++ grep_out pattern (D' ++ rest).
Proof.
  intros Hh Hw Hout. remember (p + length D)%nat as tot eqn:Htot.
  destruct (loop_measure (line_turn pattern) (λ st _ _, 1024 - Z.of_nat st.1)
    (λ st e' s', e' = e ∧ ∃ D', holds st.2 st.1 D' ∧ (tot = st.1 + length D')%nat ∧
       (∃ u, D = u ++ D') ∧ s' = set_u_out (u_out s') s ∧ out0 = output 1 s' ++ grep_out pattern (D' ++ rest))
    (λ st e' s', e' = e ∧ ∃ D', holds st.2 st.1 D' ∧ (tot = st.1 + length D')%nat ∧
       (10 ∉ cbytes D') ∧ (∃ u, D = u ++ D') ∧ s' = set_u_out (u_out s') s ∧ out0 = output 1 s' ++ grep_out pattern (D' ++ rest))
    (p, buf) e s) as ([p' buf'] & e' & s' & Hr & -> & D' & H); [| |cbn; lia|by exists D', p', buf', s'].
  2: { split; [done|]. exists D. split_and!; try done; [by exists []|by destruct s]. }
  clear p buf Hh Hout Htot. intros [p buf] e' s1 (-> & D1 & Hh & Hp & [u Hu] & Hs1 & Hout).
  cbn [fst snd] in *. pose proof Hh as (Hb1 & Hb2 & _). split; [lia|].
  destruct (holds_split _ _ _ Hh) as [r Hdrop]. cbn [line_turn]. rewrite Hdrop.
  destruct (decide (10 ∈ cbytes D1)) as [Hin|Hni].
  2: { rewrite strchr_none by done. exists (inr (p, buf)), e, s1. split; [done|]. split; [done|]. exists D1.
       split_and!; try done. by exists u. }
  destruct (first_newline _ Hin) as (l & D2 & -> & Hl & Hlnz). rewrite <-app_assoc in Hdrop |- *. cbn [app] in Hdrop |- *.
  rewrite strchr_some by done. cbv zeta.
  pose proof (drop_insert_at _ _ _ _ _ 0 Hdrop) as Hd0. rewrite Hd0, cbytes_app_0 by done.
  pose proof (drop_insert_at _ _ _ _ _ 10 Hd0) as Hd1.
  rewrite length_app in Hb2, Hp. cbn [length] in Hb2, Hp.
  assert (Hdrop2 : ∀ b x, length b = 1024%nat → drop p b = l ++ x :: (D2 ++ 0 :: r) → holds b (p + length l + 1) D2).
  { intros b x Hlb Hb. split_and!; [done|lia|]. rewrite <-Nat.add_assoc, <-drop_drop, Hb.
    change (l ++ x :: (D2 ++ 0 :: r)) with (l ++ [x] ++ (D2 ++ 0 :: r)).
    rewrite app_assoc, drop_app_length' by (by rewrite length_app).
    change (D2 ++ 0 :: r) with (D2 ++ [0] ++ r). rewrite app_assoc, take_app_length' by (by rewrite length_app). done. }
  rewrite <-app_assoc in Hout. cbn [app] in Hout. rewrite grep_out_line in Hout by (done || lia).
  assert (Hu2 : ∃ u', D = u' ++ D2) by (exists (u ++ l ++ [10]); rewrite Hu, <-!app_assoc; done).
  destruct (match_re pattern l).
  - assert (Hw1 : u_writes s1 = []) by (by rewrite Hs1).
    exists (inl ((p + length l + 1)%nat, <[(p + length l)%nat := 10]> (<[(p + length l)%nat := 0]> buf))), e.
    eexists. split; [unfold bind, write; rewrite Hw1; reflexivity|]. split; [|cbn; lia]. split; [done|]. exists D2. cbn [fst snd].
    split_and!; [eapply Hdrop2; [by rewrite !length_insert|done]|lia|done|clear -Hs1 Hw; destruct s, s1; unfold set_u_out, set_u_writes in *; cbn in *; by simplify_eq|].
    rewrite Hd1. replace (p + length l + 1 - p)%nat with (length (l ++ [10])) by (rewrite length_app; cbn; lia).
    change (l ++ 10 :: (D2 ++ 0 :: r)) with (l ++ [10] ++ (D2 ++ 0 :: r)). rewrite app_assoc, take_app_length.
    rewrite (output_app 1 1 (l ++ [10]) s1); [rewrite decide_True by done; by rewrite Hout, <-!app_assoc|].
    cbn. unfold write_size. rewrite Nat2Z.id, take_ge by done. done.
  - exists (inl ((p + length l + 1)%nat, <[(p + length l)%nat := 0]> buf)), e, s1.
    split; [done|]. split; [|cbn; lia]. split; [done|]. exists D2. cbn [fst snd].
    split_and!; [eapply Hdrop2; [by rewrite !length_insert|done]|lia|done|done|done].
Qed.

(** ** The whole input *)

(** Between two reads: [pend] is the unfinished line at the start of the
    buffer, [rest] the unread input. *)
Record grep_inv (pattern : list Z) (fd : Z) (inp out0 : list Z) (m : nat) (buf : list Z) (s : ustate) : Prop := {
  gi_buf : length buf = 1024%nat;
  gi_writes : u_writes s = [];
  gi_input : ∃ u pend rest, u_fds s !! fd = Some rest ∧ inp = u ++ pend ++ rest ∧ take m buf = pend ∧
    length pend = m ∧ (m ≤ 1023)%nat ∧ (10 ∉ cbytes pend) ∧ out0 = output 1 s ++ grep_out pattern (pend ++ rest)
}.

(** The buffer after the bytes read were appended to the unfinished line. *)
Lemma holds_read buf m bs :
  length buf = 1024%nat → (m + length bs ≤ 1023)%nat →
  holds (<[(m + length bs)%nat := 0]> (list_inserts m bs buf)) 0 (take m buf ++ bs).
Proof.
  intros Hb Hm. assert (Hl : length (take m buf ++ bs) = (m + length bs)%nat) by (rewrite length_app, length_take; lia).
  unfold holds. rewrite length_insert, length_inserts, Hl. split_and!; [done|lia|].
  rewrite drop_0, inserts_splice by lia. rewrite app_assoc. rewrite <-Hl.
  rewrite <-(Nat.add_0_r (length (take m buf ++ bs))) at 2. rewrite insert_app_r.
  rewrite take_app_add. f_equal. destruct (drop _ buf) as [|x r] eqn:E; [|done].
  apply (f_equal length) in E. rewrite length_drop in E. cbn in E. lia.
Qed.

Lemma grep_turn_ok pattern fd inp out0 m buf e s :
  grep_inv pattern fd inp out0 m buf s →
  ∃ r s', grep_turn pattern fd (m, buf) e s = Ret r e s' ∧
    match r with
    | inl (m', buf') => grep_inv pattern fd inp out0 m' buf' s' ∧
        (length (default [] (u_fds s' !! fd)) < length (default [] (u_fds s !! fd)))%nat
    | inr _ => output 1 s' = out0
    end.
Proof.
  intros [Hb Hw (u & pend & rest & Hfd & Hinp & Hpend & Hm & Hm1 & Hnl & Hout)].
  destruct (decide (m = 1023)%nat) as [E|E].
  { assert (Hk : read_size (u_reads s) (1024 - Z.of_nat m - 1) = 0) by (unfold read_size; destruct (u_reads s); lia).
    eexists (inr tt), _. unfold grep_turn, bind, read. rewrite Hfd, Hk. split; [reflexivity|].
    rewrite grep_out_full, app_nil_r in Hout by (done || lia). done. }
  assert (Hm' : (m ≤ 1022)%nat) by lia.
  destruct (read_ok fd (1024 - Z.of_nat m - 1) rest e s Hfd) as (bs & rest' & s1 & Hr & Hrest & Hpos & Hlen & Hs1); [lia|].
  unfold grep_turn. mrun Hr. cbn [fst snd].
  destruct Hpos as [->|Hpos].
  { apply eq_sym, app_nil in Hrest as [-> ->]. cbn. exists (inr tt), s1. split; [done|].
    rewrite app_nil_r, grep_out_partial, app_nil_r in Hout by done. by rewrite Hout, Hs1. }
  rewrite (proj2 (Z.leb_gt _ _)) by lia. cbv zeta.
  assert (Hh : holds (<[(m + length bs)%nat := 0]> (list_inserts m bs buf)) 0 (pend ++ bs)).
  { rewrite <-Hpend. apply holds_read; [done|lia]. }
  assert (Hw1 : u_writes s1 = []) by (by rewrite Hs1).
  destruct (line_turns pattern rest' (pend ++ bs) 0 _ e s1 out0 Hh Hw1)
    as (D' & p' & buf' & s2 & Hr2 & Hh' & Hp & Hnl' & [u' Hu'] & Hs2 & Hout2).
  { rewrite Hout, Hs1, Hrest, <-app_assoc. done. }
  mrun Hr2. rewrite length_app, Hm in Hp. rewrite (proj2 (Nat.ltb_lt _ _)) by lia.
  replace (m + length bs - p')%nat with (length D') by lia.
  destruct Hh' as (Hb' & Hpl & Htk).
  assert (HD : take (length D') (drop p' buf') = D').
  { apply (f_equal (take (length D'))) in Htk. rewrite take_take, take_app_length in Htk. rewrite <-Htk at 2. f_equal. lia. }
  rewrite HD. exists (inl (length D', list_inserts 0 D' buf')), s2. split; [done|].
  assert (Hfd2 : u_fds s2 !! fd = Some rest') by (rewrite Hs2, Hs1; cbn; by rewrite lookup_insert_eq).
  rewrite Hfd2, Hfd, Hrest. split; [|cbn; rewrite length_app; lia]. split.
  - by rewrite length_inserts.
  - rewrite Hs2. done.
  - exists (u ++ u'), D', rest'. split_and!; [done| | |done|lia|done|done].
    + rewrite Hinp, Hrest, <-app_assoc, (app_assoc pend), Hu', <-!app_assoc. done.
    + rewrite inserts_splice by lia. rewrite take_0, app_nil_l. apply take_app_length.
Qed.

(** C35: for every input and every sequence of read sizes, [grep] ends, and when
    its writes are complete it has printed, in order and with their newlines,
    the matching lines of what it sees of the input: the newline-terminated
    lines that end before the first NUL byte and come before the first line of
    more than 1022 bytes.  A last line without a newline is not printed. *)
Theorem grep_prints_matches pattern fd inp e s :
  u_fds s !! fd = Some inp → Z.of_nat (length inp) < 2 ^ 63 → u_writes s = [] →
  ∃ s', grep pattern fd e s = Ret tt e s' ∧ output 1 s' = output 1 s ++ grep_out pattern inp.
Proof.
  intros Hfd Hlen Hw. unfold grep.
  destruct (loop_measure (grep_turn pattern fd) (λ _ _ s', Z.of_nat (length (default [] (u_fds s' !! fd))))
    (λ st e' s', e' = e ∧ grep_inv pattern fd inp (output 1 s ++ grep_out pattern inp) st.1 st.2 s')
    (λ _ e' s', e' = e ∧ output 1 s' = output 1 s ++ grep_out pattern inp) (0%nat, replicate 1024 0) e s)
    as ([] & e' & s' & Hr & -> & Ho).
  - intros [m buf] e' s1 [-> Hi]. split; [lia|].
    destruct (grep_turn_ok pattern fd inp _ m buf e s1 Hi) as (r & s2 & Hr & H).
    exists r, e, s2. split; [done|]. destruct r as [[m' buf']|[]]; [|done]. cbn. split; [by destruct H|lia].
  - split; [done|]. split; [apply length_replicate|done|]. exists [], [], inp. split_and!; try done; [cbn; lia|apply not_elem_of_nil].
  - rewrite Hfd. cbn. lia.
  - exists s'. done.
Qed.

(** "ab\ncd\nc" searched for "^c", read two bytes at a time. *)
Lemma grep_prints_matches_witness :
  ∃ s', grep [94; 99] 0 [] (mkustate {[0 := [97; 98; 10; 99; 100; 10; 99]]} ∅ [2; 2; 2] [] []) = Ret tt [] s' ∧
    output 1 s' = [99; 100; 10].
Proof.
  apply (grep_prints_matches [94; 99] 0 [97; 98; 10; 99; 100; 10; 99] []
    (mkustate {[0 := [97; 98; 10; 99; 100; 10; 99]]} ∅ [2; 2; 2] [] [])).
  - reflexivity.
  - cbn. lia.
  - reflexivity.
Defined.

(** When no line is too long and there is no NUL, nothing is cut off. *)
Lemma grep_out_all pattern inp :
  Forall (λ c, c ≠ 0) inp → Forall (λ l, (length l ≤ 1022)%nat) (lines inp) →
  grep_out pattern inp = concat ((λ l, if match_re pattern l then l ++ [10] else []) <$> lines inp).
Proof.
  intros Hnz Hl. pose proof (cbytes_app inp [] Hnz) as E. rewrite !app_nil_r in E. unfold grep_out. rewrite E. do 2 f_equal.
  induction Hl as [|l ls Hl _ IH]; [done|]. cbn [until_long]. rewrite (proj2 (Nat.leb_le _ _)) by done. by rewrite IH.
Qed.

(** A line of 1023 bytes fills the buffer: the next [read] is asked for no
    bytes, its answer is taken for the end of the file, and the matching line
    after it is never printed. *)
Definition long_input : list Z := replicate 1023 97 ++ [10; 98; 10].

Lemma grep_long_line :
  lines long_input = [replicate 1023 97; [98]] ∧ match_re [98] [98] = true ∧
  match grep [98] 0 [] (mkustate {[0 := long_input]} ∅ [] [] []) with
  | Ret _ _ s' => output 1 s' = []
  | _ => False
  end.
Proof. split_and!; vm_compute; reflexivity. Qed.
