(* ===== verification/Utools.v ===== *)
(** user/cat.c, user/wc.c and user/echo.c. *)

From S2P Require Import Prelude Mem User Print Uprintf Ulib.

(** * cat *)

Definition cat_write_msg : list Z :=
  [99; 97; 116; 58; 32; 119; 114; 105; 116; 101; 32; 101; 114; 114; 111; 114; 10]. (* "cat: write error\n" *)
Definition cat_read_msg : list Z :=
  [99; 97; 116; 58; 32; 114; 101; 97; 100; 32; 101; 114; 114; 111; 114; 10]. (* "cat: read error\n" *)
Definition cat_open_msg : list Z :=
  [99; 97; 116; 58; 32; 99; 97; 110; 110; 111; 116; 32; 111; 112; 101; 110; 32; 37; 115; 10]. (* "cat: cannot open %s\n" *)

(** One turn; the loop leaves with the last result of [read], or with the
    status of an [exit]. *)
Definition cat_turn (fd : Z) (_ : unit) : U (unit + (Z + Z)) :=
  r <- read fd 512 ;;
  if r.1 >? 0 then
    k <- write 1 r.2 ;;
    if negb (k =? r.1) then fprintf 2 cat_write_msg [] ;;; ret (inr (inr 1)) else ret (inl tt)
  else ret (inr (inl r.1)).
(** [None] when it returns, [Some] when it exits. *)
Definition cat (fd : Z) : U (option Z) :=
  r <- loop (cat_turn fd) tt ;;
  match r with
  | inr code => ret (Some code)
  | inl n => if n <? 0 then fprintf 2 cat_read_msg [] ;;; ret (Some 1) else ret None
  end.

Definition cat_main (argv : list (list Z)) : U Z :=
  match argv with
  | [] | [_] => r <- cat 0 ;; ret (default 0 r)
  | _ :: files =>
      r <- for_in files (λ f,
        fd <- open f 0 ;;
        if fd <? 0 then fprintf 2 cat_open_msg [VAs (Some f)] ;;; ret (Some 1)
        else r <- cat fd ;; match r with Some c => ret (Some c) | None => close fd ;;; ret None end) ;;
      ret (default 0 r)
  end.

(** * wc *)

Definition wc_read_msg : list Z :=
  [119; 99; 58; 32; 114; 101; 97; 100; 32; 101; 114; 114; 111; 114; 10]. (* "wc: read error\n" *)
Definition wc_open_msg : list Z :=
  [119; 99; 58; 32; 99; 97; 110; 110; 111; 116; 32; 111; 112; 101; 110; 32; 37; 115; 10]. (* "wc: cannot open %s\n" *)
Definition wc_fmt : list Z := [37; 100; 32; 37; 100; 32; 37; 100; 32; 37; 115; 10]. (* "%d %d %d %s\n" *)
Definition wc_blanks : list Z := [32; 13; 9; 10; 11]. (* " \r\t\n\v" *)

(** The counters: lines, words, characters and whether in a word. *)
Record wcst : Type := mkwc { wc_l : Z; wc_w : Z; wc_c : Z; wc_in : bool }.

(** One character. *)
Definition wc_char (x : Z) (st : wcst) : wcst :=
  let c := i32 (wc_c st + 1) in
  let l := if x =? 10 then i32 (wc_l st + 1) else wc_l st in
  match strchr wc_blanks x with
  | Some _ => mkwc l (wc_w st) c false
  | None => if wc_in st then mkwc l (wc_w st) c true else mkwc l (i32 (wc_w st + 1)) c true
  end.

Definition wc_turn (fd : Z) (st : wcst) : U (wcst + (Z * wcst)) :=
  r <- read fd 512 ;;
  if r.1 >? 0 then ret (inl (foldl (λ st x, wc_char x st) st r.2)) else ret (inr (r.1, st)).
Definition wc (fd : Z) (name : list Z) : U (option Z) :=
  r <- loop (wc_turn fd) (mkwc 0 0 0 false) ;;
  if r.1 <? 0 then printf wc_read_msg [] ;;; ret (Some 1)
  else printf wc_fmt [VA (wc_l r.2); VA (wc_w r.2); VA (wc_c r.2); VAs (Some name)] ;;; ret None.

Definition wc_main (argv : list (list Z)) : U Z :=
  match argv with
  | [] | [_] => r <- wc 0 [] ;; ret (default 0 r)
  | _ :: files =>
      r <- for_in files (λ f,
        fd <- open f 0 ;;
        if fd <? 0 then printf wc_open_msg [VAs (Some f)] ;;; ret (Some 1)
        else r <- wc fd f ;; match r with Some c => ret (Some c) | None => close fd ;;; ret None end) ;;
      ret (default 0 r)
  end.

(** * echo *)

Fixpoint echo_loop (args : list (list Z)) : U unit :=
  match args with
  | [] => ret tt
  | a :: args' =>
      write 1 (take (Z.to_nat (strlen a)) a) ;;;
      write 1 (match args' with [] => [10] | _ => [32] end) ;;;
      echo_loop args'
  end.
Definition echo_main (argv : list (list Z)) : U Z := echo_loop (tail argv) ;;; ret 0.

(** * cat copies its input *)

Lemma cat_copies_ok fd inp e s :
  u_fds s !! fd = Some inp → u_writes s = [] → Z.of_nat (length inp) < 2 ^ 63 →
  ∃ s', cat fd e s = Ret None e s' ∧ output 1 s' = output 1 s ++ inp ∧ u_fds s' = <[fd := []]> (u_fds s).
Proof.
  intros Hfd Hw Hlen. unfold cat.
  destruct (loop_measure (cat_turn fd) (λ _ _ s', Z.of_nat (length (default [] (u_fds s' !! fd))))
    (λ _ e' s', e' = e ∧ u_writes s' = [] ∧ ∃ rest, u_fds s' = <[fd := rest]> (u_fds s) ∧
       output 1 s ++ inp = output 1 s' ++ rest)
    (λ r e' s', e' = e ∧ r = inl 0 ∧ u_fds s' = <[fd := []]> (u_fds s) ∧ output 1 s' = output 1 s ++ inp) tt e s)
    as (r & e' & s' & Hr & -> & -> & Hs & Ho).
  - intros [] e' s1 (-> & Hw1 & rest & Hs1 & Ho1). split; [lia|]. unfold cat_turn.
    assert (Hfd1 : u_fds s1 !! fd = Some rest) by (by rewrite Hs1, lookup_insert_eq).
    destruct (read_ok fd 512 rest e s1 Hfd1) as (bs & rest' & s2 & Hr & Hrest & Hpos & _ & Hs2); [lia|].
    mrun Hr. cbn [fst snd]. rewrite Hs1, insert_insert_eq in Hs2. destruct Hpos as [->|Hpos].
    { apply eq_sym, app_nil in Hrest as [-> ->]. cbn. exists (inr (inl 0)), e, s2. split; [done|].
      rewrite Hs2, app_nil_r in *. done. }
    rewrite (proj2 (Z.gtb_lt _ _)) by lia. unfold bind, write.
    assert (Hw2 : u_writes s2 = []) by (by rewrite Hs2). rewrite Hw2. cbn [write_size]. rewrite Z.eqb_refl. cbn [negb].
    exists (inl tt), e. eexists. split; [reflexivity|]. rewrite Nat2Z.id, take_ge by done. split.
    + split; [done|]. split; [done|]. exists rest'. split; [by rewrite Hs2|].
      rewrite Ho1, Hrest. match goal with |- _ = output 1 ?X ++ _ => rewrite (output_app 1 1 bs s2 X) by done end.
      rewrite decide_True, <-app_assoc by done.
      by rewrite Hs2.
    + rewrite Hfd1, Hs2. cbn. rewrite lookup_insert_eq. cbn. rewrite Hrest, length_app. lia.
  - split_and!; [done|done|]. exists inp. by rewrite insert_id.
  - rewrite Hfd. cbn. lia.
  - mrun Hr. cbn. exists s'. done.
Qed.

(** C39: cat copies its input to the standard output, byte for byte, for every
    input and every sequence of read sizes. *)
Theorem cat_copies fd inp e s :
  u_fds s !! fd = Some inp → u_writes s = [] → Z.of_nat (length inp) < 2 ^ 63 →
  ∃ s', cat fd e s = Ret None e s' ∧ output 1 s' = output 1 s ++ inp ∧ u_fds s' = <[fd := []]> (u_fds s).
Proof. apply cat_copies_ok. Qed.

Lemma cat_copies_witness :
  ∃ s', cat 0 [] (mkustate {[0 := [1; 2; 3]]} ∅ [2; 1] [] []) = Ret None [] s' ∧ output 1 s' = [1; 2; 3].
Proof.
  destruct (cat_copies 0 [1; 2; 3] [] (mkustate {[0 := [1; 2; 3]]} ∅ [2; 1] [] [])) as (s' & Hr & Ho & _);
    [reflexivity|reflexivity|cbn; lia|].
  exists s'. split; [exact Hr|exact Ho].
Defined.

(** * wc counts *)

(** The numbers of lines, words and characters of a text; a word is a maximal
    run of characters that are not blanks. *)
Definition blank (x : Z) : bool := bool_decide (x ∈ wc_blanks).
Definition count_lines (l : list Z) : Z := Z.of_nat (length (filter (λ x, x = 10) l)).
Fixpoint count_words (inword : bool) (l : list Z) : Z :=
  match l with
  | [] => 0
  | x :: l' => if blank x then count_words false l'
               else (if inword then 0 else 1) + count_words true l'
  end.

Lemma strchr_blanks x : x ≠ 0 → match strchr wc_blanks x with Some _ => true | None => false end = blank x.
Proof.
  intros Hx. pose proof (strchr_spec wc_blanks x Hx) as H. change (cbytes wc_blanks) with wc_blanks in H.
  unfold blank. symmetry. destruct (strchr wc_blanks x) as [i|].
  - apply bool_decide_eq_true. destruct H as [H _]. by eapply list_elem_of_lookup_2.
  - by apply bool_decide_eq_false.
Qed.

Lemma count_words_bound b l : 0 ≤ count_words b l ≤ Z.of_nat (length l).
Proof.
  revert b. induction l as [|x l IH]; intros b; cbn [count_words length]; [lia|].
  destruct (blank x); [specialize (IH false)|specialize (IH true); destruct b]; lia.
Qed.
Lemma count_lines_bound l : 0 ≤ count_lines l ≤ Z.of_nat (length l).
Proof. unfold count_lines. pose proof (length_filter (λ x, x = 10) l). lia. Qed.

Lemma count_lines_cons x l : count_lines (x :: l) = (if x =? 10 then 1 else 0) + count_lines l.
Proof.
  unfold count_lines. destruct (Z.eqb_spec x 10) as [->|Hx].
  - rewrite filter_cons_True by done. cbn [length]. lia.
  - by rewrite filter_cons_False by done.
Qed.

(** The counters after some characters. *)
Lemma wc_chars st l :
  Forall (λ x, x ≠ 0) l → 0 ≤ wc_l st → 0 ≤ wc_w st → 0 ≤ wc_c st →
  wc_l st + Z.of_nat (length l) < 2 ^ 31 → wc_w st + Z.of_nat (length l) < 2 ^ 31 →
  wc_c st + Z.of_nat (length l) < 2 ^ 31 →
  let st' := foldl (λ st x, wc_char x st) st l in
  wc_l st' = wc_l st + count_lines l ∧ wc_w st' = wc_w st + count_words (wc_in st) l ∧
  wc_c st' = wc_c st + Z.of_nat (length l) ∧
  ∀ r, count_words (wc_in st) (l ++ r) = count_words (wc_in st) l + count_words (wc_in st') r.
Proof.
  intros Hnz. revert st. induction Hnz as [|x l Hx Hnz IH]; intros st H1 H2 H3 H4 H5 H6 st'.
  { unfold st', count_lines. cbn. split_and!; lia. }
  unfold st'. cbn [foldl length] in *. rewrite count_lines_cons. cbn [count_words app].
  pose proof (strchr_blanks x Hx) as Hb.
  assert (Hc : wc_c (wc_char x st) = wc_c st + 1 ∧ wc_l (wc_char x st) = wc_l st + (if x =? 10 then 1 else 0) ∧
    wc_w (wc_char x st) = wc_w st + (if blank x then 0 else if wc_in st then 0 else 1) ∧
    wc_in (wc_char x st) = negb (blank x)).
  { unfold wc_char. rewrite <-Hb. destruct (strchr wc_blanks x), (x =? 10), (wc_in st);
      cbn [wc_c wc_l wc_w wc_in negb]; rewrite ?i32_id by lia; split_and!; done || lia. }
  destruct Hc as (C1 & C2 & C3 & C4).
  destruct (IH (wc_char x st)) as (I1 & I2 & I3 & I4); try (rewrite ?C1, ?C2, ?C3; destruct (x =? 10), (blank x), (wc_in st); lia).
  rewrite I1, I2, I3, C1, C2, C3, C4. split_and!; try lia.
  - destruct (blank x), (wc_in st); cbn [negb]; lia.
  - intros r. rewrite C4 in I4. destruct (blank x); cbn [negb] in *; rewrite I4; lia.
Qed.

(** C40: wc counts: for a file of fewer than 2^31 non-NUL characters it prints
    the number of newlines, of words and of characters followed by the name,
    whatever the sizes of the reads that split it. *)
Theorem wc_counts fd name inp e s :
  u_fds s !! fd = Some inp → u_writes s = [] → Forall (λ x, x ≠ 0) inp → Z.of_nat (length inp) < 2 ^ 31 →
  Forall (λ x, 0 < x < 256) name →
  ∃ s', wc fd name e s = Ret None e s' ∧
    output 1 s' = output 1 s ++ dec (count_lines inp) ++ [32] ++ dec (count_words false inp) ++ [32] ++
                  dec (Z.of_nat (length inp)) ++ [32] ++ name ++ [10].
Proof.
  intros Hfd Hw Hnz Hlen Hname. unfold wc.
  destruct (loop_measure (wc_turn fd) (λ _ _ s', Z.of_nat (length (default [] (u_fds s' !! fd))))
    (λ st e' s', e' = e ∧ u_writes s' = [] ∧ u_out s' = u_out s ∧ ∃ done rest, u_fds s' !! fd = Some rest ∧
       inp = done ++ rest ∧ wc_l st = count_lines done ∧ wc_w st = count_words false done ∧
       wc_c st = Z.of_nat (length done) ∧ ∀ r, count_words false (done ++ r) = count_words false done + count_words (wc_in st) r)
    (λ r e' s', e' = e ∧ r.1 = 0 ∧ u_writes s' = [] ∧ u_out s' = u_out s ∧ wc_l r.2 = count_lines inp ∧
       wc_w r.2 = count_words false inp ∧ wc_c r.2 = Z.of_nat (length inp)) (mkwc 0 0 0 false) e s)
    as ([n st] & e' & s' & Hr & -> & Hn & Hw' & Ho & L1 & L2 & L3).
  - intros st e' s1 (-> & Hw1 & Ho1 & dn & rest & Hfd1 & Hinp & S1 & S2 & S3 & S4). split; [lia|]. unfold wc_turn.
    destruct (read_ok fd 512 rest e s1 Hfd1) as (bs & rest' & s2 & Hr & Hrest & Hpos & _ & Hs2); [lia|].
    mrun Hr. cbn [fst snd]. destruct Hpos as [->|Hpos].
    { apply eq_sym, app_nil in Hrest as [-> ->]. rewrite app_nil_r in Hinp. subst dn.
      exists (inr (0, st)), e, s2. split; [done|]. cbn [fst snd]. rewrite Hs2. done. }
    rewrite (proj2 (Z.gtb_lt _ _)) by lia. exists (inl (foldl (λ st x, wc_char x st) st bs)), e, s2. split; [done|].
    rewrite Hinp, Hrest, !length_app in Hlen. rewrite Hinp, Hrest, !Forall_app in Hnz.
    pose proof (count_words_bound false dn). pose proof (count_lines_bound dn).
    destruct (wc_chars st bs) as (C1 & C2 & C3 & C4); try lia; [tauto|]. split.
    + split; [done|]. split; [by rewrite Hs2|]. split; [by rewrite Hs2|]. exists (dn ++ bs), rest'.
      split_and!.
      * rewrite Hs2. cbn. by rewrite lookup_insert_eq.
      * by rewrite Hinp, Hrest, app_assoc.
      * rewrite C1, S1. unfold count_lines. rewrite filter_app, length_app. lia.
      * rewrite C2, S2. by rewrite S4.
      * rewrite C3, S3, length_app. lia.
      * intros r. rewrite <-app_assoc, S4, C4, S4. lia.
    + rewrite Hfd1, Hs2. cbn. rewrite lookup_insert_eq. cbn. rewrite Hrest, length_app. lia.
  - split_and!; try done. exists [], inp. by split_and!.
  - rewrite Hfd. cbn. lia.
  - mrun Hr. cbn [fst snd] in *. rewrite Hn. cbn [Z.ltb Z.compare].
    pose proof (count_words_bound false inp). pose proof (count_lines_bound inp).
    eexists. split; [unfold printf, vprintf; erewrite bind_Ret; [reflexivity|]; apply vprintf_loop_ok; [done|]|].
    + cbn [render render_conv wc_fmt Z.eqb Pos.eqb mbind option_bind]. reflexivity.
    + rewrite output_wrote. unfold output at 1. rewrite Ho. fold (output 1 s). f_equal.
      rewrite L1, L2, L3, !i32_id by lia. change (u8 32) with 32. change (u8 10) with 10.
      change (default null_str (Some name)) with name.
      enough (u8 <$> cbytes name = name) as -> by done.
      clear -Hname. induction Hname as [|x l Hx Hl IH]; [done|]. cbn.
      rewrite (proj2 (Z.eqb_neq x 0)) by lia. cbn. unfold u8. rewrite Z.mod_small by lia. by f_equal.
Qed.

(** "ab c\n" *)
Lemma wc_counts_witness :
  ∃ s', wc 0 [120] [] (mkustate {[0 := [97; 98; 32; 99; 10]]} ∅ [3] [] []) = Ret None [] s' ∧
    output 1 s' = [49; 32; 50; 32; 53; 32; 120; 10].
Proof.
  apply (wc_counts 0 [120] [97; 98; 32; 99; 10] [] (mkustate {[0 := [97; 98; 32; 99; 10]]} ∅ [3] [] [])).
  - reflexivity.
  - reflexivity.
  - repeat constructor; discriminate.
  - cbn. lia.
  - repeat constructor; lia.
Defined.
