(* ===== verification/Umalloc.v ===== *)
(** user/umalloc.c: the memory allocator of user programs, a circular list of
    free blocks in address order, on the bytes of the heap.

    A block starts with a header of 16 bytes, the [ptr] to the next free block
    at offset 0 and the 32-bit [size] at offset 8, in units of headers and with
    the header counted.  [base] is the address of the static header the list
    starts with, and [heap0] the break of the process before its first
    [malloc].  The theorem is about a client that calls [malloc] and [free] in
    any order and stores bytes in what it owns. *)

From stdpp Require Import sorting.
From S2P Require Import Prelude Mem KString Params.

(** Memory, [freep], the break, and whether the next calls of [sbrk] that could
    succeed do. *)
Record heap : Type := mkheap { h_mem : mem; h_freep : Z; h_brk : Z; h_grow : list bool }.
Abbreviation H := (M heap).
Definition set_h_mem (m : mem) (s : heap) : heap := mkheap m (h_freep s) (h_brk s) (h_grow s).
Definition set_h_freep (p : Z) (s : heap) : heap := mkheap (h_mem s) p (h_brk s) (h_grow s).

(** * Code *)

Definition sizeof_Header : Z := 16.
(** [p->s.ptr] and [p->s.size]. *)
Definition hptr (m : mem) (p : Z) : Z := ld64 m p.
Definition hsize (m : mem) (p : Z) : Z := le_val (read_bytes m (p + 8) 4).
Definition put_ptr (p v : Z) (m : mem) : mem := st64 m p v.
Definition put_size (p v : Z) (m : mem) : mem := write_bytes m (p + 8) (le_bytes 4 v).

Definition get_ptr (p : Z) : H Z := gets (λ s, hptr (h_mem s) p).
Definition get_size (p : Z) : H Z := gets (λ s, hsize (h_mem s) p).
Definition set_ptr (p v : Z) : H unit := modify (λ s, set_h_mem (put_ptr p v (h_mem s)) s).
Definition set_size (p v : Z) : H unit := modify (λ s, set_h_mem (put_size p v (h_mem s)) s).

(** [sbrk(n)], an [int]: the old break, as the [int] that [sys_sbrk] returns, or
    -1.  A process cannot have more bytes than there are in the RAM. *)
Definition sbrk (n : Z) : H Z := λ e s,
  let n := i32 n in
  let ok := match h_grow s with b :: _ => b | [] => false end in
  let s' := mkheap (h_mem s) (h_freep s) (h_brk s) (tail (h_grow s)) in
  if ok && (0 <=? h_brk s + n) && (h_brk s + n <=? PHYSTOP - KERNBASE)
  then Ret (i32 (h_brk s)) e (mkheap (h_mem s) (h_freep s) (h_brk s + n) (tail (h_grow s)))
  else Ret (-1) e s'.

Definition free_turn (bp p : Z) : H (Z + Z) :=
  n <- get_ptr p ;;
  if (p <? bp) && (bp <? n) then ret (inr p)
  else if (n <=? p) && ((p <? bp) || (bp <? n)) then ret (inr p)
  else ret (inl n).
(** The block is joined to the next one, and to the one before. *)
Definition join_next (bp p : Z) : H unit :=
  n <- get_ptr p ;;
  bs <- get_size bp ;;
  if bp + sizeof_Header * bs =? n then
    ns <- get_size n ;;
    set_size bp (u32 (bs + ns)) ;;;
    nn <- get_ptr n ;;
    set_ptr bp nn
  else set_ptr bp n.
Definition join_prev (bp p : Z) : H unit :=
  ps <- get_size p ;;
  if p + sizeof_Header * ps =? bp then
    bs <- get_size bp ;;
    set_size p (u32 (ps + bs)) ;;;
    bn <- get_ptr bp ;;
    set_ptr p bn
  else set_ptr p bp.
Definition free (ap : Z) : H unit :=
  let bp := ap - sizeof_Header in
  p <- gets h_freep ;;
  p <- loop (free_turn bp) p ;;
  join_next bp p ;;;
  join_prev bp p ;;;
  modify (set_h_freep p).

Definition morecore (nu : Z) : H Z :=
  let nu := if nu <? 4096 then 4096 else nu in
  p <- sbrk (nu * sizeof_Header) ;;
  if p =? -1 then ret 0 else
  set_size p nu ;;;
  free (p + sizeof_Header) ;;;
  gets h_freep.

Section malloc.
Context (base : Z).

Definition malloc_turn (nunits : Z) (x : Z * Z) : H (Z * Z + Z) :=
  let '(prevp, p) := x in
  ps <- get_size p ;;
  if nunits <=? ps then
    r <- (if ps =? nunits then
            n <- get_ptr p ;;
            set_ptr prevp n ;;;
            ret p
          else
            set_size p (u32 (ps - nunits)) ;;;
            ps <- get_size p ;;
            let p := p + sizeof_Header * ps in
            set_size p nunits ;;;
            ret p) ;;
    modify (set_h_freep prevp) ;;;
    ret (inr (r + sizeof_Header))
  else
    fp <- gets h_freep ;;
    if p =? fp then
      p <- morecore nunits ;;
      if p =? 0 then ret (inr 0) else
      n <- get_ptr p ;;
      ret (inl (p, n))
    else
      n <- get_ptr p ;;
      ret (inl (p, n)).
Definition units (nbytes : Z) : Z := u32 ((nbytes + sizeof_Header - 1) / sizeof_Header + 1).
Definition malloc (nbytes : Z) : H Z :=
  let nunits := units nbytes in
  fp <- gets h_freep ;;
  prevp <- (if fp =? 0 then
              modify (set_h_freep base) ;;;
              set_ptr base base ;;;
              set_size base 0 ;;;
              ret base
            else ret fp) ;;
  p <- get_ptr prevp ;;
  loop (malloc_turn nunits) (prevp, p).
End malloc.

(** * Blocks *)

(** A block: its address and its units. *)
Abbreviation blk := (Z * Z)%type.
Definition bend (b : blk) : Z := b.1 + 16 * b.2.
Definition apart (b c : blk) : Prop := bend b ≤ c.1 ∨ bend c ≤ b.1.
Fixpoint disj (bs : list blk) : Prop :=
  match bs with [] => True | b :: bs => Forall (apart b) bs ∧ disj bs end.
Fixpoint total (bs : list blk) : Z := match bs with [] => 0 | b :: bs => b.2 + total bs end.

#[global] Instance disj_perm : Proper ((≡ₚ) ==> iff) disj.
Proof.
  assert (H : ∀ l l', l ≡ₚ l' → disj l → disj l').
  { induction 1 as [|x l l' HP IH|x y l|l1 l2 l3 HP1 IH1 HP2 IH2]; cbn [disj]; [done| | |tauto].
    - intros [? ?]. split; [|auto]. by rewrite <-HP.
    - rewrite !Forall_cons. unfold apart. intros ([[] ?] & ? & ?); split_and!; auto. }
  intros l l' HP. split; apply H; [done|by symmetry].
Qed.
#[global] Instance total_perm : Proper ((≡ₚ) ==> eq) total.
Proof. intros l l' HP. induction HP; cbn [total] in *; lia || congruence. Qed.

Section heap.
Context (base heap0 : Z).
(** The static header lies before the heap, which is aligned. *)
Record heap_place : Prop := mkheap_place { hp_base : 0 < base; hp_heap : base + 16 ≤ heap0; hp_align : heap0 mod 16 = 0 }.

Record in_heap (brk : Z) (b : blk) : Prop := mkin_heap
  { ih_low : heap0 ≤ b.1; ih_size : 1 ≤ b.2; ih_end : bend b ≤ brk; ih_align : b.1 mod 16 = 0 }.

(** The blocks that the heap is made of: they do not overlap and cover it. *)
Record parts (brk : Z) (bs : list blk) : Prop := mkparts
  { pa_in : Forall (in_heap brk) bs; pa_disj : disj bs; pa_total : 16 * total bs = brk - heap0 }.
#[global] Instance parts_perm brk : Proper ((≡ₚ) ==> iff) (parts brk).
Proof. intros l l' HP. split; intros [? ? ?]; split; try (by rewrite <-HP); by rewrite HP. Qed.

Lemma parts_bound brk bs b : parts brk bs → b ∈ bs → 16 * b.2 ≤ brk - heap0.
Proof.
  intros [HF _ Ht] Hb. assert (Hle : ∀ l, Forall (in_heap brk) l → 0 ≤ total l ∧ (b ∈ l → b.2 ≤ total l)).
  { induction 1 as [|x l [] _ [IH1 IH2]]; cbn; [split; [lia|by intros ?%not_elem_of_nil]|].
    split; [lia|]. intros [->|Hin]%elem_of_cons; [lia|specialize (IH2 Hin); lia]. }
  destruct (Hle bs HF) as [_ Hl]. specialize (Hl Hb). lia.
Qed.

(** Joining two neighbours, cutting a block in two, and growing the heap. *)
Lemma parts_join brk a s t bs : parts brk ((a, s) :: (a + 16 * s, t) :: bs) → parts brk ((a, s + t) :: bs).
Proof.
  intros [HF HD HT]. apply Forall_cons in HF as [[A1 A2 A3 A4] HF]. apply Forall_cons in HF as [[B1 B2 B3 B4] HF].
  unfold bend in *. cbn [fst snd disj total] in *. destruct HD as (D1 & D2 & D3). apply Forall_cons in D1 as [_ D1].
  split; cbn [disj total fst snd]; [|split; [|done]|lia].
  - constructor; [|done]. split; unfold bend; cbn [fst snd]; lia.
  - rewrite Forall_forall in *. intros c Hc. specialize (D1 c Hc). specialize (D2 c Hc). destruct (HF c Hc) as [_ C _ _].
    unfold apart, bend in *. cbn [fst snd] in *. lia.
Qed.
Lemma parts_cut brk a s n bs :
  parts brk ((a, s) :: bs) → 1 ≤ n < s → parts brk ((a, s - n) :: (a + 16 * (s - n), n) :: bs).
Proof.
  intros [HF HD HT] Hn. apply Forall_cons in HF as [[A1 A2 A3 A4] HF]. unfold bend in *. cbn [fst snd disj total] in *.
  destruct HD as (D1 & D3). split; cbn [disj total fst snd]; [|split_and!; [constructor| |done]|lia].
  - constructor; [split; unfold bend; cbn [fst snd]; lia|]. constructor; [|done].
    split; unfold bend; cbn [fst snd]; try lia. replace (a + 16 * (s - n)) with (a + (s - n) * 16) by lia. by rewrite Z.mod_add by lia.
  - unfold apart, bend. cbn. lia.
  - rewrite Forall_forall in *. intros c Hc. specialize (D1 c Hc). unfold apart, bend in *. cbn [fst snd] in *. lia.
  - rewrite Forall_forall in *. intros c Hc. specialize (D1 c Hc). unfold apart, bend in *. cbn [fst snd] in *. lia.
Qed.
Lemma parts_grow brk n bs :
  parts brk bs → heap0 mod 16 = 0 → heap0 ≤ brk → 1 ≤ n → parts (brk + 16 * n) ((brk, n) :: bs).
Proof.
  intros [HF HD HT] Ha Hb Hn. rewrite Forall_forall in HF.
  split; cbn [disj total fst snd]; [constructor|split; [|done]|lia].
  - split; unfold bend; cbn [fst snd]; try lia. replace brk with (heap0 + total bs * 16) by lia. by rewrite Z.mod_add by lia.
  - rewrite Forall_forall. intros c Hc. destruct (HF c Hc). split; lia.
  - rewrite Forall_forall. intros c Hc. destruct (HF c Hc). right. cbn. lia.
Qed.

(** * The list of free blocks *)

Definition head_addr (l : list blk) (q : Z) : Z := match l with [] => q | b :: _ => b.1 end.
(** The blocks of [l] in memory, the last one pointing to [q]. *)
Fixpoint seg (m : mem) (l : list blk) (q : Z) : Prop :=
  match l with [] => True | b :: l => hptr m b.1 = head_addr l q ∧ hsize m b.1 = b.2 ∧ seg m l q end.
Definition gap (b c : blk) : Prop := bend b < c.1.

Lemma head_app l1 l2 q : head_addr (l1 ++ l2) q = head_addr l1 (head_addr l2 q).
Proof. by destruct l1. Qed.
Lemma seg_app m l1 l2 q : seg m (l1 ++ l2) q ↔ seg m l1 (head_addr l2 q) ∧ seg m l2 q.
Proof. induction l1 as [|b l1 IH]; cbn [app seg]; [tauto|]. rewrite IH, head_app. tauto. Qed.
Lemma seg_same m m' l q :
  seg m l q → (∀ b, b ∈ l → hptr m' b.1 = hptr m b.1 ∧ hsize m' b.1 = hsize m b.1) → seg m' l q.
Proof.
  induction l as [|b l IH]; [done|]. cbn [seg]. intros (H1 & H2 & H3) He. destruct (He b) as [-> ->]; [by left|].
  split_and!; [done|done|]. apply IH; [done|]. intros c Hc. apply He. by right.
Qed.

(** Stores to headers. *)
Lemma hptr_put_ptr m p v : 0 ≤ v < 2 ^ 64 → hptr (put_ptr p v m) p = v.
Proof. intros Hv. unfold hptr, put_ptr. rewrite ld64_st64_eq. by apply u64_id. Qed.
Lemma hptr_put_ptr_ne m p v q : p + 16 ≤ q ∨ q + 16 ≤ p → hptr (put_ptr p v m) q = hptr m q.
Proof. intros Hq. unfold hptr, put_ptr. apply ld64_st64_ne. lia. Qed.
Lemma hptr_put_size m p v q : p = q ∨ p + 16 ≤ q ∨ q + 16 ≤ p → hptr (put_size p v m) q = hptr m q.
Proof.
  intros Hq. unfold hptr, put_size. apply ld64_ext. intros x Hx. rewrite ldb_write_bytes, length_le_bytes, decide_False by lia. done.
Qed.
Lemma hsize_put_size m p v : 0 ≤ v < 2 ^ 32 → hsize (put_size p v m) p = v.
Proof.
  intros Hv. unfold hsize, put_size. pose proof (read_write_bytes_eq m (p + 8) (le_bytes 4 v)) as Hr.
  rewrite length_le_bytes in Hr. rewrite Hr. by apply le_val_bytes_small.
Qed.
Lemma hsize_put_size_ne m p v q : p + 16 ≤ q ∨ q + 16 ≤ p → hsize (put_size p v m) q = hsize m q.
Proof. intros Hq. unfold hsize, put_size. rewrite read_write_bytes_ne; [done|]. rewrite length_le_bytes. lia. Qed.
Lemma hsize_put_ptr m p v q : p = q ∨ p + 16 ≤ q ∨ q + 16 ≤ p → hsize (put_ptr p v m) q = hsize m q.
Proof.
  intros Hq. unfold hsize, put_ptr. f_equal. apply read_bytes_ext. intros x Hx. apply ldb_st64_ne. lia.
Qed.
Lemma ldb_put_ptr m p v x : x < p ∨ p + 16 ≤ x → ldb (put_ptr p v m) x = ldb m x.
Proof. intros Hx. apply ldb_st64_ne. lia. Qed.
Lemma ldb_put_size m p v x : x < p ∨ p + 16 ≤ x → ldb (put_size p v m) x = ldb m x.
Proof. intros Hx. unfold put_size. rewrite ldb_write_bytes, length_le_bytes, decide_False by lia. done. Qed.

(** The heap with free blocks [l] and allocated blocks [own]. *)
Abbreviation ring l := ((base, 0) :: l).
Record hinv (l own : list blk) (s : heap) : Prop := mkhinv
  { hi_place : heap_place;
    hi_brk : h_brk s < 2 ^ 32;
    hi_parts : parts (h_brk s) (l ++ own);
    hi_asc : StronglySorted gap (ring l);
    hi_seg : seg (h_mem s) (ring l) base;
    hi_own : ∀ b, b ∈ own → hsize (h_mem s) b.1 = b.2;
    hi_freep : ∃ n, (h_freep s, n) ∈ ring l }.

Lemma hi_range l own s b : hinv l own s → b ∈ ring l → base ≤ b.1 < 2 ^ 32 ∧ 0 ≤ b.2 < 2 ^ 28 ∧ (b = (base, 0) ∨ b ∈ l ∧ in_heap (h_brk s) b).
Proof.
  intros [[P1 P2 P3] Hb Hp _ _ _ _] Hin. pose proof Hp as [HF _ Ht]. apply elem_of_cons in Hin as [->|Hin].
  - cbn. rewrite Forall_forall in HF. split_and!; try lia; [|by left].
    assert (0 ≤ total (l ++ own)); [|lia].
    assert (Hle : ∀ l, Forall (in_heap (h_brk s)) l → 0 ≤ total l) by (induction 1 as [|x l' [] _ IH]; cbn; lia).
    apply Hle. by apply Forall_forall.
  - assert (Hin2 : b ∈ l ++ own) by set_solver. pose proof (parts_bound _ _ b Hp Hin2) as Hs. rewrite Forall_forall in HF.
    destruct (HF b) as [B1 B2 B3 B4]; [set_solver|]. unfold bend in *. split_and!; try lia. right. by split.
Qed.

(** What follows a block of the list. *)
Lemma hi_next l own s b :
  hinv l own s → b ∈ ring l → let n := hptr (h_mem s) b.1 in
  hsize (h_mem s) b.1 = b.2 ∧ (∃ k, (n, k) ∈ ring l) ∧
  ((b.1 < n ∧ ∀ c, c ∈ ring l → c.1 ≤ b.1 ∨ n ≤ c.1) ∨ (n = base ∧ ∀ c, c ∈ ring l → c.1 ≤ b.1)).
Proof.
  intros Hi Hin n. pose proof Hi as [Hpl _ _ Ha Hs _ _]. apply list_elem_of_split in Hin as (l1 & l2 & E).
  rewrite E in Ha, Hs. apply seg_app in Hs as [_ (Hn & Hz & _)]. fold n in Hn. split; [done|].
  apply StronglySorted_app in Ha as (Ha1 & _ & Ha2). apply StronglySorted_cons in Ha2 as [Hb2 Ha2]. rewrite Forall_forall in Hb2.
  assert (Hb : 0 ≤ b.2). { destruct (hi_range l own s b Hi) as (_ & ? & _); [rewrite E; set_solver|lia]. }
  assert (H1 : ∀ c, c ∈ l1 → c.1 < b.1).
  { intros c Hc. specialize (Ha1 c b Hc ltac:(by left)). destruct (hi_range l own s c Hi) as (_ & ? & _); [rewrite E; set_solver|].
    unfold gap, bend in Ha1. lia. }
  destruct l2 as [|c l2]; cbn [head_addr] in Hn.
  - split; [exists 0; rewrite Hn; by left|]. right. split; [done|]. intros c. rewrite E, elem_of_app, list_elem_of_singleton.
    intros [Hc| ->]; [specialize (H1 c Hc); lia|lia].
  - split; [exists c.2; rewrite Hn, E, <-surjective_pairing; set_solver|]. left. pose proof (Hb2 c ltac:(by left)) as Hbc.
    unfold gap, bend in Hbc. split; [lia|]. intros x. rewrite E, elem_of_app, !elem_of_cons. apply StronglySorted_cons in Ha2 as [Hc2 _].
    rewrite Forall_forall in Hc2. intros [Hx|[->|[->|Hx]]]; [specialize (H1 x Hx); lia|lia|lia|].
    specialize (Hc2 x Hx). destruct (hi_range l own s c Hi) as (_ & ? & _); [rewrite E; set_solver|]. unfold gap, bend in Hc2. lia.
Qed.

(** * free *)

Lemma disj_apart bs b c l : disj (l ++ b :: bs) → c ∈ l ++ bs → apart b c.
Proof.
  rewrite <-Permutation_middle. cbn [disj]. rewrite Forall_forall. intros [HF _] Hc. by apply HF.
Qed.

(** Headers of the list and of an allocated block do not overlap. *)
Lemma ring_own l own s b c :
  hinv l own s → b ∈ own → c ∈ ring l →
  in_heap (h_brk s) b ∧ (c.1 + 16 ≤ b.1 ∧ bend c ≤ b.1 ∨ b.1 + 16 ≤ c.1 ∧ bend b ≤ c.1).
Proof.
  intros Hi Hbo Hc. pose proof (hi_range l _ s c Hi Hc) as (_ & _ & Hcc). destruct Hi as [[P1 P2 P3] _ [HF HD _] _ _ _ _].
  apply list_elem_of_split in Hbo as (o1 & o2 & ->).
  rewrite Forall_forall in HF. assert (Hb : in_heap (h_brk s) b) by (apply HF; set_solver). split; [done|]. destruct Hb as [B1 B2 B3 B4].
  destruct Hcc as [->|[Hcl [C1 C2 C3 C4]]]; [left; unfold bend; cbn; lia|].
  assert (Ha : apart b c) by (apply (disj_apart o2 b c (l ++ o1)); [by rewrite <-app_assoc|set_solver]). unfold apart, bend in *. lia.
Qed.
Lemma ring_ring l own s l1 b l2 c :
  hinv l own s → ring l = l1 ++ b :: l2 → (c ∈ l1 → c.1 + 16 ≤ b.1) ∧ (c ∈ l2 → b.1 + 16 ≤ c.1).
Proof.
  intros Hi E. pose proof Hi as [[P1 P2 P3] _ _ Ha _ _ _]. rewrite E in Ha. apply StronglySorted_app in Ha as (Ha1 & _ & Ha2).
  apply StronglySorted_cons in Ha2 as [Hb2 _]. rewrite Forall_forall in Hb2.
  assert (Hg : ∀ x y, x ∈ ring l → y ∈ ring l → gap x y → x.1 + 16 ≤ y.1).
  { intros x y Hx Hy Hg. destruct (hi_range l own s x Hi Hx) as (_ & _ & [->|[_ [X1 X2 X3 X4]]]);
      destruct (hi_range l own s y Hi Hy) as (_ & _ & [->|[_ [Y1 Y2 Y3 Y4]]]); unfold gap, bend in *; cbn [fst snd] in *; lia. }
  split; intros Hc; apply Hg; try (rewrite E; set_solver); [apply Ha1; [done|by left]|by apply Hb2].
Qed.

(** The place of a block among the free ones. *)
Lemma find_place (x : blk) l bp :
  StronglySorted gap (x :: l) → x.1 < bp → (∀ c, c ∈ l → c.1 ≠ bp ∧ 0 ≤ c.2) →
  ∃ l1 t l2, x :: l = l1 ++ t :: l2 ∧ t.1 < bp ∧ ∀ c, c ∈ l2 → bp < c.1.
Proof.
  revert x. induction l as [|y l IH]; intros x Hs Hx Hne.
  - exists [], x, []. split_and!; [done|done|by intros c ?%not_elem_of_nil].
  - apply StronglySorted_cons in Hs as [Hxy Hs]. destruct (Z_lt_dec y.1 bp) as [Hy|Hy].
    + destruct (IH y Hs Hy) as (l1 & t & l2 & E & H1 & H2); [intros c Hc; apply Hne; by right|].
      exists (x :: l1), t, l2. by rewrite E.
    + exists [], x, (y :: l). destruct (Hne y) as [Hy2 Hy3]; [by left|]. split_and!; [done|done|].
      apply StronglySorted_cons in Hs as [Hyl _]. rewrite Forall_forall in Hyl.
      intros c [->|Hc]%elem_of_cons; [lia|]. specialize (Hyl c Hc). unfold gap, bend in Hyl. lia.
Qed.
Lemma own_place l own s bp bs :
  hinv l ((bp, bs) :: own) s → ∃ l1 t l2, ring l = l1 ++ t :: l2 ∧ t.1 + 16 ≤ bp ∧ bend t ≤ bp ∧ ∀ c, c ∈ l2 → bp + 16 * bs ≤ c.1 ∧ bp + 16 ≤ c.1.
Proof.
  intros Hi. pose proof (λ c, ring_own l _ s (bp, bs) c Hi ltac:(by left)) as Hr.
  destruct (find_place (base, 0) l bp) as (l1 & t & l2 & E & H1 & H2).
  - apply Hi.
  - destruct (Hr (base, 0)) as [[B1 _ _ _] _]; [by left|]. destruct (hi_place _ _ _ Hi). cbn in *. lia.
  - intros c Hc. assert (Hcr : c ∈ ring l) by (by right). destruct (hi_range _ _ _ c Hi Hcr) as (_ & ? & _).
    destruct (Hr c Hcr) as [_ Hcc]. cbn in Hcc. split; lia.
  - exists l1, t, l2. split; [done|]. destruct (Hr t) as [_ Ht]; [rewrite E; set_solver|]. cbn in Ht.
    split_and!; [lia|lia|]. intros c Hc. destruct (Hr c) as [_ Hcc]; [rewrite E; set_solver|]. cbn in Hcc. specialize (H2 c Hc).
    unfold bend in Hcc. cbn in Hcc. destruct (hi_range _ _ _ c Hi) as (_ & ? & _); [rewrite E; set_solver|]. lia.
Qed.

(** How far an address is before another, going round. *)
Definition dist (p t : Z) : Z := if p <=? t then t - p else t + 2 ^ 33 - p.
Lemma dist_cases p t : p ≤ t ∧ dist p t = t - p ∨ t < p ∧ dist p t = t + 2 ^ 33 - p.
Proof. unfold dist. destruct (Z.leb_spec p t); lia. Qed.

Lemma free_scan l own s l1 t l2 bp e :
  hinv l own s → ring l = l1 ++ t :: l2 → t.1 < bp → (∀ c, c ∈ l2 → bp < c.1) →
  loop (free_turn bp) (h_freep s) e s = Ret t.1 e s.
Proof.
  intros Hi E Ht H2.
  assert (Hc : ∀ c, c ∈ ring l → c.1 ≤ t.1 ∨ bp < c.1).
  { intros c. rewrite E, elem_of_app, elem_of_cons. intros [Hc|[->|Hc]]; [|lia|right; by apply H2].
    destruct (ring_ring _ _ _ _ _ _ c Hi E) as [Hl _]. specialize (Hl Hc). lia. }
  assert (Htr : t ∈ ring l) by (rewrite E; set_solver). pose proof (hp_base (hi_place _ _ _ Hi)) as Hb0.
  destruct (loop_measure (free_turn bp) (λ p _ _, dist p t.1) (λ p e' s', e' = e ∧ s' = s ∧ ∃ k, (p, k) ∈ ring l)
    (λ v e' s', v = t.1 ∧ e' = e ∧ s' = s) (h_freep s) e s) as (v & e' & s' & Hr & -> & -> & ->); [| | |done].
  - intros p ? ? (-> & -> & k & Hp). destruct (hi_next l own s (p, k) Hi Hp) as (_ & [kn Hkn] & Hn). cbn [fst] in *.
    pose proof (hi_range _ _ _ _ Hi Hp) as ([R1 R2] & _). pose proof (hi_range _ _ _ _ Hi Htr) as ([R3 R4] & _).
    pose proof (hi_range _ _ _ _ Hi Hkn) as ([R5 R6] & _).
    pose proof (Hc _ Hp) as Hcp. pose proof (Hc _ Hkn) as Hcn. cbn [fst] in *.
    assert (Htn : t.1 ≤ p ∨ hptr (h_mem s) p ≤ t.1 ∧ p < hptr (h_mem s) p).
    { destruct Hn as [[? Hn]|[? Hn]]; specialize (Hn t Htr); lia. }
    assert (Hlast : p < hptr (h_mem s) p ∨ hptr (h_mem s) p = base ∧ t.1 ≤ p) by (destruct Hn as [[? _]|[? Hn]]; [by left|right; split; [done|by apply Hn]]).
    pose proof (dist_cases p t.1) as D1. pose proof (dist_cases (hptr (h_mem s) p) t.1) as D2.
    split; [lia|]. unfold free_turn, get_ptr. mstep. set (n := hptr (h_mem s) p) in *.
    destruct (Z.ltb_spec p bp), (Z.ltb_spec bp n), (Z.leb_spec n p); cbn [andb orb]; eexists _, e, s; (split; [reflexivity|]);
      cbn beta iota; try lia; split_and!; try done; try lia; try (by exists kn).
  - split_and!; try done. apply Hi.
  - pose proof (dist_cases (h_freep s) t.1) as D1. pose proof (hi_freep _ _ _ Hi) as [k Hk]. pose proof (hi_range _ _ _ _ Hi Hk) as ([R1 R2] & _).
    pose proof (hi_range _ _ _ _ Hi Htr) as ([R3 R4] & _). cbn [fst] in *. lia.
Qed.

Lemma hdr_same m m' q :
  (∀ x, q ≤ x < q + 16 → ldb m' x = ldb m x) → hptr m' q = hptr m q ∧ hsize m' q = hsize m q.
Proof.
  intros Hx. split; unfold hptr, hsize; [apply ld64_ext; intros; apply Hx; lia|].
  f_equal. apply read_bytes_ext. intros. apply Hx. lia.
Qed.

(** [m'] differs from [m] in the header at [p] only. *)
Definition only_hdr (p : Z) (m m' : mem) : Prop := ∀ x, x < p ∨ p + 16 ≤ x → ldb m' x = ldb m x.
Lemma only_hdr_ptr p v m : only_hdr p m (put_ptr p v m).
Proof. intros x Hx. by apply ldb_put_ptr. Qed.
Lemma only_hdr_size p v m : only_hdr p m (put_size p v m).
Proof. intros x Hx. by apply ldb_put_size. Qed.
Lemma only_hdr_trans p m1 m2 m3 : only_hdr p m1 m2 → only_hdr p m2 m3 → only_hdr p m1 m3.
Proof. intros H1 H2 x Hx. rewrite H2 by done. by apply H1. Qed.
Lemma only_hdr_ne p m m' q : only_hdr p m m' → q + 16 ≤ p ∨ p + 16 ≤ q → hptr m' q = hptr m q ∧ hsize m' q = hsize m q.
Proof. intros Ho Hq. apply hdr_same. intros x Hx. apply Ho. lia. Qed.
Lemma only_hdr_both p v k m :
  0 ≤ v < 2 ^ 64 → 0 ≤ k < 2 ^ 32 → let m' := put_ptr p v (put_size p k m) in
  only_hdr p m m' ∧ hptr m' p = v ∧ hsize m' p = k.
Proof.
  intros Hv Hk. split_and!.
  - eapply only_hdr_trans; [apply only_hdr_size|apply only_hdr_ptr].
  - by apply hptr_put_ptr.
  - rewrite hsize_put_ptr by lia. by apply hsize_put_size.
Qed.
Lemma only_hdr_one p v m :
  0 ≤ v < 2 ^ 64 → let m' := put_ptr p v m in only_hdr p m m' ∧ hptr m' p = v ∧ hsize m' p = hsize m p.
Proof. intros Hv. split_and!; [apply only_hdr_ptr|by apply hptr_put_ptr|apply hsize_put_ptr; lia]. Qed.

Lemma head_range l own s l1 l2 : hinv l own s → ring l = l1 ++ l2 → 0 ≤ head_addr l2 base < 2 ^ 64.
Proof.
  intros Hi E. pose proof (hp_base (hi_place _ _ _ Hi)). destruct l2 as [|c l2]; cbn [head_addr].
  - pose proof (hi_range _ _ _ (base, 0) Hi ltac:(by left)) as [? _]. cbn in *. lia.
  - pose proof (hi_range _ _ _ c Hi ltac:(rewrite E; set_solver)) as [? _]. lia.
Qed.

Lemma join_next_ok l own s l1 t l2 bp bs e :
  hinv l ((bp, bs) :: own) s → ring l = l1 ++ t :: l2 → t.1 + 16 ≤ bp → (∀ c, c ∈ l2 → bp + 16 * bs ≤ c.1 ∧ bp + 16 ≤ c.1) →
  ∃ bs' l3 m, join_next bp t.1 e s = Ret tt e (set_h_mem m s) ∧ only_hdr bp (h_mem s) m ∧
    hptr m bp = head_addr l3 base ∧ hsize m bp = bs' ∧
    (bs' = bs ∧ l3 = l2 ∧ bp + 16 * bs ≠ head_addr l2 base ∨ ∃ k, l2 = (bp + 16 * bs, k) :: l3 ∧ bs' = bs + k).
Proof.
  intros Hi E Ht H2. pose proof Hi as [[P1 P2 P3] Hbrk Hpa _ Hs Ho _]. rewrite E in Hs. apply seg_app in Hs as [_ (Hn & _ & Hs2)].
  pose proof (Ho (bp, bs) ltac:(by left)) as Hbs. cbn [fst snd] in Hbs.
  pose proof (parts_bound _ _ (bp, bs) Hpa ltac:(set_solver)) as Hb1. cbn [snd] in Hb1.
  destruct (ring_own _ _ _ (bp, bs) (base, 0) Hi ltac:(by left) ltac:(by left)) as [[I1 I2 I3 _] _]. cbn [fst snd] in *.
  unfold join_next, get_ptr, get_size, sizeof_Header. mstep. rewrite Hn, Hbs.
  destruct (Z.eqb_spec (bp + 16 * bs) (head_addr l2 base)) as [Eh|Eh].
  - destruct l2 as [|[q k] l3]; cbn [head_addr fst] in Eh. { unfold bend in *; cbn [fst snd] in *; lia. }
    cbn [seg fst snd head_addr] in Hs2. destruct Hs2 as (Hq1 & Hq2 & Hs3). destruct (H2 (q, k) ltac:(by left)) as [_ Hq]. cbn [fst] in Hq.
    assert (Hqr : (q, k) ∈ ring l) by (rewrite E; set_solver).
    pose proof (hi_range _ _ _ _ Hi Hqr) as (_ & Hk0 & _). cbn [fst snd] in Hk0.
    assert (Hb2 : 16 * k ≤ h_brk s - heap0).
    { destruct (hi_range _ _ _ _ Hi Hqr) as (_ & _ & [Ek|[Hql _]]); [injection Ek; lia|].
      apply (parts_bound _ _ (q, k) Hpa). set_solver. }
    mstep. cbn [head_addr fst]. unfold set_size, set_ptr. mstep. unfold modify. cbn [h_mem set_h_mem]. rewrite Hq2.
    rewrite u32_id by lia. destruct (only_hdr_ne bp (h_mem s) (put_size bp (bs + k) (h_mem s)) q (only_hdr_size _ _ _)) as [-> _]; [lia|].
    rewrite Hq1. destruct (only_hdr_both bp (head_addr l3 base) (bs + k) (h_mem s)) as (O1 & O2 & O3); [|lia|].
    { eapply (head_range l _ s (l1 ++ [t; (q, k)])); [done|]. by rewrite E, <-app_assoc. }
    exists (bs + k), l3. eexists. split_and!; [reflexivity|done|done|done|]. right. exists k. by rewrite Eh.
  - destruct (only_hdr_one bp (head_addr l2 base) (h_mem s)) as (O1 & O2 & O3).
    { eapply (head_range l _ s (l1 ++ [t])); [done|]. by rewrite E, <-app_assoc. }
    exists bs, l2. eexists. split_and!; [reflexivity|done|done|by rewrite O3|]. by left.
Qed.

Lemma join_prev_ok s t bp bs q e :
  hptr (h_mem s) bp = q → hsize (h_mem s) bp = bs → hsize (h_mem s) t.1 = t.2 → t.1 + 16 ≤ bp →
  0 ≤ q < 2 ^ 64 → 0 ≤ bp < 2 ^ 64 → 0 ≤ t.2 + bs < 2 ^ 32 →
  ∃ m, join_prev bp t.1 e s = Ret tt e (set_h_mem m s) ∧ only_hdr t.1 (h_mem s) m ∧
    (bend t = bp ∧ hptr m t.1 = q ∧ hsize m t.1 = t.2 + bs ∨
     bend t ≠ bp ∧ hptr m t.1 = bp ∧ hsize m t.1 = t.2).
Proof.
  intros Hq Hbs Ht Hh Hr1 Hr2 Hr3. unfold join_prev, get_size, get_ptr, sizeof_Header. mstep. rewrite Ht.
  destruct (Z.eqb_spec (t.1 + 16 * t.2) bp) as [Eb|Eb].
  - mstep. rewrite Hbs. unfold set_size, set_ptr. mstep. unfold modify. cbn [h_mem set_h_mem]. rewrite u32_id by lia.
    destruct (only_hdr_ne t.1 (h_mem s) (put_size t.1 (t.2 + bs) (h_mem s)) bp (only_hdr_size _ _ _)) as [-> _]; [lia|].
    rewrite Hq. destruct (only_hdr_both t.1 q (t.2 + bs) (h_mem s)) as (O1 & O2 & O3); [done|done|].
    eexists. split_and!; [reflexivity|done|]. by left.
  - destruct (only_hdr_one t.1 bp (h_mem s)) as (O1 & O2 & O3); [done|].
    eexists. split_and!; [reflexivity|done|]. right. by rewrite O3.
Qed.

Lemma ring_pre (l l1 l2 : list blk) t :
  ring l = l1 ++ t :: l2 →
  ∃ pre, l = pre ++ l2 ∧ (l1 = [] ∧ t = (base, 0) ∧ pre = [] ∨ ∃ k1, l1 = (base, 0) :: k1 ∧ pre = k1 ++ [t]).
Proof.
  destruct l1 as [|x k1]; cbn [app]; intros E; injection E as E1 E2.
  - exists []. split; [done|]. left. by rewrite <-E1.
  - exists (k1 ++ [t]). split; [by rewrite E2, <-app_assoc|]. right. exists k1. by rewrite <-E1.
Qed.

(** The list after the block was put at its place. *)
Definition put_block (l1 : list blk) (t : blk) (bp bs : Z) (l3 : list blk) : list blk :=
  if bend t =? bp then l1 ++ (t.1, t.2 + bs) :: l3 else l1 ++ t :: (bp, bs) :: l3.

Definition joined (bp bs bs' : Z) (l2 l3 : list blk) : Prop :=
  bs' = bs ∧ l3 = l2 ∧ bp + 16 * bs ≠ head_addr l2 base ∨ ∃ k, l2 = (bp + 16 * bs, k) :: l3 ∧ bs' = bs + k.

Lemma put_block_asc l1 t l2 bp bs bs' l3 :
  StronglySorted gap (l1 ++ t :: l2) → bend t ≤ bp → t.1 < bp → (∀ c, c ∈ l2 → bp + 16 * bs ≤ c.1 ∧ 0 ≤ c.2) → joined bp bs bs' l2 l3 →
  StronglySorted gap (put_block l1 t bp bs' l3).
Proof.
  intros Hs Ht Ht2 H2 Hj. apply StronglySorted_app in Hs as (H12 & H1 & Hs). apply StronglySorted_cons in Hs as [Htl Hs2].
  assert (H3 : StronglySorted gap l3 ∧ (∀ c, c ∈ l3 → c ∈ l2) ∧ ∀ c, c ∈ l3 → bp + 16 * bs' < c.1).
  { destruct Hj as [(-> & -> & Hne)|(k & -> & ->)].
    - split_and!; [done|done|]. destruct l2 as [|x l2]; [by intros c ?%not_elem_of_nil|]. cbn [head_addr] in Hne.
      apply StronglySorted_cons in Hs2 as [Hx _]. rewrite Forall_forall in Hx. destruct (H2 x ltac:(by left)) as [Hx1 Hx2].
      intros c [->|Hc]%elem_of_cons; [lia|]. specialize (Hx c Hc). unfold gap, bend in Hx. lia.
    - apply StronglySorted_cons in Hs2 as [Hx Hs3]. rewrite Forall_forall in Hx. split_and!; [done|set_solver|].
      intros c Hc. specialize (Hx c Hc). unfold gap, bend in Hx. cbn in Hx. lia. }
  destruct H3 as (Hs3 & Hsub & H3). rewrite Forall_forall in Htl. unfold put_block.
  assert (Hxt : ∀ x, x ∈ l1 → bend x < t.1) by (intros x Hx; apply (H12 x t Hx); by left).
  assert (Hxc : ∀ x c, x ∈ l1 → c ∈ l3 → bend x < c.1) by (intros x c Hx Hc; apply (H12 x c Hx); right; by apply Hsub).
  destruct (Z.eqb_spec (bend t) bp) as [Eb|Eb]; apply StronglySorted_app; (split_and!; [|done|]).
  - intros x c Hx [->|Hc]%elem_of_cons; unfold gap; [cbn; by apply Hxt|by apply Hxc].
  - apply StronglySorted_cons. split; [|done]. apply Forall_forall. intros c Hc. specialize (H3 c Hc).
    unfold gap, bend in *. cbn [fst snd]. lia.
  - intros x c Hx [->|[->|Hc]%elem_of_cons]%elem_of_cons; unfold gap; [by apply Hxt| |by apply Hxc].
    cbn. specialize (Hxt x Hx). lia.
  - apply StronglySorted_cons. split; [apply Forall_forall|apply StronglySorted_cons; split; [apply Forall_forall|done]].
    + intros c [->|Hc]%elem_of_cons; unfold gap; [cbn; lia|]. apply Htl. by apply Hsub.
    + intros c Hc. by apply H3.
Qed.

Lemma put_block_parts brk l l1 t l2 own bp bs bs' l3 :
  ring l = l1 ++ t :: l2 → t.1 < bp → 0 ≤ t.2 → parts brk (l ++ (bp, bs) :: own) → joined bp bs bs' l2 l3 →
  ∃ l', put_block l1 t bp bs' l3 = ring l' ∧ parts brk (l' ++ own) ∧ 16 * bs' ≤ brk - heap0 ∧ ∃ b, b ∈ l' ∧ bs' ≤ b.2.
Proof.
  intros E Ht Ht0 Hp Hj. destruct (ring_pre _ _ _ _ E) as (pre & -> & Hpre).
  assert (HJ : parts brk ((bp, bs') :: l3 ++ pre ++ own)).
  { destruct Hj as [(-> & -> & _)|(k & -> & ->)].
    - assert (HP : (pre ++ l2) ++ (bp, bs) :: own ≡ₚ (bp, bs) :: l2 ++ pre ++ own) by solve_Permutation. by rewrite <-HP.
    - apply parts_join. set (q := (bp + 16 * bs, k)) in *.
      assert (HP : (pre ++ q :: l3) ++ (bp, bs) :: own ≡ₚ (bp, bs) :: q :: l3 ++ pre ++ own) by solve_Permutation. by rewrite <-HP. }
  pose proof (parts_bound _ _ (bp, bs') HJ ltac:(by left)) as Hbd. cbn [snd] in Hbd.
  unfold put_block. destruct (Z.eqb_spec (bend t) bp) as [Eb|Eb].
  - destruct Hpre as [(_ & -> & _)|(k1 & -> & ->)]. { unfold bend in Eb. cbn in *. lia. }
    exists (k1 ++ (t.1, t.2 + bs') :: l3). split_and!; [done| |done|].
    + assert (HP : (k1 ++ (t.1, t.2 + bs') :: l3) ++ own ≡ₚ (t.1, t.2 + bs') :: k1 ++ l3 ++ own) by solve_Permutation. rewrite HP.
      apply parts_join. unfold bend in Eb. rewrite Eb, <-surjective_pairing.
      assert (HP2 : (bp, bs') :: l3 ++ (k1 ++ [t]) ++ own ≡ₚ t :: (bp, bs') :: k1 ++ l3 ++ own) by solve_Permutation. by rewrite <-HP2.
    + exists (t.1, t.2 + bs'). split; [set_solver|]. cbn. lia.
  - exists (pre ++ (bp, bs') :: l3). split_and!.
    + destruct Hpre as [(-> & -> & ->)|(k1 & -> & ->)]; [done|]. by rewrite <-app_assoc.
    + assert (HP : (pre ++ (bp, bs') :: l3) ++ own ≡ₚ (bp, bs') :: l3 ++ pre ++ own) by solve_Permutation. by rewrite HP.
    + done.
    + exists (bp, bs'). split; [set_solver|done].
Qed.

(** The addresses inside the blocks of [l] or the static header. *)
Definition within (l : list blk) (x : Z) : Prop := base ≤ x < base + 16 ∨ ∃ b, b ∈ l ∧ b.1 ≤ x < bend b.
Lemma not_within l own s b x : hinv l own s → b ∈ ring l → ¬ within l x → x < b.1 ∨ b.1 + 16 ≤ x.
Proof.
  intros Hi Hb Hx. unfold within in Hx. destruct (hi_range _ _ _ _ Hi Hb) as (_ & _ & [->|[Hl [B1 B2 B3 B4]]]); cbn [fst].
  - destruct (decide (base ≤ x < base + 16)); [tauto|lia].
  - destruct (decide (b.1 ≤ x < bend b)); [exfalso; apply Hx; right; eauto|]. unfold bend in *. lia.
Qed.

(** The list in memory after both joins. *)
Lemma put_block_seg m m1 m2 l1 t l2 l3 bp bs bs' :
  seg m (l1 ++ t :: l2) base → t.1 + 16 ≤ bp → (∀ c, c ∈ l1 → c.1 + 16 ≤ t.1) → (∀ c, c ∈ l2 → bp + 16 ≤ c.1) → joined bp bs bs' l2 l3 →
  only_hdr bp m m1 → hptr m1 bp = head_addr l3 base → hsize m1 bp = bs' → only_hdr t.1 m1 m2 →
  (bend t = bp ∧ hptr m2 t.1 = head_addr l3 base ∧ hsize m2 t.1 = t.2 + bs' ∨ bend t ≠ bp ∧ hptr m2 t.1 = bp ∧ hsize m2 t.1 = t.2) →
  seg m2 (put_block l1 t bp bs' l3) base.
Proof.
  intros Hs Ht H1 H2 Hj O1 Hb1 Hb2 O2 Hc. apply seg_app in Hs as [Hs1 Hs]. cbn [seg head_addr] in *. destruct Hs as (_ & _ & Hs2).
  assert (Hd : ∀ c, c ∈ l1 ∨ c ∈ l2 → hptr m2 c.1 = hptr m c.1 ∧ hsize m2 c.1 = hsize m c.1).
  { intros c Hcl. apply hdr_same. intros x Hx. rewrite O2, O1; [done| |]; destruct Hcl as [Hcl|Hcl]; [apply H1 in Hcl|apply H2 in Hcl|apply H1 in Hcl|apply H2 in Hcl]; lia. }
  assert (Hs1' : seg m2 l1 t.1) by (eapply seg_same; [exact Hs1|]; eauto).
  assert (Hs3' : seg m2 l3 base).
  { assert (Hs2' : seg m2 l2 base) by (eapply seg_same; [exact Hs2|]; eauto).
    destruct Hj as [(_ & -> & _)|(k & -> & _)]; [done|]. apply Hs2'. }
  destruct (only_hdr_ne t.1 m1 m2 bp O2) as [Hb3 Hb4]; [lia|].
  unfold put_block. destruct Hc as [(Eb & C1 & C2)|(Eb & C1 & C2)]; [rewrite (proj2 (Z.eqb_eq _ _) Eb)|rewrite (proj2 (Z.eqb_neq _ _) Eb)];
    apply seg_app; cbn [seg head_addr fst snd]; split_and!; try done; congruence.
Qed.

Lemma free_ok l own s bp bs e :
  hinv l ((bp, bs) :: own) s →
  ∃ l' s', free (bp + 16) e s = Ret tt e s' ∧ hinv l' own s' ∧ h_brk s' = h_brk s ∧ h_grow s' = h_grow s ∧
    (∃ b, b ∈ l' ∧ bs ≤ b.2) ∧ ∀ x, ¬ within ((bp, bs) :: l) x → ldb (h_mem s') x = ldb (h_mem s) x.
Proof.
  intros Hi. pose proof Hi as [Hpl Hbrk Hpa Ha Hs Ho _]. destruct (own_place _ _ _ _ _ Hi) as (l1 & t & l2 & E & Ht & Hbt & H2).
  assert (Htr : t ∈ ring l) by (rewrite E; set_solver).
  destruct (ring_own _ _ _ (bp, bs) t Hi ltac:(by left) Htr) as [[I1 I2 I3 _] _]. cbn [fst snd] in *.
  pose proof (hi_range _ _ _ _ Hi Htr) as (T1 & T2 & _). pose proof (hp_base Hpl). pose proof (hp_heap Hpl).
  assert (E2 : ∀ c, c ∈ l2 → 0 ≤ c.2). { intros c Hc. destruct (hi_range _ _ _ c Hi) as (_ & ? & _); [rewrite E; set_solver|lia]. }
  unfold free, sizeof_Header. replace (bp + 16 - 16) with bp by lia. mstep.
  assert (Hb : bp < 2 ^ 32) by (unfold bend in I3; cbn in I3; lia).
  mrun (free_scan l _ s l1 t l2 bp e Hi E ltac:(lia) ltac:(intros c Hc; specialize (H2 c Hc); lia)).
  destruct (join_next_ok l own s l1 t l2 bp bs e Hi E Ht H2) as (bs' & l3 & m1 & Hr1 & O1 & N1 & N2 & Hj). fold (joined bp bs bs' l2 l3) in Hj.
  mrun Hr1. destruct (put_block_parts _ l l1 t l2 own bp bs bs' l3 E ltac:(lia) ltac:(lia) Hpa Hj) as (l' & El & Hpa' & Hbd & b & Hbl & Hbb).
  assert (Hbs' : bs ≤ bs').
  { destruct Hj as [(-> & _)|(k & Ek & ->)]; [lia|]. specialize (E2 (bp + 16 * bs, k)). rewrite Ek in E2. specialize (E2 ltac:(by left)). cbn in E2. lia. }
  assert (Hsz : hsize m1 t.1 = t.2).
  { destruct (only_hdr_ne bp (h_mem s) m1 t.1 O1) as [_ ->]; [lia|]. by apply (hi_next _ _ _ _ Hi Htr). }
  destruct (join_prev_ok (set_h_mem m1 s) t bp bs' (head_addr l3 base) e) as (m2 & Hr2 & O2 & Hc); try done; try lia.
  { destruct Hj as [(_ & -> & _)|(k & -> & _)].
    - eapply (head_range l _ s (l1 ++ [t])); [done|]. by rewrite E, <-app_assoc.
    - eapply (head_range l _ s (l1 ++ [t; (bp + 16 * bs, k)])); [done|]. by rewrite E, <-app_assoc. }
  cbn [h_mem set_h_mem] in O2. mrun Hr2. exists l'. eexists. split_and!; [reflexivity| |done|done|exists b; split; [done|lia]|].
  - split; cbn [h_mem h_brk h_freep set_h_mem set_h_freep]; try done.
    + rewrite <-El. apply (put_block_asc l1 t l2 bp bs); [by rewrite <-E|lia|lia| |done]. intros c Hc2. split; [by apply H2|by apply E2].
    + rewrite <-El. apply (put_block_seg (h_mem s) m1 m2 l1 t l2 l3 bp bs bs'); try done.
      * by rewrite <-E.
      * intros c Hc1. by apply (ring_ring _ _ _ _ _ _ c Hi E).
      * intros c Hc2. by apply H2.
    + intros c Hco. rewrite <-(Ho c) by (by right). apply hdr_same.
      destruct (ring_own _ _ _ c t Hi ltac:(by right) Htr) as [[C1 C2 C3 _] Hct].
      assert (Hcb : apart (bp, bs) c) by (apply (disj_apart own _ _ l); [apply Hpa|set_solver]).
      intros x Hx. unfold apart, bend in Hcb. unfold bend in *. cbn [fst snd] in *. rewrite O2, O1 by lia. done.
    + unfold put_block in El. destruct (bend t =? bp); [exists (t.2 + bs')|exists t.2]; rewrite <-El, <-?surjective_pairing; set_solver.
  - cbn [h_mem set_h_mem set_h_freep]. intros x Hx.
    assert (Hxb : x < bp ∨ bp + 16 ≤ x).
    { destruct (decide (bp ≤ x < bp + 16 * bs)); [|lia]. exfalso. apply Hx. right. exists (bp, bs). split; [by left|]. unfold bend. cbn. lia. }
    assert (Hxt : x < t.1 ∨ t.1 + 16 ≤ x).
    { eapply not_within; [done|done|]. intros [?|(c & Hc1 & Hc2)]; apply Hx; [by left|]. right. exists c. split; [by right|done]. }
    rewrite O2, O1 by done. done.
Qed.

(** * malloc *)

(** Going from [s] to [s'] keeps the contents of the blocks of [own] and
    everything outside the heap but the static header. *)
Record hkept (own : list blk) (s s' : heap) : Prop := mkkept
  { ke_brk : h_brk s ≤ h_brk s';
    ke_own : ∀ b x, b ∈ own → b.1 ≤ x < bend b → ldb (h_mem s') x = ldb (h_mem s) x;
    ke_out : ∀ x, x < base ∨ base + 16 ≤ x < heap0 ∨ h_brk s' ≤ x → ldb (h_mem s') x = ldb (h_mem s) x }.
Lemma hkept_trans own s1 s2 s3 : hkept own s1 s2 → hkept own s2 s3 → hkept own s1 s3.
Proof.
  intros [A1 A2 A3] [B1 B2 B3]. split; [lia| |].
  - intros b x Hb Hx. rewrite (B2 b x Hb Hx). by apply (A2 b).
  - intros x Hx. rewrite B3 by done. apply A3. lia.
Qed.
Lemma brk_low l own s : hinv l own s → heap0 ≤ h_brk s.
Proof.
  intros Hi. destruct (hi_parts _ _ _ Hi) as [HF _ Ht].
  assert (Hle : 0 ≤ total (l ++ own)) by (clear Ht; induction HF as [|b k [] _ IH]; cbn [total]; lia). lia.
Qed.
Lemma hkept_within l own s s' :
  hinv l own s → h_brk s ≤ h_brk s' →
  (∀ x, ¬ within l x → ¬ h_brk s ≤ x < h_brk s' → ldb (h_mem s') x = ldb (h_mem s) x) → hkept own s s'.
Proof.
  intros Hi Hb Hf. pose proof Hi as [[P1 P2 P3] _ [HF HD _] _ _ _ _]. rewrite Forall_forall in HF. split; [done| |].
  - intros b x Hbo Hx. destruct (ring_own _ _ _ b (base, 0) Hi Hbo ltac:(by left)) as [[B1 B2 B3 B4] _]. apply Hf; [|lia].
    intros [Hx2|(c & Hc & Hx2)]; [lia|]. destruct (ring_own _ _ _ b c Hi Hbo ltac:(by right)) as [_ ?]. lia.
  - intros x Hx. pose proof (brk_low _ _ _ Hi). apply Hf; [|lia]. intros [?|(c & Hc & Hx2)]; [|destruct (HF c) as [C1 C2 C3 C4]; [set_solver|lia]].
    lia.
Qed.
Lemma sbrk_cases n e s :
  0 ≤ n < 2 ^ 31 → 0 ≤ h_brk s →
  sbrk n e s = Ret (-1) e (mkheap (h_mem s) (h_freep s) (h_brk s) (tail (h_grow s))) ∨
  sbrk n e s = Ret (h_brk s) e (mkheap (h_mem s) (h_freep s) (h_brk s + n) (tail (h_grow s))) ∧ h_brk s + n < 2 ^ 32.
Proof.
  intros Hn Hb. unfold sbrk. rewrite i32_id by lia. cbv zeta. destruct (match h_grow s with b :: _ => b | [] => false end); [|by left].
  cbn [andb]. rewrite (proj2 (Z.leb_le _ _)) by lia. destruct (Z.leb_spec (h_brk s + n) (PHYSTOP - KERNBASE)) as [Hle|]; [right|by left].
  unfold PHYSTOP in Hle. rewrite i32_id by lia. split; [done|lia].
Qed.

Lemma morecore_ok l own s nu e :
  hinv l own s → 1 ≤ nu < 2 ^ 27 →
  morecore nu e s = Ret 0 e (mkheap (h_mem s) (h_freep s) (h_brk s) (tail (h_grow s))) ∨
  ∃ l' s', morecore nu e s = Ret (h_freep s') e s' ∧ hinv l' own s' ∧ h_brk s < h_brk s' ∧
    (∃ b, b ∈ l' ∧ nu ≤ b.2) ∧ hkept own s s'.
Proof.
  intros Hi Hnu. pose proof Hi as [[P1 P2 P3] Hb Hpa Ha Hs Ho Hf]. pose proof (brk_low _ _ _ Hi) as Hlow.
  unfold morecore. set (n := if nu <? 4096 then 4096 else nu).
  assert (Hn : nu ≤ n ∧ 1 ≤ n < 2 ^ 27) by (unfold n; destruct (Z.ltb_spec nu 4096); lia). clearbody n.
  unfold sizeof_Header. destruct (sbrk_cases (n * 16) e s) as [Hr|[Hr Hlt]]; [lia|lia| |].
  { left. by mrun Hr. }
  right. mrun Hr. rewrite (proj2 (Z.eqb_neq (h_brk s) (-1))) by lia. unfold set_size. mstep.
  set (s1 := set_h_mem _ _). assert (Hi1 : hinv l ((h_brk s, n) :: own) s1).
  { split; cbn [h_mem h_brk h_freep set_h_mem s1]; try done.
    - replace (n * 16) with (16 * n) by lia. rewrite <-Permutation_middle. apply parts_grow; done || lia.
    - eapply seg_same; [exact Hs|]. intros b Hbr. apply (only_hdr_ne (h_brk s) _ (put_size (h_brk s) n (h_mem s)) b.1 (only_hdr_size _ _ _)).
      destruct (hi_range _ _ _ b Hi Hbr) as (_ & _ & [->|[_ [B1 B2 B3 B4]]]); unfold bend in *; cbn [fst snd] in *; lia.
    - intros b [->|Hbo]%elem_of_cons; [cbn; apply hsize_put_size; lia|]. rewrite <-(Ho b Hbo). apply hsize_put_size_ne.
      destruct (ring_own _ _ _ b (base, 0) Hi Hbo ltac:(by left)) as [[B1 B2 B3 B4] _]. unfold bend in *. lia. }
  destruct (free_ok l own s1 (h_brk s) n e Hi1) as (l' & s' & Hr2 & Hi' & Hbrk & _ & (b & Hb1 & Hb2) & Hfr). mrun Hr2.
  cbn [h_brk s1 set_h_mem] in Hbrk. exists l', s'. split_and!; [done|done|lia|exists b; split; [done|lia]|].
  apply (hkept_within l); [done|lia|]. intros x Hx Hx2. rewrite Hfr.
  - cbn [h_mem s1 set_h_mem]. apply ldb_put_size. lia.
  - intros [?|(c & [->|Hc]%elem_of_cons & Hxc)]; [apply Hx; by left|unfold bend in Hxc; cbn in Hxc; lia|].
    apply Hx. right. eauto.
Qed.

(** What a turn at a large enough block does. *)
Definition malloc_fit (n ps prevp p : Z) (s : heap) : heap * Z :=
  if ps =? n then (mkheap (put_ptr prevp (hptr (h_mem s) p) (h_mem s)) prevp (h_brk s) (h_grow s), p)
  else (mkheap (put_size (p + 16 * (ps - n)) n (put_size p (ps - n) (h_mem s))) prevp (h_brk s) (h_grow s), p + 16 * (ps - n)).
Lemma malloc_turn_fit n ps prevp p e s :
  hsize (h_mem s) p = ps → 1 ≤ n ≤ ps → ps < 2 ^ 32 →
  malloc_turn n (prevp, p) e s = Ret (inr ((malloc_fit n ps prevp p s).2 + 16)) e (malloc_fit n ps prevp p s).1.
Proof.
  intros Hp Hn Hb. unfold malloc_turn, malloc_fit, get_size, get_ptr, set_ptr, set_size, sizeof_Header. mstep. rewrite Hp.
  rewrite (proj2 (Z.leb_le n ps)) by lia. destruct (ps =? n); mstep; cbn [fst snd h_mem set_h_mem set_h_freep].
  - done.
  - rewrite u32_id by lia. by rewrite hsize_put_size by lia.
Qed.

(** A block of the list after the one at [prevp]. *)
Lemma next_split l own s prevp kp n :
  hinv l own s → (prevp, kp) ∈ ring l → 1 ≤ n ≤ hsize (h_mem s) (hptr (h_mem s) prevp) →
  ∃ l1 pre l3, let p := hptr (h_mem s) prevp in let ps := hsize (h_mem s) p in
    ring l = l1 ++ (prevp, kp) :: (p, ps) :: l3 ∧ hptr (h_mem s) p = head_addr l3 base ∧
    in_heap (h_brk s) (p, ps) ∧ ps < 2 ^ 28 ∧ l = pre ++ (p, ps) :: l3 ∧ ∀ r, ring (pre ++ r) = l1 ++ (prevp, kp) :: r.
Proof.
  intros Hi Hp Hn. pose proof Hi as [[P1 P2 P3] _ _ _ Hs _ _]. apply list_elem_of_split in Hp as (l1 & l2 & E).
  rewrite E in Hs. apply seg_app in Hs as [_ (Hq & _ & Hs)]. cbn [fst] in Hq. rewrite Hq in *.
  assert (Hb0 : hsize (h_mem s) base = 0) by (by destruct (hi_next _ _ _ (base, 0) Hi ltac:(by left)) as [? _]).
  destruct (ring_pre _ _ _ _ E) as (pre & El & Hpre).
  destruct l2 as [|[p ps] l3]; cbn [head_addr fst snd seg] in *; [lia|]. destruct Hs as (Hs1 & Hs2 & _). rewrite Hs2 in *.
  assert (Hpr : (p, ps) ∈ ring l) by (rewrite E; set_solver).
  destruct (hi_range _ _ _ _ Hi Hpr) as (_ & Hr & [Ep|[_ Hin]]); [injection Ep as -> ->; lia|]. cbn [fst snd] in *.
  exists l1, pre, l3. cbv zeta. rewrite ?Hq, ?Hs2. split_and!; try done; try lia.
  intros r. destruct Hpre as [(-> & -> & ->)|(k1 & -> & ->)]; [done|]. by rewrite <-app_assoc.
Qed.

Lemma asc_drop (l1 : list blk) b c l3 : StronglySorted gap (l1 ++ b :: c :: l3) → StronglySorted gap (l1 ++ b :: l3).
Proof.
  intros Hs. apply StronglySorted_app in Hs as (H1 & H2 & H3). apply StronglySorted_cons in H3 as [H4 H5].
  apply StronglySorted_cons in H5 as [_ H5]. apply Forall_cons in H4 as [_ H4]. apply StronglySorted_app. split_and!; [|done|by constructor].
  intros x y Hx Hy. apply H1; set_solver.
Qed.
Lemma asc_shrink (l1 : list blk) b a s n l3 :
  0 ≤ n → StronglySorted gap (l1 ++ b :: (a, s) :: l3) → StronglySorted gap (l1 ++ b :: (a, s - n) :: l3).
Proof.
  intros Hn Hs. apply StronglySorted_app in Hs as (H1 & H2 & H3). apply StronglySorted_cons in H3 as [H4 H5].
  apply StronglySorted_cons in H5 as [H6 H5]. apply Forall_cons in H4 as [H7 H4]. apply StronglySorted_app. split_and!; [|done|].
  - intros x y Hx [->|[->|Hy]%elem_of_cons]%elem_of_cons; [apply H1; set_solver| |apply H1; set_solver].
    change (gap x (a, s)). apply H1; set_solver.
  - apply StronglySorted_cons. split; [by constructor|]. apply StronglySorted_cons. split; [|done].
    eapply Forall_impl; [exact H6|]. unfold gap, bend. cbn. lia.
Qed.

Lemma split_apart l own s l1 b p ps l3 :
  hinv l own s → ring l = l1 ++ b :: (p, ps) :: l3 → 1 ≤ ps →
  (∀ c, c ∈ l1 ++ b :: l3 → c.1 + 16 ≤ p ∨ p + 16 * ps ≤ c.1 ∧ p + 16 ≤ c.1) ∧
  (∀ c, c ∈ own → c.1 + 16 ≤ p ∨ p + 16 * ps ≤ c.1 ∧ p + 16 ≤ c.1).
Proof.
  intros Hi E Hps. split; intros c Hc.
  - assert (E' : ring l = (l1 ++ [b]) ++ (p, ps) :: l3) by (by rewrite <-app_assoc).
    destruct (ring_ring _ _ _ _ _ _ c Hi E') as [R1 R2]. cbn [fst] in *. pose proof (hi_asc _ _ _ Hi) as Ha. rewrite E' in Ha.
    apply StronglySorted_app in Ha as (_ & _ & Ha). apply StronglySorted_cons in Ha as [Ha _]. rewrite Forall_forall in Ha.
    rewrite elem_of_app, elem_of_cons in Hc. destruct Hc as [Hc|[->|Hc]]; [left; apply R1; set_solver|left; apply R1; set_solver|].
    right. split; [|by apply R2]. specialize (Ha c Hc). unfold gap, bend in Ha. cbn in Ha. lia.
  - destruct (ring_own _ _ _ c (p, ps) Hi Hc) as [[B1 B2 B3 B4] Hbp]; [rewrite E; set_solver|]. unfold bend in *. cbn in *. lia.
Qed.

(** Taking a whole block, and the end of one. *)
Lemma fit_exact l own s prevp kp ps :
  hinv l own s → (prevp, kp) ∈ ring l → let p := hptr (h_mem s) prevp in hsize (h_mem s) p = ps → 1 ≤ ps →
  ∃ l', let s' := mkheap (put_ptr prevp (hptr (h_mem s) p) (h_mem s)) prevp (h_brk s) (h_grow s) in
    hinv l' ((p, ps) :: own) s' ∧ hkept own s s'.
Proof.
  intros Hi Hp p Hps Hn. destruct (next_split l own s prevp kp ps Hi Hp) as (l1 & pre & l3 & E & Hq & Hin & Hlt & El & Hring); [fold p; lia|].
  fold p in E, Hq, Hin, Hlt, El. rewrite Hps in *. pose proof Hi as [Hpl Hb Hpa Ha Hs Ho Hf].
  destruct (split_apart _ _ _ _ _ _ _ _ Hi E Hn) as [Hpr Hown]. rewrite Hq.
  destruct (only_hdr_one prevp (head_addr l3 base) (h_mem s)) as (O1 & O2 & O3).
  { eapply (head_range l _ s (l1 ++ [(prevp, kp); (p, ps)])); [done|]. by rewrite E, <-app_assoc. }
  exists (pre ++ l3). cbv zeta. split.
  - split; cbn [h_mem h_brk h_freep]; try done.
    + assert (HP : l ++ own ≡ₚ (pre ++ l3) ++ (p, ps) :: own) by (rewrite El; solve_Permutation). by rewrite <-HP.
    + rewrite Hring. eapply asc_drop. by rewrite <-E.
    + rewrite Hring. rewrite E in Hs. apply seg_app in Hs as [Hs1 Hs]. cbn [seg head_addr fst snd] in *. destruct Hs as (_ & Hs2 & _ & _ & Hs3).
      assert (Hsame : ∀ c, c ∈ l1 ∨ c ∈ l3 → hptr (put_ptr prevp (head_addr l3 base) (h_mem s)) c.1 = hptr (h_mem s) c.1 ∧
        hsize (put_ptr prevp (head_addr l3 base) (h_mem s)) c.1 = hsize (h_mem s) c.1).
      { intros c Hc. apply (only_hdr_ne prevp _ _ _ O1). destruct (ring_ring _ _ _ _ _ _ c Hi E) as [R1 R2]. cbn [fst] in *.
        destruct Hc as [Hc|Hc]; [left; by apply R1|right; apply R2; by right]. }
      apply seg_app. cbn [seg head_addr fst snd]. split_and!; [eapply seg_same; [exact Hs1|]; eauto|done|congruence|eapply seg_same; [exact Hs3|]; eauto].
    + intros c [->|Hc]%elem_of_cons; cbn [fst snd].
      * rewrite hsize_put_ptr; [done|]. destruct (Hpr (prevp, kp)) as [?|?]; [set_solver|cbn in *; lia|cbn in *; lia].
      * rewrite hsize_put_ptr; [by apply Ho|]. destruct (ring_own _ _ _ c (prevp, kp) Hi Hc Hp) as [_ ?]. cbn in *. lia.
    + exists kp. rewrite Hring. set_solver.
  - apply (hkept_within l); [done|cbn; lia|]. intros x Hx _. cbn [h_mem]. apply O1. by apply (not_within l own s (prevp, kp)).
Qed.

Lemma fit_cut l own s prevp kp ps n :
  hinv l own s → (prevp, kp) ∈ ring l → let p := hptr (h_mem s) prevp in hsize (h_mem s) p = ps → 1 ≤ n < ps →
  ∃ l', let a := p + 16 * (ps - n) in
    let s' := mkheap (put_size a n (put_size p (ps - n) (h_mem s))) prevp (h_brk s) (h_grow s) in
    hinv l' ((a, n) :: own) s' ∧ hkept own s s'.
Proof.
  intros Hi Hp p Hps Hn. destruct (next_split l own s prevp kp ps Hi Hp) as (l1 & pre & l3 & E & Hq & Hin & Hlt & El & Hring); [fold p; lia|].
  fold p in E, Hq, Hin, Hlt, El. rewrite Hps in *. pose proof Hi as [Hpl Hb Hpa Ha Hs Ho Hf].
  destruct (split_apart _ _ _ _ _ _ _ _ Hi E ltac:(lia)) as [Hpr Hown]. clearbody p. set (a := p + 16 * (ps - n)).
  set (m' := put_size a n (put_size p (ps - n) (h_mem s))).
  assert (Hx : ∀ x, x < p ∨ p + 16 * ps ≤ x → ldb m' x = ldb (h_mem s) x) by (intros x Hx; unfold m', a; rewrite !ldb_put_size by lia; done).
  assert (Hh : ∀ q, q + 16 ≤ p ∨ p + 16 * ps ≤ q → hptr m' q = hptr (h_mem s) q ∧ hsize m' q = hsize (h_mem s) q) by (intros q ?; apply hdr_same; intros x ?; apply Hx; lia).
  exists (pre ++ (p, ps - n) :: l3). cbv zeta. split.
  - split; cbn [h_mem h_brk h_freep]; try done.
    + assert (HP : (pre ++ (p, ps - n) :: l3) ++ (a, n) :: own ≡ₚ (p, ps - n) :: (a, n) :: pre ++ l3 ++ own) by solve_Permutation.
      rewrite HP. apply parts_cut; [|done]. assert (HP2 : l ++ own ≡ₚ (p, ps) :: pre ++ l3 ++ own) by (rewrite El; solve_Permutation). by rewrite <-HP2.
    + rewrite Hring. apply asc_shrink; [lia|]. by rewrite <-E.
    + rewrite Hring. rewrite E in Hs. apply seg_app in Hs as [Hs1 Hs]. cbn [seg head_addr fst snd] in *. destruct Hs as (Hs2 & Hs3 & Hs4 & _ & Hs5).
      assert (Hsame : ∀ c, c ∈ l1 ++ (prevp, kp) :: l3 → hptr m' c.1 = hptr (h_mem s) c.1 ∧ hsize m' c.1 = hsize (h_mem s) c.1).
      { intros c Hc. apply Hh. specialize (Hpr c Hc). lia. }
      destruct (Hsame (prevp, kp)) as [S1 S2]; [set_solver|]. cbn [fst] in *.
      apply seg_app. cbn [seg head_addr fst snd]. fold m'. split_and!; try congruence.
      * eapply seg_same; [exact Hs1|]. intros c Hc. apply Hsame. set_solver.
      * unfold m', a. rewrite !hptr_put_size by lia. done.
      * unfold m', a. rewrite hsize_put_size_ne, hsize_put_size by lia. done.
      * eapply seg_same; [exact Hs5|]. intros c Hc. apply Hsame. set_solver.
    + intros c [->|Hc]%elem_of_cons; cbn [fst snd]; [apply hsize_put_size; lia|]. rewrite <-(Ho c Hc). apply Hh. specialize (Hown c Hc). lia.
    + exists kp. rewrite Hring. set_solver.
  - apply (hkept_within l); [done|cbn; lia|]. intros x Hw _. cbn [h_mem]. apply Hx.
    destruct (decide (p ≤ x < p + 16 * ps)); [|lia]. exfalso. apply Hw. right. exists (p, ps). split; [rewrite El; set_solver|done].
Qed.

(** One step round the list. *)
Lemma dist_step l own s x :
  hinv l own s → x ∈ ring l → let n := hptr (h_mem s) x.1 in
  (∃ d, 0 < d ∧ ∀ t, t ∈ ring l → t.1 ≠ x.1 → dist n t.1 = dist x.1 t.1 - d) ∧ ∀ t, t ∈ ring l → dist n t.1 ≤ dist n x.1.
Proof.
  intros Hi Hx n. destruct (hi_next _ _ _ x Hi Hx) as (_ & [k Hk] & Hn). fold n in Hk, Hn. pose proof (hp_base (hi_place _ _ _ Hi)) as Hb.
  destruct (hi_range _ _ _ _ Hi Hx) as (X1 & _). destruct (hi_range _ _ _ _ Hi Hk) as (N1 & _). cbn [fst] in N1. split.
  - exists (if x.1 <? n then n - x.1 else n + 2 ^ 33 - x.1). split; [destruct (Z.ltb_spec x.1 n); lia|].
    intros t Ht Hne. destruct (hi_range _ _ _ _ Hi Ht) as (T1 & _).
    pose proof (dist_cases n t.1). pose proof (dist_cases x.1 t.1).
    destruct Hn as [[Hlt Hn]|[Hlt Hn]]; specialize (Hn t Ht); destruct (Z.ltb_spec x.1 n); lia.
  - intros t Ht. destruct (hi_range _ _ _ _ Hi Ht) as (T1 & _). pose proof (dist_cases n t.1). pose proof (dist_cases n x.1).
    destruct Hn as [[Hlt Hn]|[Hlt Hn]]; specialize (Hn t Ht); lia.
Qed.
Lemma dist_range l own s x t : hinv l own s → x ∈ ring l → t ∈ ring l → 0 ≤ dist x.1 t.1 < 2 ^ 34.
Proof.
  intros Hi Hx Ht. destruct (hi_range _ _ _ _ Hi Hx) as (X1 & _). destruct (hi_range _ _ _ _ Hi Ht) as (T1 & _).
  pose proof (hp_base (hi_place _ _ _ Hi)). pose proof (dist_cases x.1 t.1). lia.
Qed.
Lemma same_addr l own s p k k' : hinv l own s → (p, k) ∈ ring l → (p, k') ∈ ring l → k = k'.
Proof.
  intros Hi Hk Hk'. destruct (hi_next _ _ _ _ Hi Hk) as (E1 & _). destruct (hi_next _ _ _ _ Hi Hk') as (E2 & _). cbn in *. congruence.
Qed.

Lemma hkept_refl own s : hkept own s s.
Proof. split; [lia|done|done]. Qed.
Lemma hinv_grow l own s g : hinv l own s → hinv l own (mkheap (h_mem s) (h_freep s) (h_brk s) g).
Proof. by intros []. Qed.

Section loop.
Context (l own : list blk) (s0 : heap) (n : Z) (e0 : list (heap → heap)).
Context (Hi0 : hinv l own s0) (Hn : 1 ≤ n < 2 ^ 27).

(** The search: either no free block is large enough and nothing has happened
    yet, or one is and the search will find it before it has gone round. *)
Definition search (x : Z * Z) (e : list (heap → heap)) (s : heap) : Prop :=
  e = e0 ∧ ∃ l1 k, hinv l1 own s ∧ (x.1, k) ∈ ring l1 ∧ x.2 = hptr (h_mem s) x.1 ∧ hkept own s0 s ∧
  (s = s0 ∧ l1 = l ∧ (∀ b, b ∈ l → b.2 < n) ∨ ∃ c, c ∈ l1 ∧ n ≤ c.2 ∧ dist x.2 c.1 ≤ dist x.2 (h_freep s)).
Definition found (r : Z) (e : list (heap → heap)) (s : heap) : Prop :=
  e = e0 ∧ hkept own s0 s ∧
  (r = 0 ∧ hinv l own s ∧ (∀ b, b ∈ l → b.2 < n) ∨ ∃ a l', r = a + 16 ∧ hinv l' ((a, n) :: own) s).
Definition left_to_search (x : Z * Z) (e : list (heap → heap)) (s : heap) : Z :=
  dist x.2 (h_freep s) + if h_brk s =? h_brk s0 then 2 ^ 34 else 0.

Lemma search_fit prevp p s k kp l1 :
  hinv l1 own s → (prevp, kp) ∈ ring l1 → p = hptr (h_mem s) prevp → hsize (h_mem s) p = k → k < 2 ^ 28 → n ≤ k → hkept own s0 s →
  ∃ r s', malloc_turn n (prevp, p) e0 s = Ret (inr r) e0 s' ∧ found r e0 s'.
Proof.
  intros Hi Hp -> Hk Hk2 Hnk Hkept. eexists _, _. split; [by apply (malloc_turn_fit n k); [|lia|lia]|]. unfold malloc_fit.
  destruct (Z.eqb_spec k n) as [->|Hne]; cbn [fst snd].
  - destruct (fit_exact _ _ _ _ _ n Hi Hp Hk ltac:(lia)) as (l' & Hi' & Hke). split_and!; [done|by eapply hkept_trans|]. right. by eexists _, _.
  - destruct (fit_cut _ _ _ _ _ k n Hi Hp Hk ltac:(lia)) as (l' & Hi' & Hke). split_and!; [done|by eapply hkept_trans|]. right. by eexists _, _.
Qed.

Lemma search_turn x e s :
  search x e s → 0 ≤ left_to_search x e s ∧
  ∃ r e' s', malloc_turn n x e s = Ret r e' s' ∧
    match r with inl x' => search x' e' s' ∧ left_to_search x' e' s' < left_to_search x e s | inr v => found v e' s' end.
Proof.
  destruct x as [prevp p]. intros (-> & l1 & kp & Hi & Hp & Ep & Hke & Hc). cbn [fst snd] in *.
  destruct (hi_next _ _ _ _ Hi Hp) as (_ & [k Hk] & _). cbn [fst] in Hk. rewrite <-Ep in Hk.
  destruct (hi_next _ _ _ _ Hi Hk) as (Hsz & [k2 Hk2] & _). cbn [fst snd] in *.
  destruct (hi_freep _ _ _ Hi) as [kf Hf]. pose proof (dist_range _ _ _ _ _ Hi Hk Hf) as D1. cbn [fst] in D1.
  assert (Hm : dist p (h_freep s) ≤ left_to_search (prevp, p) e0 s) by (unfold left_to_search; cbn; destruct (_ =? _); lia).
  split; [lia|]. destruct (hi_range _ _ _ _ Hi Hk) as (_ & K & _). cbn [snd] in K.
  destruct (Z_le_dec n k) as [Hfit|Hfit].
  { destruct (search_fit prevp p s k kp l1) as (r & s' & Hr & Hfd); try done; [lia|]. by exists (inr r), e0, s'. }
  assert (Hnot : ∀ c, c ∈ l1 → n ≤ c.2 → c.1 ≠ p).
  { intros [cp cs] Hcl Hcn E. cbn in *. subst cp. assert (cs = k) by (eapply same_addr; [exact Hi|by right|done]). lia. }
  assert (Hrun : malloc_turn n (prevp, p) e0 s = (if p =? h_freep s then
      q <- morecore n ;; if q =? 0 then ret (inr 0) else r <- get_ptr q ;; ret (inl (q, r)) else r <- get_ptr p ;; ret (inl (p, r))) e0 s).
  { unfold malloc_turn, get_size. mstep. rewrite Hsz, (proj2 (Z.leb_gt n k)) by lia. done. }
  rewrite Hrun. clear Hrun. destruct (Z.eqb_spec p (h_freep s)) as [Epf|Epf].
  - destruct Hc as [(-> & -> & Hno)|(c & Hcl & Hcn & Hcd)].
    2: { exfalso. assert (Hcr : c ∈ ring l1) by (by right). pose proof (dist_range _ _ _ _ _ Hi Hk Hcr) as D2. cbn [fst] in D2.
         pose proof (Hnot c Hcl Hcn). rewrite <-Epf in Hcd. pose proof (dist_cases p p). pose proof (dist_cases p c.1).
         destruct (hi_range _ _ _ _ Hi Hk) as (K1 & _). destruct (hi_range _ _ _ _ Hi Hcr) as (C1 & _). pose proof (hp_base (hi_place _ _ _ Hi)).
         cbn [fst] in *. lia. }
    destruct (morecore_ok l own s0 n e0 Hi Hn) as [Hr|(l2 & s2 & Hr & Hi2 & Hbrk & (b & Hb1 & Hb2) & Hke2)]; mrun Hr.
    + exists (inr 0), e0. eexists. split; [reflexivity|]. split_and!; [done|by split|]. left. split_and!; [done|by apply hinv_grow|done].
    + destruct (hi_freep _ _ _ Hi2) as [kf2 Hf2]. destruct (hi_range _ _ _ _ Hi2 Hf2) as (F2 & _). cbn [fst] in F2.
      rewrite (proj2 (Z.eqb_neq (h_freep s2) 0)) by (pose proof (hp_base (hi_place _ _ _ Hi)); lia). unfold get_ptr. mstep.
      eexists (inl _), e0, s2. split; [reflexivity|]. destruct (dist_step _ _ _ _ Hi2 Hf2) as [_ Hmax]. cbn [fst] in Hmax.
      destruct (hi_next _ _ _ _ Hi2 Hf2) as (_ & [k3 Hk3] & _). cbn [fst] in Hk3. pose proof (dist_range _ _ _ _ _ Hi2 Hk3 Hf2) as D3. cbn [fst] in D3.
      split.
      * split; [done|]. exists l2, kf2. cbn [fst snd]. split_and!; [done|done|done|done|]. right. exists b. split_and!; [done|done|]. apply Hmax. by right.
      * unfold left_to_search. cbn [snd]. rewrite Z.eqb_refl, (proj2 (Z.eqb_neq (h_brk s2) (h_brk s0))) by lia. lia.
  - unfold get_ptr. mstep. eexists (inl _), e0, s. split; [reflexivity|]. destruct (dist_step _ _ _ _ Hi Hk) as [(d & Hd & Hstep) _]. cbn [fst] in *.
    pose proof (Hstep _ Hf ltac:(cbn; congruence)) as Hsf. cbn [fst] in Hsf. split.
    + split; [done|]. exists l1, k. cbn [fst snd]. split_and!; [done|done|done|done|].
      destruct Hc as [Hc|(c & Hcl & Hcn & Hcd)]; [by left|right]. exists c. split_and!; [done|done|].
      rewrite (Hstep c) by (by right || by apply Hnot). lia.
    + unfold left_to_search. cbn [snd]. lia.
Qed.

Lemma malloc_loop_ok :
  ∃ r s', loop (malloc_turn n) (h_freep s0, hptr (h_mem s0) (h_freep s0)) e0 s0 = Ret r e0 s' ∧ found r e0 s'.
Proof.
  destruct (hi_freep _ _ _ Hi0) as [kf Hf]. destruct (hi_next _ _ _ _ Hi0 Hf) as (_ & [k Hk] & _). cbn [fst] in Hk.
  pose proof (dist_range _ _ _ _ _ Hi0 Hk Hf) as D. cbn [fst] in D. destruct (dist_step _ _ _ _ Hi0 Hf) as [_ Hmax]. cbn [fst] in Hmax.
  destruct (loop_measure (malloc_turn n) left_to_search search found (h_freep s0, hptr (h_mem s0) (h_freep s0)) e0 s0) as (r & e & s' & Hr & Hfd).
  - apply search_turn.
  - split; [done|]. exists l, kf. cbn [fst snd]. split_and!; [done|done|done|apply hkept_refl|].
    destruct (decide (Forall (λ b : blk, b.2 < n) l)) as [Hno|Hno]; [left; split_and!; [done|done|by apply Forall_forall]|].
    right. apply not_Forall_Exists in Hno; [|apply _]. apply Exists_exists in Hno as (c & Hc & Hcn).
    exists c. cbn in Hcn. split_and!; [done|lia|]. apply Hmax. by right.
  - unfold left_to_search. cbn [snd]. destruct (_ =? _); lia.
  - exists r, s'. pose proof Hfd as (-> & _). done.
Qed.
End loop.

(** * A client *)

(** The allocator before and after its first use. *)
Definition fresh_heap (s : heap) : Prop := heap_place ∧ h_freep s = 0 ∧ h_brk s = heap0 ∧ heap0 < 2 ^ 32.
Definition hready (own : list blk) (s : heap) : Prop := (∃ l, hinv l own s) ∨ own = [] ∧ fresh_heap s.

Lemma units_range n : 0 ≤ n < 2 ^ 31 - 32 → 1 ≤ units n < 2 ^ 27 ∧ n ≤ 16 * (units n - 1).
Proof.
  intros Hn. unfold units, sizeof_Header. pose proof (Z.div_mod (n + 16 - 1) 16 ltac:(lia)).
  pose proof (Z.mod_pos_bound (n + 16 - 1) 16 ltac:(lia)). rewrite u32_id by lia. lia.
Qed.

Lemma malloc_ok own s nbytes e :
  hready own s → 0 ≤ nbytes < 2 ^ 31 - 32 →
  ∃ r s', malloc base nbytes e s = Ret r e s' ∧ hkept own s s' ∧
    (r = 0 ∧ hready own s' ∨ ∃ a, r = a + 16 ∧ hready ((a, units nbytes) :: own) s').
Proof.
  intros Hrdy Hn. destruct (units_range nbytes Hn) as [Hu _]. unfold malloc, get_ptr. mstep. destruct Hrdy as [[l Hi]|[-> (Hpl & Hf & Hb & Hb2)]].
  - destruct (hi_freep _ _ _ Hi) as [kf Hf]. destruct (hi_range _ _ _ _ Hi Hf) as (F & _). cbn [fst] in F. pose proof (hp_base (hi_place _ _ _ Hi)).
    rewrite (proj2 (Z.eqb_neq (h_freep s) 0)) by lia. mstep.
    destruct (malloc_loop_ok l own s (units nbytes) e Hi Hu) as (r & s' & Hr & _ & Hke & Hc). rewrite Hr. exists r, s'. split_and!; [done|done|].
    destruct Hc as [(-> & Hi' & _)|(a & l' & -> & Hi')]; [left|right; exists a]; split; try done; left; eauto.
  - rewrite Hf. cbn [Z.eqb]. unfold set_ptr, set_size. mstep. cbn [h_mem set_h_mem set_h_freep h_freep h_brk h_grow].
    set (s1 := mkheap (put_size base 0 (put_ptr base base (h_mem s))) base (h_brk s) (h_grow s)). pose proof (hp_base Hpl). pose proof (hp_heap Hpl).
    assert (Hi : hinv [] [] s1).
    { split; cbn [h_mem h_brk h_freep s1]; try done; try lia.
      - split; [constructor|done|]. cbn. lia.
      - by repeat constructor.
      - cbn. rewrite hptr_put_size, hptr_put_ptr, hsize_put_size by lia. done.
      - by intros b ?%not_elem_of_nil.
      - exists 0. by left. }
    assert (Hk1 : hkept [] s s1).
    { split; cbn [h_mem h_brk s1]; [lia|by intros b x ?%not_elem_of_nil|]. intros x Hx. rewrite ldb_put_size, ldb_put_ptr by lia. done. }
    destruct (malloc_loop_ok [] [] s1 (units nbytes) e Hi Hu) as (r & s' & Hr & _ & Hke & Hc).
    exists r, s'. split_and!; [exact Hr|by eapply hkept_trans|].
    destruct Hc as [(-> & Hi' & _)|(a & l' & -> & Hi')]; [left|right; exists a]; split; try done; left; eauto.
Qed.

Lemma hinv_perm l own own' s : own ≡ₚ own' → hinv l own s → hinv l own' s.
Proof.
  intros HP [H1 H2 H3 H4 H5 H6 H7]. split; try done; [by rewrite <-HP|]. intros b Hb. apply H6. by rewrite HP.
Qed.
Lemma free_kept l own s bp bs e :
  hinv l ((bp, bs) :: own) s → ∃ s', free (bp + 16) e s = Ret tt e s' ∧ hready own s' ∧ hkept own s s'.
Proof.
  intros Hi. destruct (free_ok l own s bp bs e Hi) as (l' & s' & Hr & Hi' & Hb & _ & _ & Hfr).
  exists s'. split_and!; [done|left; eauto|]. pose proof Hi as [[P1 P2 P3] _ [HF HD _] _ _ _ _]. rewrite Forall_forall in HF.
  split; [lia| |].
  - intros b x Hbo Hx. apply Hfr. assert (Hbo' : b ∈ (bp, bs) :: own) by (by right).
    destruct (ring_own _ _ _ b (base, 0) Hi Hbo' ltac:(by left)) as [[B1 B2 B3 B4] _].
    intros [?|(c & [->|Hc]%elem_of_cons & Hx2)]; [lia| |].
    + assert (Ha : apart (bp, bs) b) by (apply (disj_apart own _ _ l); [done|set_solver]). unfold apart in Ha. cbn [fst] in *. lia.
    + destruct (ring_own _ _ _ b c Hi Hbo' ltac:(by right)) as [_ ?]. lia.
  - intros x Hx. apply Hfr. pose proof (brk_low _ _ _ Hi). intros [?|(c & Hc & Hx2)]; [lia|].
    destruct (HF c) as [C1 C2 C3 C4]; [set_solver|]. lia.
Qed.

(** An object: its address and the bytes the client stored in it last. *)
Abbreviation obj := (Z * list Z)%type.
Inductive hop : Type :=
| OMalloc (nbytes : Z)
| OFree (k : nat)
| OStore (k off : nat) (v : Z).
Definition run_hop (op : hop) (objs : list obj) : H (list obj) :=
  match op with
  | OMalloc n =>
      r <- malloc base n ;;
      m <- gets h_mem ;;
      ret (if r =? 0 then objs else (r, read_bytes m r (Z.to_nat n)) :: objs)
  | OFree k =>
      match objs !! k with Some o => free o.1 ;;; ret (delete k objs) | None => ret objs end
  | OStore k off v =>
      match objs !! k with
      | Some o =>
          if (off <? length o.2)%nat then
            modify (λ s, set_h_mem (stb (h_mem s) (o.1 + Z.of_nat off) v) s) ;;;
            ret (<[k := (o.1, <[off := u8 v]> o.2)]> objs)
          else ret objs
      | None => ret objs
      end
  end.
Fixpoint run_hops (ops : list hop) (objs : list obj) : H (list obj) :=
  match ops with [] => ret objs | op :: ops => objs <- run_hop op objs ;; run_hops ops objs end.
Definition hop_ok (op : hop) : Prop := match op with OMalloc n => 0 ≤ n < 2 ^ 31 - 32 | _ => True end.

(** The object lies in the block, after its header, and holds its bytes. *)
Record lies (s : heap) (o : obj) (b : blk) : Prop := mklies
  { li_addr : o.1 = b.1 + 16; li_len : Z.of_nat (length o.2) ≤ 16 * (b.2 - 1);
    li_bytes : read_bytes (h_mem s) o.1 (length o.2) = o.2 }.
Lemma lies_kept own s s' o b : hkept own s s' → b ∈ own → lies s o b → lies s' o b.
Proof.
  intros [_ Hk _] Hb [L1 L2 L3]. split; [done|done|]. rewrite <-L3 at 2. apply read_bytes_ext. intros x Hx.
  apply (Hk b); [done|]. unfold bend. lia.
Qed.
Lemma all_lie_kept own s s' objs : hkept own s s' → Forall2 (lies s) objs own → Forall2 (lies s') objs own.
Proof.
  intros Hk HF. apply Forall2_same_length_lookup. split; [by eapply Forall2_length|]. intros i o b Ho Hb.
  eapply lies_kept; [exact Hk|by eapply list_elem_of_lookup_2|]. by eapply (Forall2_lookup_lr (lies s)).
Qed.

Lemma read_bytes_stb m a n off v :
  (off < n)%nat → read_bytes (stb m (a + Z.of_nat off) v) a n = <[off := u8 v]> (read_bytes m a n).
Proof.
  revert a off. induction n as [|n IH]; intros a off Hn; [lia|]. rewrite !read_bytes_S. unfold stb. rewrite ldb_insert. destruct off as [|off]; cbn [insert list_insert].
  - rewrite decide_True by lia. f_equal. apply read_bytes_ext. intros x Hx. by rewrite ldb_insert, decide_False by lia.
  - rewrite decide_False by lia. f_equal. rewrite <-IH by lia. apply read_bytes_ext. intros x Hx. unfold stb. by replace (a + Z.of_nat (S off)) with (a + 1 + Z.of_nat off) by lia.
Qed.

(** Storing a byte in a block, after its header. *)
Lemma store_hinv l own1 b own2 s a v :
  hinv l (own1 ++ b :: own2) s → b.1 + 16 ≤ a < bend b →
  hinv l (own1 ++ b :: own2) (set_h_mem (stb (h_mem s) a v) s) ∧ hkept (own1 ++ own2) s (set_h_mem (stb (h_mem s) a v) s).
Proof.
  intros Hi Ha. assert (Hb : b ∈ own1 ++ b :: own2) by set_solver.
  assert (Hx : ∀ x, x ≠ a → ldb (stb (h_mem s) a v) x = ldb (h_mem s) x) by (intros x Hx; unfold stb; by rewrite ldb_insert, decide_False).
  assert (Hc : ∀ c, c ∈ own1 ++ own2 → apart b c).
  { intros c Hc. pose proof (pa_disj _ _ (hi_parts _ _ _ Hi)) as HD. rewrite app_assoc in HD. eapply disj_apart; [exact HD|]. set_solver. }
  pose proof Hi as [[P1 P2 P3] H2 Hpa H4 H5 H6 H7]. split.
  - split; cbn [h_mem h_brk h_freep set_h_mem]; try done.
    + eapply seg_same; [exact H5|]. intros c Hcr. apply hdr_same. intros x Hxc. apply Hx.
      destruct (ring_own _ _ _ b c Hi Hb Hcr) as [_ ?]. lia.
    + intros c Hco. rewrite <-(H6 c Hco). apply hdr_same. intros x Hxc. apply Hx. intros ->.
      assert (c = b ∨ c ∈ own1 ++ own2) as [->|Hco'] by set_solver; [lia|]. specialize (Hc c Hco'). unfold apart, bend in *.
      destruct (ring_own _ _ _ c (base, 0) Hi Hco ltac:(by left)) as [[C1 C2 C3 C4] _]. unfold bend in *. lia.
  - destruct (ring_own _ _ _ b (base, 0) Hi Hb ltac:(by left)) as [[B1 B2 B3 B4] _].
    split; cbn [h_brk h_mem set_h_mem]; [lia| |].
    + intros c x Hco Hxc. apply Hx. specialize (Hc c Hco). unfold apart in Hc. lia.
    + intros x Hxo. apply Hx. lia.
Qed.

Lemma run_hop_ok op objs own s e :
  hop_ok op → hready own s → Forall2 (lies s) objs own →
  ∃ objs' own' s', run_hop op objs e s = Ret objs' e s' ∧ hready own' s' ∧ Forall2 (lies s') objs' own' ∧ hkept [] s s'.
Proof.
  assert (Hnil : ∀ own s s', hkept own s s' → hkept [] s s') by (intros ? ? ? []; split; [done|by intros ? ? ?%not_elem_of_nil|done]).
  intros Hop Hr HF. destruct op as [n|k|k off v]; cbn [run_hop hop_ok] in *.
  - destruct (malloc_ok own s n e Hr Hop) as (r & s' & Hm & Hke & Hc). destruct (units_range n Hop) as [_ Hu]. mrun Hm. mstep.
    pose proof (all_lie_kept _ _ _ _ Hke HF) as HF'. destruct Hc as [[-> Hr']|(a & -> & Hr')].
    + exists objs, own, s'. split_and!; eauto.
    + rewrite (proj2 (Z.eqb_neq (a + 16) 0)).
      2: { destruct Hr' as [[l Hi]|[? _]]; [|done]. destruct (ring_own _ _ _ (a, units n) (base, 0) Hi ltac:(by left) ltac:(by left)) as [[A _ _ _] _].
           destruct (hi_place _ _ _ Hi). cbn in A. lia. }
      eexists _, ((a, units n) :: own), s'. split_and!; [reflexivity|done| |eauto]. constructor; [|done].
      split; cbn [fst snd]; rewrite ?length_read_bytes; [done|lia|done].
  - destruct (objs !! k) as [o|] eqn:Ho; [|exists objs, own, s; split_and!; try done; apply hkept_refl].
    destruct (Forall2_lookup_l _ _ _ _ _ HF Ho) as ([bp bs] & Hb & [L1 L2 L3]). cbn [fst] in L1. rewrite L1.
    destruct Hr as [[l Hi]|[-> _]]; [|done].
    assert (HP : own ≡ₚ (bp, bs) :: delete k own) by (by apply delete_Permutation).
    destruct (free_kept l (delete k own) s bp bs e (hinv_perm _ _ _ _ HP Hi)) as (s' & Hf & Hr' & Hke). mrun Hf.
    exists (delete k objs), (delete k own), s'. split_and!; [done|done| |eauto]. eapply all_lie_kept; [exact Hke|]. by apply Forall2_delete.
  - destruct (objs !! k) as [o|] eqn:Ho; [|exists objs, own, s; split_and!; try done; apply hkept_refl].
    destruct (Nat.ltb_spec off (length o.2)) as [Hoff|]; [|exists objs, own, s; split_and!; try done; apply hkept_refl].
    destruct (Forall2_lookup_l _ _ _ _ _ HF Ho) as (b & Hb & [L1 L2 L3]). destruct Hr as [[l Hi]|[-> _]]; [|done].
    pose proof (take_drop_middle _ _ _ Hb) as Hown. rewrite <-Hown in Hi.
    destruct (store_hinv l _ b _ s (o.1 + Z.of_nat off) v Hi) as [Hi' Hke]; [unfold bend; lia|]. mstep.
    eexists _, own. eexists. split_and!; [reflexivity|left; exists l; by rewrite <-Hown| |eauto].
    apply Forall2_same_length_lookup. split; [rewrite length_insert; by eapply Forall2_length|]. intros i o' b' Ho' Hb'.
    destruct (decide (i = k)) as [->|Hik].
    + rewrite list_lookup_insert_eq in Ho' by (by eapply lookup_lt_Some). injection Ho' as <-. rewrite Hb in Hb'. injection Hb' as <-.
      split; cbn [fst snd h_mem set_h_mem]; rewrite ?length_insert; [done|done|]. by rewrite read_bytes_stb, L3.
    + rewrite list_lookup_insert_ne in Ho' by done. eapply lies_kept; [exact Hke| |by eapply (Forall2_lookup_lr (lies s))].
      rewrite <-(take_drop k own) in Hb'. apply elem_of_app. destruct (decide (i < k)%nat) as [Hlt|Hge].
      * left. rewrite take_drop in Hb'. eapply list_elem_of_lookup_2. by rewrite lookup_take_lt.
      * right. rewrite take_drop in Hb'. apply (list_elem_of_lookup_2 _ (i - S k)). rewrite lookup_drop. by replace (S k + (i - S k))%nat with i by lia.
Qed.

Lemma run_hops_ok ops objs own s e :
  Forall hop_ok ops → hready own s → Forall2 (lies s) objs own →
  ∃ objs' own' s', run_hops ops objs e s = Ret objs' e s' ∧ hready own' s' ∧ Forall2 (lies s') objs' own' ∧ hkept [] s s'.
Proof.
  intros Hops. revert objs own s. induction Hops as [|op ops Hop _ IH]; intros objs own s Hr HF; cbn [run_hops].
  - exists objs, own, s. split_and!; try done; apply hkept_refl.
  - destruct (run_hop_ok op objs own s e Hop Hr HF) as (o1 & w1 & s1 & R1 & Hr1 & HF1 & K1). mrun R1.
    destruct (IH o1 w1 s1 Hr1 HF1) as (o2 & w2 & s2 & R2 & Hr2 & HF2 & K2). exists o2, w2, s2. split_and!; try done. by eapply hkept_trans.
Qed.

(** C7: whatever sequence of [malloc], [free] and stores into its own objects
    a client makes, with requests below 2^31 - 32 bytes, every call returns;
    at the end every object is aligned, lies in the heap, overlaps no other
    object and holds the bytes last stored in it; nothing outside the heap
    but the static header has changed; and no memory is lost: the blocks of
    the objects and the blocks of the free list, which is in address order
    with no two free neighbours, make up the heap. *)
Theorem malloc_safe ops s e :
  fresh_heap s → Forall hop_ok ops →
  ∃ objs s', run_hops ops [] e s = Ret objs e s' ∧
    (∀ i r bs, objs !! i = Some (r, bs) →
       r mod 16 = 0 ∧ heap0 ≤ r ∧ r + Z.of_nat (length bs) ≤ h_brk s' ∧ read_bytes (h_mem s') r (length bs) = bs) ∧
    (∀ i j r bs r' bs', i ≠ j → objs !! i = Some (r, bs) → objs !! j = Some (r', bs') →
       r + Z.of_nat (length bs) ≤ r' ∨ r' + Z.of_nat (length bs') ≤ r) ∧
    (∀ x, x < base ∨ base + 16 ≤ x < heap0 ∨ h_brk s' ≤ x → ldb (h_mem s') x = ldb (h_mem s) x) ∧
    (objs = [] ∧ h_brk s' = heap0 ∨
     ∃ l own, own.*1 = (λ o, o.1 - 16) <$> objs ∧ seg (h_mem s') (ring l) base ∧ StronglySorted gap (ring l) ∧ parts (h_brk s') (l ++ own)).
Proof.
  intros Hs Hops. destruct (run_hops_ok ops [] [] s e Hops) as (objs & own & s' & Hr & Hrdy & HF & [K1 _ K3]); [by right|done|].
  exists objs, s'. split; [done|].
  assert (Hi : objs = [] ∧ h_brk s' = heap0 ∨ ∃ l, hinv l own s').
  { destruct Hrdy as [?|[-> (_ & _ & ? & _)]]; [by right|left]. by apply Forall2_nil_inv_r in HF as ->. }
  split_and!; [| |done|].
  - intros i r bs Ho. destruct (Forall2_lookup_l _ _ _ _ _ HF Ho) as (b & Hb & [L1 L2 L3]). cbn [fst snd] in *.
    destruct Hi as [[-> _]|[l Hi]]; [done|].
    destruct (ring_own _ _ _ b (base, 0) Hi ltac:(by eapply list_elem_of_lookup_2) ltac:(by left)) as [[B1 B2 B3 B4] _].
    unfold bend in *. split_and!; [|lia|lia|done]. rewrite L1. replace (b.1 + 16) with (b.1 + 1 * 16) by lia. by rewrite Z.mod_add by lia.
  - intros i j r bs r' bs' Hij Ho Ho'. destruct (Forall2_lookup_l _ _ _ _ _ HF Ho) as (b & Hb & [L1 L2 _]).
    destruct (Forall2_lookup_l _ _ _ _ _ HF Ho') as (b' & Hb' & [L1' L2' _]). cbn [fst snd] in *. destruct Hi as [[-> _]|[l Hi]]; [done|].
    assert (Ha : apart b b').
    { apply list_elem_of_split_length in Hb as (o1 & o2 & -> & ->). pose proof (pa_disj _ _ (hi_parts _ _ _ Hi)) as HD. rewrite app_assoc in HD.
      eapply disj_apart; [exact HD|]. rewrite lookup_app in Hb'. destruct (o1 !! j) as [x|] eqn:Hx.
      - injection Hb' as ->. apply list_elem_of_lookup_2 in Hx. set_solver.
      - apply lookup_ge_None in Hx. destruct (j - length o1)%nat eqn:Hj; [lia|]. cbn in Hb'. apply list_elem_of_lookup_2 in Hb'. set_solver. }
    unfold apart, bend in Ha. lia.
  - destruct Hi as [?|[l Hi]]; [by left|right]. exists l, own. split_and!; [|apply Hi..].
    clear -HF. induction HF as [|o b objs own [L _ _] _ IH]; [done|]. cbn. rewrite IH. f_equal. lia.
Qed.
End heap.

(** Two objects, the second one written to, the first freed and its block
    given out again in part. *)
Definition ex_heap : heap := mkheap ∅ 0 8192 [true].
Definition ex_hops : list hop := [OMalloc 40; OMalloc 5; OStore 0 2 7; OFree 1; OMalloc 3].
Lemma malloc_safe_witness :
  ∃ objs s', run_hops 4096 ex_hops [] [] ex_heap = Ret objs [] s' ∧
    ∀ i r bs, objs !! i = Some (r, bs) → r mod 16 = 0 ∧ read_bytes (h_mem s') r (length bs) = bs.
Proof.
  destruct (malloc_safe 4096 8192 ex_hops ex_heap []) as (objs & s' & Hr & Ho & _).
  - split; [split; [lia|lia|reflexivity]|]. split; [reflexivity|]. split; [reflexivity|lia].
  - repeat constructor; cbn; lia.
  - exists objs, s'. split; [exact Hr|]. intros i r bs Hi. destruct (Ho i r bs Hi) as (? & _ & _ & ?). by split.
Defined.
