(* ===== verification/Sh.v ===== *)
(** user/sh.c: the shell's parser and the execution of commands.

    The command line is the list [buf] of its bytes with the final NUL, and a
    [char*] into it is an offset; the parser's state is the offset in [*ps].
    The parser allocates a node per command and never frees them; [malloc] is
    taken to succeed, and a command is a tree.  [panic] of the shell, which
    prints its message and exits with status 1, is the outcome [Panic].  The
    recursive functions take fuel, which [parsecmd] provides: Shparse.v proves
    that it is enough.

    Running a command is a tree of system calls, [prog], with what the caller
    does after each result; Shrun.v says what the calls do to the descriptor
    table and the current directory of a process. *)

From S2P Require Import Prelude Mem KString Params User Print Uprintf Ulib.

Module Sh.

(** * Commands *)

(** Arguments and file names are offsets of their first byte and of the byte
    after their last. *)
Inductive cmd : Type :=
| EXEC (argv : list (nat * nat))
| REDIR (c : cmd) (file efile : nat) (mode fd : Z)
| PIPE (left right : cmd)
| LIST (left right : cmd)
| BACK (c : cmd).

Definition MAXARGS : nat := 10.

Definition execcmd : cmd := EXEC [].
Definition redircmd (subcmd : cmd) (file efile : nat) (mode fd : Z) : cmd := REDIR subcmd file efile mode fd.
Definition pipecmd (left right : cmd) : cmd := PIPE left right.
Definition listcmd (left right : cmd) : cmd := LIST left right.
Definition backcmd (subcmd : cmd) : cmd := BACK subcmd.

(** [cmd->argv = args] through the pointer to the [execcmd] inside its
    redirections. *)
Fixpoint set_argv (args : list (nat * nat)) (c : cmd) : cmd :=
  match c with
  | EXEC _ => EXEC args
  | REDIR c f ef m fd => REDIR (set_argv args c) f ef m fd
  | c => c
  end.

(** * Parsing *)

Definition whitespace : list Z := [32; 9; 13; 10; 11].
Definition symbols : list Z := [60; 124; 62; 38; 59; 40; 41].
(** [strchr(s, c)] as a condition. *)
Definition has_char (s : list Z) (c : Z) : bool := bool_decide (is_Some (strchr s c)).

(** The state is [*ps]. *)
Abbreviation P := (M nat).
Definition diverge {A} : P A := λ _ _, Diverge.

Section parser.
Context (buf : list Z) (es : nat).

Definition ch (s : nat) : Z := nth s buf 0.

(** [while(s < es && f( *s )) s++], with [n = es - s]. *)
Fixpoint span (f : Z → bool) (n s : nat) : nat :=
  match n with O => s | S n' => if f (ch s) then span f n' (S s) else s end.
Definition skip_white (s : nat) : nat := span (has_char whitespace) (es - s) s.

(** The token, and where it starts and ends. *)
Definition token_at (s : nat) : Z * nat :=
  let c := ch s in
  if c =? 0 then (c, s)
  else if has_char [124; 40; 41; 59; 38; 60] c then (c, S s)
  else if c =? 62 then if ch (S s) =? 62 then (43, S (S s)) else (c, S s)
  else (97, span (λ c, negb (has_char whitespace c) && negb (has_char symbols c)) (es - s) s).
Definition gettoken : P (Z * nat * nat) :=
  s0 <- get ;;
  let q := skip_white s0 in
  let '(r, eq) := token_at q in
  modify (λ _, skip_white eq) ;;;
  ret (r, q, eq).

Definition peek (toks : list Z) : P bool :=
  s0 <- get ;;
  let s := skip_white s0 in
  modify (λ _, s) ;;;
  ret (negb (ch s =? 0) && has_char toks (ch s)).

Fixpoint parseredirs (n : nat) (c : cmd) : P cmd :=
  match n with
  | O => diverge
  | S n =>
      p <- peek [60; 62] ;;
      if p then
        t <- gettoken ;;
        t2 <- gettoken ;;
        let '(tok, _, _) := t in
        let '(tok2, q, eq) := t2 in
        if negb (tok2 =? 97) then panic "missing file for redirection" else
        parseredirs n
          (if tok =? 60 then redircmd c q eq O_RDONLY 0
           else if tok =? 62 then redircmd c q eq (Z.lor (Z.lor O_WRONLY O_CREATE) O_TRUNC) 1
           else if tok =? 43 then redircmd c q eq (Z.lor O_WRONLY O_CREATE) 1
           else c)
      else ret c
  end.

(** The loop of [parseexec]: the arguments so far and the command. *)
Fixpoint parseargs (n : nat) (args : list (nat * nat)) (c : cmd) : P (list (nat * nat) * cmd) :=
  match n with
  | O => diverge
  | S n =>
      p <- peek [124; 41; 38; 59] ;;
      if p then ret (args, c) else
      t <- gettoken ;;
      let '(tok, q, eq) := t in
      if tok =? 0 then ret (args, c) else
      if negb (tok =? 97) then panic "syntax" else
      let args := args ++ [(q, eq)] in
      if (MAXARGS <=? length args)%nat then panic "too many args" else
      c <- parseredirs (S n) c ;;
      parseargs n args c
  end.

(** The loop over [&] of [parseline]. *)
Fixpoint parseback (n : nat) (c : cmd) : P cmd :=
  match n with
  | O => diverge
  | S n =>
      p <- peek [38] ;;
      if p then gettoken ;;; parseback n (backcmd c) else ret c
  end.

(** [parseline], [parsepipe], [parseexec] and [parseblock] call each other:
    each is given the others as [call], and [parse_at] ties the knot with [n]
    calls left. *)
Inductive nonterm : Type := N_line | N_pipe | N_exec | N_block.

Definition parseline (n : nat) (call : nonterm → P cmd) : P cmd :=
  c <- call N_pipe ;;
  c <- parseback n c ;;
  p <- peek [59] ;;
  if p then gettoken ;;; c2 <- call N_line ;; ret (listcmd c c2) else ret c.

Definition parsepipe (call : nonterm → P cmd) : P cmd :=
  c <- call N_exec ;;
  p <- peek [124] ;;
  if p then gettoken ;;; c2 <- call N_pipe ;; ret (pipecmd c c2) else ret c.

Definition parseexec (n : nat) (call : nonterm → P cmd) : P cmd :=
  p <- peek [40] ;;
  if p then call N_block else
  c <- parseredirs n execcmd ;;
  r <- parseargs n [] c ;;
  ret (set_argv r.1 r.2).

Definition parseblock (n : nat) (call : nonterm → P cmd) : P cmd :=
  p <- peek [40] ;;
  if negb p then panic "parseblock" else
  gettoken ;;;
  c <- call N_line ;;
  p <- peek [41] ;;
  if negb p then panic "syntax - missing )" else
  gettoken ;;;
  parseredirs n c.

Fixpoint parse_at (n : nat) (f : nonterm) : P cmd :=
  match n with
  | O => diverge
  | S n' =>
      match f with
      | N_line => parseline n (parse_at n')
      | N_pipe => parsepipe (parse_at n')
      | N_exec => parseexec n (parse_at n')
      | N_block => parseblock n (parse_at n')
      end
  end.
End parser.

Fixpoint nulterminate (c : cmd) (buf : list Z) : list Z :=
  match c with
  | EXEC argv => foldl (λ buf '(_, eq), <[eq := 0]> buf) buf argv
  | REDIR c _ efile _ _ => <[efile := 0]> (nulterminate c buf)
  | PIPE l r => nulterminate r (nulterminate l buf)
  | LIST l r => nulterminate r (nulterminate l buf)
  | BACK c => nulterminate c buf
  end.

(** The fuel of the parser for a line of [es] bytes. *)
Definition parse_fuel (es : nat) : nat := 4 * es + 4.

(** The C string at an offset. *)
Definition cstr (buf : list Z) (q : nat) : list Z :=
  let s := drop q buf in take (Z.to_nat (strlen s)) s.
Definition string_of (s : list Z) : string := String.string_of_list_ascii (Ascii.ascii_of_nat ∘ Z.to_nat <$> s).

(** [parsecmd]: the command and the line with its tokens terminated.  The
    message about the text left over and the one of the panic are one. *)
Definition parsecmd (buf : list Z) : P (cmd * list Z) :=
  let es := Z.to_nat (strlen buf) in
  modify (λ _, O) ;;;
  c <- parse_at buf es (parse_fuel es) N_line ;;
  peek buf es [] ;;;
  s <- get ;;
  if negb (s =? es)%nat then panic ("leftovers: " ++ string_of (cstr buf s ++ [10]) ++ "syntax")%string else ret (c, nulterminate c buf).

(** * Running *)

Inductive sysc : Type :=
| S_close (fd : Z)
| S_open (path : list Z) (mode : Z)
| S_dup (fd : Z)
| S_pipe
| S_wait
| S_print (fd : Z) (msg : list Z)
| S_exec (argv : list (list Z))
| S_chdir (path : list Z)
| S_getcmd.

(** A process: what it does after the results of its calls.  [pipe] returns
    its status and the two descriptors, [S_getcmd], which stands for a call
    of [getcmd], its value and the line, the others one number.  [fork]
    continues in both processes. *)
Inductive prog : Type :=
| Exit (status : Z)
| Sys (c : sysc) (k : list Z → prog)
| Fork (k : Z → prog).

(** A call whose result is not used. *)
Definition do (c : sysc) (k : prog) : prog := Sys c (λ _, k).

Definition bytes_of (s : string) : list Z := Z.of_nat ∘ Ascii.nat_of_ascii <$> String.list_ascii_of_string s.
Definition sh_panic (s : string) : prog := do (S_print 2 (bytes_of s ++ [10])) (Exit 1).
Definition fork1 (k : Z → prog) : prog := Fork (λ pid, if pid =? -1 then sh_panic "fork" else k pid).

Fixpoint runcmd (buf : list Z) (c : cmd) : prog :=
  match c with
  | EXEC argv =>
      match argv with
      | [] => Exit 1
      | (q, _) :: _ =>
          do (S_exec ((λ a, cstr buf a.1) <$> argv))
          (do (S_print 2 (bytes_of "exec " ++ cstr buf q ++ bytes_of " failed" ++ [10]))
          (Exit 0))
      end
  | REDIR c file _ mode fd =>
      do (S_close fd)
      (Sys (S_open (cstr buf file) mode) (λ r,
        if hd 0 r <? 0 then
          do (S_print 2 (bytes_of "open " ++ cstr buf file ++ bytes_of " failed" ++ [10])) (Exit 1)
        else runcmd buf c))
  | LIST l r =>
      fork1 (λ pid, if pid =? 0 then runcmd buf l else do S_wait (runcmd buf r))
  | PIPE l r =>
      Sys S_pipe (λ res,
        let p0 := nth 1 res 0 in
        let p1 := nth 2 res 0 in
        if hd 0 res <? 0 then sh_panic "pipe" else
        fork1 (λ pid, if pid =? 0 then
            do (S_close 1) (do (S_dup p1) (do (S_close p0) (do (S_close p1) (runcmd buf l))))
          else fork1 (λ pid, if pid =? 0 then
            do (S_close 0) (do (S_dup p0) (do (S_close p0) (do (S_close p1) (runcmd buf r))))
          else
            do (S_close p0) (do (S_close p1) (do S_wait (do S_wait (Exit 0)))))))
  | BACK c =>
      fork1 (λ pid, if pid =? 0 then runcmd buf c else Exit 0)
  end.

(** The return value and the line. *)
Definition getcmd (buf : list Z) (nbuf : Z) : U (Z * list Z) :=
  fprintf 2 (bytes_of "$ ") [] ;;;
  buf <- gets (replicate (Z.to_nat nbuf) 0 ++ drop (Z.to_nat nbuf) buf) nbuf ;;
  ret (if hd 0 buf =? 0 then -1 else 0, buf).

(** * main *)

(** The loop that opens the console until three descriptors are in use: at
    most [n] turns. *)
Fixpoint open_console (n : nat) (k : prog) : prog :=
  match n with
  | O => k
  | S n => Sys (S_open (bytes_of "console") O_RDWR) (λ r,
      if hd 0 r <? 0 then k else if 3 <=? hd 0 r then do (S_close (hd 0 r)) k else open_console n k)
  end.

(** The line is a [cd] command. *)
Definition is_cd (buf : list Z) : bool := (nth 0 buf 0 =? 99) && (nth 1 buf 0 =? 100) && (nth 2 buf 0 =? 32).

(** What the shell does with a line. *)
Definition main_turn (buf : list Z) (k : prog) : prog :=
  if is_cd buf then
    let buf := <[Z.to_nat (strlen buf - 1) := 0]> buf in
    Sys (S_chdir (cstr buf 3)) (λ r,
      if hd 0 r <? 0 then do (S_print 2 (bytes_of "cannot cd " ++ cstr buf 3 ++ [10])) k else k)
  else
    fork1 (λ pid, if pid =? 0 then
        match parsecmd buf [] O with
        | Ret (c, buf) _ _ => runcmd buf c
        | Panic msg _ => sh_panic msg
        | _ => Exit 1
        end
      else do S_wait k).

(** At most [n] lines are read. *)
Fixpoint main_loop (n : nat) : prog :=
  match n with
  | O => Exit 0
  | S n => Sys S_getcmd (λ r, if hd 0 r <? 0 then Exit 0 else main_turn (tail r) (main_loop n))
  end.

(** Each turn of the first loop leaves one more of the 16 descriptors open. *)
Definition main (n : nat) : prog := open_console 17 (main_loop n).
End Sh.
