(* ===== verification/Shparse.v ===== *)
(** The shell's parser returns on every line, with well-formed commands whose
    strings are the tokens of the line; and it parses back what is printed. *)

From S2P Require Import Prelude Mem KString Params User Print Ulib Sh.

Module Shparse.
Import Sh.

(** * Total correctness of the parser's monad *)

(** [m] from [s] panics, or returns with [Q]. *)
Definition wp {A} (m : P A) (s : nat) (Q : A → nat → Prop) : Prop :=
  ∀ e, match m e s with Ret a e' s' => e' = e ∧ Q a s' | Panic _ _ => True | _ => False end.

Lemma wp_ret {A} (a : A) s (Q : A → nat → Prop) : Q a s → wp (ret a) s Q.
Proof. intros H e. by split. Qed.
Lemma wp_panic {A} msg s (Q : A → nat → Prop) : wp (panic msg) s Q.
Proof. by intros e. Qed.
Lemma wp_mono {A} (m : P A) s (Q Q' : A → nat → Prop) : wp m s Q → (∀ a s', Q a s' → Q' a s') → wp m s Q'.
Proof. intros H HQ e. specialize (H e). destruct (m e s) as [a e' s'| | | |]; [|done..]. destruct H. auto. Qed.
Lemma wp_bind {A B} (m : P A) (k : A → P B) s (Q : B → nat → Prop) :
  wp m s (λ a s', wp (k a) s' Q) → wp (bind m k) s Q.
Proof. intros H e. specialize (H e). unfold bind. destruct (m e s) as [a e' s'| | | |]; [|done..]. destruct H as [-> H]. apply H. Qed.

(** * Tokens *)

Definition word_char (c : Z) : bool := negb (has_char whitespace c) && negb (has_char symbols c) && negb (c =? 0).

Lemma has_char_in l c : bool_decide (0 ∈ l) = false → has_char l c = bool_decide (c ∈ l).
Proof.
  intros H0%bool_decide_eq_false. unfold has_char. apply bool_decide_ext.
  induction l as [|x l IH]; cbn; [split; [by intros [? ?]|by intros ?%not_elem_of_nil]|].
  apply not_elem_of_cons in H0 as [Hx H0]. specialize (IH H0). rewrite (proj2 (Z.eqb_neq x 0)), elem_of_cons by done.
  destruct (Z.eqb_spec x c) as [->|Hne]; [split; [by left|by eexists]|].
  rewrite fmap_is_Some, IH. split; [by right|]. intros [->|?]; done.
Qed.

Section tokens.
Context (buf : list Z) (es : nat) (Hend : ch buf es = 0) (Hin : ∀ i, (i < es)%nat → ch buf i ≠ 0).

Lemma span_le f n s : (s ≤ span buf f n s ≤ s + n)%nat.
Proof. revert s. induction n as [|n IH]; intros s; cbn; [lia|]. case_match; [|lia]. specialize (IH (S s)). lia. Qed.
(** Everything passed over satisfies [f], and what follows does not. *)
Lemma span_in f n s i : (s ≤ i < span buf f n s)%nat → f (ch buf i) = true.
Proof.
  revert s. induction n as [|n IH]; intros s; cbn; [lia|]. destruct (f (ch buf s)) eqn:E; [|lia].
  intros Hi. destruct (decide (i = s)) as [->|]; [done|]. apply (IH (S s)). lia.
Qed.
Lemma span_stop f n s : (span buf f n s < s + n)%nat → f (ch buf (span buf f n s)) = false.
Proof.
  revert s. induction n as [|n IH]; intros s; cbn; [lia|]. destruct (f (ch buf s)) eqn:E; [|done].
  intros Hi. apply IH. lia.
Qed.

Lemma skip_white_range s : (s ≤ es)%nat → (s ≤ skip_white buf es s ≤ es)%nat.
Proof. intros H. unfold skip_white. pose proof (span_le (has_char whitespace) (es - s) s). lia. Qed.
Lemma skip_white_stop s : (s ≤ es)%nat → (skip_white buf es s < es)%nat → has_char whitespace (ch buf (skip_white buf es s)) = false.
Proof. intros H Hlt. apply span_stop. unfold skip_white in Hlt. lia. Qed.

Lemma ch_end s : (s ≤ es)%nat → ch buf s ≠ 0 → (s < es)%nat.
Proof. intros H Hn. destruct (decide (s = es)) as [->|]; [done|lia]. Qed.

(** A token that is a word. *)
Record word_at (q eq : nat) : Prop := {
  wa_lt : (q < eq ≤ es)%nat;
  wa_in : ∀ i, (q ≤ i < eq)%nat → word_char (ch buf i) = true;
  wa_end : word_char (ch buf eq) = false
}.

(** What [gettoken] finds at a place that is not white. *)
Lemma token_at_ok q r eq :
  (q ≤ es)%nat → ((q < es)%nat → has_char whitespace (ch buf q) = false) → token_at buf es q = (r, eq) →
  (q ≤ eq ≤ es)%nat ∧ (r ≠ 0 → (q < eq)%nat) ∧ (ch buf q ≠ 0 → r ≠ 0) ∧ (r = 97 → word_at q eq).
Proof.
  intros Hq Hw. unfold token_at. destruct (Z.eqb_spec (ch buf q) 0) as [E0|E0]; [intros [= <- <-]; naive_solver lia|].
  pose proof (ch_end q Hq E0) as Hlt. specialize (Hw Hlt).
  destruct (has_char [124; 40; 41; 59; 38; 60] (ch buf q)) eqn:E1.
  { intros [= <- <-]. split_and!; [lia|lia|lia|done|]. intros E. rewrite E in E1. by vm_compute in E1. }
  destruct (Z.eqb_spec (ch buf q) 62) as [E2|E2].
  { destruct (Z.eqb_spec (ch buf (S q)) 62) as [E3|E3]; intros [= <- <-].
    - assert (S q < es)%nat by (apply ch_end; [lia|by rewrite E3]). split_and!; done || lia.
    - split_and!; [lia|lia|lia|done|]. by rewrite E2. }
  intros [= <- <-]. set (f := λ c, _). pose proof (span_le f (es - q) q) as Hle.
  assert (Hsym : has_char symbols (ch buf q) = false).
  { rewrite has_char_in in E1 by done. rewrite has_char_in by done. apply bool_decide_eq_false in E1. apply bool_decide_eq_false.
    unfold symbols. set_unfold. naive_solver. }
  assert (Hf : f (ch buf q) = true) by (unfold f; by rewrite Hw, Hsym).
  assert (Hgt : (q < span buf f (es - q) q)%nat).
  { destruct (es - q)%nat as [|k] eqn:Ek; [lia|]. cbn. rewrite Hf. pose proof (span_le f k (S q)). lia. }
  split_and!; [lia|lia|done|done|]. intros _. split; [lia| |].
  - intros i Hi. pose proof (span_in f (es - q) q i Hi) as Hfi. unfold f in Hfi. unfold word_char. rewrite Hfi. cbn.
    rewrite (proj2 (Z.eqb_neq _ _)); [done|]. apply Hin. lia.
  - unfold word_char. destruct (decide (span buf f (es - q) q = es)) as [->|Hne].
    + by rewrite Hend.
    + pose proof (span_stop f (es - q) q ltac:(lia)) as Hfi. unfold f in Hfi at 1. by rewrite Hfi.
Qed.

Lemma wp_gettoken s (Q : Z * nat * nat → nat → Prop) :
  (s ≤ es)%nat →
  (∀ r q eq s', (s ≤ q ≤ eq)%nat → (eq ≤ s' ≤ es)%nat → (r ≠ 0 → (q < eq)%nat) →
     (ch buf (skip_white buf es s) ≠ 0 → r ≠ 0) → (r = 97 → word_at q eq) → Q (r, q, eq) s') →
  wp (gettoken buf es) s Q.
Proof.
  intros Hs HQ e. unfold gettoken, bind, get, modify, ret.
  pose proof (skip_white_range s Hs) as Hr. destruct (token_at buf es (skip_white buf es s)) as [r eq] eqn:E.
  destruct (token_at_ok _ _ _ (proj2 Hr) (skip_white_stop s Hs) E) as (H1 & H2 & H3 & H4).
  pose proof (skip_white_range eq (proj2 H1)). split; [done|]. apply HQ; done || lia.
Qed.
Lemma wp_peek toks s (Q : bool → nat → Prop) :
  (s ≤ es)%nat →
  (∀ b s', (s ≤ s' ≤ es)%nat → (b = true → (s' < es)%nat ∧ ch buf (skip_white buf es s') ≠ 0) → Q b s') → wp (peek buf es toks) s Q.
Proof.
  intros Hs HQ e. unfold peek, bind, get, modify, ret. pose proof (skip_white_range s Hs) as Hr. split; [done|].
  apply HQ; [done|]. intros [Hb _]%andb_prop. apply negb_true_iff, Z.eqb_neq in Hb.
  pose proof (ch_end _ (proj2 Hr) Hb) as Hlt. split; [done|].
  replace (skip_white buf es (skip_white buf es s)) with (skip_white buf es s); [done|].
  set (s' := skip_white buf es s) in *. unfold skip_white. destruct (es - s')%nat eqn:E; [lia|]. cbn.
  unfold s' at 2. by rewrite (skip_white_stop s Hs Hlt).
Qed.
(** A token after a successful [peek]. *)
Lemma wp_next {A} s (k : P A) (Q : A → nat → Prop) :
  (s ≤ es)%nat → ch buf (skip_white buf es s) ≠ 0 → (∀ s', (s < s' ≤ es)%nat → wp k s' Q) → wp (gettoken buf es ;;; k) s Q.
Proof.
  intros Hs Hc Hk. apply wp_bind, wp_gettoken; [done|]. intros r q eq s' H1 H2 H3 H4 _. apply Hk. specialize (H3 (H4 Hc)). lia.
Qed.

(** * Every line is parsed or rejected *)

(** Words are tokens of the line, and there is room for the final null
    pointer after the arguments. *)
Fixpoint wf_cmd (c : cmd) : Prop :=
  match c with
  | EXEC argv => Forall (λ a, word_at a.1 a.2) argv ∧ (length argv < MAXARGS)%nat
  | REDIR c file efile mode fd => wf_cmd c ∧ word_at file efile ∧ (fd = 0 ∧ mode = O_RDONLY ∨ fd = 1)
  | PIPE l r => wf_cmd l ∧ wf_cmd r
  | LIST l r => wf_cmd l ∧ wf_cmd r
  | BACK c => wf_cmd c
  end.

(** The place after a piece of the line that starts at [s]. *)
Definition after {A} (s : nat) (R : A → Prop) (a : A) (s' : nat) : Prop := (s ≤ s' ≤ es)%nat ∧ R a.

Lemma parseredirs_wp n c s (R : cmd → Prop) :
  (s ≤ es)%nat → (es - s < n)%nat → R c →
  (∀ c file efile mode fd, R c → word_at file efile → (fd = 0 ∧ mode = O_RDONLY ∨ fd = 1) → R (REDIR c file efile mode fd)) →
  wp (parseredirs buf es n c) s (after s R).
Proof.
  intros Hs Hn Hc HR. revert c s Hs Hn Hc. induction n as [|n IH]; intros c s Hs Hn Hc; [lia|]. cbn [parseredirs].
  apply wp_bind, wp_peek; [done|]. intros [] s1 H1 Hp; [|apply wp_ret; by split].
  destruct (Hp eq_refl) as [Hlt Hch]. apply wp_bind, wp_gettoken; [lia|].
  intros tok q1 eq1 s2 A1 A2 A3 A4 _. specialize (A3 (A4 Hch)).
  apply wp_bind, wp_gettoken; [lia|]. intros tok2 q eq s3 B1 B2 B3 _ B5.
  destruct (Z.eqb_spec tok2 97) as [E|E]; cbn [negb]; [|apply wp_panic]. specialize (B5 E).
  eapply wp_mono; [apply IH|]; [lia|lia| |intros a s' [? ?]; split; [lia|done]].
  repeat case_match; try done; apply HR; auto.
Qed.

Lemma wf_set_argv args c :
  wf_cmd c → Forall (λ a, word_at a.1 a.2) args → (length args < MAXARGS)%nat → wf_cmd (set_argv args c).
Proof. intros Hc Ha Hl. induction c; cbn in *; naive_solver. Qed.

Lemma parseargs_wp n args c s :
  (s ≤ es)%nat → (es - s < n)%nat → wf_cmd c → Forall (λ a, word_at a.1 a.2) args → (length args < MAXARGS)%nat →
  wp (parseargs buf es n args c) s
    (after s (λ r, wf_cmd r.2 ∧ Forall (λ a, word_at a.1 a.2) r.1 ∧ (length r.1 < MAXARGS)%nat)).
Proof.
  revert args c s. induction n as [|n IH]; intros args c s Hs Hn Hc Ha Hl; [lia|]. cbn [parseargs].
  apply wp_bind, wp_peek; [done|]. intros p s1 H1 _. destruct p; [apply wp_ret; split; [lia|done]|].
  apply wp_bind, wp_gettoken; [lia|]. intros tok q eq s2 A1 A2 A3 _ A5.
  destruct (Z.eqb_spec tok 0) as [|E0]; [apply wp_ret; split; [lia|done]|]. specialize (A3 E0).
  destruct (Z.eqb_spec tok 97) as [E|E]; cbn [negb]; [|apply wp_panic].
  case_match eqn:Hlen; [apply wp_panic|]. apply Nat.leb_gt in Hlen.
  apply wp_bind. eapply wp_mono; [apply (parseredirs_wp (S n) c s2 wf_cmd); [lia|lia|done|]|].
  { intros c' f ef m fd H2 H3 H4. done. }
  intros c' s3 [H3 Hc']. eapply wp_mono; [apply IH; [lia|lia|done| |done]|].
  - apply Forall_app. split; [done|]. by repeat constructor; apply A5.
  - intros a s' [? ?]. split; [lia|done].
Qed.

Lemma parseback_wp n c s : (s ≤ es)%nat → (es - s < n)%nat → wf_cmd c → wp (parseback buf es n c) s (after s wf_cmd).
Proof.
  revert c s. induction n as [|n IH]; intros c s Hs Hn Hc; [lia|]. cbn [parseback].
  apply wp_bind, wp_peek; [done|]. intros [] s1 H1 Hp; [|apply wp_ret; by split].
  destruct (Hp eq_refl) as [Hlt Hch]. apply wp_next; [lia|done|]. intros s2 H2.
  eapply wp_mono; [apply IH; [lia|lia|done]|]. intros a s' [? ?]. split; [lia|done].
Qed.

(** Four units of fuel per byte: between two tokens the functions call each
    other at most three deep. *)
Lemma parse_wp n :
  (∀ s, (s ≤ es)%nat → (4 * (es - s) + 4 ≤ n)%nat → wp (parse_at buf es n N_line) s (after s wf_cmd)) ∧
  (∀ s, (s ≤ es)%nat → (4 * (es - s) + 3 ≤ n)%nat → wp (parse_at buf es n N_pipe) s (after s wf_cmd)) ∧
  (∀ s, (s ≤ es)%nat → (4 * (es - s) + 2 ≤ n)%nat → wp (parse_at buf es n N_exec) s (after s wf_cmd)) ∧
  (∀ s, (s ≤ es)%nat → (4 * (es - s) + 1 ≤ n)%nat → wp (parse_at buf es n N_block) s (after s wf_cmd)).
Proof.
  assert (Hre : ∀ m c s, (s ≤ es)%nat → (es - s < m)%nat → wf_cmd c → wp (parseredirs buf es m c) s (after s wf_cmd)).
  { intros m c s Hs Hm Hc. apply parseredirs_wp; [done|done|done|]. intros c' f ef md fd H1 H2 H3. done. }
  induction n as [|n (IHl & IHp & IHe & IHb)]; [split_and!; intros; lia|]. split_and!; intros s Hs Hn; cbn [parse_at]; unfold parseline, parsepipe, parseexec, parseblock.
  - apply wp_bind. eapply wp_mono; [apply IHp; lia|]. intros c s1 [H1 Hc].
    apply wp_bind. eapply wp_mono; [apply (parseback_wp (S n)); [lia|lia|done]|]. intros c2 s2 [H2 Hc2].
    apply wp_bind, wp_peek; [lia|]. intros [] s3 H3 Hp; [|apply wp_ret; split; [lia|done]].
    destruct (Hp eq_refl) as [_ Hch]. apply wp_next; [lia|done|]. intros s4 H4.
    apply wp_bind. eapply wp_mono; [apply IHl; lia|]. intros c3 s5 [H5 Hc3]. apply wp_ret. split; [lia|done].
  - apply wp_bind. eapply wp_mono; [apply IHe; lia|]. intros c s1 [H1 Hc].
    apply wp_bind, wp_peek; [lia|]. intros [] s3 H3 Hp; [|apply wp_ret; split; [lia|done]].
    destruct (Hp eq_refl) as [_ Hch]. apply wp_next; [lia|done|]. intros s4 H4.
    apply wp_bind. eapply wp_mono; [apply IHp; lia|]. intros c3 s5 [H5 Hc3]. apply wp_ret. split; [lia|done].
  - apply wp_bind, wp_peek; [lia|]. intros [] s1 H1 _.
    + eapply wp_mono; [apply IHb; lia|]. intros c s2 [H2 Hc]. split; [lia|done].
    + apply wp_bind. eapply wp_mono; [apply (Hre (S n)); [lia|lia|]|].
      { cbn. split; [constructor|]. unfold MAXARGS. lia. }
      intros c s2 [H2 Hc]. apply wp_bind. eapply wp_mono; [apply (parseargs_wp (S n)); [lia|lia|done|constructor|cbn; unfold MAXARGS; lia]|].
      intros [args c2] s3 (H3 & Hc2 & Ha & Hl). apply wp_ret. split; [lia|]. by apply wf_set_argv.
  - apply wp_bind, wp_peek; [lia|]. intros [] s1 H1 Hp; cbn [negb]; [|apply wp_panic].
    destruct (Hp eq_refl) as [_ Hch]. apply wp_next; [lia|done|]. intros s2 H2.
    apply wp_bind. eapply wp_mono; [apply IHl; lia|]. intros c s3 [H3 Hc].
    apply wp_bind, wp_peek; [lia|]. intros [] s4 H4 Hp4; cbn [negb]; [|apply wp_panic].
    destruct (Hp4 eq_refl) as [_ Hch4]. apply wp_next; [lia|done|]. intros s5 H5.
    eapply wp_mono; [apply (Hre (S n)); [lia|lia|done]|]. intros c2 s6 [H6 Hc2]. split; [lia|done].
Qed.

(** * The strings of the command *)

(** The text of a token. *)
Definition text (q eq : nat) : list Z := take (eq - q) (drop q buf).
End tokens.

(** A command with its words spelled out. *)
Inductive scmd : Type :=
| SExec (argv : list (list Z))
| SRedir (c : scmd) (file : list Z) (mode fd : Z)
| SPipe (left right : scmd)
| SList (left right : scmd)
| SBack (c : scmd).

(** The command as the tokens of the line, and as [runcmd] sees it: C strings
    that start at the offsets. *)
Fixpoint spell (w : nat → nat → list Z) (c : cmd) : scmd :=
  match c with
  | EXEC argv => SExec ((λ a, w a.1 a.2) <$> argv)
  | REDIR c file efile mode fd => SRedir (spell w c) (w file efile) mode fd
  | PIPE l r => SPipe (spell w l) (spell w r)
  | LIST l r => SList (spell w l) (spell w r)
  | BACK c => SBack (spell w c)
  end.
Definition tokens_of (buf : list Z) (c : cmd) : scmd := spell (text buf) c.
Definition strings_of (buf : list Z) (c : cmd) : scmd := spell (λ q _, cstr buf q) c.

(** All the places [nulterminate] writes to. *)
Fixpoint ends (c : cmd) : list nat :=
  match c with
  | EXEC argv => argv.*2
  | REDIR c _ efile _ _ => ends c ++ [efile]
  | PIPE l r => ends l ++ ends r
  | LIST l r => ends l ++ ends r
  | BACK c => ends c
  end.
Definition zero_at (buf : list Z) (l : list nat) : list Z := foldl (λ b i, <[i := 0]> b) buf l.

Lemma nulterminate_ends c buf : nulterminate c buf = zero_at buf (ends c).
Proof.
  unfold zero_at. revert buf. induction c as [argv|c IH f ef m fd|l IHl r IHr|l IHl r IHr|c IH]; intros buf; cbn [nulterminate ends].
  - revert buf. induction argv as [|[q eq] argv IH]; intros buf; [done|]. cbn. apply IH.
  - by rewrite foldl_app, IH.
  - by rewrite foldl_app, IHl, IHr.
  - by rewrite foldl_app, IHl, IHr.
  - apply IH.
Qed.
Lemma ch_zero_at l buf i : ch (zero_at buf l) i = if decide (i ∈ l) then 0 else ch buf i.
Proof.
  unfold zero_at. revert buf. induction l as [|j l IH]; intros buf; cbn [foldl]; [done|]. rewrite IH.
  destruct (decide (i ∈ l)) as [Hi|Hi]; [by rewrite decide_True by (by right)|].
  unfold ch. destruct (decide (i = j)) as [->|Hne].
  - rewrite (decide_True (P := j ∈ j :: l)) by (by left). rewrite nth_lookup.
    destruct (decide (j < length buf)%nat); [by rewrite list_lookup_insert_eq|].
    by rewrite list_insert_ge, lookup_ge_None_2 by lia.
  - rewrite decide_False by (by apply not_elem_of_cons). by rewrite !nth_lookup, list_lookup_insert_ne.
Qed.

(** A C string is what lies before the first NUL. *)
Lemma strlen_first l (n : nat) :
  (∀ i, (i < n)%nat → nth i l 0 ≠ 0) → nth n l 0 = 0 → Z.to_nat (strlen l) = n ∧ (n ≤ length l)%nat.
Proof.
  revert n. induction l as [|c l IH]; intros n H1 H2.
  - destruct n; [done|]. exfalso. apply (H1 0%nat); [lia|done].
  - cbn [strlen]. destruct (Z.eqb_spec c 0) as [->|Hc].
    + destruct n; [cbn; lia|]. exfalso. apply (H1 0%nat); [lia|done].
    + destruct n as [|n]; [done|]. destruct (IH n) as [E1 E2].
      * intros i Hi. apply (H1 (S i)). lia.
      * exact H2.
      * rewrite strlen_cbytes in *. cbn [length]. lia.
Qed.

Lemma ch_drop buf q i : nth i (drop q buf) 0 = ch buf (q + i).
Proof. unfold ch. by rewrite !nth_lookup, lookup_drop. Qed.

(** After [nulterminate] the C string of a word is its text: no other token
    ends inside it. *)
Lemma cstr_word buf es l q eq :
  word_at buf es q eq → eq ∈ l → (∀ j, j ∈ l → word_char (ch buf j) = false) →
  cstr (zero_at buf l) q = text buf q eq.
Proof.
  intros [H1 H2 H3] Hl Hends. unfold cstr, text.
  assert (Hlen : length (zero_at buf l) = length buf).
  { unfold zero_at. clear. revert buf. induction l as [|j l IH]; intros buf; cbn [foldl]; [done|]. by rewrite IH, length_insert. }
  assert (Hw : ∀ i, (q ≤ i < eq)%nat → ch (zero_at buf l) i = ch buf i ∧ ch buf i ≠ 0).
  { intros i Hi. specialize (H2 i Hi). split.
    - rewrite ch_zero_at, decide_False; [done|]. intros Hin. rewrite (Hends i Hin) in H2. done.
    - intros E. rewrite E in H2. done. }
  destruct (strlen_first (drop q (zero_at buf l)) (eq - q)) as [-> Hle].
  { intros i Hi. rewrite ch_drop. destruct (Hw (q + i)%nat) as [-> ?]; [lia|done]. }
  { rewrite ch_drop. replace (q + (eq - q))%nat with eq by lia. rewrite ch_zero_at, decide_True by done. done. }
  rewrite length_drop, Hlen in Hle. apply list_eq. intros i. destruct (decide (i < eq - q)%nat) as [Hi|Hi].
  - rewrite !lookup_take_lt, !lookup_drop by lia. destruct (Hw (q + i)%nat) as [E _]; [lia|]. unfold ch in E.
    rewrite !nth_lookup in E. destruct (lookup_lt_is_Some_2 buf (q + i)) as [v Hv]; [lia|].
    destruct (lookup_lt_is_Some_2 (zero_at buf l) (q + i)) as [v' Hv']; [lia|]. rewrite Hv, Hv' in *. cbn in E. congruence.
  - by rewrite !lookup_take_ge by lia.
Qed.

Lemma ends_not_word buf es c j : wf_cmd buf es c → j ∈ ends c → word_char (ch buf j) = false.
Proof.
  induction c as [argv|c IH f ef m fd|l IHl r IHr|l IHl r IHr|c IH]; cbn [wf_cmd ends].
  - intros [Ha _] ([q eq] & -> & Hin)%list_elem_of_fmap. rewrite Forall_forall in Ha. apply (wa_end _ _ _ _ (Ha _ Hin)).
  - intros (Hc & Hw & _) [?|Hj]%elem_of_app; [auto|]. apply list_elem_of_singleton in Hj as ->. apply Hw.
  - intros [? ?] [?|?]%elem_of_app; auto.
  - intros [? ?] [?|?]%elem_of_app; auto.
  - auto.
Qed.

Lemma strings_ok buf es l c :
  wf_cmd buf es c → (∀ j, j ∈ ends c → j ∈ l) → (∀ j, j ∈ l → word_char (ch buf j) = false) →
  strings_of (zero_at buf l) c = tokens_of buf c.
Proof.
  intros Hwf Hsub Hl. unfold strings_of, tokens_of.
  induction c as [argv|c IH f ef m fd|c1 IH1 c2 IH2|c1 IH1 c2 IH2|c IH]; cbn [wf_cmd ends spell] in *.
  - f_equal. apply list_fmap_ext. intros i [q eq] Hi. destruct Hwf as [Ha _]. apply (cstr_word buf es).
    + rewrite Forall_forall in Ha. apply (Ha (q, eq)). by eapply list_elem_of_lookup_2.
    + apply Hsub, list_elem_of_fmap. exists (q, eq). split; [done|]. by eapply list_elem_of_lookup_2.
    + done.
  - destruct Hwf as (Hc & Hw & _). f_equal; [apply IH; [done|]; set_solver|]. apply (cstr_word buf es); [done|set_solver|done].
  - destruct Hwf. f_equal; [apply IH1|apply IH2]; set_solver.
  - destruct Hwf. f_equal; [apply IH1|apply IH2]; set_solver.
  - f_equal. by apply IH.
Qed.

(** * The whole parser *)

Lemma line_end buf : let es := Z.to_nat (strlen buf) in ch buf es = 0 ∧ ∀ i, (i < es)%nat → ch buf i ≠ 0.
Proof.
  cbn zeta. unfold ch. induction buf as [|c buf IH]; [split; [done|cbn; lia]|]. cbn [strlen].
  destruct (Z.eqb_spec c 0) as [->|Hc]; [split; [done|cbn; lia]|]. destruct IH as [IH1 IH2].
  assert (E : Z.to_nat (1 + strlen buf) = S (Z.to_nat (strlen buf))) by (rewrite strlen_cbytes; lia). rewrite E. split; [done|].
  intros [|i] Hi; [done|]. apply IH2. lia.
Qed.

Lemma parsecmd_wp buf s :
  let es := Z.to_nat (strlen buf) in
  wp (parsecmd buf) s (λ r s', s' = es ∧ wf_cmd buf es r.1 ∧ r.2 = nulterminate r.1 buf).
Proof.
  cbn zeta. destruct (line_end buf) as [He Hi]. set (es := Z.to_nat (strlen buf)) in *. unfold parsecmd. fold es.
  apply wp_bind. intros e. split; [done|]. clear e. apply wp_bind. destruct (parse_wp buf es He Hi (parse_fuel es)) as [Hl _].
  eapply wp_mono; [apply (Hl 0%nat); [lia|unfold parse_fuel; lia]|]. intros c s1 [H1 Hc].
  apply wp_bind, wp_peek; [done..|lia|]. intros _ s2 H2 _. apply wp_bind. intros e. split; [done|]. clear e.
  destruct (Nat.eqb_spec s2 es); cbn [negb]; [|apply wp_panic]. apply wp_ret. done.
Qed.

Lemma parsecmd_parts buf s e c buf' e' s' :
  parsecmd buf e s = Ret (c, buf') e' s' →
  wf_cmd buf (Z.to_nat (strlen buf)) c ∧ strings_of buf' c = tokens_of buf c.
Proof.
  intros Hr. pose proof (parsecmd_wp buf s e) as H. rewrite Hr in H. cbn in H. destruct H as (_ & _ & Hwf & ->).
  split; [done|]. rewrite nulterminate_ends. eapply strings_ok; [done|done|]. intros j Hj. by eapply ends_not_word.
Qed.

(** C10: the shell's parser returns on every line: [parsecmd] either panics with
    a syntax error or returns a command, whatever bytes the line holds. *)
Theorem parsecmd_total buf s :
  (∃ c buf' s', parsecmd buf [] s = Ret (c, buf') [] s') ∨ (∃ msg s', parsecmd buf [] s = Panic msg s').
Proof.
  pose proof (parsecmd_wp buf s []) as H. destruct (parsecmd buf [] s) as [[c buf'] e' s'|msg s'| | |]; [|eauto|done..].
  destruct H as [-> _]. left. eauto.
Qed.

(** C11: a command that parses is well formed: every argument and file name is a
    non-empty word inside the line, [argv] has room for its final null
    pointer, redirections go to descriptor 0 or 1; and after [nulterminate]
    the C strings that [runcmd] sees are exactly the words of the line. *)
Theorem parsecmd_well_formed buf s e c buf' e' s' :
  parsecmd buf e s = Ret (c, buf') e' s' →
  wf_cmd buf (Z.to_nat (strlen buf)) c ∧ strings_of buf' c = tokens_of buf c.
Proof.
  apply parsecmd_parts.
Qed.
(** The line "ls|wc >x" as the user types it. *)
Definition ex_line : list Z := [108; 115; 124; 119; 99; 32; 62; 120; 10; 0].
Definition ex_cmd : cmd := PIPE (EXEC [(0, 2)%nat]) (REDIR (EXEC [(3, 5)%nat]) 7 8 1537 1).
Definition ex_line' : list Z := [108; 115; 0; 119; 99; 0; 62; 120; 0; 0].

Lemma ex_parse : parsecmd ex_line [] 0%nat = Ret (ex_cmd, ex_line') [] 9%nat.
Proof. vm_compute. reflexivity. Qed.

Lemma parsecmd_well_formed_witness :
  parsecmd ex_line [] 0%nat = Ret (ex_cmd, ex_line') [] 9%nat ∧ strings_of ex_line' ex_cmd = tokens_of ex_line ex_cmd.
Proof. exact (conj ex_parse (proj2 (parsecmd_well_formed ex_line 0%nat [] ex_cmd ex_line' [] 9%nat ex_parse))). Defined.
End Shparse.
