(* ===== verification/Shprint.v ===== *)
(** Commands print as lines the shell parses back. *)

From S2P Require Import Prelude Mem KString Params User Print Ulib Sh Shparse.

Module Shprint.
Import Sh Shparse.

(** * Printing *)

Inductive tok : Type :=
| TW (w : list Z)
| TBar | TLp | TRp | TSemi | TAmp | TIn | TOut | TApp.

Definition tok_text (t : tok) : list Z :=
  match t with
  | TW w => w
  | TBar => [124] | TLp => [40] | TRp => [41] | TSemi => [59] | TAmp => [38]
  | TIn => [60] | TOut => [62] | TApp => [62; 62]
  end.
(** Every token is followed by a blank. *)
Definition render (ts : list tok) : list Z := concat ((λ t, tok_text t ++ [32]) <$> ts).

Definition redir_tok (mode fd : Z) : tok :=
  if fd =? 0 then TIn else if mode =? Z.lor (Z.lor O_WRONLY O_CREATE) O_TRUNC then TOut else TApp.

(** Level 0 is a line, 1 a line without [;], 2 a pipeline, 3 a command with
    its redirections; a command of a lower level is put in parentheses. *)
Definition paren (b : bool) (ts : list tok) : list tok := if b then TLp :: ts ++ [TRp] else ts.
Fixpoint toks (level : nat) (c : scmd) : list tok :=
  match c with
  | SExec argv => TW <$> argv
  | SRedir c file mode fd => toks 3 c ++ [redir_tok mode fd; TW file]
  | SPipe l r => paren (2 <? level)%nat (toks 3 l ++ TBar :: toks 2 r)
  | SBack c => paren (1 <? level)%nat (toks 1 c ++ [TAmp])
  | SList l r => paren (0 <? level)%nat (toks 1 l ++ TSemi :: toks 0 r)
  end.
(** The line, with its NUL. *)
Definition print_cmd (c : scmd) : list Z := render (toks 0 c) ++ [0].

(** The commands of the shell's language. *)
Definition word_ok (w : list Z) : Prop := w ≠ [] ∧ Forall (λ c, word_char c = true) w.
Definition redir_ok (mode fd : Z) : Prop :=
  fd = 0 ∧ mode = O_RDONLY ∨ fd = 1 ∧ (mode = Z.lor (Z.lor O_WRONLY O_CREATE) O_TRUNC ∨ mode = Z.lor O_WRONLY O_CREATE).
Fixpoint scmd_ok (c : scmd) : Prop :=
  match c with
  | SExec argv => Forall word_ok argv ∧ (length argv < MAXARGS)%nat
  | SRedir c file mode fd => scmd_ok c ∧ word_ok file ∧ redir_ok mode fd
  | SPipe l r => scmd_ok l ∧ scmd_ok r
  | SList l r => scmd_ok l ∧ scmd_ok r
  | SBack c => scmd_ok c
  end.

Definition tok_ok (t : tok) : Prop := match t with TW w => word_ok w | _ => True end.

(** * The lexer on printed lines *)

Section lexer.
Context (buf : list Z) (es : nat).

(** The rest of the line at [s] is [ts]. *)
Definition here (s : nat) (ts : list tok) : Prop :=
  drop s buf = render ts ++ [0] ∧ es = (s + length (render ts))%nat ∧ Forall tok_ok ts.

Lemma span_word f n s w r :
  drop s buf = w ++ r → Forall (λ c, f c = true) w → (length w ≤ n)%nat → n = length w ∨ f (hd 0 r) = false →
  span buf f n s = (s + length w)%nat.
Proof.
  revert n s. induction w as [|c w IH]; intros n s Hd Hw Hn Hs.
  - cbn [length] in *. rewrite Nat.add_0_r. destruct n as [|n]; [done|]. destruct Hs as [|Hs]; [done|]. cbn [span].
    assert (E : ch buf s = hd 0 r).
    { rewrite <-(Nat.add_0_r s), <-ch_drop, Hd. by destruct r. }
    by rewrite E, Hs.
  - apply Forall_cons in Hw as [Hc Hw]. cbn [length] in *. destruct n as [|n]; [lia|]. cbn [span].
    assert (E : ch buf s = c). { rewrite <-(Nat.add_0_r s), <-ch_drop, Hd. done. }
    rewrite E, Hc, (IH n (S s)); [lia| |done|lia|destruct Hs; [left; lia|by right]].
    replace (S s) with (s + 1)%nat by lia. by rewrite <-drop_drop, Hd.
Qed.

Lemma word_char_spec c : word_char c = true ↔ has_char whitespace c = false ∧ has_char symbols c = false ∧ c ≠ 0.
Proof. unfold word_char. rewrite !andb_true_iff, !negb_true_iff, Z.eqb_neq. tauto. Qed.

(** The first byte of a line that starts with a token. *)
Definition first (ts : list tok) : Z := match ts with [] => 0 | t :: _ => hd 0 (tok_text t) end.
Lemma here_first s ts : here s ts → ch buf s = first ts ∧ (ts ≠ [] → first ts ≠ 0) ∧ has_char whitespace (first ts) = false.
Proof.
  intros (Hd & _ & Hok). assert (E : ch buf s = hd 0 (drop s buf)).
  { rewrite <-(Nat.add_0_r s) at 1. rewrite <-ch_drop. by destruct (drop s buf). }
  rewrite E, Hd. destruct ts as [|t ts]; [by split_and!|]. apply Forall_cons in Hok as [Ht _].
  destruct t as [w| | | | | | | |]; try (by split_and!). destruct Ht as [Hn Hw]. destruct w as [|c w]; [done|].
  apply Forall_cons in Hw as [Hc _]. apply word_char_spec in Hc as (H1 & H2 & H3). cbn. by split_and!.
Qed.

Lemma here_skip s ts : here s ts → skip_white buf es s = s.
Proof.
  intros H. destruct (here_first s ts H) as (H1 & _ & H2). unfold skip_white. destruct (es - s)%nat; [done|]. cbn. by rewrite H1, H2.
Qed.

Lemma peek_here l s ts e :
  here s ts → peek buf es l e s = Ret (match ts with [] => false | _ => has_char l (first ts) end) e s.
Proof.
  intros H. unfold peek, bind, get, modify, ret. rewrite (here_skip s ts H). destruct (here_first s ts H) as (-> & H1 & _).
  destruct ts as [|t ts]; [done|]. rewrite (proj2 (Z.eqb_neq _ _)) by (by apply H1). done.
Qed.

(** The token's code. *)
Definition code (t : tok) : Z :=
  match t with
  | TW _ => 97 | TBar => 124 | TLp => 40 | TRp => 41 | TSemi => 59 | TAmp => 38 | TIn => 60 | TOut => 62 | TApp => 43
  end.

Lemma token_here s t ts : here s (t :: ts) → token_at buf es s = (code t, s + length (tok_text t))%nat.
Proof.
  intros H. pose proof (here_first s _ H) as (Hc & Hn & Hw). specialize (Hn ltac:(done)). cbn [first] in *.
  pose proof H as (Hd & He & Hok). unfold render in Hd. cbn [fmap list_fmap concat] in Hd. fold (render ts) in Hd.
  assert (Hn1 : ch buf (s + 1) = hd 0 (tail (tok_text t) ++ [32])).
  { rewrite <-ch_drop, Hd. apply Forall_cons in Hok as [Ht _]. by destruct t as [[|c [|c' w]]| | | | | | | |]; try done; destruct Ht. }
  unfold token_at. replace (S s) with (s + 1)%nat by lia. rewrite Hc, Hn1.
  destruct t as [w| | | | | | | |]; try done; [|cbn; f_equal; lia].
  apply Forall_cons in Hok as [[Hne Hall] _]. destruct w as [|c w]; [done|]. cbn [tok_text hd] in *.
  pose proof Hall as Hall'. apply Forall_cons in Hall' as [Hcw _]. apply word_char_spec in Hcw as (H1 & H2 & H3).
  rewrite (proj2 (Z.eqb_neq c 0)) by done. rewrite has_char_in in H2 by done. apply bool_decide_eq_false in H2.
  rewrite has_char_in, bool_decide_false by (done || (unfold symbols in H2; set_solver)).
  rewrite (proj2 (Z.eqb_neq c 62)) by (intros ->; apply H2; unfold symbols; set_solver). f_equal.
  apply (span_word _ _ _ _ ([32] ++ render ts ++ [0])).
  - rewrite Hd. by rewrite <-!app_assoc.
  - eapply Forall_impl; [exact Hall|]. intros x (-> & -> & _)%word_char_spec. done.
  - unfold render in He. cbn [fmap list_fmap concat tok_text] in He. rewrite !length_app in He. lia.
  - by right.
Qed.

Lemma gettoken_here s t ts e :
  here s (t :: ts) → ∃ s', gettoken buf es e s = Ret (code t, s, s + length (tok_text t))%nat e s' ∧ here s' ts ∧
    (s' = s + length (tok_text t) + 1)%nat ∧ text buf s (s + length (tok_text t)) = tok_text t.
Proof.
  intros H. pose proof H as (Hd & He & Hok). unfold render in Hd, He. cbn [fmap list_fmap concat] in Hd, He. fold (render ts) in Hd, He.
  set (k := length (tok_text t)) in *. rewrite !length_app in He. cbn [length] in He. fold k in He.
  assert (Hs' : here (s + k + 1) ts).
  { split_and!; [|lia|by apply Forall_cons in Hok as [_ ?]].
    replace (s + k + 1)%nat with (s + (k + 1))%nat by lia. rewrite <-drop_drop, Hd, <-app_assoc.
    rewrite drop_app_length'; [done|]. rewrite length_app. cbn. lia. }
  exists (s + k + 1)%nat. split_and!; [|done|done|].
  - unfold gettoken, bind, get, modify, ret. rewrite (here_skip s _ H), (token_here s t ts H). fold k.
    assert (Hsk : skip_white buf es (s + k) = (s + k + 1)%nat); [|by rewrite Hsk].
    unfold skip_white. change 1%nat with (length [32]). apply (span_word _ _ _ _ (render ts ++ [0])).
    + rewrite <-drop_drop, Hd, <-!app_assoc. by rewrite drop_app_length'.
    + by repeat constructor.
    + cbn. lia.
    + right. destruct (here_first _ _ Hs') as (H1 & _ & H3). destruct Hs' as (Hd' & _). rewrite <-Hd'.
      rewrite <-H1 in H3. rewrite <-(Nat.add_0_r (s + k + 1)), <-ch_drop in H3. by destruct (drop (s + k + 1) buf).
  - unfold text. replace (s + k - s)%nat with k by lia. rewrite Hd, <-!app_assoc. by apply take_app_length'.
Qed.

Lemma gettoken_end s e : here s [] → gettoken buf es e s = Ret (0, s, s) e s.
Proof.
  intros H. destruct (here_first s [] H) as (H1 & _). cbn in H1. unfold gettoken, bind, get, modify, ret.
  rewrite (here_skip s [] H). unfold token_at. rewrite H1. cbn. by rewrite (here_skip s [] H).
Qed.

Lemma here_le s ts : here s ts → (s ≤ es)%nat.
Proof. intros (_ & -> & _). lia. Qed.

(** * Parsing what was printed *)

(** Redirections: with the words spelled out, and as parsed. *)
Definition sredirs (rs : list (list Z * Z * Z)) (c : scmd) : scmd := foldl (λ c '(f, m, fd), SRedir c f m fd) c rs.
Definition redirs (prs : list (nat * nat * Z * Z)) (c : cmd) : cmd := foldl (λ c '(q, eq, m, fd), REDIR c q eq m fd) c prs.
Definition flat (rs : list (list Z * Z * Z)) : list tok := concat ((λ '(f, m, fd), [redir_tok m fd; TW f]) <$> rs).
Definition spelled (a : nat * nat * Z * Z) (r : list Z * Z * Z) : Prop :=
  let '(q, eq, m, fd) := a in text buf q eq = r.1.1 ∧ m = r.1.2 ∧ fd = r.2.

Lemma tokens_redirs prs rs c : Forall2 spelled prs rs → tokens_of buf (redirs prs c) = sredirs rs (tokens_of buf c).
Proof.
  intros H. revert c. induction H as [|[[[q eq] m] fd] [[f m'] fd'] prs rs (H1 & H2 & H3) _ IH]; intros c; [done|].
  cbn in H1, H2, H3. subst. apply (IH (REDIR c q eq m' fd')).
Qed.
Lemma set_argv_redirs args prs l : set_argv args (redirs prs (EXEC l)) = redirs prs (EXEC args).
Proof.
  induction prs as [|[[[q eq] m] fd] prs IH] using rev_ind; [done|]. unfold redirs in *. rewrite !foldl_app. cbn. by rewrite IH.
Qed.

(** What may follow: the first byte is one of [l], or the line ends. *)
Definition follows (l : list Z) (ts : list tok) : Prop := ts = [] ∨ first ts ∈ l.

Lemma follows_not_redir ts : follows [124; 41; 38; 59] ts → ts = [] ∨ first ts ∉ [60; 62].
Proof. intros [H|H]; [by left|right]. rewrite !elem_of_cons, elem_of_nil in *. lia. Qed.

Lemma first_word w ts : word_ok w → ∀ c, c ∈ symbols → first (TW w :: ts) ≠ c.
Proof.
  intros [Hn Hw] c Hc E. destruct w as [|x w]; [done|]. cbn in E. subst x. apply Forall_cons in Hw as [Hw _].
  apply word_char_spec in Hw as (_ & H & _). rewrite has_char_in in H by done. by apply bool_decide_eq_false in H.
Qed.

Lemma first_word_not w ts (l : list Z) : word_ok w → (∀ c, c ∈ l → c ∈ symbols) → first (TW w :: ts) ∉ l.
Proof. intros Hw Hl Hin. by apply (first_word w ts Hw _ (Hl _ Hin)). Qed.

Lemma peek_false l s ts e :
  bool_decide (0 ∈ l) = false → here s ts → (ts = [] ∨ first ts ∉ l) → peek buf es l e s = Ret false e s.
Proof.
  intros Hl H Hf. rewrite (peek_here l s ts e H). destruct ts as [|t ts]; [done|]. rewrite has_char_in by done.
  destruct Hf as [|Hf]; [done|]. by rewrite bool_decide_false.
Qed.
Lemma peek_true l s ts e :
  bool_decide (0 ∈ l) = false → here s ts → ts ≠ [] → first ts ∈ l → peek buf es l e s = Ret true e s.
Proof.
  intros Hl H Hn Hf. rewrite (peek_here l s ts e H). destruct ts as [|t ts]; [done|]. rewrite has_char_in by done.
  by rewrite bool_decide_true.
Qed.

Lemma redir_first m fd f ts : redir_ok m fd → first (redir_tok m fd :: TW f :: ts) ∈ [60; 62] ∧ code (redir_tok m fd) ≠ 97.
Proof. intros [[-> ->]|[-> [-> | ->]]]; cbn; (split; [set_solver|done]). Qed.

Lemma parseredirs_none n c s ts e :
  here s ts → (ts = [] ∨ first ts ∉ [60; 62]) → parseredirs buf es (S n) c e s = Ret c e s.
Proof. intros H Hf. cbn [parseredirs]. by mrun (peek_false [60; 62] s ts e eq_refl H Hf). Qed.

Lemma parseredirs_here rs n c s rest e :
  here s (flat rs ++ rest) → Forall (λ r, redir_ok r.1.2 r.2) rs → (rest = [] ∨ first rest ∉ [60; 62]) → (es - s < n)%nat →
  ∃ prs s', parseredirs buf es n c e s = Ret (redirs prs c) e s' ∧ here s' rest ∧ Forall2 spelled prs rs.
Proof.
  revert n c s. induction rs as [|[[f m] fd] rs IH]; intros n c s H Hok Hr Hn; (destruct n as [|n]; [lia|]).
  - exists [], s. split_and!; [by eapply parseredirs_none|done|constructor].
  - apply Forall_cons in Hok as [Hm Hok]. cbn [fst snd] in Hm. cbn [flat fmap list_fmap concat app] in H.
    destruct (redir_first m fd f (flat rs ++ rest) Hm) as [Hf Hc].
    cbn [parseredirs]. mrun (peek_true [60; 62] s _ e eq_refl H ltac:(done) Hf).
    destruct (gettoken_here s _ _ e H) as (s1 & Hr1 & H1 & E1 & _). mrun Hr1.
    destruct (gettoken_here s1 _ _ e H1) as (s2 & Hr2 & H2 & E2 & Ht). mrun Hr2. cbn [code Z.eqb negb Pos.eqb].
    cbn [tok_text] in *. set (eq := (s1 + length f)%nat) in *. pose proof (here_le s2 _ H2) as Hle_s2.
    destruct (IH n (REDIR c s1 eq m fd) s2 H2 Hok Hr ltac:(lia)) as (prs & s3 & Hr3 & H3 & HF).
    exists ((s1, eq, m, fd) :: prs), s3. split_and!; [|done|by constructor].
    change (redirs ((s1, eq, m, fd) :: prs) c) with (redirs prs (REDIR c s1 eq m fd)). rewrite <-Hr3. do 2 f_equal. destruct Hm as [[-> ->]|[-> [-> | ->]]]; reflexivity.
Qed.

Lemma here_mono s s' ts ts' : here s (ts' ++ ts) → here s' ts → (s ≤ s')%nat.
Proof.
  intros (_ & H1 & _) (_ & H2 & _). unfold render in *. rewrite fmap_app, concat_app, length_app in H1. lia.
Qed.

Lemma first_flat rs rest : rs = [] ∨ Forall (λ r, redir_ok r.1.2 r.2) rs → follows [60; 62; 124; 41; 38; 59] rest →
  follows [60; 62; 124; 41; 38; 59] (flat rs ++ rest).
Proof.
  intros Hrs Hr. destruct rs as [|[[f m] fd] rs]; [done|]. destruct Hrs as [|Hrs]; [done|]. apply Forall_cons in Hrs as [Hm _].
  right. cbn [flat fmap list_fmap concat app]. destruct (redir_first m fd f (concat ((λ '(f, m, fd), [redir_tok m fd; TW f]) <$> rs) ++ rest) Hm). set_solver.
Qed.

Lemma parseargs_here ws rs n args c s rest e :
  here s ((TW <$> ws) ++ flat rs ++ rest) → (ws = [] → rs = []) → Forall (λ r, redir_ok r.1.2 r.2) rs →
  follows [124; 41; 38; 59] rest → (length args + length ws < MAXARGS)%nat → (es - s < n)%nat →
  ∃ pargs prs s', parseargs buf es n args c e s = Ret (args ++ pargs, redirs prs c) e s' ∧ here s' rest ∧
    Forall2 spelled prs rs ∧ (λ a, text buf a.1 a.2) <$> pargs = ws.
Proof.
  revert rs n args c s. induction ws as [|w ws IH]; intros rs n args c s H Hws Hok Hf Hlen Hn; (destruct n as [|n]; [lia|]); cbn [parseargs].
  - rewrite Hws in * by done. cbn [fmap list_fmap app flat concat] in H. exists [], [], s. rewrite app_nil_r.
    split_and!; [|done|constructor|done]. destruct rest as [|t rest].
    + mrun (peek_false [124; 41; 38; 59] s [] e eq_refl H ltac:(by left)). by mrun (gettoken_end s e H).
    + destruct Hf as [|Hf]; [done|]. by mrun (peek_true [124; 41; 38; 59] s _ e eq_refl H ltac:(done) Hf).
  - cbn [fmap list_fmap app] in H. pose proof H as (_ & _ & Hall). apply Forall_cons in Hall as [Hw _].
    mrun (peek_false [124; 41; 38; 59] s _ e eq_refl H ltac:(right; apply first_word_not; [done|unfold symbols; set_solver])).
    destruct (gettoken_here s _ _ e H) as (s1 & Hr1 & H1 & E1 & Ht). mrun Hr1. cbn [code Z.eqb negb Pos.eqb tok_text] in *.
    rewrite (proj2 (Nat.leb_gt _ _)) by (rewrite length_app; cbn [length] in *; lia).
    pose proof (here_le s1 _ H1) as Hle_s1. set (a := (s, (s + length w)%nat)).
    assert (Hred : ∃ prs1 s2, parseredirs buf es (S n) c e s1 = Ret (redirs prs1 c) e s2 ∧
      here s2 ((TW <$> ws) ++ flat (match ws with [] => [] | _ => rs end) ++ rest) ∧
      Forall2 spelled prs1 (match ws with [] => rs | _ => [] end)).
    { destruct ws as [|w2 ws].
      - apply parseredirs_here; [exact H1|done| |lia]. by apply follows_not_redir.
      - exists [], s1. split_and!; [|done|constructor]. apply (parseredirs_none _ _ _ _ _ H1). right.
        destruct H1 as (_ & _ & Hall). apply Forall_cons in Hall as [Hw2 _].
        apply (first_word_not w2); [done|unfold symbols; set_solver]. }
    destruct Hred as (prs1 & s2 & Hr2 & H2 & HF1). mrun Hr2.
    assert (Hs12 : (s1 ≤ s2)%nat).
    { destruct ws as [|w2 ws]; [by apply (here_mono s1 s2 rest (flat rs))|by apply (here_mono s1 s2 _ [] H1 H2)]. }
    destruct (IH _ n (args ++ [a]) (redirs prs1 c) s2 H2) as (pargs & prs & s3 & Hr3 & H3 & HF & Hp).
    { by intros ->. } { by destruct ws. } { done. } { rewrite length_app. cbn [length] in *. lia. } { lia. }
    exists (a :: pargs), (prs1 ++ prs), s3. split_and!; [|done| |].
    + rewrite Hr3, <-app_assoc. unfold redirs. by rewrite foldl_app.
    + destruct ws; [|by destruct prs1; [|by inversion HF1]]. inversion HF. by rewrite app_nil_r.
    + cbn [fmap list_fmap]. by rewrite Hp, <-Ht.
Qed.

Lemma parseline_S n : parse_at buf es (S n) N_line =
  (c <- parse_at buf es n N_pipe ;; c <- parseback buf es (S n) c ;; p <- peek buf es [59] ;;
   if p then gettoken buf es ;;; c2 <- parse_at buf es n N_line ;; ret (listcmd c c2) else ret c).
Proof. done. Qed.
Lemma parsepipe_S n : parse_at buf es (S n) N_pipe =
  (c <- parse_at buf es n N_exec ;; p <- peek buf es [124] ;;
   if p then gettoken buf es ;;; c2 <- parse_at buf es n N_pipe ;; ret (pipecmd c c2) else ret c).
Proof. done. Qed.
Lemma parseexec_S n : parse_at buf es (S n) N_exec =
  (p <- peek buf es [40] ;; if p then parse_at buf es n N_block else
   c <- parseredirs buf es (S n) execcmd ;; r <- parseargs buf es (S n) [] c ;; ret (set_argv r.1 r.2)).
Proof. done. Qed.
Lemma parseblock_S n : parse_at buf es (S n) N_block =
  (p <- peek buf es [40] ;; if negb p then panic "parseblock" else gettoken buf es ;;; c <- parse_at buf es n N_line ;;
   p <- peek buf es [41] ;; if negb p then panic "syntax - missing )" else gettoken buf es ;;; parseredirs buf es (S n) c).
Proof. done. Qed.

(** ** The four levels *)

Definition exec_ok (c : scmd) : Prop := ∀ rs rest n s e,
  here s (toks 3 c ++ flat rs ++ rest) → Forall (λ r, redir_ok r.1.2 r.2) rs → follows [124; 41; 38; 59] rest →
  (4 * (es - s) + 2 ≤ n)%nat →
  ∃ c' s', parse_at buf es n N_exec e s = Ret c' e s' ∧ here s' rest ∧ tokens_of buf c' = sredirs rs c.
Definition pipe_ok (c : scmd) : Prop := ∀ rest n s e,
  here s (toks 2 c ++ rest) → follows [41; 38; 59] rest → (4 * (es - s) + 3 ≤ n)%nat →
  ∃ c' s', parse_at buf es n N_pipe e s = Ret c' e s' ∧ here s' rest ∧ tokens_of buf c' = c.
Definition back_ok (c : scmd) : Prop := ∀ k rest n m s e,
  here s (toks 1 c ++ replicate k TAmp ++ rest) → follows [41; 59] rest → (4 * (es - s) + 3 ≤ n)%nat → (es - s < m)%nat →
  ∃ c' s', (c <- parse_at buf es n N_pipe ;; parseback buf es m c) e s = Ret c' e s' ∧ here s' rest ∧
    tokens_of buf c' = Nat.iter k SBack c.
Definition line_ok (c : scmd) : Prop := ∀ rest n s e,
  here s (toks 0 c ++ rest) → follows [41] rest → (4 * (es - s) + 4 ≤ n)%nat →
  ∃ c' s', parse_at buf es n N_line e s = Ret c' e s' ∧ here s' rest ∧ tokens_of buf c' = c.

Lemma follows_weaken l l' ts : follows l ts → (∀ c, c ∈ l → c ∈ l') → follows l' ts.
Proof. intros [H|H] Hl; [by left|right]. auto. Qed.
Ltac in_list := let c := fresh in let H := fresh in intros c H; rewrite !elem_of_cons, elem_of_nil in *; lia.

Lemma parseback_here k n c s rest e :
  here s (replicate k TAmp ++ rest) → follows [41; 59] rest → (es - s < n)%nat →
  ∃ s', parseback buf es n c e s = Ret (Nat.iter k BACK c) e s' ∧ here s' rest.
Proof.
  revert n c s. induction k as [|k IH]; intros n c s H Hf Hn; (destruct n as [|n]; [lia|]); cbn [parseback].
  - exists s. split; [|done]. cbn in H. rewrite (bind_Ret _ _ _ _ _ _ _ (peek_false [38] s rest e eq_refl H
      ltac:(destruct Hf as [|Hf]; [by left|right; rewrite !elem_of_cons, elem_of_nil in *; lia]))). done.
  - cbn [replicate app] in H. mrun (peek_true [38] s _ e eq_refl H ltac:(done) ltac:(by left)).
    destruct (gettoken_here s _ _ e H) as (s1 & Hr1 & H1 & E1 & _). mrun Hr1. pose proof (here_le s1 _ H1) as Hle_s1. cbn [tok_text length] in E1.
    destruct (IH n (BACK c) s1 H1 Hf ltac:(lia)) as (s2 & Hr2 & H2). exists s2. split; [|done].
    unfold backcmd. rewrite Hr2. by rewrite Nat.iter_succ_r.
Qed.

Lemma pipe_of_exec c : toks 2 c = toks 3 c → exec_ok c → pipe_ok c.
Proof.
  intros Ht Hc rest n s e H Hf Hn. destruct n as [|n]; [lia|]. rewrite Ht in H.
  destruct (Hc [] rest n s e) as (c' & s1 & Hr1 & H1 & Hs1); [done|constructor|eapply follows_weaken; [done|in_list]|lia|].
  exists c', s1. split_and!; [|done|done]. rewrite parsepipe_S. mrun Hr1.
  rewrite (bind_Ret _ _ _ _ _ _ _ (peek_false [124] s1 rest e eq_refl H1
    ltac:(destruct Hf as [|Hf]; [by left|right; rewrite !elem_of_cons, elem_of_nil in *; lia]))). done.
Qed.

Lemma tokens_back k c : tokens_of buf (Nat.iter k BACK c) = Nat.iter k SBack (tokens_of buf c).
Proof. induction k as [|k IH]; [done|]. rewrite !Nat.iter_succ, <-IH. done. Qed.

Lemma back_of_pipe c : toks 1 c = toks 2 c → pipe_ok c → back_ok c.
Proof.
  intros Ht Hc k rest n m s e H Hf Hn Hm. rewrite Ht in H.
  destruct (Hc (replicate k TAmp ++ rest) n s e) as (c' & s1 & Hr1 & H1 & Hs1); [done| |lia|].
  { destruct k; [eapply follows_weaken; [done|in_list]|]. right. cbn. set_solver. }
  mrun Hr1. pose proof (here_mono s s1 _ _ H H1) as Hmo_s1.
  destruct (parseback_here k m c' s1 rest e H1 Hf ltac:(lia)) as (s2 & Hr2 & H2).
  exists (Nat.iter k BACK c'), s2. split_and!; [done|done|]. by rewrite tokens_back, Hs1.
Qed.

Lemma line_of_back c : toks 0 c = toks 1 c → back_ok c → line_ok c.
Proof.
  intros Ht Hc rest n s e H Hf Hn. destruct n as [|n]; [lia|]. rewrite Ht in H.
  destruct (Hc 0%nat rest n (S n) s e) as (c' & s1 & Hr1 & H1 & Hs1); [done|eapply follows_weaken; [done|in_list]|lia|lia|].
  exists c', s1. split_and!; [|done|done]. rewrite parseline_S, <-bind_assoc. mrun Hr1.
  rewrite (bind_Ret _ _ _ _ _ _ _ (peek_false [59] s1 rest e eq_refl H1
    ltac:(destruct Hf as [|Hf]; [by left|right; rewrite !elem_of_cons, elem_of_nil in *; lia]))). done.
Qed.

(** A command in parentheses. *)
Lemma exec_of_line c : toks 3 c = TLp :: toks 0 c ++ [TRp] → line_ok c → exec_ok c.
Proof.
  intros Ht Hc rs rest n s e H Hok Hf Hn. rewrite Ht in H. cbn [app] in H. rewrite <-app_assoc in H. cbn [app] in H.
  destruct n as [|[|n]]; [lia|lia|]. rewrite parseexec_S. mrun (peek_true [40] s _ e eq_refl H ltac:(done) ltac:(by left)). rewrite parseblock_S.
  mrun (peek_true [40] s _ e eq_refl H ltac:(done) ltac:(by left)). cbn [negb].
  destruct (gettoken_here s _ _ e H) as (s1 & Hr1 & H1 & E1 & _). mrun Hr1. cbn [tok_text length] in E1. pose proof (here_le s1 _ H1) as Hle_s1.
  destruct (Hc (TRp :: flat rs ++ rest) n s1 e) as (c' & s2 & Hr2 & H2 & Hs2); [done|right; by left|lia|]. mrun Hr2.
  mrun (peek_true [41] s2 _ e eq_refl H2 ltac:(done) ltac:(by left)). cbn [negb].
  destruct (gettoken_here s2 _ _ e H2) as (s3 & Hr3 & H3 & E3 & _). mrun Hr3. cbn [tok_text length] in E3.
  pose proof (here_mono s1 s2 _ _ H1 H2) as Hmo_s2. pose proof (here_le s3 _ H3) as Hle_s3.
  destruct (parseredirs_here rs (S n) c' s3 rest e H3 Hok (follows_not_redir _ Hf) ltac:(lia)) as (prs & s4 & Hr4 & H4 & HF).
  exists (redirs prs c'), s4. split_and!; [exact Hr4|done|]. by rewrite (tokens_redirs _ _ _ HF), Hs2.
Qed.

(** Arguments and redirections. *)
Lemma exec_words ws : Forall word_ok ws → (length ws < MAXARGS)%nat → exec_ok (SExec ws).
Proof.
  intros Hws Hlen rs rest n s e H Hok Hf Hn. cbn [toks] in H. destruct n as [|n]; [lia|].
  assert (Hp : ((TW <$> ws) ++ flat rs ++ rest) = [] ∨ first ((TW <$> ws) ++ flat rs ++ rest) ∉ [40]).
  { destruct ws as [|w ws]; cbn [fmap list_fmap app].
    - destruct (first_flat rs rest) as [E|E]; [by right|eapply follows_weaken; [done|in_list]|by left|right].
      rewrite !elem_of_cons, elem_of_nil in *. lia.
    - right. apply first_word_not; [by apply Forall_cons in Hws as [? _]|unfold symbols; set_solver]. }
  rewrite parseexec_S. mrun (peek_false [40] s _ e eq_refl H Hp).
  assert (Hred : ∃ prs1 s1, parseredirs buf es (S n) execcmd e s = Ret (redirs prs1 execcmd) e s1 ∧
    here s1 ((TW <$> ws) ++ flat (match ws with [] => [] | _ => rs end) ++ rest) ∧
    Forall2 spelled prs1 (match ws with [] => rs | _ => [] end)).
  { destruct ws as [|w ws].
    - apply parseredirs_here; [exact H|done|by apply follows_not_redir|lia].
    - exists [], s. split_and!; [|done|constructor]. apply (parseredirs_none _ _ _ _ _ H). right.
      apply first_word_not; [by apply Forall_cons in Hws as [? _]|unfold symbols; set_solver]. }
  destruct Hred as (prs1 & s1 & Hr1 & H1 & HF1). rewrite (bind_Ret _ _ _ _ _ _ _ Hr1).
  assert (Hs1 : (s ≤ s1)%nat) by (destruct ws; [by apply (here_mono s s1 rest (flat rs))|by apply (here_mono s s1 _ [] H H1)]).
  destruct (parseargs_here ws _ (S n) [] (redirs prs1 execcmd) s1 rest e H1) as (pargs & prs & s2 & Hr2 & H2 & HF & Hp2).
  { by intros ->. } { by destruct ws. } { done. } { done. } { lia. }
  rewrite (bind_Ret _ _ _ _ _ _ _ Hr2). exists (redirs (prs1 ++ prs) (EXEC pargs)), s2. split_and!; [|done|].
  - unfold ret. f_equal. cbn [fst snd app]. unfold redirs at 1. unfold redirs at 1. rewrite <-foldl_app.
    apply (set_argv_redirs pargs (prs1 ++ prs) []).
  - rewrite (tokens_redirs _ rs).
    + f_equal. cbn. f_equal. exact Hp2.
    + destruct ws; [inversion HF; by rewrite app_nil_r|]. inversion HF1. exact HF.
Qed.

Lemma exec_redir c f m fd : redir_ok m fd → exec_ok c → exec_ok (SRedir c f m fd).
Proof.
  intros Hm Hc rs rest n s e H Hok Hf Hn. cbn [toks] in H. rewrite <-app_assoc in H.
  destruct (Hc ((f, m, fd) :: rs) rest n s e) as (c' & s' & Hr & H' & Hs); [|by constructor|done|done|].
  - exact H.
  - by exists c', s'.
Qed.

Lemma pipe_pipe l r : exec_ok l → pipe_ok r → pipe_ok (SPipe l r).
Proof.
  intros Hl Hr rest n s e H Hf Hn. cbn [toks paren Nat.ltb Nat.leb] in H. rewrite <-app_assoc in H. cbn [app] in H.
  destruct n as [|n]; [lia|]. rewrite parsepipe_S.
  destruct (Hl [] (TBar :: toks 2 r ++ rest) n s e) as (c1 & s1 & Hr1 & H1 & Hs1); [done|constructor|right; by left|lia|]. mrun Hr1.
  mrun (peek_true [124] s1 _ e eq_refl H1 ltac:(done) ltac:(by left)).
  destruct (gettoken_here s1 _ _ e H1) as (s2 & Hr2 & H2 & E2 & _). mrun Hr2. cbn [tok_text length] in E2.
  pose proof (here_mono s s1 _ _ H H1) as Hmo_s1. pose proof (here_le s2 _ H2) as Hle_s2.
  destruct (Hr rest n s2 e) as (c2 & s3 & Hr3 & H3 & Hs3); [done|done|lia|]. mrun Hr3.
  exists (PIPE c1 c2), s3. split_and!; [done|done|]. change (SPipe (tokens_of buf c1) (tokens_of buf c2) = SPipe l r). by rewrite Hs1, Hs3.
Qed.

Lemma line_list l r : back_ok l → line_ok r → line_ok (SList l r).
Proof.
  intros Hl Hr rest n s e H Hf Hn. cbn [toks paren Nat.ltb Nat.leb] in H. rewrite <-app_assoc in H. cbn [app] in H.
  destruct n as [|n]; [lia|]. rewrite parseline_S, <-bind_assoc.
  destruct (Hl 0%nat (TSemi :: toks 0 r ++ rest) n (S n) s e) as (c1 & s1 & Hr1 & H1 & Hs1); [done|right; cbn; set_solver|lia|lia|]. mrun Hr1.
  mrun (peek_true [59] s1 _ e eq_refl H1 ltac:(done) ltac:(by left)).
  destruct (gettoken_here s1 _ _ e H1) as (s2 & Hr2 & H2 & E2 & _). mrun Hr2. cbn [tok_text length] in E2.
  pose proof (here_mono s s1 _ _ H H1) as Hmo_s1. pose proof (here_le s2 _ H2) as Hle_s2.
  destruct (Hr rest n s2 e) as (c2 & s3 & Hr3 & H3 & Hs3); [done|done|lia|]. mrun Hr3.
  exists (LIST c1 c2), s3. split_and!; [done|done|]. change (SList (tokens_of buf c1) (tokens_of buf c2) = SList l r). by rewrite Hs1, Hs3.
Qed.

Lemma back_back c : back_ok c → back_ok (SBack c).
Proof.
  intros Hc k rest n m s e H Hf Hn Hm. cbn [toks paren Nat.ltb Nat.leb] in H. rewrite <-app_assoc in H.
  destruct (Hc (S k) rest n m s e) as (c' & s' & Hr & H' & Hs); [done..|]. exists c', s'. split_and!; [done|done|].
  by rewrite Hs, Nat.iter_succ_r.
Qed.

Lemma of_exec c : toks 2 c = toks 3 c → toks 1 c = toks 2 c → toks 0 c = toks 1 c → exec_ok c →
  exec_ok c ∧ pipe_ok c ∧ back_ok c ∧ line_ok c.
Proof.
  intros H2 H1 H0 He. pose proof (pipe_of_exec c H2 He) as Hp. pose proof (back_of_pipe c H1 Hp) as Hb.
  split_and!; [exact He|exact Hp|exact Hb|]. exact (line_of_back c H0 Hb).
Qed.

Lemma levels c : scmd_ok c → exec_ok c ∧ pipe_ok c ∧ back_ok c ∧ line_ok c.
Proof.
  induction c as [ws|c IH f m fd|l IHl r IHr|l IHl r IHr|c IH]; cbn [scmd_ok]; intros Hok.
  - apply of_exec; [done|done|done|]. destruct Hok; by apply exec_words.
  - destruct Hok as (Hc & Hf & Hm). destruct (IH Hc) as (He & _). apply of_exec; [done|done|done|]. by apply exec_redir.
  - destruct Hok as [Hl Hr]. destruct (IHl Hl) as (El & _). destruct (IHr Hr) as (_ & Pr & _).
    pose proof (pipe_pipe l r El Pr) as Hp. pose proof (back_of_pipe (SPipe l r) eq_refl Hp) as Hb.
    pose proof (line_of_back (SPipe l r) eq_refl Hb) as Hli. split_and!; [|exact Hp|exact Hb|exact Hli].
    exact (exec_of_line (SPipe l r) eq_refl Hli).
  - destruct Hok as [Hl Hr]. destruct (IHl Hl) as (_ & _ & Bl & _). destruct (IHr Hr) as (_ & _ & _ & Lr).
    pose proof (line_list l r Bl Lr) as Hli. pose proof (exec_of_line (SList l r) eq_refl Hli) as He.
    pose proof (pipe_of_exec (SList l r) eq_refl He) as Hp. split_and!; [exact He|exact Hp| |exact Hli].
    exact (back_of_pipe (SList l r) eq_refl Hp).
  - destruct (IH Hok) as (_ & _ & B & _). pose proof (back_back c B) as Hb.
    pose proof (line_of_back (SBack c) eq_refl Hb) as Hli. pose proof (exec_of_line (SBack c) eq_refl Hli) as He.
    split_and!; [exact He| |exact Hb|exact Hli]. exact (pipe_of_exec (SBack c) eq_refl He).
Qed.
End lexer.

Lemma render_nonzero ts : Forall tok_ok ts → ∀ i, (i < length (render ts))%nat → nth i (render ts) 0 ≠ 0.
Proof.
  intros H i Hi. assert (Hall : Forall (λ c, c ≠ 0) (render ts)).
  { clear i Hi. induction H as [|t ts Ht _ IH]; [constructor|]. unfold render. cbn. apply Forall_app. split; [|exact IH].
    apply Forall_app. split; [|by repeat constructor]. destruct t as [w| | | | | | | |]; cbn; try (by repeat constructor).
    destruct Ht as [_ Hw]. eapply Forall_impl; [exact Hw|]. by intros c (_ & _ & ?)%word_char_spec. }
  rewrite Forall_forall in Hall. apply Hall. rewrite nth_lookup.
  destruct (lookup_lt_is_Some_2 _ _ Hi) as [c Hc]. rewrite Hc. cbn. by eapply list_elem_of_lookup_2.
Qed.

Lemma strlen_print c : Forall tok_ok (toks 0 c) → Z.to_nat (strlen (print_cmd c)) = length (render (toks 0 c)).
Proof.
  intros H. apply strlen_first.
  - intros i Hi. unfold print_cmd. rewrite app_nth1 by done. by apply render_nonzero.
  - unfold print_cmd. rewrite app_nth2, Nat.sub_diag by lia. done.
Qed.

Lemma toks_ok c l : scmd_ok c → Forall tok_ok (toks l c).
Proof.
  assert (Hpar : ∀ b ts, Forall tok_ok ts → Forall tok_ok (paren b ts)).
  { intros [] ts H; [|done]. cbn. constructor; [done|]. apply Forall_app. split; [done|by repeat constructor]. }
  revert l. induction c as [ws|c IH f m fd|c1 IH1 c2 IH2|c1 IH1 c2 IH2|c IH]; intros l; cbn [scmd_ok toks].
  - intros [Hw _]. by apply Forall_fmap.
  - intros (Hc & Hf & Hm). apply Forall_app. split; [by apply IH|]. constructor; [|by repeat constructor; apply Hf].
    destruct Hm as [[-> ->]|[-> [-> | ->]]]; done.
  - intros [H1 H2]. apply Hpar, Forall_app. split; [by apply IH1|]. constructor; [done|by apply IH2].
  - intros [H1 H2]. apply Hpar, Forall_app. split; [by apply IH1|]. constructor; [done|by apply IH2].
  - intros H. apply Hpar, Forall_app. split; [by apply IH|by repeat constructor].
Qed.

(** C9: printing a command and parsing the line gives the command back: for
    every command with non-empty words of ordinary characters and fewer than
    MAXARGS arguments each, [parsecmd] of its printed form returns a tree
    whose C strings, after [nulterminate], spell out that command. *)
Theorem parse_print c s e :
  scmd_ok c → ∃ c' buf' s', parsecmd (print_cmd c) e s = Ret (c', buf') e s' ∧ strings_of buf' c' = c.
Proof.
  intros Hok. set (buf := print_cmd c). pose proof (toks_ok c 0 Hok) as Ht. pose proof (strlen_print c Ht) as Hes. fold buf in Hes.
  set (es := length (render (toks 0 c))) in *.
  assert (H : here buf es 0 (toks 0 c ++ [])) by (rewrite app_nil_r; split_and!; [by rewrite drop_0|done|done]).
  destruct (levels buf es c Hok) as (_ & _ & _ & Hl).
  destruct (Hl [] (parse_fuel es) 0%nat e H) as (c' & s1 & Hr1 & H1 & Hs1); [by left|unfold parse_fuel; lia|].
  assert (E1 : s1 = es). { destruct H1 as (_ & E & _). cbn in E. lia. }
  assert (Hrun : parsecmd buf e s = Ret (c', nulterminate c' buf) e s1).
  { unfold parsecmd. rewrite Hes. mstep. mrun Hr1. mrun (peek_here buf es [] s1 [] e H1). mstep. by rewrite E1, Nat.eqb_refl. }
  exists c', (nulterminate c' buf), s1. split; [done|]. pose proof (parsecmd_wp buf s e) as Hw. rewrite Hrun in Hw. cbn in Hw.
  destruct Hw as (_ & _ & Hwf & _). rewrite nulterminate_ends, <-Hs1. eapply strings_ok; [done|done|].
  intros j Hj. by eapply ends_not_word.
Qed.
(** "( ls ; cat x ) | wc > y &" *)
Definition ex_scmd : scmd :=
  SBack (SPipe (SList (SExec [[108; 115]]) (SExec [[99; 97; 116]; [120]])) (SRedir (SExec [[119; 99]]) [121] 1537 1)).

Lemma word_ok_b w : w ≠ [] → forallb word_char w = true → word_ok w.
Proof. intros Hn Hw. split; [done|]. apply Forall_forall. intros c Hc. rewrite forallb_forall in Hw. by apply Hw, list_elem_of_In. Qed.
Lemma ex_scmd_ok : scmd_ok ex_scmd.
Proof.
  assert (H : ∀ l, forallb (λ w, match w with [] => false | _ => forallb word_char w end) l = true → Forall word_ok l).
  { intros l Hl. apply Forall_forall. intros w Hw%list_elem_of_In. rewrite forallb_forall in Hl. specialize (Hl w Hw).
    apply word_ok_b; [by intros ->|by destruct w]. }
  assert (Hr : redir_ok 1537 1) by (right; split; [done|by left]).
  cbn [scmd_ok ex_scmd]. unfold MAXARGS. split_and!; try (apply H; reflexivity); try (cbn; lia); [|exact Hr].
  by apply word_ok_b.
Qed.

Lemma parse_print_witness :
  ∃ c' buf' s', parsecmd (print_cmd ex_scmd) [] 0%nat = Ret (c', buf') [] s' ∧ strings_of buf' c' = ex_scmd.
Proof.
  exact (parse_print ex_scmd 0%nat [] ex_scmd_ok).
Defined.
End Shprint.
