(* ===== verification/Shrun.v ===== *)
(** What a line typed at the shell does: the processes [runcmd] creates, the
    programs they execute and with which descriptors, what they wait for and
    print, against a specification that follows the structure of the
    command. *)

From S2P Require Import Prelude Mem KString Params User Print Ulib Sh Shparse Shprint.

Module Shrun.
Import Sh Shparse Shprint.

(** * Processes and their descriptors *)

(** What a descriptor refers to: something inherited, a file that was opened,
    or an end of a pipe.  A pipe is named by the place in the tree of forks
    where it was created. *)
Inductive obj : Type :=
| Given (n : nat)
| File (path : list Z) (mode : Z)
| Rd (pipe : list nat)
| Wr (pipe : list nat).
Abbreviation tab := (gmap Z obj).

(** The lowest free descriptor of the NOFILE of a process, or -1. *)
Definition lowest (t : tab) : Z :=
  hd (-1) (List.filter (λ fd, match t !! fd with None => true | Some _ => false end) (seqZ 0 16)).

(** The current directory is the list of the paths given to [chdir] so far. *)
Abbreviation dir := (list (list Z)).

(** What a process does, up to the calls that only change its descriptors and
    its directory.  [Forks] has what the child does and what the parent does
    next; [Execs] and [Waits] record the descriptors at that time. *)
Inductive acts : Type :=
| Ended (status : Z)
| Execs (argv : list (list Z)) (cwd : dir) (t : tab)
| Prints (fd : Z) (msg : list Z) (rest : acts)
| Waits (t : tab) (rest : acts)
| Forks (child rest : acts).

Section run.
(** Which files can be opened, which programs exist and which directories; and
    whether the [fork] at a place of the tree of forks succeeds. *)
Context (can_open : dir → list Z → Z → bool) (can_exec : dir → list (list Z) → bool) (can_chdir : dir → list Z → bool).
Context (can_fork : list nat → bool).

(** [lines] is the input that [getcmd] returns, line by line; at its end the
    line is empty. *)
Fixpoint run (here : list nat) (cwd : dir) (lines : list (list Z)) (t : tab) (pr : prog) : acts :=
  match pr with
  | Exit status => Ended status
  | Sys c k =>
      match c with
      | S_close fd =>
          match t !! fd with
          | Some _ => run here cwd lines (delete fd t) (k [0])
          | None => run here cwd lines t (k [-1])
          end
      | S_open path mode =>
          if can_open cwd path mode && (0 <=? lowest t)
          then run here cwd lines (<[lowest t := File path mode]> t) (k [lowest t])
          else run here cwd lines t (k [-1])
      | S_dup fd =>
          match t !! fd with
          | Some o =>
              if 0 <=? lowest t then run here cwd lines (<[lowest t := o]> t) (k [lowest t])
              else run here cwd lines t (k [-1])
          | None => run here cwd lines t (k [-1])
          end
      | S_pipe =>
          let p0 := lowest t in
          let t1 := <[p0 := Rd here]> t in
          let p1 := lowest t1 in
          if (0 <=? p0) && (0 <=? p1) then run (here ++ [2%nat]) cwd lines (<[p1 := Wr here]> t1) (k [0; p0; p1])
          else run here cwd lines t (k [-1; 0; 0])
      | S_wait => Waits t (run here cwd lines t (k [0]))
      | S_print fd msg => Prints fd msg (run here cwd lines t (k [0]))
      | S_exec argv => if can_exec cwd argv then Execs argv cwd t else run here cwd lines t (k [-1])
      | S_chdir path =>
          if can_chdir cwd path then run here (cwd ++ [path]) lines t (k [0]) else run here cwd lines t (k [-1])
      | S_getcmd =>
          match lines with
          | [] => run here cwd [] t (k [-1])
          | l :: lines => run here cwd lines t (k ((if hd 0 l =? 0 then -1 else 0) :: l))
          end
      end
  | Fork k =>
      if can_fork here then Forks (run (here ++ [0%nat]) cwd lines t (k 0)) (run (here ++ [1%nat]) cwd lines t (k 1))
      else run here cwd lines t (k (-1))
  end.

(** Standard input, output and error, and nothing else. *)
Definition std (i o e : obj) : tab := <[0 := i]> (<[1 := o]> {[2 := e]}).

(** The tables with which programs start and processes wait. *)
Fixpoint tables (a : acts) : list tab :=
  match a with
  | Ended _ => []
  | Execs _ _ t => [t]
  | Prints _ _ a => tables a
  | Waits t a => t :: tables a
  | Forks a b => tables a ++ tables b
  end.

(** * The specification *)

(** A process that complains and gives up. *)
Definition fails (msg : list Z) (status : Z) : acts := Prints 2 (msg ++ [10]) (Ended status).
Definition forked (here : list nat) (child rest : acts) : acts :=
  if can_fork here then Forks child rest else fails (bytes_of "fork") 1.

Fixpoint expect (here : list nat) (cwd : dir) (i o e : obj) (c : scmd) : acts :=
  match c with
  | SExec argv =>
      match argv with
      | [] => Ended 1
      | prog :: _ =>
          if can_exec cwd argv then Execs argv cwd (std i o e) else fails (bytes_of "exec " ++ prog ++ bytes_of " failed") 0
      end
  | SRedir c file mode fd =>
      if can_open cwd file mode then
        if fd =? 0 then expect here cwd (File file mode) o e c else expect here cwd i (File file mode) e c
      else fails (bytes_of "open " ++ file ++ bytes_of " failed") 1
  | SPipe l r =>
      forked (here ++ [2])%nat (expect (here ++ [2; 0])%nat cwd i (Wr here) e l)
        (forked (here ++ [2; 1])%nat (expect (here ++ [2; 1; 0])%nat cwd (Rd here) o e r)
          (Waits (std i o e) (Waits (std i o e) (Ended 0))))
  | SList l r =>
      forked here (expect (here ++ [0%nat]) cwd i o e l) (Waits (std i o e) (expect (here ++ [1%nat]) cwd i o e r))
  | SBack c => forked here (expect (here ++ [0%nat]) cwd i o e c) (Ended 0)
  end.

Lemma forked_tables P here a b : Forall P (tables a) → Forall P (tables b) → Forall P (tables (forked here a b)).
Proof. intros Ha Hb. unfold forked. destruct (can_fork here); [|constructor]. cbn. by apply Forall_app. Qed.
Definition is_std (t : tab) : Prop := ∃ i o e, t = std i o e.
Lemma expect_tables here cwd i o e c : Forall is_std (tables (expect here cwd i o e c)).
Proof.
  assert (Hs : ∀ i o e, is_std (std i o e)) by (intros; by eexists _, _, _).
  revert here i o. induction c as [argv|c IH f m fd|l IHl r IHr|l IHl r IHr|c IH]; intros here i o; cbn [expect].
  - destruct argv; [constructor|]. destruct (can_exec _ _); repeat constructor. apply Hs.
  - destruct (can_open _ _ _); [|constructor]. destruct (fd =? 0); apply IH.
  - apply forked_tables; [apply IHl|]. apply forked_tables; [apply IHr|]. repeat constructor; apply Hs.
  - apply forked_tables; [apply IHl|]. constructor; [apply Hs|apply IHr].
  - apply forked_tables; [apply IH|constructor].
Qed.

(** * The refinement *)

Section command.
Context (cwd : dir) (lines : list (list Z)).

(** The table after [close] and [open]. *)
Lemma redirect_in path mode k here i o e :
  run here cwd lines (std i o e) (do (S_close 0) (Sys (S_open path mode) k)) =
  if can_open cwd path mode then run here cwd lines (std (File path mode) o e) (k [0]) else run here cwd lines (delete 0 (std i o e)) (k [-1]).
Proof.
  cbn [do run]. replace (std i o e !! 0) with (Some i) by reflexivity.
  replace (lowest (delete 0 (std i o e))) with 0 by reflexivity. rewrite andb_true_r.
  by replace (<[0 := File path mode]> (delete 0 (std i o e))) with (std (File path mode) o e) by reflexivity.
Qed.
Lemma redirect_out path mode k here i o e :
  run here cwd lines (std i o e) (do (S_close 1) (Sys (S_open path mode) k)) =
  if can_open cwd path mode then run here cwd lines (std i (File path mode) e) (k [1]) else run here cwd lines (delete 1 (std i o e)) (k [-1]).
Proof.
  cbn [do run]. replace (std i o e !! 1) with (Some o) by reflexivity.
  replace (lowest (delete 1 (std i o e))) with 1 by reflexivity. rewrite andb_true_r.
  by replace (<[1 := File path mode]> (delete 1 (std i o e))) with (std i (File path mode) e) by reflexivity.
Qed.

(** A process that has created a pipe. *)
Definition piped (q : list nat) (i o e : obj) : tab := <[4 := Wr q]> (<[3 := Rd q]> (std i o e)).
Lemma run_pipe k here i o e :
  run here cwd lines (std i o e) (Sys S_pipe k) = run (here ++ [2%nat]) cwd lines (piped here i o e) (k [0; 3; 4]).
Proof. reflexivity. Qed.
Lemma pipe_left k q here i o e :
  run here cwd lines (piped q i o e) (do (S_close 1) (do (S_dup 4) (do (S_close 3) (do (S_close 4) k)))) = run here cwd lines (std i (Wr q) e) k.
Proof.
  cbn [do run]. replace (piped q i o e !! 1) with (Some o) by reflexivity.
  replace (delete 1 (piped q i o e) !! 4) with (Some (Wr q)) by reflexivity.
  replace (lowest (delete 1 (piped q i o e))) with 1 by reflexivity. cbn [Z.leb Z.compare].
  set (t := <[1 := Wr q]> (delete 1 (piped q i o e))).
  replace (t !! 3) with (Some (Rd q)) by reflexivity. replace (delete 3 t !! 4) with (Some (Wr q)) by reflexivity.
  by replace (delete 4 (delete 3 t)) with (std i (Wr q) e) by reflexivity.
Qed.
Lemma pipe_right k q here i o e :
  run here cwd lines (piped q i o e) (do (S_close 0) (do (S_dup 3) (do (S_close 3) (do (S_close 4) k)))) = run here cwd lines (std (Rd q) o e) k.
Proof.
  cbn [do run]. replace (piped q i o e !! 0) with (Some i) by reflexivity.
  replace (delete 0 (piped q i o e) !! 3) with (Some (Rd q)) by reflexivity.
  replace (lowest (delete 0 (piped q i o e))) with 0 by reflexivity. cbn [Z.leb Z.compare].
  set (t := <[0 := Rd q]> (delete 0 (piped q i o e))).
  replace (t !! 3) with (Some (Rd q)) by reflexivity. replace (delete 3 t !! 4) with (Some (Wr q)) by reflexivity.
  by replace (delete 4 (delete 3 t)) with (std (Rd q) o e) by reflexivity.
Qed.
Lemma pipe_parent q here i o e :
  run here cwd lines (piped q i o e) (do (S_close 3) (do (S_close 4) (do S_wait (do S_wait (Exit 0))))) =
  Waits (std i o e) (Waits (std i o e) (Ended 0)).
Proof.
  cbn [do run]. replace (piped q i o e !! 3) with (Some (Rd q)) by reflexivity.
  replace (delete 3 (piped q i o e) !! 4) with (Some (Wr q)) by reflexivity.
  by replace (delete 4 (delete 3 (piped q i o e))) with (std i o e) by reflexivity.
Qed.

Lemma run_fork1 k here t :
  run here cwd lines t (fork1 k) = forked here (run (here ++ [0%nat]) cwd lines t (k 0)) (run (here ++ [1%nat]) cwd lines t (k 1)).
Proof. reflexivity. Qed.

(** The structure of a command with its words spelled out. *)
Lemma run_refines buf es c here i o e buf' :
  wf_cmd buf es c → run here cwd lines (std i o e) (runcmd buf' c) = expect here cwd i o e (strings_of buf' c).
Proof.
  revert here i o. induction c as [argv|c IH f ef m fd|l IHl r IHr|l IHl r IHr|c IH]; intros here i o Hwf.
  - destruct argv as [|[q eq] argv]; [done|]. cbn [runcmd expect do run strings_of spell fmap list_fmap].
    destruct (can_exec _ _); [done|]. cbn [run]. unfold fails. by rewrite <-!app_assoc.
  - destruct Hwf as (Hc & Hf & Hfd). change (strings_of buf' (REDIR c f ef m fd)) with (SRedir (strings_of buf' c) (cstr buf' f) m fd).
    cbn [runcmd expect]. unfold fails. rewrite <-!app_assoc. destruct Hfd as [[-> _]| ->].
    + rewrite redirect_in. destruct (can_open _ _); [|reflexivity]. by apply IH.
    + rewrite redirect_out. destruct (can_open _ _); [|reflexivity]. by apply IH.
  - destruct Hwf as [Hl Hr]. change (strings_of buf' (PIPE l r)) with (SPipe (strings_of buf' l) (strings_of buf' r)).
    cbn [runcmd expect]. rewrite run_pipe. cbn [nth hd Z.ltb Z.compare]. rewrite !run_fork1. cbn [Z.eqb].
    rewrite run_fork1. cbn [Z.eqb]. rewrite pipe_left, pipe_right, pipe_parent, <-!app_assoc. cbn [app].
    by rewrite IHl, IHr.
  - destruct Hwf as [Hl Hr]. change (strings_of buf' (LIST l r)) with (SList (strings_of buf' l) (strings_of buf' r)).
    cbn [runcmd expect]. rewrite run_fork1. cbn [Z.eqb do run]. by rewrite IHl, IHr.
  - change (strings_of buf' (BACK c)) with (SBack (strings_of buf' c)). cbn [runcmd expect]. rewrite run_fork1.
    cbn [Z.eqb run]. by rewrite IH.
Qed.
End command.

(** * The session *)

(** The directory a [cd] line names: the line without its first three
    characters and its last. *)
Definition cd_path (l : list Z) : list Z := take (Z.to_nat (strlen l) - 4) (drop 3 l).

(** What the child does that gets a line. *)
Definition line_acts (here : list nat) (cwd : dir) (i o e : obj) (l : list Z) : acts :=
  match parsecmd l [] O with
  | Ret (c, _) _ _ => expect here cwd i o e (tokens_of l c)
  | Panic msg _ => fails (bytes_of msg) 1
  | _ => Ended 1
  end.

(** What the lines of a session do: the current directory is what the
    successful [cd] lines before made it, and the shell waits for every other
    line. *)
Fixpoint session (here : list nat) (cwd : dir) (i o e : obj) (lines : list (list Z)) : acts :=
  match lines with
  | [] => Ended 0
  | l :: lines =>
      if hd 0 l =? 0 then Ended 0
      else if is_cd l then
        if can_chdir cwd (cd_path l) then session here (cwd ++ [cd_path l]) i o e lines
        else Prints 2 (bytes_of "cannot cd " ++ cd_path l ++ [10]) (session here cwd i o e lines)
      else forked here (line_acts (here ++ [0%nat]) cwd i o e l) (Waits (std i o e) (session (here ++ [1%nat]) cwd i o e lines))
  end.

(** C8: a line does what its command stands for.  If the shell parses the line,
    then the processes that [runcmd] and its children create, the programs
    they execute with their arguments and descriptors, what they wait for and
    what they print are what the command means: redirections replace
    descriptor 0 or 1; the two sides of a pipe run in two children joined by a
    fresh pipe, and the parent waits for both; the right side of a list comes
    after the left has been waited for; a command in the background is not
    waited for; a file that cannot be opened, a program that does not exist
    and a [fork] that fails are reported.  Every program starts, and every
    process waits, with descriptors 0, 1 and 2 and no other: no end of a pipe
    is left open in a process that does not use it, the waiting parent
    included. *)
Theorem runcmd_refines buf c buf' s s' ev ev' here cwd lines i o e :
  parsecmd buf ev s = Ret (c, buf') ev' s' →
  run here cwd lines (std i o e) (runcmd buf' c) = expect here cwd i o e (tokens_of buf c) ∧
  Forall is_std (tables (run here cwd lines (std i o e) (runcmd buf' c))).
Proof.
  intros Hr. destruct (parsecmd_parts _ _ _ _ _ _ _ Hr) as (Hwf & Hs).
  assert (E : run here cwd lines (std i o e) (runcmd buf' c) = expect here cwd i o e (tokens_of buf c)) by (rewrite <-Hs; by eapply run_refines).
  split; [done|]. rewrite E. apply expect_tables.
Qed.

Lemma cd_path_ok l :
  is_cd l = true → (Z.to_nat (strlen l) < length l)%nat → cstr (<[Z.to_nat (strlen l - 1) := 0]> l) 3 = cd_path l.
Proof.
  intros Hcd Hl. destruct (line_end l) as [He Hi]. unfold ch in He, Hi. set (n := Z.to_nat (strlen l)) in *.
  unfold is_cd in Hcd. rewrite !andb_true_iff, !Z.eqb_eq in Hcd. destruct Hcd as [[H0 H1] H2].
  assert (Hn : (3 ≤ n)%nat). { destruct n as [|[|[|n]]]; [congruence|congruence|congruence|lia]. }
  replace (Z.to_nat (strlen l - 1)) with (n - 1)%nat by lia. unfold cstr, cd_path. fold n.
  assert (E : Z.to_nat (strlen (drop 3 (<[(n - 1)%nat := 0]> l))) = (n - 4)%nat).
  { apply strlen_first.
    - intros i Hin. rewrite nth_lookup, lookup_drop, list_lookup_insert_ne, <-nth_lookup by lia. apply Hi. lia.
    - rewrite nth_lookup, lookup_drop. destruct (decide (n = 3)%nat) as [E|E].
      + rewrite list_lookup_insert_ne by lia. rewrite <-nth_lookup. rewrite E in He. by rewrite E.
      + replace (3 + (n - 4))%nat with (n - 1)%nat by lia. by rewrite list_lookup_insert_eq by lia. }
  rewrite E. apply list_eq. intros i. destruct (decide (i < n - 4)%nat) as [Hlt|Hge].
  - rewrite !lookup_take_lt, !lookup_drop by done. by rewrite list_lookup_insert_ne by lia.
  - by rewrite !lookup_take_ge by lia.
Qed.

Lemma main_turn_ok l here cwd lines i o e k :
  (Z.to_nat (strlen l) < length l)%nat →
  run here cwd lines (std i o e) (main_turn l k) =
  if is_cd l then
    if can_chdir cwd (cd_path l) then run here (cwd ++ [cd_path l]) lines (std i o e) k
    else Prints 2 (bytes_of "cannot cd " ++ cd_path l ++ [10]) (run here cwd lines (std i o e) k)
  else forked here (line_acts (here ++ [0%nat]) cwd i o e l) (Waits (std i o e) (run (here ++ [1%nat]) cwd lines (std i o e) k)).
Proof.
  intros Hl. unfold main_turn. destruct (is_cd l) eqn:Hcd.
  - rewrite (cd_path_ok l Hcd Hl). cbn [run]. by destruct (can_chdir _ _).
  - rewrite run_fork1. cbn [Z.eqb do run]. f_equal. unfold line_acts.
    destruct (parsecmd l [] 0%nat) as [[c l'] ev s| | | |] eqn:Hp; [|done..].
    destruct (parsecmd_parts _ _ _ _ _ _ _ Hp) as (Hwf & Hs). rewrite <-Hs. by eapply run_refines.
Qed.

Lemma open_console_ok here cwd lines i o e n k :
  run here cwd lines (std i o e) (open_console (S n) k) = run here cwd lines (std i o e) k.
Proof.
  cbn [open_console run]. destruct (can_open _ _ _); [|done].
  replace (lowest (std i o e)) with 3 by reflexivity. cbn [Z.leb Z.compare andb Z.ltb hd do run Pos.compare Pos.compare_cont].
  replace (<[3 := File (bytes_of "console") O_RDWR]> (std i o e) !! 3) with (Some (File (bytes_of "console") O_RDWR)) by reflexivity.
  by replace (delete 3 (<[3 := File (bytes_of "console") O_RDWR]> (std i o e))) with (std i o e) by reflexivity.
Qed.

(** C6: the shell runs the session typed at it.  Given any lines and fuel for
    one more than their number, what [main] and its descendants do (which
    processes they create, what these execute with which arguments, current
    directory and descriptors, what they wait for and print) is what the
    lines mean one after the other: each line runs in a child the shell waits
    for before it reads the next, a [cd] changes the directory of the lines
    after it and of no line before, a line that does not parse is reported,
    runs nothing and does not stop the shell, and the descriptors of the shell
    itself are the same before every line. *)
Theorem shell_session n here cwd i o e lines :
  (length lines < n)%nat → Forall (λ l, (Z.to_nat (strlen l) < length l)%nat) lines →
  run here cwd lines (std i o e) (main n) = session here cwd i o e lines.
Proof.
  intros Hn Hl. unfold main. rewrite open_console_ok. revert n here cwd Hn.
  induction Hl as [|l lines Hl _ IH]; intros [|n] here cwd Hn; try (cbn in Hn; lia); [done|].
  cbn [main_loop run session hd tail]. destruct (hd 0 l =? 0); [done|]. cbn [Z.ltb Z.compare].
  rewrite main_turn_ok by done. cbn [length] in Hn. destruct (is_cd l); [destruct (can_chdir _ _)|]; by rewrite IH by lia.
Qed.
End run.

(** The lines "cd d", "ls|wc >x" and "ls )". *)
Definition ex_session : list (list Z) := [[99; 100; 32; 100; 10; 0]; ex_line; [108; 115; 32; 41; 10; 0]].
Lemma shell_session_witness :
  let io := std (Given 0) (Given 1) (Given 2) in
  run (λ _ _ _, true) (λ _ _, true) (λ _ _, true) (λ _, true) [] [] ex_session io (main 4) =
  Forks
    (Forks (Execs [[108; 115]] [[100]] (std (Given 0) (Wr [0%nat]) (Given 2)))
      (Forks (Execs [[119; 99]] [[100]] (std (Rd [0%nat]) (File [120] 1537) (Given 2)))
        (Waits io (Waits io (Ended 0)))))
    (Waits io (Forks (Prints 2 (bytes_of "leftovers: )" ++ [10; 10] ++ bytes_of "syntax" ++ [10]) (Ended 1)) (Waits io (Ended 0)))).
Proof.
  refine (shell_session (λ _ _ _, true) (λ _ _, true) (λ _ _, true) (λ _, true) 4 [] [] (Given 0) (Given 1) (Given 2) ex_session _ _).
  - cbn. lia.
  - repeat constructor.
Defined.

Lemma runcmd_refines_witness :
  let io := std (Given 0) (Given 1) (Given 2) in
  run (λ _ _ _, true) (λ _ _, true) (λ _ _, true) (λ _, true) [] [] [] io (runcmd ex_line' ex_cmd) =
  Forks (Execs [[108; 115]] [] (std (Given 0) (Wr []) (Given 2)))
    (Forks (Execs [[119; 99]] [] (std (Rd []) (File [120] 1537) (Given 2))) (Waits io (Waits io (Ended 0)))).
Proof.
  exact (proj1 (runcmd_refines (λ _ _ _, true) (λ _ _, true) (λ _ _, true) (λ _, true) ex_line ex_cmd ex_line' 0%nat 9%nat [] [] [] [] []
    (Given 0) (Given 1) (Given 2) ex_parse)).
Defined.
End Shrun.
