(* ===== verification/Vm.v ===== *)
(** kernel/vm.c: page tables and user memory.

    Physical memory is the byte map [k_mem]; page-table entries are read and
    written there.  The first part is the code; [pt_rep] then relates a
    three-level tree in memory to a finite map from virtual page numbers to
    entries, and the functions are specified against that map.

    A kernel buffer that user data is copied to or from is the list of its
    bytes: the kernel's own variables are not part of [k_mem]. *)

From S2P Require Import Prelude Mem KString Params Kernel Spinlock Kalloc.

Section vm.
Context {lnk : Linker}.

(** * The code *)

Definition rd64 (a : Z) : K Z := gets (λ s, ld64 (k_mem s) a).
Definition wr64 (a v : Z) : K unit := modify (λ s, set_k_mem (st64 (k_mem s) a v) s).
Definition do_memset (a c n : Z) : K unit := modify (λ s, set_k_mem (memset (k_mem s) a c n) s).
Definition do_memmove (d a n : Z) : K unit := modify (λ s, set_k_mem (memmove (k_mem s) d a n) s).

Definition has (v bit : Z) : bool := negb (Z.land v bit =? 0).

(** One level of [walk]: the next table, or [None] to return 0. *)
Definition walk_level (pagetable va : Z) (alloc : bool) (level : Z) : K (option Z) :=
  let pte := pagetable + 8 * PX level va in
  v <- rd64 pte ;;
  if has v PTE_V then ret (Some (PTE2PA v))
  else if negb alloc then ret None
  else
    pt <- kalloc ;;
    if pt =? 0 then ret None
    else
      do_memset pt 0 PGSIZE ;;;
      wr64 pte (Z.lor (PA2PTE pt) PTE_V) ;;;
      ret (Some pt).

Definition walk (pagetable va : Z) (alloc : bool) : K Z :=
  if MAXVA <=? va then panic "walk" else
  r <- walk_level pagetable va alloc 2 ;;
  match r with
  | None => ret 0
  | Some pt1 =>
      r <- walk_level pt1 va alloc 1 ;;
      match r with
      | None => ret 0
      | Some pt0 => ret (pt0 + 8 * PX 0 va)
      end
  end.

Definition walkaddr (pagetable va : Z) : K Z :=
  if MAXVA <=? va then ret 0 else
  pte <- walk pagetable va false ;;
  if pte =? 0 then ret 0 else
  v <- rd64 pte ;;
  if negb (has v PTE_V) then ret 0
  else if negb (has v PTE_U) then ret 0
  else ret (PTE2PA v).

Definition mappages_turn (pagetable perm last : Z) (st : Z * Z) : K (Z * Z + Z) :=
  let '(a, pa) := st in
  pte <- walk pagetable a true ;;
  if pte =? 0 then ret (inr (-1)) else
  v <- rd64 pte ;;
  if has v PTE_V then panic "remap" else
  wr64 pte (Z.lor (Z.lor (PA2PTE pa) perm) PTE_V) ;;;
  if a =? last then ret (inr 0) else ret (inl (u64 (a + PGSIZE), u64 (pa + PGSIZE))).
Definition mappages (pagetable va size pa perm : Z) : K Z :=
  loop (mappages_turn pagetable perm (PGROUNDDOWN (u64 (va + size - 1)))) (PGROUNDDOWN va, pa).

Definition kvmmap (kpgtbl va pa sz perm : Z) : K unit :=
  r <- mappages kpgtbl va sz pa perm ;;
  if negb (r =? 0) then panic "kvmmap" else ret tt.

Definition uvmunmap_turn (pagetable endva : Z) (do_free : bool) (a : Z) : K (Z + unit) :=
  if a <? endva then
    pte <- walk pagetable a false ;;
    if pte =? 0 then panic "uvmunmap: walk" else
    v <- rd64 pte ;;
    if negb (has v PTE_V) then panic "uvmunmap: not mapped" else
    if PTE_FLAGS v =? PTE_V then panic "uvmunmap: not a leaf" else
    when do_free (kfree (PTE2PA v)) ;;;
    wr64 pte 0 ;;;
    ret (inl (u64 (a + PGSIZE)))
  else ret (inr tt).
Definition uvmunmap (pagetable va npages : Z) (do_free : bool) : K unit :=
  if negb (va mod PGSIZE =? 0) then panic "uvmunmap: not aligned" else
  loop (uvmunmap_turn pagetable (u64 (va + npages * PGSIZE)) do_free) va.

Definition uvmcreate : K Z :=
  pagetable <- kalloc ;;
  if pagetable =? 0 then ret 0 else
  do_memset pagetable 0 PGSIZE ;;;
  ret pagetable.

(** [src] are the bytes of the program. *)
Definition uvminit (pagetable : Z) (src : list Z) (sz : Z) : K unit :=
  if PGSIZE <=? sz then panic "inituvm: more than a page" else
  mem <- kalloc ;;
  do_memset mem 0 PGSIZE ;;;
  mappages pagetable 0 PGSIZE mem (Z.lor (Z.lor (Z.lor PTE_W PTE_R) PTE_X) PTE_U) ;;;
  modify (λ s, set_k_mem (write_bytes (k_mem s) mem (take (Z.to_nat sz) src)) s).

Definition uvmdealloc (pagetable oldsz newsz : Z) : K Z :=
  if oldsz <=? newsz then ret oldsz else
  when (PGROUNDUP newsz <? PGROUNDUP oldsz)
    (uvmunmap pagetable (PGROUNDUP newsz) (i32 ((PGROUNDUP oldsz - PGROUNDUP newsz) / PGSIZE)) true) ;;;
  ret newsz.

Definition user_rwx : Z := Z.lor (Z.lor (Z.lor PTE_W PTE_X) PTE_R) PTE_U.

Definition uvmalloc_turn (pagetable oldsz newsz a : Z) : K (Z + Z) :=
  if a <? newsz then
    mem <- kalloc ;;
    if mem =? 0 then uvmdealloc pagetable a oldsz ;;; ret (inr 0) else
    do_memset mem 0 PGSIZE ;;;
    r <- mappages pagetable a PGSIZE mem user_rwx ;;
    if negb (r =? 0) then
      kfree mem ;;;
      uvmdealloc pagetable a oldsz ;;;
      ret (inr 0)
    else ret (inl (u64 (a + PGSIZE)))
  else ret (inr newsz).
Definition uvmalloc (pagetable oldsz newsz : Z) : K Z :=
  if newsz <? oldsz then ret oldsz else
  loop (uvmalloc_turn pagetable (PGROUNDUP oldsz) newsz) (PGROUNDUP oldsz).

(** The recursion is as deep as the tree; a well-formed one has three levels. *)
Fixpoint freewalk_fuel (fuel : nat) (pagetable : Z) : K unit :=
  match fuel with
  | O => λ _ _, Diverge
  | S fuel' =>
      for_in (seq 0 512) (λ i,
        pte <- rd64 (pagetable + 8 * Z.of_nat i) ;;
        if has pte PTE_V && (Z.land pte (Z.lor (Z.lor PTE_R PTE_W) PTE_X) =? 0) then
          freewalk_fuel fuel' (PTE2PA pte) ;;;
          wr64 (pagetable + 8 * Z.of_nat i) 0 ;;;
          ret (@None unit)
        else if has pte PTE_V then panic "freewalk: leaf"
        else ret None) ;;;
      kfree pagetable
  end.
Definition freewalk (pagetable : Z) : K unit := freewalk_fuel 8 pagetable.

Definition uvmfree (pagetable sz : Z) : K unit :=
  when (sz >? 0) (uvmunmap pagetable 0 (PGROUNDUP sz / PGSIZE) true) ;;;
  freewalk pagetable.

(** [inl] goes on, [inr] leaves the loop: success or [goto err]. *)
Definition uvmcopy_turn (old new sz i : Z) : K (Z + (Z * bool)) :=
  if i <? sz then
    pte <- walk old i false ;;
    if pte =? 0 then panic "uvmcopy: pte should exist" else
    v <- rd64 pte ;;
    if negb (has v PTE_V) then panic "uvmcopy: page not present" else
    let pa := PTE2PA v in
    let flags := PTE_FLAGS v in
    mem <- kalloc ;;
    if mem =? 0 then ret (inr (i, false)) else
    do_memmove mem pa PGSIZE ;;;
    r <- mappages new i PGSIZE mem flags ;;
    if negb (r =? 0) then kfree mem ;;; ret (inr (i, false))
    else ret (inl (u64 (i + PGSIZE)))
  else ret (inr (i, true)).
Definition uvmcopy (old new sz : Z) : K Z :=
  r <- loop (uvmcopy_turn old new sz) 0 ;;
  let '(i, done) := r in
  if done then ret 0
  else uvmunmap new 0 (i / PGSIZE) true ;;; ret (-1).

Definition uvmclear (pagetable va : Z) : K unit :=
  pte <- walk pagetable va false ;;
  if pte =? 0 then panic "uvmclear" else
  v <- rd64 pte ;;
  wr64 pte (Z.land v (Z.lnot PTE_U)).

(** [src] are the bytes to copy, [len] of them. *)
Definition copyout_turn (pagetable : Z) (st : Z * list Z) : K (Z * list Z + Z) :=
  let '(dstva, src) := st in
  let len := Z.of_nat (length src) in
  if len >? 0 then
    let va0 := PGROUNDDOWN dstva in
    pa0 <- walkaddr pagetable va0 ;;
    if pa0 =? 0 then ret (inr (-1)) else
    let n := Z.min (PGSIZE - (dstva - va0)) len in
    modify (λ s, set_k_mem (write_bytes (k_mem s) (pa0 + (dstva - va0)) (take (Z.to_nat n) src)) s) ;;;
    ret (inl (u64 (va0 + PGSIZE), drop (Z.to_nat n) src))
  else ret (inr 0).
Definition copyout (pagetable dstva : Z) (src : list Z) : K Z :=
  loop (copyout_turn pagetable) (dstva, src).

(** The bytes copied so far and what is left to copy; the result is the status
    and the bytes. *)
Definition copyin_turn (pagetable : Z) (st : Z * Z * list Z) : K (Z * Z * list Z + Z * list Z) :=
  let '(srcva, len, dst) := st in
  if len >? 0 then
    let va0 := PGROUNDDOWN srcva in
    pa0 <- walkaddr pagetable va0 ;;
    if pa0 =? 0 then ret (inr (-1, dst)) else
    let n := Z.min (PGSIZE - (srcva - va0)) len in
    bs <- gets (λ s, read_bytes (k_mem s) (pa0 + (srcva - va0)) (Z.to_nat n)) ;;
    ret (inl (u64 (va0 + PGSIZE), len - n, dst ++ bs))
  else ret (inr (0, dst)).
Definition copyin (pagetable srcva len : Z) : K (Z * list Z) :=
  loop (copyin_turn pagetable) (srcva, len, []).

(** The inner loop of [copyinstr]: at most [n] bytes from [p]; the bytes
    stored and whether a NUL was among them. *)
Fixpoint copy_until_nul (m : mem) (p : Z) (n : nat) : list Z * bool :=
  match n with
  | O => ([], false)
  | S n' =>
      if ldb m p =? 0 then ([0], true)
      else let '(bs, b) := copy_until_nul m (p + 1) n' in (ldb m p :: bs, b)
  end.
Definition copyinstr_turn (pagetable : Z) (st : Z * Z * list Z * bool) :
    K (Z * Z * list Z * bool + Z * list Z) :=
  let '(srcva, max, dst, got_null) := st in
  if negb got_null && (max >? 0) then
    let va0 := PGROUNDDOWN srcva in
    pa0 <- walkaddr pagetable va0 ;;
    if pa0 =? 0 then ret (inr (-1, dst)) else
    let n := Z.min (PGSIZE - (srcva - va0)) max in
    r <- gets (λ s, copy_until_nul (k_mem s) (pa0 + (srcva - va0)) (Z.to_nat n)) ;;
    let '(bs, nul) := r in
    let copied := if nul then Z.of_nat (length bs) - 1 else Z.of_nat (length bs) in
    ret (inl (u64 (va0 + PGSIZE), max - copied, dst ++ bs, nul))
  else ret (inr (if got_null then 0 else -1, dst)).
Definition copyinstr (pagetable srcva max : Z) : K (Z * list Z) :=
  loop (copyinstr_turn pagetable) (srcva, max, [], false).

(** The kernel's own page table; [proc_mapstacks] is in kernel/proc.c. *)
Definition kvmmake (proc_mapstacks : Z → K unit) : K Z :=
  kpgtbl <- kalloc ;;
  do_memset kpgtbl 0 PGSIZE ;;;
  kvmmap kpgtbl UART0 UART0 PGSIZE (Z.lor PTE_R PTE_W) ;;;
  kvmmap kpgtbl VIRTIO0 VIRTIO0 PGSIZE (Z.lor PTE_R PTE_W) ;;;
  kvmmap kpgtbl PLIC PLIC 0x400000 (Z.lor PTE_R PTE_W) ;;;
  kvmmap kpgtbl KERNBASE KERNBASE (etext - KERNBASE) (Z.lor PTE_R PTE_X) ;;;
  kvmmap kpgtbl etext etext (PHYSTOP - etext) (Z.lor PTE_R PTE_W) ;;;
  kvmmap kpgtbl TRAMPOLINE trampoline PGSIZE (Z.lor PTE_R PTE_X) ;;;
  proc_mapstacks kpgtbl ;;;
  ret kpgtbl.
Definition kvminit (proc_mapstacks : Z → K unit) : K unit :=
  kpt <- kvmmake proc_mapstacks ;; modify (set_k_kpt kpt).

(** * Page tables as maps *)

(** The nodes of the tree, by level and index: node [(l, k)] covers the
    virtual addresses whose bits above [21 + 9 l] are [k].  The map takes a
    virtual page number to its entry. *)
Record ptree : Type := mkPtree {
  pt_root : Z;
  pt_nodes : gmap (Z * Z) Z;
  pt_map : gmap Z Z
}.

Definition node_pte (o : option Z) : Z :=
  match o with Some p => Z.lor (PA2PTE p) PTE_V | None => 0 end.

(** Entry [k] of level [l]. *)
Definition pt_entry (T : ptree) (l k : Z) : Z :=
  if l =? 0 then default 0 (pt_map T !! k) else node_pte (pt_nodes T !! (l - 1, k)).

Definition pt_pages (T : ptree) : list Z := (map_to_list (pt_nodes T)).*2.

Record pt_rep (m : mem) (T : ptree) : Prop := {
  rep_root : pt_nodes T !! (2, 0) = Some (pt_root T);
  rep_slots l k p j : pt_nodes T !! (l, k) = Some p → 0 ≤ j < 512 →
    ld64 m (p + 8 * j) = pt_entry T l (512 * k + j);
  rep_parent l k p : pt_nodes T !! (l, k) = Some p → l ≠ 2 → is_Some (pt_nodes T !! (l + 1, k / 512));
  rep_keys l k p : pt_nodes T !! (l, k) = Some p → 0 ≤ l ≤ 2 ∧ 0 ≤ k ∧ (l = 2 → k = 0);
  rep_leaf k v : pt_map T !! k = Some v →
    has v PTE_V = true ∧ 0 ≤ v < 2 ^ 64 ∧ is_Some (pt_nodes T !! (0, k / 512));
  rep_pages : Forall page_ok (pt_pages T);
  rep_nodup : NoDup (pt_pages T)
}.

Context {lnk_ok : LinkerOk lnk}.

Lemma pte_range p fl : page_ok p → 0 ≤ fl < 1024 → 0 ≤ Z.lor (PA2PTE p) fl < 2 ^ 64.
Proof.
  intros Hp Hfl. pose proof (page_ok_pos p Hp) as Hpos. unfold PHYSTOP, KERNBASE, PGSIZE in *.
  change (2 ^ 64) with 18446744073709551616 in *.
  rewrite PTE_pack by (change (2 ^ 64) with 18446744073709551616; lia).
  pose proof (Z_div_mod_eq_full p 4096). pose proof (Z.mod_pos_bound p 4096). lia.
Qed.

Lemma elem_of_pt_pages T p : p ∈ pt_pages T ↔ ∃ l k, pt_nodes T !! (l, k) = Some p.
Proof.
  unfold pt_pages. rewrite list_elem_of_fmap. split.
  - intros ([[l k] q] & -> & H%elem_of_map_to_list). by exists l, k.
  - intros (l & k & H). exists ((l, k), p). by rewrite elem_of_map_to_list.
Qed.

Lemma nodes_inj m T a b p :
  pt_rep m T → pt_nodes T !! a = Some p → pt_nodes T !! b = Some p → a = b.
Proof.
  intros H Ha%elem_of_map_to_list Hb%elem_of_map_to_list. pose proof (rep_nodup _ _ H) as Hnd.
  apply list_elem_of_lookup in Ha as [i Hi], Hb as [j Hj].
  assert (i = j) as <-; [|congruence].
  apply (NoDup_lookup (pt_pages T) i j p Hnd); unfold pt_pages; rewrite list_lookup_fmap;
    [by rewrite Hi|by rewrite Hj].
Qed.

Lemma node_page m T l k p : pt_rep m T → pt_nodes T !! (l, k) = Some p → page_ok p.
Proof.
  intros H Hp. pose proof (rep_pages _ _ H) as HF. rewrite Forall_forall in HF. apply HF.
  apply elem_of_pt_pages. eauto.
Qed.

(** Only the bytes of the tree's own pages matter. *)
Lemma pt_rep_ext m m' T :
  (∀ p x, p ∈ pt_pages T → p ≤ x < p + PGSIZE → ldb m' x = ldb m x) → pt_rep m T → pt_rep m' T.
Proof.
  intros Hext [H1 H2 H3 H4 H5 H6 H7]. split; [done| |done..].
  intros l k p j Hp Hj. rewrite <-(H2 l k p j Hp Hj). apply ld64_ext. intros x Hx.
  apply (Hext p); [apply elem_of_pt_pages; eauto|]. unfold PGSIZE. lia.
Qed.

(** Writing outside the tree. *)
Lemma pt_rep_frame m m' T ps :
  (∀ x, outside ps x → ldb m' x = ldb m x) → Forall page_ok ps →
  (∀ p, p ∈ pt_pages T → p ∉ ps) → pt_rep m T → pt_rep m' T.
Proof.
  intros Hext Hps Hd H. apply (pt_rep_ext m); [|done]. intros p x Hp Hx. apply Hext.
  intros q Hq. rewrite Forall_forall in Hps. pose proof (rep_pages _ _ H) as HF.
  rewrite Forall_forall in HF. destruct (pages_apart p q (HF p Hp) (Hps q Hq)); [|lia..].
  intros ->. by eapply Hd.
Qed.

(** Two slots of the tree are the same one or do not overlap. *)
Lemma slots_apart m T a b p q i j :
  pt_rep m T → pt_nodes T !! a = Some p → pt_nodes T !! b = Some q →
  0 ≤ i < 512 → 0 ≤ j < 512 → (a, i) ≠ (b, j) →
  p + 8 * i + 8 ≤ q + 8 * j ∨ q + 8 * j + 8 ≤ p + 8 * i.
Proof.
  intros H Ha Hb Hi Hj Hne. destruct (decide (p = q)) as [<-|Hpq].
  - rewrite (nodes_inj m T a b p H Ha Hb) in Hne. assert (i ≠ j) by congruence. lia.
  - destruct a, b. pose proof (node_page _ _ _ _ _ H Ha) as H1. pose proof (node_page _ _ _ _ _ H Hb) as H2.
    destruct (pages_apart p q H1 H2 Hpq); unfold PGSIZE in *; lia.
Qed.

Definition set_leaf (T : ptree) (k : Z) (v : option Z) : ptree :=
  mkPtree (pt_root T) (pt_nodes T) (partial_alter (λ _, v) k (pt_map T)).

(** Changing one entry of the lowest level. *)
Lemma pt_rep_set_leaf m T q k v :
  pt_rep m T → pt_nodes T !! (0, k / 512) = Some q →
  (∀ x, v = Some x → has x PTE_V = true ∧ 0 ≤ x < 2 ^ 64) →
  pt_rep (st64 m (q + 8 * (k mod 512)) (default 0 v)) (set_leaf T k v).
Proof.
  intros H Hq Hv. pose proof (Z.mod_pos_bound k 512). pose proof (Z_div_mod_eq_full k 512) as Hdm.
  split; [apply H| |apply H|apply H| |apply H|apply H]; cbn [set_leaf pt_nodes pt_map].
  - intros l i p j Hp Hj. destruct (decide ((l, i, j) = (0, k / 512, k mod 512))) as [[= -> -> ->]|Hne].
    + rewrite Hq in Hp. injection Hp as <-. rewrite ld64_st64_eq. unfold pt_entry. cbn [Z.eqb pt_map set_leaf].
      rewrite <-Hdm, lookup_partial_alter_eq. unfold u64. destruct v as [x|]; cbn [default]; [|done].
      apply Z.mod_small, (Hv x). done.
    + rewrite ld64_st64_ne.
      2: { eapply (slots_apart m T (l, i) (0, k / 512)); [done..|lia|congruence]. }
      rewrite (rep_slots _ _ H l i p j) by done. unfold pt_entry. destruct (Z.eqb_spec l 0) as [->|]; [|done].
      cbn [set_leaf pt_map]. rewrite lookup_partial_alter_ne; [done|]. intros Hk. apply Hne.
      rewrite Hk. f_equal; [f_equal|]; [|rewrite Z.mul_comm, Z.add_comm, Z.mod_add, Z.mod_small by lia; done].
      rewrite Z.mul_comm, Z.div_add_l, Z.div_small by lia. lia.
  - intros i x. destruct (decide (i = k)) as [->|Hne].
    + rewrite lookup_partial_alter_eq. intros Hx. destruct (Hv x Hx). eauto.
    + rewrite lookup_partial_alter_ne by done. apply (rep_leaf _ _ H).
Qed.

Definition add_node (T : ptree) (l k p : Z) : ptree :=
  mkPtree (pt_root T) (<[(l, k) := p]> (pt_nodes T)) (pt_map T).

Lemma pt_pages_add T l k p :
  pt_nodes T !! (l, k) = None → pt_pages (add_node T l k p) ≡ₚ p :: pt_pages T.
Proof. intros Hk. unfold pt_pages. cbn [add_node pt_nodes]. by rewrite map_to_list_insert by done. Qed.

Lemma ld64_zero m p n a : p ≤ a → a + 8 ≤ p + n → ld64 (memset m p 0 n) a = 0.
Proof.
  intros. apply ld64_all_zero. intros x Hx. by rewrite ldb_memset, decide_True by lia.
Qed.

(** Hanging a fresh, zeroed page below a node. *)
Lemma pt_rep_add_node m T q l k p :
  pt_rep m T → 0 ≤ l < 2 → 0 ≤ k → pt_nodes T !! (l + 1, k / 512) = Some q →
  pt_nodes T !! (l, k) = None → page_ok p → p ∉ pt_pages T →
  pt_rep (st64 (memset m p 0 PGSIZE) (q + 8 * (k mod 512)) (Z.lor (PA2PTE p) PTE_V)) (add_node T l k p).
Proof.
  intros H Hl Hk0 Hq Hk Hp Hnin. pose proof (Z.mod_pos_bound k 512). pose proof (Z_div_mod_eq_full k 512) as Hdm.
  pose proof (page_ok_pos p Hp) as Hpos.
  assert (Hu : u64 (Z.lor (PA2PTE p) PTE_V) = Z.lor (PA2PTE p) PTE_V).
  { apply Z.mod_small, pte_range; [done|by vm_compute]. }
  assert (Hm : pt_rep (memset m p 0 PGSIZE) T).
  { apply (pt_rep_frame m _ T [p]); [| | |done].
    - intros x Hx. rewrite ldb_memset, decide_False; [done|]. destruct (Hx p); [constructor|lia|lia].
    - by constructor.
    - intros x Hx ->%list_elem_of_singleton. done. }
  assert (Hqp : q ∈ pt_pages T) by (apply elem_of_pt_pages; eauto).
  assert (Hap : q + PGSIZE ≤ p ∨ p + PGSIZE ≤ q).
  { apply pages_apart; [by eapply node_page|done|]. intros ->. done. }
  split; cbn [add_node pt_nodes pt_map pt_root].
  - rewrite lookup_insert_ne by (intros [= ? ?]; lia). apply H.
  - intros l' k' p' j Hp' Hj. unfold pt_entry. cbn [add_node pt_nodes pt_map].
    rewrite lookup_insert in Hp'. case_decide as Hlk.
    + injection Hlk as <- <-. injection Hp' as <-. unfold PGSIZE in *.
      rewrite ld64_st64_ne, ld64_zero by lia.
      destruct (Z.eqb_spec l 0) as [->|Hl0].
      * destruct (pt_map T !! (512 * k + j)) as [v|] eqn:Hv; [|done].
        apply (rep_leaf _ _ H) in Hv as (_ & _ & Hs).
        rewrite Z.mul_comm, Z.div_add_l, Z.div_small, Z.add_0_r, Hk in Hs by lia. by destruct Hs.
      * rewrite lookup_insert_ne by (intros [= ? ?]; lia).
        destruct (pt_nodes T !! (l - 1, 512 * k + j)) as [v|] eqn:Hv; [|done].
        apply (rep_parent _ _ H) in Hv as Hs; [|lia].
        rewrite Z.mul_comm, Z.div_add_l, Z.div_small, Z.add_0_r, Z.sub_add, Hk in Hs by lia. by destruct Hs.
    + destruct (decide ((l', k', j) = (l + 1, k / 512, k mod 512))) as [[= -> -> ->]|Hne].
      * rewrite Hq in Hp'. injection Hp' as <-. rewrite ld64_st64_eq, Hu.
        destruct (Z.eqb_spec (l + 1) 0); [lia|]. rewrite Z.add_simpl_r, <-Hdm, lookup_insert_eq. done.
      * rewrite ld64_st64_ne.
        2: { eapply (slots_apart m T (l', k') (l + 1, k / 512)); [done..|lia|congruence]. }
        rewrite (rep_slots _ _ Hm l' k' p' j) by done. unfold pt_entry.
        destruct (Z.eqb_spec l' 0); [done|]. rewrite lookup_insert_ne; [done|]. intros [= -> ->].
        apply Hne. f_equal; [f_equal|]; [lia| |].
        -- rewrite Z.mul_comm, Z.div_add_l, Z.div_small by lia. lia.
        -- rewrite Z.mul_comm, Z.add_comm, Z.mod_add, Z.mod_small by lia. done.
  - intros l' k' p' Hp' Hl'. rewrite lookup_insert_is_Some. rewrite lookup_insert in Hp'. case_decide as Hlk.
    + injection Hlk as <- <-. right. split; [intros [= ? ?]; lia|eauto].
    + right. apply (rep_parent _ _ H) in Hp'; [|done]. split; [|done].
      intros [= -> ->]. rewrite Hk in Hp'. by destruct Hp'.
  - intros l' k' p' Hp'. rewrite lookup_insert in Hp'. case_decide as Hlk; [|by eapply (rep_keys _ _ H)].
    injection Hlk as <- <-. lia.
  - intros k' v Hv. apply (rep_leaf _ _ H) in Hv as (? & ? & ?). split_and!; [done|lia|lia|].
    rewrite lookup_insert_is_Some. destruct (decide ((l, k) = (0, k' / 512))); [by left|by right].
  - rewrite pt_pages_add by done. constructor; [done|apply H].
  - rewrite pt_pages_add by done. constructor; [done|apply H].
Qed.
(** * The address space and the allocator *)

(** Everything but the lock state, the free list and memory is as before. *)
Definition vm_frame (s s' : kstate) : Prop :=
  ∃ c h m, s' = set_k_core c (set_k_freelist h (set_k_mem m s)).

Lemma vm_frame_refl s : vm_frame s s.
Proof. exists (k_core s), (k_freelist s), (k_mem s). by destruct s. Qed.

Lemma vm_frame_trans s1 s2 s3 : vm_frame s1 s2 → vm_frame s2 s3 → vm_frame s1 s3.
Proof. intros (c & h & m & ->) (c' & h' & m' & ->). exists c', h', m'. kstate_eq. Qed.

Lemma vm_frame_mem m s : vm_frame s (set_k_mem m s).
Proof. exists (k_core s), (k_freelist s), m. by destruct s. Qed.

(** The contents of some pages are as before. *)
Definition kept (ps : list Z) (m m' : mem) : Prop :=
  ∀ p x, p ∈ ps → p ≤ x < p + PGSIZE → ldb m' x = ldb m x.

Lemma kept_refl ps m : kept ps m m.
Proof. by intros ??. Qed.

Lemma kept_trans ps m1 m2 m3 : kept ps m1 m2 → kept ps m2 m3 → kept ps m1 m3.
Proof. intros H1 H2 p x Hp Hx. rewrite (H2 p x), (H1 p x) by done. done. Qed.

Lemma kept_sub ps qs m m' : ps ⊆ qs → kept qs m m' → kept ps m m'.
Proof. intros Hs H p x Hp. apply H, Hs, Hp. Qed.

(** Writing in one page keeps the others. *)
Lemma kept_write ps p m m' :
  page_ok p → Forall page_ok ps → p ∉ ps →
  (∀ x, x < p ∨ p + PGSIZE ≤ x → ldb m' x = ldb m x) → kept ps m m'.
Proof.
  intros Hp Hps Hnin H q x Hq Hx. rewrite Forall_forall in Hps. apply H.
  destruct (pages_apart p q Hp (Hps q Hq)); [|lia..]. by intros ->.
Qed.

(** The pages of RAM are divided between the tree [T], the pages [own] that
    other parts of the kernel own, and the free list [l]. *)
Record vm_inv (t : thread) (L : list lockid) (T : ptree) (own l : list Z) (s : kstate) : Prop := {
  vi_ctx : ctx t L (k_core s);
  vi_kmem : L_kmem ∉ L;
  vi_rep : pt_rep (k_mem s) T;
  vi_free : kmem_inv (k_mem s) (k_freelist s) l;
  vi_nodup : NoDup (pt_pages T ++ own ++ l);
  vi_own : Forall page_ok own
}.

Lemma vi_page t L T own l s p : vm_inv t L T own l s → p ∈ own → page_ok p.
Proof. intros H. pose proof (vi_own _ _ _ _ _ _ H) as HF. rewrite Forall_forall in HF. apply HF. Qed.

Lemma vi_apart t L T own l s p :
  vm_inv t L T own l s → p ∈ own → (p ∉ pt_pages T) ∧ p ∉ l.
Proof.
  intros H Hp. pose proof (vi_nodup _ _ _ _ _ _ H) as Hnd.
  apply NoDup_app in Hnd as (_ & H1 & (_ & H2 & _)%NoDup_app). split; [|by apply H2].
  intros Hq. apply (H1 p Hq). set_solver.
Qed.

Lemma vm_inv_write t L T own l s p m' :
  vm_inv t L T own l s → p ∈ own →
  (∀ x, x < p ∨ p + PGSIZE ≤ x → ldb m' x = ldb (k_mem s) x) →
  vm_inv t L T own l (set_k_mem m' s).
Proof.
  intros H Hp Hm. pose proof (vi_apart _ _ _ _ _ _ p H Hp) as [H1 H2].
  pose proof (vi_page _ _ _ _ _ _ p H Hp) as Hpg. split; try apply H.
  - eapply (pt_rep_frame (k_mem s) _ T [p]); [|by constructor| |apply H].
    + intros x Hx. apply Hm, Hx. constructor.
    + by intros q Hq ->%list_elem_of_singleton.
  - by eapply kmem_inv_write; [exact Hpg|exact H2|exact Hm|apply H].
Qed.

(** The order in which the pages are listed does not matter, and ownership can
    be relabelled. *)
Lemma vm_inv_own t L T own own' l s : own ≡ₚ own' → vm_inv t L T own l s → vm_inv t L T own' l s.
Proof.
  intros HP [? ? ? ? ? ?]. split; [done..| |]; by rewrite <-HP.
Qed.

(** [kalloc] in an address space. *)
Lemma vm_kalloc t L T own l e s :
  vm_inv t L T own l s →
  ∃ r s', kalloc e s = Ret r e s' ∧ vm_frame s s' ∧ kept (pt_pages T ++ own) (k_mem s) (k_mem s') ∧
    match l with
    | [] => r = 0 ∧ vm_inv t L T own [] s'
    | p :: l' => r = p ∧ r ≠ 0 ∧ vm_inv t L T (p :: own) l' s'
    end.
Proof.
  intros H. destruct l as [|p l].
  - destruct (kalloc_empty t L e s) as (c & Hr & Hc); [apply H..|].
    exists 0, (set_k_core c s). split_and!; [done| |done|done|].
    + exists c, (k_freelist s), (k_mem s). by destruct s.
    + destruct H. by split.
  - destruct (kalloc_ok t L l p e s) as (c & m & h & Hr & Hc & Hi & Hm & Hp & Hnin); [apply H..|].
    pose proof (vi_nodup _ _ _ _ _ _ H) as Hnd. rewrite <-Permutation_middle, <-Permutation_middle in Hnd.
    apply NoDup_cons in Hnd as [Hn Hnd].
    assert (Hk : ∀ x, x < p ∨ p + PGSIZE ≤ x → ldb m x = ldb (k_mem s) x).
    { intros x Hx. by rewrite Hm, ldb_memset, decide_False by lia. }
    exists p, (set_k_core c (set_k_freelist h (set_k_mem m s))). split_and!; [done|by eexists _, _, _| |done| |].
    + eapply kept_write; [exact Hp| |set_solver|exact Hk].
      apply Forall_app. split; [apply (vi_rep _ _ _ _ _ _ H)|apply H].
    + apply page_ok_pos in Hp. lia.
    + split; [exact Hc|apply H| |exact Hi| |by constructor; [|apply H]].
      * eapply (pt_rep_frame (k_mem s) _ T [p]); [|by constructor| |apply H].
        -- intros x Hx. apply Hk, Hx. constructor.
        -- intros q Hq ->%list_elem_of_singleton. set_solver.
      * cbn [app]. rewrite <-Permutation_middle. by constructor.
Qed.

(** [kfree] of an owned page. *)
Lemma vm_kfree t L T own own' l e s p :
  vm_inv t L T own l s → own ≡ₚ p :: own' →
  ∃ s', kfree p e s = Ret tt e s' ∧ vm_frame s s' ∧ kept (pt_pages T ++ own') (k_mem s) (k_mem s') ∧
    vm_inv t L T own' (p :: l) s'.
Proof.
  intros H HP. apply (vm_inv_own _ _ _ _ _ _ _ HP) in H. clear HP own.
  destruct (vi_apart _ _ _ _ _ _ p H) as [H1 H2]; [constructor|].
  assert (Hpg : page_ok p) by (eapply vi_page; [exact H|constructor]).
  pose proof (vi_nodup _ _ _ _ _ _ H) as Hnd. cbn [app] in Hnd. rewrite <-Permutation_middle in Hnd.
  pose proof (vi_own _ _ _ _ _ _ H) as Hown. apply Forall_cons in Hown as [_ Hown].
  assert (Hno : p ∉ own') by (apply NoDup_cons in Hnd as [? _]; set_solver).
  destruct (kfree_ok t L l p e s) as (c & Hr & Hc); [apply H|apply H|apply H|done|done|].
  eexists. split_and!; [exact Hr|by eexists _, _, _| |].
  - eapply kept_write; [exact Hpg| |set_solver|apply ldb_kfree_mem].
    apply Forall_app. split; [apply (vi_rep _ _ _ _ _ _ H)|done].
  - split; [exact Hc|apply H| | | |done].
    + eapply (pt_rep_frame (k_mem s) _ T [p]); [|by constructor| |apply H].
      * intros x Hx. apply ldb_kfree_mem, Hx. constructor.
      * by intros q Hq ->%list_elem_of_singleton.
    + apply kfree_inv; [apply H|done|done].
    + by rewrite app_assoc, <-Permutation_middle, <-app_assoc.
Qed.

(** * Walking *)

Definition vpn (va : Z) : Z := va / PGSIZE.
(** The index of the node of level [l] on the path to [va]. *)
Definition key (l va : Z) : Z := va / 2 ^ (21 + 9 * l).

Lemma key_S l va : 0 ≤ l → 0 ≤ va → key (l + 1) va = key l va / 512.
Proof.
  intros. unfold key. change 512 with (2 ^ 9). rewrite Z.div_div by lia. rewrite <-Z.pow_add_r by lia.
  do 2 f_equal. lia.
Qed.

Lemma key_PX l va : 0 ≤ l → 0 ≤ va < MAXVA → PX (l + 1) va = key l va mod 512.
Proof.
  intros Hl Hva. change MAXVA with 274877906944 in Hva. rewrite PX_spec; [|lia|].
  - unfold key, PXSHIFT, PGSHIFT. do 3 f_equal. lia.
  - change (2 ^ 64) with 18446744073709551616. lia.
Qed.

Lemma key_0 va : key 0 va = vpn va / 512.
Proof. unfold key, vpn, PGSIZE. by rewrite Z.div_div by lia. Qed.

Lemma PX_0 va : 0 ≤ va < MAXVA → PX 0 va = vpn va mod 512.
Proof.
  intros Hva. change MAXVA with 274877906944 in Hva. rewrite PX_spec; [done|lia|].
  change (2 ^ 64) with 18446744073709551616. lia.
Qed.

Lemma key_2 va : 0 ≤ va < MAXVA → key 2 va = 0.
Proof. intros Hva. change MAXVA with 274877906944 in Hva. unfold key. apply Z.div_small.
  change (2 ^ (21 + 9 * 2)) with 549755813888. lia. Qed.

Lemma key_pos l va : 0 ≤ l → 0 ≤ va → 0 ≤ key l va.
Proof. intros. apply Z.div_pos; [done|]. apply Z.pow_pos_nonneg; lia. Qed.

Lemma has_node p : page_ok p → has (node_pte (Some p)) PTE_V = true.
Proof.
  intros Hp. pose proof (page_ok_pos p Hp). unfold PHYSTOP, KERNBASE, PGSIZE in *.
  unfold has. cbn [node_pte]. rewrite Z.land_comm, Z.land_lor_distr_r.
  destruct (Z.eqb_spec (Z.lor (Z.land PTE_V (PA2PTE p)) (Z.land PTE_V PTE_V)) 0) as [Hz|]; [|done].
  apply Z.lor_eq_0_iff in Hz as [_ Hz]. done.
Qed.

Lemma PTE2PA_node p : page_ok p → PTE2PA (node_pte (Some p)) = p.
Proof.
  intros Hp. pose proof (page_ok_pos p Hp). destruct Hp as [Hal _]. unfold PHYSTOP, KERNBASE, PGSIZE in *.
  cbn [node_pte]. apply PTE2PA_pack; [|done|by vm_compute].
  change (2 ^ 56) with 72057594037927936. lia.
Qed.

(** The slot a node of the path holds for [va]. *)
Lemma slot_value m T l va q :
  pt_rep m T → 0 ≤ l → 0 ≤ va < MAXVA → pt_nodes T !! (l + 1, key (l + 1) va) = Some q →
  ld64 m (q + 8 * PX (l + 1) va) = node_pte (pt_nodes T !! (l, key l va)).
Proof.
  intros H Hl Hva Hq. rewrite key_PX, (rep_slots _ _ H _ _ _ (key l va mod 512) Hq) by (done || apply Z.mod_pos_bound; lia).
  rewrite key_S by lia. rewrite <-(Z_div_mod_eq_full (key l va) 512). unfold pt_entry.
  destruct (Z.eqb_spec (l + 1) 0); [lia|]. by rewrite Z.add_simpl_r.
Qed.

Lemma leaf_value m T va q :
  pt_rep m T → 0 ≤ va < MAXVA → pt_nodes T !! (0, key 0 va) = Some q →
  ld64 m (q + 8 * PX 0 va) = default 0 (pt_map T !! vpn va).
Proof.
  intros H Hva Hq. rewrite PX_0, (rep_slots _ _ H _ _ _ (vpn va mod 512) Hq) by (done || apply Z.mod_pos_bound; lia).
  by rewrite key_0, <-(Z_div_mod_eq_full (vpn va) 512).
Qed.

Lemma walk_level_present T l va alloc q p e s :
  pt_rep (k_mem s) T → 0 ≤ l → 0 ≤ va < MAXVA → pt_nodes T !! (l + 1, key (l + 1) va) = Some q →
  pt_nodes T !! (l, key l va) = Some p →
  walk_level q va alloc (l + 1) e s = Ret (Some p) e s.
Proof.
  intros H Hl Hva Hq Hp. unfold walk_level, rd64. mstep.
  rewrite (slot_value _ T) by done. rewrite Hp. pose proof (node_page _ _ _ _ _ H Hp) as Hpg.
  rewrite has_node, PTE2PA_node by done. done.
Qed.

(** The address of the entry of [va], or 0. *)
Definition pte_addr (T : ptree) (va : Z) : Z :=
  match pt_nodes T !! (0, key 0 va) with Some q => q + 8 * PX 0 va | None => 0 end.

Lemma walk_lookup T va e s :
  pt_rep (k_mem s) T → 0 ≤ va < MAXVA → walk (pt_root T) va false e s = Ret (pte_addr T va) e s.
Proof.
  intros H Hva. unfold walk. rewrite (proj2 (Z.leb_gt _ _)) by lia.
  assert (H2 : pt_nodes T !! (1 + 1, key (1 + 1) va) = Some (pt_root T)).
  { rewrite key_2 by done. apply H. }
  unfold pte_addr. destruct (pt_nodes T !! (1, key 1 va)) as [p1|] eqn:H1.
  - mrun (walk_level_present T 1 va false _ p1 e s H ltac:(lia) Hva H2 H1).
    destruct (pt_nodes T !! (0, key 0 va)) as [p0|] eqn:H0.
    + by mrun (walk_level_present T 0 va false _ p0 e s H ltac:(lia) Hva H1 H0).
    + unfold walk_level, rd64. mstep. rewrite (slot_value _ T 0) by done. by rewrite H0.
  - destruct (pt_nodes T !! (0, key 0 va)) as [p0|] eqn:H0.
    { apply (rep_parent _ _ H) in H0; [|done]. rewrite <-key_S in H0 by lia. change (0 + 1) with 1 in H0. rewrite H1 in H0. by destruct H0. }
    unfold walk_level, rd64. mstep. rewrite (slot_value _ T 1) by done. by rewrite H1.
Qed.

End vm.
