(* ===== verification/Uvm.v ===== *)
(** Specifications of the rest of kernel/vm.c against the map of [pt_rep]:
    growing the tree, mapping and unmapping pages. *)

From S2P Require Import Prelude Mem KString Params Kernel Spinlock Kalloc Vm.

Section uvm.
Context {lnk : Linker} {lnk_ok : LinkerOk lnk}.

(** The tree may have taken pages from the free list; the pages of [own] are
    untouched. *)
Record vm_grown (t : thread) (L : list lockid) (own : list Z)
    (T : ptree) (l : list Z) (s : kstate) (T' : ptree) (l' : list Z) (s' : kstate) : Prop := {
  gr_frame : vm_frame s s';
  gr_inv : vm_inv t L T' own l' s';
  gr_root : pt_root T' = pt_root T;
  gr_pages : pt_pages T' ++ l' ≡ₚ pt_pages T ++ l;
  gr_kept : kept own (k_mem s) (k_mem s');
  gr_nodes : pt_nodes T ⊆ pt_nodes T'
}.

Lemma vm_grown_refl t L own T l s : vm_inv t L T own l s → vm_grown t L own T l s T l s.
Proof. intros H. split; [apply vm_frame_refl|done|done|done|apply kept_refl|done]. Qed.

Lemma vm_grown_trans t L own T l s T1 l1 s1 T2 l2 s2 :
  vm_grown t L own T l s T1 l1 s1 → vm_grown t L own T1 l1 s1 T2 l2 s2 →
  vm_grown t L own T l s T2 l2 s2.
Proof.
  intros [A1 A2 A3 A4 A5 A6] [B1 B2 B3 B4 B5 B6]. split.
  - by eapply vm_frame_trans.
  - done.
  - congruence.
  - by rewrite B4.
  - by eapply kept_trans.
  - by etransitivity.
Qed.

Lemma kmem_inv_kept m m' h l : kept l m m' → kmem_inv m h l → kmem_inv m' h l.
Proof.
  intros Hk [H1 H2 H3]. split; [|done|done]. eapply is_freelist_ext; [|exact H1].
  intros p x Hp Hx. symmetry. apply (Hk p); [done|]. unfold PGSIZE. lia.
Qed.

(** A store into a slot of the tree keeps every page outside it. *)
Lemma kept_slot m T ps a q j v :
  pt_rep m T → Forall page_ok ps → (∀ p, p ∈ ps → p ∉ pt_pages T) →
  pt_nodes T !! a = Some q → 0 ≤ j < 512 → kept ps m (st64 m (q + 8 * j) v).
Proof.
  intros H Hps Hd Hq Hj. destruct a as [l k]. pose proof (node_page _ _ _ _ _ H Hq) as Hqp.
  eapply (kept_write ps q); [done|done| |].
  - intros Hin. apply (Hd q Hin). apply elem_of_pt_pages. eauto.
  - intros x Hx. unfold PGSIZE in *. apply ldb_st64_ne. lia.
Qed.

Lemma kept_memset ps p c m :
  page_ok p → Forall page_ok ps → p ∉ ps → kept ps m (memset m p c PGSIZE).
Proof.
  intros Hp Hps Hn. eapply (kept_write ps p); [done..|].
  intros x Hx. by rewrite ldb_memset, decide_False by lia.
Qed.

Lemma vi_lists t L T own l s :
  vm_inv t L T own l s →
  Forall page_ok (own ++ l) ∧ (∀ p, p ∈ own ++ l → p ∉ pt_pages T).
Proof.
  intros H. split.
  - apply Forall_app. split; [apply H|apply (vi_free _ _ _ _ _ _ H)].
  - intros p Hp Hq. pose proof (vi_nodup _ _ _ _ _ _ H) as Hnd.
    apply NoDup_app in Hnd as (_ & H1 & _). by apply (H1 p Hq).
Qed.

(** One owned page against the others. *)
Lemma own_apart t L T p own l s :
  vm_inv t L T (p :: own) l s → page_ok p ∧ Forall page_ok own ∧ p ∉ own.
Proof.
  intros H. pose proof (vi_own _ _ _ _ _ _ H) as HF. apply Forall_cons in HF as [? ?]. split_and!; [done|done|].
  pose proof (vi_nodup _ _ _ _ _ _ H) as Hnd. apply NoDup_app in Hnd as (_ & _ & Hnd).
  cbn [app] in Hnd. apply NoDup_cons in Hnd as [? _]. set_solver.
Qed.

(** An owned page becomes a node of the tree. *)
Lemma vm_add_node t L T own l s q lv k p :
  vm_inv t L T (p :: own) l s → 0 ≤ lv < 2 → 0 ≤ k →
  pt_nodes T !! (lv + 1, k / 512) = Some q → pt_nodes T !! (lv, k) = None →
  let m' := st64 (memset (k_mem s) p 0 PGSIZE) (q + 8 * (k mod 512)) (Z.lor (PA2PTE p) PTE_V) in
  vm_inv t L (add_node T lv k p) own l (set_k_mem m' s) ∧ kept own (k_mem s) m'.
Proof.
  intros H Hlv Hk Hq Hn m'.
  destruct (vi_apart _ _ _ _ _ _ p H) as [Hp1 Hp2]; [constructor|].
  assert (Hpg : page_ok p) by (eapply vi_page; [exact H|constructor]).
  destruct (vi_lists _ _ _ _ _ _ H) as [HF Hd]. cbn [app] in HF. apply Forall_cons in HF as [_ HF].
  pose proof (vi_nodup _ _ _ _ _ _ H) as Hnd. cbn [app] in Hnd. rewrite <-Permutation_middle in Hnd.
  assert (Hpn : p ∉ own ++ l) by (apply NoDup_cons in Hnd as [? _]; set_solver).
  assert (Hrep : pt_rep m' (add_node T lv k p)) by (apply pt_rep_add_node; [apply H|done..]).
  assert (Hkept : kept (own ++ l) (k_mem s) m').
  { eapply kept_trans; [by apply (kept_memset (own ++ l) p 0 (k_mem s))|].
    assert (Hm : pt_rep (memset (k_mem s) p 0 PGSIZE) T).
    { eapply vm_inv_write in H as H'; [apply (vi_rep _ _ _ _ _ _ H')|constructor|].
      intros x Hx. by rewrite ldb_memset, decide_False by lia. }
    eapply (kept_slot _ T); [exact Hm|done| |exact Hq|apply Z.mod_pos_bound; lia].
    intros x Hx. apply Hd. by constructor. }
  split; [|by eapply kept_sub, Hkept; set_solver]. split; [apply H|apply H|exact Hrep| | |].
  - eapply kmem_inv_kept; [|apply H]. eapply kept_sub, Hkept. set_solver.
  - rewrite pt_pages_add by done. exact Hnd.
  - apply Forall_app in HF. apply HF.
Qed.

Lemma walk_level_alloc t L T own l lv va q e s :
  vm_inv t L T own l s → 0 ≤ lv < 2 → 0 ≤ va < MAXVA → pt_nodes T !! (lv + 1, key (lv + 1) va) = Some q →
  ∃ r T' l' s', walk_level q va true (lv + 1) e s = Ret r e s' ∧
    vm_grown t L own T l s T' l' s' ∧ pt_map T' = pt_map T ∧
    r = pt_nodes T' !! (lv, key lv va) ∧ (r = None → l' = []) ∧ (length l ≤ S (length l'))%nat.
Proof.
  intros H Hlv Hva Hq. destruct (pt_nodes T !! (lv, key lv va)) as [p|] eqn:Hp.
  - exists (Some p), T, l, s. split_and!; [|by apply vm_grown_refl|done|done|done|lia].
    apply (walk_level_present T); [apply H|lia|done..].
  - unfold walk_level, rd64. mstep. rewrite (slot_value _ T) by (apply H || done || lia).
    rewrite Hp. change (has (node_pte None) PTE_V) with false. cbn [negb]. cbv iota.
    destruct (vm_kalloc t L T own l e s H) as (r & s1 & Hr & Hf & Hk & Hl). mrun Hr.
    destruct l as [|p l].
    + destruct Hl as [-> H1]. exists None, T, [], s1. cbn [Z.eqb]. rewrite Hp.
      split_and!; [done| |done|done|done|cbn; lia].
      split; [done|done|done|done| |done]. eapply kept_sub, Hk. set_solver.
    + destruct Hl as (-> & Hr0 & H1). destruct (Z.eqb_spec p 0); [done|].
      unfold do_memset, wr64. mstep.
      destruct (vm_add_node t L T own l s1 q lv (key lv va) p) as [H2 Hk2]; try done.
      { apply key_pos; lia. }
      { by rewrite <-key_S by lia. }
      exists (Some p), (add_node T lv (key lv va) p), l.
      eexists. split_and!; [reflexivity| |done| |done|cbn; lia].
      * rewrite key_PX by (done || lia). split.
        -- eapply vm_frame_trans; [exact Hf|]. eapply vm_frame_trans; apply vm_frame_mem.
        -- exact H2.
        -- done.
        -- rewrite pt_pages_add by done. cbn [app]. by rewrite Permutation_middle.
        -- eapply kept_trans; [|exact Hk2]. eapply kept_sub, Hk. set_solver.
        -- cbn [add_node pt_nodes]. by apply insert_subseteq.
      * cbn [add_node pt_nodes]. by rewrite lookup_insert_eq.
Qed.

Lemma gr_lookup t L own T l s T' l' s' a q :
  vm_grown t L own T l s T' l' s' → pt_nodes T !! a = Some q → pt_nodes T' !! a = Some q.
Proof. intros H Hq. eapply lookup_weaken; [exact Hq|apply H]. Qed.

(** [walk] with [alloc]: the path to [va] is completed, no mapping changes;
    it fails only when the free list runs out, and it uses at most two pages. *)
Lemma walk_alloc t L T own l va e s :
  vm_inv t L T own l s → 0 ≤ va < MAXVA →
  ∃ T' l' s', walk (pt_root T) va true e s = Ret (pte_addr T' va) e s' ∧
    vm_grown t L own T l s T' l' s' ∧ pt_map T' = pt_map T ∧
    (pt_nodes T' !! (0, key 0 va) = None → l' = []) ∧ (length l ≤ S (S (length l')))%nat.
Proof.
  intros H Hva. unfold walk. rewrite (proj2 (Z.leb_gt _ _)) by lia.
  assert (H2 : pt_nodes T !! (1 + 1, key (1 + 1) va) = Some (pt_root T)).
  { rewrite key_2 by done. apply H. }
  destruct (walk_level_alloc t L T own l 1 va (pt_root T) e s) as (r & T1 & l1 & s1 & Hr & Hg & Hm & Hn & Hl & Hlen);
    [done|lia|done|done|]. mrun Hr. destruct r as [p1|].
  - symmetry in Hn.
    destruct (walk_level_alloc t L T1 own l1 0 va p1 e s1) as (r & T2 & l2 & s2 & Hr2 & Hg2 & Hm2 & Hn2 & Hl2 & Hlen2);
      [apply Hg|lia|done|done|]. mrun Hr2.
    exists T2, l2, s2. split_and!; [| |congruence|rewrite <-Hn2; done|lia].
    + unfold pte_addr. rewrite <-Hn2. by destruct r.
    + by eapply vm_grown_trans.
  - exists T1, l1, s1. split_and!; [|done|done|auto|lia].
    unfold pte_addr. destruct (pt_nodes T1 !! (0, key 0 va)) as [p0|] eqn:H0; [|done].
    apply (rep_parent (k_mem s1)) in H0; [|apply Hg|done].
    rewrite <-key_S in H0 by lia. change (0 + 1) with 1 in H0. rewrite <-Hn in H0. by destruct H0.
Qed.
(** * Mapping and unmapping *)

Lemma vm_set_leaf t L T own l s q k v :
  vm_inv t L T own l s → pt_nodes T !! (0, k / 512) = Some q →
  (∀ x, v = Some x → has x PTE_V = true ∧ 0 ≤ x < 2 ^ 64) →
  let s' := set_k_mem (st64 (k_mem s) (q + 8 * (k mod 512)) (default 0 v)) s in
  vm_grown t L own T l s (set_leaf T k v) l s'.
Proof.
  intros H Hq Hv s'. destruct (vi_lists _ _ _ _ _ _ H) as [HF Hd].
  assert (Hkept : kept (own ++ l) (k_mem s) (k_mem s')).
  { eapply (kept_slot _ T); [apply H|done|done|exact Hq|apply Z.mod_pos_bound; lia]. }
  split; [apply vm_frame_mem| |done|done|by eapply kept_sub, Hkept; set_solver|done].
  split; [apply H|apply H| | |apply H|apply H].
  - apply pt_rep_set_leaf; [apply H|done|done].
  - eapply kmem_inv_kept; [|apply H]. eapply kept_sub, Hkept. set_solver.
Qed.

Definition leaf_pte (pa perm : Z) : Z := Z.lor (Z.lor (PA2PTE pa) perm) PTE_V.

(** [n] pages from virtual page [k] mapped to physical memory from [pa]. *)
Fixpoint map_range (f : gmap Z Z) (k pa perm : Z) (n : nat) : gmap Z Z :=
  match n with
  | O => f
  | S n' => <[k + Z.of_nat n' := leaf_pte (pa + Z.of_nat n' * PGSIZE) perm]> (map_range f k pa perm n')
  end.

Fixpoint del_range (f : gmap Z Z) (k : Z) (n : nat) : gmap Z Z :=
  match n with
  | O => f
  | S n' => delete (k + Z.of_nat n') (del_range f k n')
  end.

Lemma lookup_map_range f k pa perm n i :
  map_range f k pa perm n !! i =
  if decide (k ≤ i < k + Z.of_nat n) then Some (leaf_pte (pa + (i - k) * PGSIZE) perm) else f !! i.
Proof.
  induction n as [|n IH]; cbn [map_range]; [by rewrite decide_False by lia|].
  rewrite lookup_insert, IH. repeat case_decide; try lia; try done.
  subst. do 3 f_equal. lia.
Qed.

Lemma lookup_del_range f k n i :
  del_range f k n !! i = if decide (k ≤ i < k + Z.of_nat n) then None else f !! i.
Proof.
  induction n as [|n IH]; cbn [del_range]; [by rewrite decide_False by lia|].
  rewrite lookup_delete, IH. repeat case_decide; try lia; done.
Qed.

Lemma lor_range a b k : 0 ≤ k → 0 ≤ a < 2 ^ k → 0 ≤ b < 2 ^ k → 0 ≤ Z.lor a b < 2 ^ k.
Proof.
  intros Hk Ha Hb. assert (Hn : 0 ≤ Z.lor a b) by (apply Z.lor_nonneg; lia). split; [done|].
  destruct (Z.eq_dec (Z.lor a b) 0) as [->|]; [lia|]. apply Z.log2_lt_pow2; [lia|].
  rewrite Z.log2_lor by lia.
  assert (∀ x, 0 ≤ x < 2 ^ k → x = 0 ∨ Z.log2 x < k) as Hx.
  { intros x [Hx0 Hx]. destruct (Z.eq_dec x 0); [by left|right]. apply Z.log2_lt_pow2; lia. }
  assert (a ≠ 0 ∨ b ≠ 0) by (destruct (Z.eq_dec a 0) as [->|]; [right; intros ->; done|by left]).
  pose proof (Z.log2_nonneg a). pose proof (Z.log2_nonneg b).
  destruct (Hx a Ha) as [->|], (Hx b Hb) as [->|]; change (Z.log2 0) with 0 in *; lia.
Qed.

Lemma lor_has v bit : 0 < bit → has (Z.lor v bit) bit = true.
Proof.
  intros Hb. unfold has. rewrite Z.land_comm, Z.land_lor_distr_r, Z.land_diag.
  destruct (Z.eqb_spec (Z.lor (Z.land bit v) bit) 0) as [Hz|]; [|done].
  apply Z.lor_eq_0_iff in Hz as [_ Hz]. lia.
Qed.

Lemma leaf_spec pa perm :
  0 ≤ pa < 2 ^ 56 → 0 ≤ perm < 1024 →
  has (leaf_pte pa perm) PTE_V = true ∧ 0 ≤ leaf_pte pa perm < 2 ^ 64 ∧
  (pa mod PGSIZE = 0 → PTE2PA (leaf_pte pa perm) = pa) ∧
  PTE_FLAGS (leaf_pte pa perm) = Z.lor perm PTE_V.
Proof.
  intros Hpa Hperm. split; [by apply lor_has|].
  unfold leaf_pte. rewrite <-Z.lor_assoc. set (fl := Z.lor perm PTE_V).
  assert (Hfl : 0 ≤ fl < 1024) by by apply (lor_range _ _ 10).
  change (2 ^ 56) with 72057594037927936 in *.
  assert (0 ≤ pa < 2 ^ 64) by (change (2 ^ 64) with 18446744073709551616; lia).
  split_and!.
  - rewrite PTE_pack by done. pose proof (Z.div_pos pa 4096). lia.
  - rewrite PTE_pack by done. pose proof (Z_div_mod_eq_full pa 4096).
    pose proof (Z.mod_pos_bound pa 4096). change (2 ^ 64) with 18446744073709551616. lia.
  - intros. by apply PTE2PA_pack.
  - by apply PTE_FLAGS_pack.
Qed.

Lemma page_aligned a : PGROUNDDOWN a mod PGSIZE = 0 ∧ a - PGSIZE < PGROUNDDOWN a ≤ a.
Proof.
  rewrite PGROUNDDOWN_spec. unfold PGSIZE. pose proof (Z.mod_pos_bound a 4096).
  split; [|lia]. by rewrite Zminus_mod_idemp_r, Z.sub_diag.
Qed.

Lemma vpn_add a i : a mod PGSIZE = 0 → vpn (a + i * PGSIZE) = vpn a + i.
Proof. unfold vpn, PGSIZE. intros H. rewrite Z.div_add by lia. done. Qed.

(** The store of an entry for [va] in a tree whose path to [va] exists. *)
Lemma wr_leaf t L T own l va v e s q :
  vm_inv t L T own l s → 0 ≤ va < MAXVA → pt_nodes T !! (0, key 0 va) = Some q →
  (∀ x, v = Some x → has x PTE_V = true ∧ 0 ≤ x < 2 ^ 64) →
  ∃ s', wr64 (q + 8 * PX 0 va) (default 0 v) e s = Ret tt e s' ∧
    vm_grown t L own T l s (set_leaf T (vpn va) v) l s'.
Proof.
  intros H Hva Hq Hv. rewrite PX_0 by done. rewrite key_0 in Hq.
  eexists. split; [reflexivity|]. by apply vm_set_leaf.
Qed.

Lemma node_slot_pos t L T own l va s q :
  vm_inv t L T own l s → 0 ≤ va < MAXVA → pt_nodes T !! (0, key 0 va) = Some q →
  q + 8 * PX 0 va ≠ 0.
Proof.
  intros H Hva Hq. pose proof (node_page _ _ _ _ _ (vi_rep _ _ _ _ _ _ H) Hq) as Hp%page_ok_pos.
  rewrite PX_0 by done. pose proof (Z.mod_pos_bound (vpn va) 512). lia.
Qed.

(** One turn of [mappages]. *)
Lemma mappages_turn_ok t L T own l perm last a pa e s :
  vm_inv t L T own l s → 0 ≤ a < MAXVA → 0 ≤ pa < 2 ^ 56 → 0 ≤ perm < 1024 →
  pt_map T !! vpn a = None →
  ∃ r T' l' s', mappages_turn (pt_root T) perm last (a, pa) e s = Ret r e s' ∧
    vm_grown t L own T l s T' l' s' ∧
    (r = inr (-1) ∧ pt_map T' = pt_map T ∧ l' = [] ∨
     r = (if a =? last then inr 0 else inl (u64 (a + PGSIZE), u64 (pa + PGSIZE))) ∧
     pt_map T' = <[vpn a := leaf_pte pa perm]> (pt_map T)).
Proof.
  intros H Ha Hpa Hperm Hn. unfold mappages_turn.
  destruct (walk_alloc t L T own l a e s H Ha) as (T1 & l1 & s1 & Hw & Hg & Hm & Hl & _). mrun Hw.
  unfold pte_addr. destruct (pt_nodes T1 !! (0, key 0 a)) as [q|] eqn:Hq.
  - destruct (Z.eqb_spec (q + 8 * PX 0 a) 0) as [Hz|_].
    { exfalso. by eapply node_slot_pos; [apply Hg|exact Ha|..]. }
    unfold rd64. mstep. rewrite (leaf_value _ T1) by (apply Hg || done). rewrite Hm, Hn.
    change (has (default 0 None) PTE_V) with false. cbv iota. mstep.
    destruct (leaf_spec pa perm) as (Hv1 & Hv2 & _ & _); [done..|].
    destruct (wr_leaf t L T1 own l1 a (Some (leaf_pte pa perm)) e s1 q) as (s2 & Hs & Hg2); [apply Hg|done|done| |].
    { by intros x [= <-]. }
    cbn [default] in Hs. unfold leaf_pte in Hs at 1. cbn [id] in Hs. mrun Hs.
    exists (if a =? last then inr 0 else inl (u64 (a + PGSIZE), u64 (pa + PGSIZE))), (set_leaf T1 (vpn a) (Some (leaf_pte pa perm))), l1, s2.
    split_and!; [by case_match|by eapply vm_grown_trans|]. right. split; [done|].
    cbn [set_leaf pt_map]. by rewrite Hm.
  - exists (inr (-1)), T1, l1, s1. cbn [Z.eqb]. split_and!; [done|done|]. left. auto.
Qed.

(** [mappages] maps the pages of the range in order; it stops early only when
    there is no page left for the tree. *)
Lemma mappages_ok t L T own l va size pa perm e s :
  vm_inv t L T own l s → 0 ≤ va → 0 < size → va + size ≤ MAXVA →
  0 ≤ pa → pa + size + PGSIZE ≤ 2 ^ 56 → 0 ≤ perm < 1024 →
  (∀ k, vpn va ≤ k ≤ vpn (va + size - 1) → pt_map T !! k = None) →
  ∃ r n T' l' s', mappages (pt_root T) va size pa perm e s = Ret r e s' ∧
    vm_grown t L own T l s T' l' s' ∧
    pt_map T' = map_range (pt_map T) (vpn va) pa perm n ∧
    (r = 0 ∧ Z.of_nat n = vpn (va + size - 1) - vpn va + 1 ∨
     r = -1 ∧ Z.of_nat n < vpn (va + size - 1) - vpn va + 1 ∧ l' = []).
Proof.
  intros H Hva Hsz Hmax Hpa Hpa' Hperm Hn. change MAXVA with 274877906944 in *.
  change (2 ^ 56) with 72057594037927936 in *. unfold mappages.
  rewrite (u64_id (va + size - 1)) by lia.
  set (a0 := PGROUNDDOWN va). set (last := PGROUNDDOWN (va + size - 1)).
  assert (Ha0 : a0 = vpn va * PGSIZE).
  { unfold a0, vpn. rewrite PGROUNDDOWN_spec. unfold PGSIZE. pose proof (Z_div_mod_eq_full va 4096). lia. }
  assert (Hla : last = vpn (va + size - 1) * PGSIZE).
  { unfold last, vpn. rewrite PGROUNDDOWN_spec. unfold PGSIZE. pose proof (Z_div_mod_eq_full (va + size - 1) 4096). lia. }
  assert (Hk0 : 0 ≤ vpn va) by (apply Z.div_pos; unfold PGSIZE; lia).
  assert (Hkl : vpn va ≤ vpn (va + size - 1)) by (apply Z.div_le_mono; unfold PGSIZE; lia).
  assert (Hlb : last ≤ va + size - 1) by apply page_aligned.
  assert (Hav : va - PGSIZE < a0) by apply page_aligned.
  set (N := vpn (va + size - 1) - vpn va + 1) in *.
  set (I := λ (st : Z * Z) (e' : list (kstate → kstate)) (s' : kstate), e' = e ∧
    ∃ (n : nat) T' l', st = (a0 + Z.of_nat n * PGSIZE, pa + Z.of_nat n * PGSIZE) ∧ Z.of_nat n < N ∧
      vm_grown t L own T l s T' l' s' ∧ pt_map T' = map_range (pt_map T) (vpn va) pa perm n).
  destruct (loop_measure (mappages_turn (pt_root T) perm last) (λ st _ _, last - fst st + PGSIZE) I
    (λ r e' s', e' = e ∧ ∃ n T' l', vm_grown t L own T l s T' l' s' ∧
      pt_map T' = map_range (pt_map T) (vpn va) pa perm n ∧
      (r = 0 ∧ Z.of_nat n = N ∨ r = -1 ∧ Z.of_nat n < N ∧ l' = [])) (a0, pa) e s)
    as (r & e' & s' & Hrun & -> & n & T' & l' & Hg & Hm & Hr).
  - intros st e1 s1 (-> & n & T1 & l1 & -> & HnN & Hg & Hm). cbn [fst].
    split; [unfold PGSIZE in *; lia|].
    assert (Hvp : vpn (a0 + Z.of_nat n * PGSIZE) = vpn va + Z.of_nat n).
    { rewrite Ha0. unfold vpn at 1. rewrite <-Z.mul_add_distr_r, Z.div_mul by done. done. }
    destruct (mappages_turn_ok t L T1 own l1 perm last (a0 + Z.of_nat n * PGSIZE) (pa + Z.of_nat n * PGSIZE) e s1)
      as (r & T2 & l2 & s2 & Hr & Hg2 & Hc); [apply Hg| | |done| |].
    { change MAXVA with 274877906944. unfold PGSIZE in *. lia. }
    { change (2 ^ 56) with 72057594037927936. unfold PGSIZE in *. lia. }
    { rewrite Hm, Hvp, lookup_map_range, decide_False by lia. apply Hn. lia. }
    rewrite (gr_root _ _ _ _ _ _ _ _ _ Hg) in Hr. exists r, e, s2. split; [exact Hr|].
    assert (Hg' : vm_grown t L own T l s T2 l2 s2) by by eapply vm_grown_trans.
    destruct Hc as [(-> & Hm2 & ->)|(-> & Hm2)].
    + split; [done|]. exists n, T2, []. split_and!; [done|congruence|by right].
    + assert (Hm' : pt_map T2 = map_range (pt_map T) (vpn va) pa perm (S n)).
      { cbn [map_range]. by rewrite Hm2, Hm, Hvp. }
      destruct (Z.eqb_spec (a0 + Z.of_nat n * PGSIZE) last) as [He|He].
      * split; [done|]. exists (S n), T2, l2. split_and!; [done|done|left]. unfold PGSIZE in *. lia.
      * rewrite !u64_id by (unfold PGSIZE in *; lia).
        split; [|unfold PGSIZE; cbn [fst]; lia]. split; [done|]. exists (S n), T2, l2.
        split_and!; [f_equal; lia|unfold PGSIZE in *; lia|done|done].
  - split; [done|]. exists O, T, l. split_and!; [f_equal; lia|lia|by apply vm_grown_refl|done].
  - cbn [fst]. unfold PGSIZE in *. change (2 ^ 64) with 18446744073709551616. lia.
  - exists r, n, T', l', s'. done.
Qed.
(** The physical pages of [n] virtual pages from [k]. *)
Definition dpages (f : gmap Z Z) (k : Z) (n : nat) : list Z :=
  (λ i, PTE2PA (default 0 (f !! i))) <$> seqZ k (Z.of_nat n).

Lemma dpages_cons f k n :
  dpages f k (S n) = PTE2PA (default 0 (f !! k)) :: dpages f (k + 1) n.
Proof.
  unfold dpages. rewrite seqZ_cons by lia. cbn [fmap list_fmap]. do 3 f_equal; lia.
Qed.

Lemma dpages_snoc f k n :
  dpages f k (S n) = dpages f k n ++ [PTE2PA (default 0 (f !! (k + Z.of_nat n)))].
Proof.
  unfold dpages. rewrite Nat2Z.inj_succ, <-Z.add_1_r, seqZ_app by lia.
  by rewrite fmap_app.
Qed.

Lemma dpages_ext f g k n :
  (∀ i, k ≤ i < k + Z.of_nat n → f !! i = g !! i) → dpages f k n = dpages g k n.
Proof.
  intros H. unfold dpages. apply list_fmap_ext. intros i x Hx. apply list_elem_of_lookup_2 in Hx.
  apply elem_of_seqZ in Hx. by rewrite H by lia.
Qed.

Lemma elem_of_dpages f k n p :
  p ∈ dpages f k n ↔ ∃ i, k ≤ i < k + Z.of_nat n ∧ p = PTE2PA (default 0 (f !! i)).
Proof.
  unfold dpages. rewrite list_elem_of_fmap. setoid_rewrite elem_of_seqZ. naive_solver.
Qed.

(** Pages left the address space for the free list, the tree kept its nodes. *)
Record vm_shrunk (t : thread) (L : list lockid) (own' : list Z)
    (T : ptree) (s : kstate) (T' : ptree) (l' : list Z) (s' : kstate) : Prop := {
  sh_frame : vm_frame s s';
  sh_inv : vm_inv t L T' own' l' s';
  sh_root : pt_root T' = pt_root T;
  sh_nodes : pt_nodes T' = pt_nodes T;
  sh_kept : kept own' (k_mem s) (k_mem s')
}.

(** The page, if it is to be freed, on top of a list. *)
Definition if_freed (b : bool) (p : list Z) (l : list Z) : list Z := if b then p ++ l else l.

Lemma uvmunmap_turn_ok t L T own own' l endva do_free a v e s :
  vm_inv t L T own l s → 0 ≤ a < MAXVA → a < endva →
  pt_map T !! vpn a = Some v → PTE_FLAGS v ≠ PTE_V → own ≡ₚ if_freed do_free [PTE2PA v] own' →
  ∃ s', uvmunmap_turn (pt_root T) endva do_free a e s = Ret (inl (a + PGSIZE)) e s' ∧
    vm_shrunk t L own' T s (set_leaf T (vpn a) None) (if_freed do_free [PTE2PA v] l) s'.
Proof.
  intros H Ha Hend Hv Hfl Hown. unfold uvmunmap_turn. rewrite (proj2 (Z.ltb_lt _ _)) by lia.
  mrun (walk_lookup T a e s (vi_rep _ _ _ _ _ _ H) Ha). unfold pte_addr.
  destruct (rep_leaf _ _ (vi_rep _ _ _ _ _ _ H) _ _ Hv) as (HV & Hvr & [q Hq]). rewrite <-key_0 in Hq. rewrite Hq.
  destruct (Z.eqb_spec (q + 8 * PX 0 a) 0) as [Hz|_].
  { exfalso. by eapply node_slot_pos; [exact H|exact Ha|..]. }
  unfold rd64. mstep. rewrite (leaf_value _ T) by (apply H || done). rewrite Hv. cbn [default]. cbv [id].
  rewrite HV. cbn [negb]. destruct (Z.eqb_spec (PTE_FLAGS v) PTE_V); [done|].
  assert (∃ s1, when do_free (kfree (PTE2PA v)) e s = Ret tt e s1 ∧
            vm_frame s s1 ∧ kept own' (k_mem s) (k_mem s1) ∧ vm_inv t L T own' (if_freed do_free [PTE2PA v] l) s1)
    as (s1 & Hr & Hf1 & Hk1 & H1).
  { destruct do_free; cbn [when if_freed app] in *.
    - destruct (vm_kfree t L T own own' l e s (PTE2PA v)) as (s1 & Hr & Hf & Hk & H1); [done..|].
      exists s1. split_and!; [done|done|by eapply kept_sub, Hk; set_solver|done].
    - exists s. split_and!; [done|apply vm_frame_refl|apply kept_refl|]. by eapply vm_inv_own. }
  mrun Hr.
  destruct (wr_leaf t L T own' (if_freed do_free [PTE2PA v] l) a None e s1 q) as (s2 & Hs & Hg);
    [done|done|done|done|]. cbn [default] in Hs. mrun Hs. exists s2.
  rewrite u64_id by (change MAXVA with 274877906944 in *; unfold PGSIZE; lia). split; [done|].
  split; [|apply Hg|done|done|].
  - eapply vm_frame_trans; [exact Hf1|apply Hg].
  - eapply kept_trans; [exact Hk1|apply Hg].
Qed.

(** [uvmunmap] removes [n] mappings and puts their pages on the free list. *)
Lemma uvmunmap_ok t L T own own' l va n do_free e s :
  vm_inv t L T own l s → 0 ≤ va → va mod PGSIZE = 0 → va + Z.of_nat n * PGSIZE ≤ MAXVA →
  (∀ k, vpn va ≤ k < vpn va + Z.of_nat n → ∃ v, pt_map T !! k = Some v ∧ PTE_FLAGS v ≠ PTE_V) →
  own ≡ₚ if_freed do_free (dpages (pt_map T) (vpn va) n) own' →
  ∃ T' s', uvmunmap (pt_root T) va (Z.of_nat n) do_free e s = Ret tt e s' ∧
    vm_shrunk t L own' T s T' (if_freed do_free (reverse (dpages (pt_map T) (vpn va) n)) l) s' ∧
    pt_map T' = del_range (pt_map T) (vpn va) n.
Proof.
  intros H Hva Hal Hmax Hmap Hown. unfold uvmunmap. rewrite Hal. cbn [negb Z.eqb].
  change MAXVA with 274877906944 in *.
  rewrite u64_id by (unfold PGSIZE in *; lia). set (f := pt_map T) in *. set (k := vpn va) in *.
  set (endva := va + Z.of_nat n * PGSIZE) in *.
  set (I := λ (a : Z) (e' : list (kstate → kstate)) (s' : kstate), e' = e ∧
    ∃ (i : nat) T' own1, a = va + Z.of_nat i * PGSIZE ∧ (i ≤ n)%nat ∧
      vm_shrunk t L own1 T s T' (if_freed do_free (reverse (dpages f k i)) l) s' ∧
      own1 ≡ₚ if_freed do_free (dpages f (k + Z.of_nat i) (n - i)) own' ∧
      pt_map T' = del_range f k i).
  destruct (loop_measure (uvmunmap_turn (pt_root T) endva do_free) (λ a _ _, endva - a) I
    (λ _ e' s', e' = e ∧ ∃ T', vm_shrunk t L own' T s T' (if_freed do_free (reverse (dpages f k n)) l) s' ∧
       pt_map T' = del_range f k n) va e s)
    as ([] & e' & s' & Hrun & -> & T' & Hs & Hm).
  - intros a e1 s1 (-> & i & T1 & own1 & -> & Hi & Hs & Ho & Hm).
    split; [unfold endva, PGSIZE in *; lia|].
    destruct (decide (i = n)) as [->|Hne].
    + unfold uvmunmap_turn. rewrite (proj2 (Z.ltb_ge _ _)) by (unfold endva; lia).
      eexists _, _, _. split; [reflexivity|]. split; [done|]. exists T1. split; [|done].
      rewrite Nat.sub_diag in Ho. change (dpages f (k + Z.of_nat n) 0) with (@nil Z) in Ho.
      assert (own1 ≡ₚ own') as Ho' by by destruct do_free.
      destruct Hs as [S1 S2 S3 S4 S5]. split; [done|by eapply vm_inv_own|done|done|].
      eapply kept_sub, S5. by rewrite Ho'.
    + assert (Hvi : vpn (va + Z.of_nat i * PGSIZE) = k + Z.of_nat i) by by apply vpn_add.
      destruct (Hmap (k + Z.of_nat i)) as (v & Hv & Hfl); [lia|].
      assert (Hv1 : pt_map T1 !! (k + Z.of_nat i) = Some v).
      { by rewrite Hm, lookup_del_range, decide_False by lia. }
      replace (n - i)%nat with (S (n - S i))%nat in Ho by lia. rewrite dpages_cons, Hv in Ho. cbn [default] in Ho. cbv [id] in Ho.
      set (own2 := if_freed do_free (dpages f (k + Z.of_nat i + 1) (n - S i)) own').
      destruct (uvmunmap_turn_ok t L T1 own1 own2 (if_freed do_free (reverse (dpages f k i)) l) endva
        do_free (va + Z.of_nat i * PGSIZE) v e s1) as (s2 & Hr & Hs2).
      { apply Hs. }
      { change MAXVA with 274877906944. unfold PGSIZE in *. lia. }
      { unfold endva, PGSIZE. lia. }
      { by rewrite Hvi. }
      { done. }
      { rewrite Ho. by destruct do_free. }
      rewrite (sh_root _ _ _ _ _ _ _ _ Hs) in Hr. eexists _, _, _. split; [exact Hr|].
      split; [|unfold PGSIZE; lia]. split; [done|]. exists (S i), (set_leaf T1 (k + Z.of_nat i) None), own2.
      rewrite Hvi in Hs2. split_and!; [lia|lia| | |].
      * assert (Heq : if_freed do_free (reverse (dpages f k (S i))) l =
                 if_freed do_free [PTE2PA v] (if_freed do_free (reverse (dpages f k i)) l)).
        { rewrite dpages_snoc, Hv, reverse_snoc. by destruct do_free. }
        rewrite Heq. destruct Hs as [S1 S2 S3 S4 S5], Hs2 as [R1 R2 R3 R4 R5].
        split; [by eapply vm_frame_trans|done|congruence|congruence|].
        eapply kept_trans; [|exact R5]. eapply kept_sub, S5. rewrite Ho. unfold own2.
        destruct do_free; cbn [if_freed]; set_solver.
      * unfold own2. by replace (k + Z.of_nat (S i)) with (k + Z.of_nat i + 1) by lia.
      * cbn [set_leaf pt_map del_range]. by rewrite Hm.
  - split; [done|]. exists O, T, own. rewrite Nat.sub_0_r, !Z.add_0_r.
    split_and!; [lia|lia| |done|done]. change (dpages f k 0) with (@nil Z).
    replace (if_freed do_free (reverse []) l) with l by by destruct do_free.
    split; [apply vm_frame_refl|done|done|done|apply kept_refl].
  - unfold endva, PGSIZE in *. change (2 ^ 64) with 18446744073709551616. lia.
  - exists T', s'. done.
Qed.

(** * Growing and shrinking a process *)

(** The pages a size takes. *)
Definition npages (sz : Z) : Z := (sz + PGSIZE - 1) / PGSIZE.

Lemma PGROUNDUP_npages sz : 0 ≤ sz ≤ MAXVA → PGROUNDUP sz = npages sz * PGSIZE.
Proof.
  change MAXVA with 274877906944. intros. apply PGROUNDUP_spec; [lia|].
  change (2 ^ 64) with 18446744073709551616. unfold PGSIZE. lia.
Qed.

Lemma npages_bound sz : 0 ≤ sz → sz ≤ npages sz * PGSIZE < sz + PGSIZE.
Proof.
  intros. unfold npages, PGSIZE. pose proof (Z_div_mod_eq_full (sz + 4096 - 1) 4096).
  pose proof (Z.mod_pos_bound (sz + 4096 - 1) 4096). lia.
Qed.

Lemma npages_mul k : npages (k * PGSIZE) = k.
Proof.
  unfold npages, PGSIZE. replace (k * 4096 + 4096 - 1) with (k * 4096 + 4095) by lia.
  rewrite Z.div_add_l, Z.div_small by lia. lia.
Qed.

Lemma npages_mono a b : a ≤ b → npages a ≤ npages b.
Proof. intros. apply Z.div_le_mono; unfold PGSIZE; lia. Qed.

Lemma npages_max sz : 0 ≤ sz ≤ MAXVA → 0 ≤ npages sz ∧ npages sz * PGSIZE ≤ MAXVA.
Proof.
  change MAXVA with 274877906944. intros. pose proof (npages_mono 0 sz) as H1.
  pose proof (npages_mono sz 274877906944) as H2. change (npages 0) with 0 in H1.
  change (npages 274877906944) with 67108864 in H2. unfold PGSIZE. lia.
Qed.

(** A user mapping: not a pointer to a table. *)
Definition is_leaf (o : option Z) : Prop := ∃ v, o = Some v ∧ PTE_FLAGS v ≠ PTE_V.

Lemma vpn_mul k : vpn (k * PGSIZE) = k.
Proof. unfold vpn. by rewrite Z.div_mul. Qed.

Lemma uvmdealloc_ok t L T own own' l oldsz newsz e s :
  vm_inv t L T own l s → 0 ≤ newsz < oldsz → oldsz ≤ MAXVA →
  (∀ k, npages newsz ≤ k < npages oldsz → is_leaf (pt_map T !! k)) →
  let n := Z.to_nat (npages oldsz - npages newsz) in
  own ≡ₚ dpages (pt_map T) (npages newsz) n ++ own' →
  ∃ T' s', uvmdealloc (pt_root T) oldsz newsz e s = Ret newsz e s' ∧
    vm_shrunk t L own' T s T' (reverse (dpages (pt_map T) (npages newsz) n) ++ l) s' ∧
    pt_map T' = del_range (pt_map T) (npages newsz) n.
Proof.
  intros H Hsz Hmax Hleaf n Hown. unfold uvmdealloc. rewrite (proj2 (Z.leb_gt _ _)) by lia.
  pose proof (npages_mono newsz oldsz) as Hmono.
  destruct (npages_max newsz) as [Hn0 Hn1]; [lia|]. destruct (npages_max oldsz) as [Ho0 Ho1]; [lia|].
  rewrite !PGROUNDUP_npages by lia.
  destruct (Z.ltb_spec (npages newsz * PGSIZE) (npages oldsz * PGSIZE)) as [Hlt|Hge]; cbn [when].
  - assert (Hn : i32 ((npages oldsz * PGSIZE - npages newsz * PGSIZE) / PGSIZE) = Z.of_nat n).
    { rewrite <-Z.mul_sub_distr_r, Z.div_mul by done.
      change MAXVA with 274877906944 in *. unfold PGSIZE in *.
      rewrite i32_id; lia. }
    rewrite Hn.
    destruct (uvmunmap_ok t L T own own' l (npages newsz * PGSIZE) n true e s) as (T' & s' & Hr & Hs & Hm).
    { done. }
    { unfold PGSIZE. lia. }
    { by apply Z.mod_mul. }
    { unfold PGSIZE in *. lia. }
    { rewrite vpn_mul. intros k Hk. apply Hleaf. lia. }
    { by rewrite vpn_mul. }
    rewrite vpn_mul in Hs, Hm. mrun Hr. exists T', s'. done.
  - assert (Hn : n = O) by (unfold n, PGSIZE in *; lia). rewrite Hn in *.
    mstep. exists T, s. split; [done|]. split; [|done].
    split; [apply vm_frame_refl|by eapply vm_inv_own|done|done|apply kept_refl].
Qed.

(** Entries for consecutive pages. *)
Fixpoint map_ptes (f : gmap Z Z) (k : Z) (vs : list Z) : gmap Z Z :=
  match vs with
  | [] => f
  | v :: vs' => <[k := v]> (map_ptes f (k + 1) vs')
  end.

Lemma lookup_map_ptes f k vs i :
  map_ptes f k vs !! i =
  if decide (k ≤ i < k + Z.of_nat (length vs)) then vs !! Z.to_nat (i - k) else f !! i.
Proof.
  revert k. induction vs as [|v vs IH]; intros k; cbn [map_ptes length].
  - by rewrite decide_False by lia.
  - rewrite lookup_insert, IH. repeat case_decide; try lia; [|..|done].
    + subst. by rewrite Z.sub_diag.
    + by replace (Z.to_nat (i - k)) with (S (Z.to_nat (i - (k + 1)))) by lia.
Qed.

Lemma map_ptes_snoc f k vs v :
  map_ptes f k (vs ++ [v]) = <[k + Z.of_nat (length vs) := v]> (map_ptes f k vs).
Proof.
  apply map_eq. intros i. rewrite lookup_insert, !lookup_map_ptes, length_app. cbn [length].
  repeat case_decide; try lia; try done.
  - subst. replace (Z.to_nat _) with (length vs) by lia. by rewrite list_lookup_middle.
  - by rewrite lookup_app_l by lia.
Qed.

Lemma dpages_map_ptes f k vs : dpages (map_ptes f k vs) k (length vs) = PTE2PA <$> vs.
Proof.
  apply list_eq. intros i. unfold dpages. rewrite list_lookup_fmap. rewrite list_lookup_fmap.
  destruct (decide (i < length vs)%nat).
  - rewrite lookup_seqZ_lt by lia. cbn [fmap option_fmap option_map].
    rewrite lookup_map_ptes, decide_True by lia. replace (Z.to_nat _) with i by lia.
    destruct (lookup_lt_is_Some_2 vs i) as [v ->]; done.
  - rewrite lookup_seqZ_ge by lia. by rewrite lookup_ge_None_2 by lia.
Qed.

(** Removing what was just mapped. *)
Lemma del_map_ptes f k vs :
  (∀ i, k ≤ i < k + Z.of_nat (length vs) → f !! i = None) →
  del_range (map_ptes f k vs) k (length vs) = f.
Proof.
  intros H. apply map_eq. intros i. rewrite lookup_del_range, lookup_map_ptes.
  case_decide; [symmetry; by apply H|done].
Qed.

Lemma map_ptes_leaf f k vs i :
  Forall (λ v, PTE_FLAGS v ≠ PTE_V) vs → k ≤ i < k + Z.of_nat (length vs) →
  is_leaf (map_ptes f k vs !! i).
Proof.
  intros HF Hi. rewrite lookup_map_ptes, decide_True by done.
  destruct (lookup_lt_is_Some_2 vs (Z.to_nat (i - k))) as [v Hv]; [lia|].
  exists v. split; [done|]. by eapply Forall_lookup_1 in HF.
Qed.

Definition zeroed (m : mem) (ps : list Z) : Prop :=
  ∀ p x, p ∈ ps → p ≤ x < p + PGSIZE → ldb m x = 0.

Lemma page_phys p : page_ok p → 0 ≤ p < 2 ^ 56 ∧ p + PGSIZE + PGSIZE ≤ 2 ^ 56 ∧ p mod PGSIZE = 0.
Proof.
  intros Hp. pose proof (page_ok_pos p Hp). destruct Hp as [? _].
  change (2 ^ 56) with 72057594037927936. unfold PHYSTOP, KERNBASE, PGSIZE in *. lia.
Qed.

(** Mapping one owned page at a page-aligned address. *)
Lemma map_one t L T own l a p perm e s :
  vm_inv t L T own l s → p ∈ own → 0 ≤ a → a mod PGSIZE = 0 → a + PGSIZE ≤ MAXVA →
  0 ≤ perm < 1024 → pt_map T !! vpn a = None →
  ∃ r T' l' s', mappages (pt_root T) a PGSIZE p perm e s = Ret r e s' ∧
    vm_grown t L own T l s T' l' s' ∧
    (r = 0 ∧ pt_map T' = <[vpn a := leaf_pte p perm]> (pt_map T) ∨
     r = -1 ∧ pt_map T' = pt_map T ∧ l' = []).
Proof.
  intros H Hp Ha Hal Hmax Hperm Hn. destruct (page_phys p (vi_page _ _ _ _ _ _ p H Hp)) as (Hp1 & Hp2 & _).
  assert (Hv : vpn (a + PGSIZE - 1) = vpn a).
  { unfold vpn, PGSIZE in *. pose proof (Z_div_mod_eq_full a 4096) as Hd. rewrite Hal in Hd.
    rewrite Hd at 1. replace (4096 * (a / 4096) + 0 + 4096 - 1) with (a / 4096 * 4096 + 4095) by lia.
    rewrite Z.div_add_l, (Z.div_small 4095) by lia. lia. }
  destruct (mappages_ok t L T own l a PGSIZE p perm e s) as (r & n & T' & l' & s' & Hr & Hg & Hm & Hc);
    [done|done|done|done|lia|done|done| |].
  { intros k Hk. rewrite Hv in Hk. by replace k with (vpn a) by lia. }
  exists r, T', l', s'. split_and!; [done|done|]. rewrite Hv in Hc. destruct Hc as [[-> Hc]|(-> & Hc & ->)].
  - left. split; [done|]. replace n with 1%nat in Hm by lia. rewrite Hm. cbn [map_range Z.of_nat]. by rewrite Z.mul_0_l, !Z.add_0_r.
  - right. by replace n with O in Hm by lia.
Qed.

Definition uleaf (p : Z) : Z := leaf_pte p user_rwx.

Lemma user_rwx_range : 0 ≤ user_rwx < 1024.
Proof. by vm_compute. Qed.

Lemma uleaf_flags p : page_ok p → PTE_FLAGS (uleaf p) ≠ PTE_V ∧ PTE2PA (uleaf p) = p.
Proof.
  intros Hp. destruct (page_phys p Hp) as (Hp1 & _ & Hp3).
  destruct (leaf_spec p user_rwx Hp1 user_rwx_range) as (_ & _ & H1 & H2). unfold uleaf. rewrite H2, H1 by done.
  done.
Qed.

(** The address space after the pages [ps] were mapped from page [k], with the
    entries [vs]. *)
Record vm_filled (t : thread) (L : list lockid) (own : list Z) (k : Z)
    (T : ptree) (l : list Z) (s : kstate) (ps vs : list Z) (T' : ptree) (l' : list Z) (s' : kstate) : Prop := {
  fi_frame : vm_frame s s';
  fi_inv : vm_inv t L T' (ps ++ own) l' s';
  fi_root : pt_root T' = pt_root T;
  fi_pages : pt_pages T' ++ ps ++ l' ≡ₚ pt_pages T ++ l;
  fi_kept : kept own (k_mem s) (k_mem s');
  fi_nodes : pt_nodes T ⊆ pt_nodes T';
  fi_map : pt_map T' = map_ptes (pt_map T) k vs;
  fi_ptes : PTE2PA <$> vs = ps;
  fi_leaf : Forall (λ v, PTE_FLAGS v ≠ PTE_V) vs
}.

Lemma fi_length t L own k T l s ps vs T' l' s' :
  vm_filled t L own k T l s ps vs T' l' s' → length vs = length ps.
Proof. intros H. rewrite <-(fi_ptes _ _ _ _ _ _ _ _ _ _ _ _ H). by rewrite length_fmap. Qed.

(** Unmapping everything that was mapped. *)
Lemma filled_undo t L own k T l s ps vs T1 l1 s1 T' s' :
  vm_filled t L own k T l s ps vs T1 l1 s1 →
  (∀ i, k ≤ i < k + Z.of_nat (length ps) → pt_map T !! i = None) →
  vm_shrunk t L own T1 s1 T' (reverse ps ++ l1) s' → pt_map T' = del_range (pt_map T1) k (length ps) →
  vm_filled t L own k T l s [] [] T' (reverse ps ++ l1) s'.
Proof.
  intros HF Hf [S1 S2 S3 S4 S5] Hm. pose proof (fi_length _ _ _ _ _ _ _ _ _ _ _ _ HF) as Hlen.
  destruct HF as [F1 F2 F3 F4 F5 F6 F7 F8 F9].
  split; [by eapply vm_frame_trans|done|congruence| |by eapply kept_trans| | |done|done].
  - unfold pt_pages in *. rewrite S4. cbn [app]. by rewrite reverse_Permutation.
  - by rewrite S4.
  - rewrite Hm, F7, <-Hlen, del_map_ptes; [done|]. by rewrite Hlen.
Qed.

Lemma filled_dpages t L own k T l s ps vs T1 l1 s1 :
  vm_filled t L own k T l s ps vs T1 l1 s1 → dpages (pt_map T1) k (length ps) = ps.
Proof.
  intros HF. rewrite (fi_map _ _ _ _ _ _ _ _ _ _ _ _ HF), <-(fi_length _ _ _ _ _ _ _ _ _ _ _ _ HF), dpages_map_ptes.
  apply HF.
Qed.

Lemma filled_leaf t L own k T l s ps vs T1 l1 s1 i :
  vm_filled t L own k T l s ps vs T1 l1 s1 → k ≤ i < k + Z.of_nat (length ps) → is_leaf (pt_map T1 !! i).
Proof.
  intros HF Hi. rewrite (fi_map _ _ _ _ _ _ _ _ _ _ _ _ HF). apply map_ptes_leaf; [apply HF|].
  by rewrite (fi_length _ _ _ _ _ _ _ _ _ _ _ _ HF).
Qed.

(** Giving back everything that was mapped. *)
Lemma uvmdealloc_undo t L own k T l s ps vs T1 l1 s1 e :
  vm_filled t L own k T l s ps vs T1 l1 s1 → 0 ≤ k → (k + Z.of_nat (length ps)) * PGSIZE ≤ MAXVA →
  (∀ i, k ≤ i < k + Z.of_nat (length ps) → pt_map T !! i = None) →
  ∃ T' l' s', uvmdealloc (pt_root T) ((k + Z.of_nat (length ps)) * PGSIZE) (k * PGSIZE) e s1 =
      Ret (k * PGSIZE) e s' ∧ vm_filled t L own k T l s [] [] T' l' s' ∧ length l' = (length ps + length l1)%nat.
Proof.
  intros HF Hk Hmax Hf. destruct ps as [|p ps'].
  - pose proof (fi_length _ _ _ _ _ _ _ _ _ _ _ _ HF) as Hlen. destruct vs; [|done].
    exists T1, l1, s1. cbn [length Z.of_nat]. rewrite Z.add_0_r. unfold uvmdealloc.
    rewrite (proj2 (Z.leb_le _ _)) by lia. done.
  - set (ps := p :: ps') in *. pose proof (filled_dpages _ _ _ _ _ _ _ _ _ _ _ _ HF) as Hd.
    assert (Hn : Z.to_nat (npages ((k + Z.of_nat (length ps)) * PGSIZE) - npages (k * PGSIZE)) = length ps).
    { rewrite !npages_mul. lia. }
    destruct (uvmdealloc_ok t L T1 (ps ++ own) own l1 ((k + Z.of_nat (length ps)) * PGSIZE) (k * PGSIZE) e s1)
      as (T' & s' & Hr & Hs & Hm).
    { apply HF. }
    { unfold PGSIZE. cbn [ps length]. lia. }
    { done. }
    { rewrite !npages_mul. intros i Hi. by eapply filled_leaf. }
    { by rewrite Hn, npages_mul, Hd. }
    rewrite Hn, npages_mul, Hd in Hs. rewrite Hn, npages_mul in Hm.
    rewrite (fi_root _ _ _ _ _ _ _ _ _ _ _ _ HF) in Hr. exists T', (reverse ps ++ l1), s'. split; [done|].
    split; [by eapply filled_undo|]. by rewrite length_app, length_reverse.
Qed.

Lemma perm_shift (A B C : list Z) : A ++ B ++ C ≡ₚ (A ++ C) ++ B.
Proof. by rewrite (Permutation_app_comm B C), app_assoc. Qed.

(** Mapping one more page, taken from the free list and prepared by the
    caller; when the tree cannot grow the page is freed again. *)
Lemma fill_step t L own k T l s ps vs T1 p l1 s1 s3 perm e :
  vm_filled t L own k T l s ps vs T1 (p :: l1) s1 →
  vm_frame s1 s3 → vm_inv t L T1 (p :: ps ++ own) l1 s3 → kept (ps ++ own) (k_mem s1) (k_mem s3) →
  0 ≤ k → (k + Z.of_nat (length ps) + 1) * PGSIZE ≤ MAXVA →
  0 ≤ perm < 1024 → Z.lor perm PTE_V ≠ PTE_V → pt_map T !! (k + Z.of_nat (length ps)) = None →
  ∃ r T4 l4 s4, mappages (pt_root T) ((k + Z.of_nat (length ps)) * PGSIZE) PGSIZE p perm e s3 = Ret r e s4 ∧
    kept (p :: ps ++ own) (k_mem s3) (k_mem s4) ∧
    (r = 0 ∧ vm_filled t L own k T l s (ps ++ [p]) (vs ++ [leaf_pte p perm]) T4 l4 s4 ∨
     r = -1 ∧ ∃ s5, kfree p e s4 = Ret tt e s5 ∧ vm_filled t L own k T l s ps vs T4 [p] s5 ∧
       kept (ps ++ own) (k_mem s4) (k_mem s5)).
Proof.
  intros HF Hf3 H3 Hk3 Hk Hmax Hperm Hfl Hn. pose proof (fi_length _ _ _ _ _ _ _ _ _ _ _ _ HF) as Hlen.
  destruct HF as [F1 F2 F3 F4 F5 F6 F7 F8 F9].
  set (a := (k + Z.of_nat (length ps)) * PGSIZE). assert (Hva : vpn a = k + Z.of_nat (length ps)) by apply vpn_mul.
  destruct (map_one t L T1 (p :: ps ++ own) l1 a p perm e s3) as (r & T4 & l4 & s4 & Hr4 & Hg & Hc).
  { done. } { constructor. } { unfold a, PGSIZE. lia. } { by apply Z.mod_mul. }
  { unfold a, PGSIZE in *. lia. } { done. }
  { by rewrite Hva, F7, lookup_map_ptes, decide_False by lia. }
  rewrite F3 in Hr4. destruct Hg as [G1 G2 G3 G4 G5 G6]. exists r, T4, l4, s4. split_and!; [done|done|].
  assert (K4 : kept (ps ++ own) (k_mem s1) (k_mem s4)).
  { eapply kept_trans; [exact Hk3|]. eapply kept_sub, G5. set_solver. }
  assert (Hpg : page_ok p) by (eapply vi_page; [exact H3|constructor]).
  destruct (page_phys p Hpg) as (Hp1 & _ & Hp3). destruct (leaf_spec p perm Hp1 Hperm) as (_ & _ & L1 & L2).
  destruct Hc as [[-> Hm]|(-> & Hm & ->)]; [left|right]; (split; [done|]).
  - split.
    + eapply vm_frame_trans; [exact F1|]. by eapply vm_frame_trans.
    + eapply vm_inv_own; [|done]. rewrite <-app_assoc. apply Permutation_middle.
    + congruence.
    + etransitivity; [apply perm_shift|]. rewrite G4. etransitivity; [symmetry; apply perm_shift|].
      rewrite <-app_assoc. exact F4.
    + eapply kept_trans; [exact F5|]. eapply kept_sub, K4. set_solver.
    + by etransitivity.
    + by rewrite map_ptes_snoc, Hlen, Hm, Hva, F7.
    + rewrite fmap_app, F8. cbn [fmap list_fmap]. by rewrite L1.
    + apply Forall_app. split; [done|]. constructor; [|done]. by rewrite L2.
  - destruct (vm_kfree t L T4 (p :: ps ++ own) (ps ++ own) [] e s4 p) as (s5 & Hr5 & Hf5 & Hk5 & H5); [done..|].
    exists s5. split_and!; [done| |eapply kept_sub, Hk5; set_solver].
    split; [|done|congruence| | |by etransitivity|congruence|done|done].
    + eapply vm_frame_trans; [exact F1|]. eapply vm_frame_trans; [exact Hf3|]. by eapply vm_frame_trans.
    + rewrite app_nil_r in G4. rewrite G4. etransitivity; [symmetry; apply perm_shift|].
      rewrite <-app_assoc. exact F4.
    + eapply kept_trans; [exact F5|]. eapply kept_trans; [eapply kept_sub, K4; set_solver|].
      eapply kept_sub, Hk5. set_solver.
Qed.

(** [kalloc] with nothing left changes nothing. *)
Lemma filled_empty t L own k T l s ps vs T1 s1 s2 :
  vm_filled t L own k T l s ps vs T1 [] s1 → vm_frame s1 s2 →
  kept (pt_pages T1 ++ ps ++ own) (k_mem s1) (k_mem s2) → vm_inv t L T1 (ps ++ own) [] s2 →
  vm_filled t L own k T l s ps vs T1 [] s2.
Proof.
  intros [F1 F2 F3 F4 F5 F6 F7 F8 F9] Hf Hk H. split; [by eapply vm_frame_trans|done..| |done|done|done|done].
  eapply kept_trans; [exact F5|]. eapply kept_sub, Hk. set_solver.
Qed.

(** Clearing an owned page. *)
Lemma zero_owned t L T own l p e s :
  vm_inv t L T (p :: own) l s →
  ∃ s', do_memset p 0 PGSIZE e s = Ret tt e s' ∧
    vm_frame s s' ∧ vm_inv t L T (p :: own) l s' ∧ kept own (k_mem s) (k_mem s') ∧ zeroed (k_mem s') [p].
Proof.
  intros H. assert (Hpg : page_ok p) by (eapply vi_page; [exact H|constructor]).
  eexists. split; [reflexivity|]. split_and!.
  - apply vm_frame_mem.
  - eapply vm_inv_write; [done|constructor|]. intros x Hx. by rewrite ldb_memset, decide_False by lia.
  - destruct (own_apart _ _ _ _ _ _ _ H) as (? & ? & ?). by apply kept_memset.
  - intros q x ->%list_elem_of_singleton Hx. kproj. by rewrite ldb_memset, decide_True.
Qed.

Lemma zeroed_kept m m' ps : kept ps m m' → zeroed m ps → zeroed m' ps.
Proof. intros Hk Hz p x Hp Hx. rewrite (Hk p x Hp Hx). by eapply Hz. Qed.

(** One turn of [uvmalloc]: another page, or everything is given back. *)
Lemma uvmalloc_turn_ok t L own k T l s ps T1 l1 s1 newsz e :
  vm_filled t L own k T l s ps (uleaf <$> ps) T1 l1 s1 → zeroed (k_mem s1) ps →
  0 ≤ k → (k + Z.of_nat (length ps)) * PGSIZE < newsz →
  newsz ≤ MAXVA → (∀ i, k ≤ i < npages newsz → pt_map T !! i = None) →
  ∃ r ps' T' l' s', uvmalloc_turn (pt_root T) (k * PGSIZE) newsz ((k + Z.of_nat (length ps)) * PGSIZE) e s1 =
      Ret r e s' ∧ vm_filled t L own k T l s ps' (uleaf <$> ps') T' l' s' ∧ zeroed (k_mem s') ps' ∧
    (r = inr 0 ∧ ps' = [] ∧ (length l' ≤ length ps + 1)%nat ∨
     r = inl ((k + Z.of_nat (length ps) + 1) * PGSIZE) ∧ length ps' = S (length ps)).
Proof.
  intros HF HZ Hk Hlt Hmax Hf. unfold uvmalloc_turn. rewrite (proj2 (Z.ltb_lt _ _)) by done.
  assert (Hnp : k + Z.of_nat (length ps) < npages newsz).
  { pose proof (npages_bound newsz). unfold PGSIZE in *. lia. }
  destruct (npages_max newsz) as [_ Hnm]; [unfold PGSIZE in *; lia|].
  assert (Hundo : ∀ T2 l2 s2, vm_filled t L own k T l s ps (uleaf <$> ps) T2 l2 s2 → ∃ T' l' s',
    uvmdealloc (pt_root T) ((k + Z.of_nat (length ps)) * PGSIZE) (k * PGSIZE) e s2 = Ret (k * PGSIZE) e s' ∧
    vm_filled t L own k T l s [] [] T' l' s' ∧ length l' = (length ps + length l2)%nat).
  { intros T2 l2 s2' H2. eapply uvmdealloc_undo; [exact H2|done|unfold PGSIZE in *; lia|].
    intros i Hi. apply Hf. lia. }
  assert (Hnil : ∀ m, zeroed m []) by by intros ? ? ? ?%elem_of_nil.
  destruct (vm_kalloc t L T1 (ps ++ own) l1 e s1) as (r & s2 & Hr & Hf2 & Hk2 & Hl); [apply HF|]. mrun Hr.
  destruct l1 as [|p l1].
  - destruct Hl as [-> H2]. cbn [Z.eqb].
    destruct (Hundo T1 [] s2) as (T' & l' & s' & Hd & HF' & Hl'); [by eapply filled_empty|].
    mrun Hd. eexists _, [], T', l', s'. split_and!; [reflexivity|done|done|left; cbn in Hl'; split_and!; [done|done|lia]].
  - destruct Hl as (-> & Hp0 & H2). destruct (Z.eqb_spec p 0); [done|].
    destruct (zero_owned t L T1 (ps ++ own) l1 p e s2 H2) as (s3 & Hs3 & Hf3 & H3 & Hk3 & Hz3). mrun Hs3.
    destruct (fill_step t L own k T l s ps (uleaf <$> ps) T1 p l1 s1 s3 user_rwx e)
      as (r & T4 & l4 & s4 & Hr4 & K4 & Hc).
    { done. } { by eapply vm_frame_trans. } { done. }
    { eapply kept_trans; [|exact Hk3]. eapply kept_sub, Hk2. set_solver. }
    { done. } { unfold PGSIZE in *. lia. } { apply user_rwx_range. } { done. } { apply Hf. lia. }
    mrun Hr4. destruct Hc as [[-> HF4]|(-> & s5 & Hr5 & HF5 & _)]; cbn [Z.eqb negb].
    + rewrite u64_id by (change MAXVA with 274877906944 in *; unfold PGSIZE in *; lia).
      exists (inl ((k + Z.of_nat (length ps) + 1) * PGSIZE)), (ps ++ [p]), T4, l4, s4.
      rewrite fmap_app. split_and!; [do 2 f_equal; lia|done| |].
      * intros q x [Hq|Hq]%elem_of_app Hx; rewrite (K4 q x) by (done || set_solver); [|by eapply Hz3].
        rewrite (Hk3 q x), (Hk2 q x) by (done || set_solver). by eapply HZ.
      * right. split; [done|]. rewrite length_app. cbn. lia.
    + mrun Hr5. destruct (Hundo T4 [p] s5 HF5) as (T' & l' & s' & Hd & HF' & Hl').
      mrun Hd. eexists _, [], T', l', s'. split_and!; [reflexivity|done|done|left; cbn in Hl'; split_and!; [done|done|lia]].
Qed.

Lemma vm_filled_refl t L own k T l s : vm_inv t L T own l s → vm_filled t L own k T l s [] [] T l s.
Proof.
  intros H. split; [apply vm_frame_refl|done|done|done|apply kept_refl|done|done|done|done].
Qed.

(** [uvmalloc] maps zeroed pages up to the new size, or nothing. *)
Lemma uvmalloc_ok t L T own l oldsz newsz e s :
  vm_inv t L T own l s → 0 ≤ oldsz ≤ newsz → newsz ≤ MAXVA →
  (∀ k, npages oldsz ≤ k < npages newsz → pt_map T !! k = None) →
  ∃ r ps T' l' s', uvmalloc (pt_root T) oldsz newsz e s = Ret r e s' ∧
    vm_filled t L own (npages oldsz) T l s ps (uleaf <$> ps) T' l' s' ∧ zeroed (k_mem s') ps ∧
    (r = newsz ∧ Z.of_nat (length ps) = npages newsz - npages oldsz ∨
     r = 0 ∧ ps = [] ∧ Z.of_nat (length l') ≤ npages newsz - npages oldsz).
Proof.
  intros H Hsz Hmax Hf. unfold uvmalloc. rewrite (proj2 (Z.ltb_ge _ _)) by lia.
  rewrite PGROUNDUP_npages by lia. destruct (npages_max oldsz) as [Hk Hk1]; [lia|].
  pose proof (npages_bound newsz) as Hnb. pose proof (npages_mono oldsz newsz) as Hmono.
  set (k := npages oldsz) in *.
  set (I := λ (a : Z) (e' : list (kstate → kstate)) (s' : kstate), e' = e ∧
    ∃ ps T' l', a = (k + Z.of_nat (length ps)) * PGSIZE ∧ k + Z.of_nat (length ps) ≤ npages newsz ∧
      vm_filled t L own k T l s ps (uleaf <$> ps) T' l' s' ∧ zeroed (k_mem s') ps).
  destruct (loop_measure (uvmalloc_turn (pt_root T) (k * PGSIZE) newsz) (λ a _ _, npages newsz * PGSIZE - a) I
    (λ r e' s', e' = e ∧ ∃ ps T' l', vm_filled t L own k T l s ps (uleaf <$> ps) T' l' s' ∧ zeroed (k_mem s') ps ∧
      (r = newsz ∧ Z.of_nat (length ps) = npages newsz - k ∨ r = 0 ∧ ps = [] ∧ Z.of_nat (length l') ≤ npages newsz - k)) (k * PGSIZE) e s)
    as (r & e' & s' & Hr & -> & ps & T' & l' & HF & HZ & Hc).
  - intros a e1 s1 (-> & ps & T1 & l1 & -> & Hle & HF & HZ). split; [unfold PGSIZE; lia|].
    destruct (Z.lt_ge_cases ((k + Z.of_nat (length ps)) * PGSIZE) newsz) as [Hlt|Hge].
    + destruct (uvmalloc_turn_ok t L own k T l s ps T1 l1 s1 newsz e) as (r & ps' & T' & l' & s' & Hr & HF' & HZ' & Hc);
        [done..|]. exists r, e, s'. split; [done|].
      destruct Hc as [(-> & -> & Hl')|[-> Hlen]].
      { split; [done|]. exists [], T', l'. split_and!; [done|done|right]. split_and!; [done|done|unfold PGSIZE in *; lia]. }
      split; [|unfold PGSIZE; lia]. split; [done|]. exists ps', T', l'. rewrite Hlen.
      split_and!; [f_equal; lia|unfold PGSIZE in *; lia|done|done].
    + unfold uvmalloc_turn. rewrite (proj2 (Z.ltb_ge _ _)) by lia. eexists _, _, _. split; [reflexivity|].
      split; [done|]. exists ps, T1, l1. split_and!; [done|done|left]. split; [done|]. unfold PGSIZE in *. lia.
  - split; [done|]. exists [], T, l. cbn [length Z.of_nat]. rewrite Z.add_0_r.
    split_and!; [done|lia|by apply vm_filled_refl|by intros ? ? ?%elem_of_nil].
  - change (2 ^ 64) with 18446744073709551616. change MAXVA with 274877906944 in *. unfold PGSIZE in *. lia.
  - exists r, ps, T', l', s'. done.
Qed.

(** The pages taken from the free list: those of the tree and those mapped. *)
Lemma filled_taken t L own k T l s ps vs T' l' s' :
  vm_filled t L own k T l s ps vs T' l' s' → ∃ tp, pt_pages T' ≡ₚ pt_pages T ++ tp ∧ l ≡ₚ tp ++ ps ++ l'.
Proof.
  intros [F1 F2 F3 F4 F5 F6 F7 F8 F9]. destruct (submseteq_Permutation (pt_pages T) (pt_pages T')) as [tp Htp].
  { unfold pt_pages. apply fmap_submseteq. by apply map_to_list_submseteq. }
  exists tp. split; [done|]. rewrite Htp, <-app_assoc in F4. by apply Permutation_app_inv_l in F4.
Qed.

(** C24: Growing a process is all or nothing: [uvmalloc] either maps a fresh
    zeroed page at every page of the new range and returns the new size, or
    returns 0 with every mapping as it was and every data page it had taken
    back on the free list.  In both cases the pages that left the free list are
    exactly the pages now mapped ([ps]) and new pages of the page table ([tp]),
    which stay in the tree also after a failure; and it fails only for want of
    memory: the free list then has no more than the pages asked for.  The
    pages of the rest of the system and the rest of the state are untouched. *)
Theorem uvmalloc_all_or_nothing t L T own l oldsz newsz e s :
  vm_inv t L T own l s → 0 ≤ oldsz ≤ newsz → newsz ≤ MAXVA →
  (∀ k, npages oldsz ≤ k < npages newsz → pt_map T !! k = None) →
  ∃ r ps tp T' l' s', uvmalloc (pt_root T) oldsz newsz e s = Ret r e s' ∧
    vm_inv t L T' (ps ++ own) l' s' ∧ vm_frame s s' ∧ kept own (k_mem s) (k_mem s') ∧
    pt_pages T' ≡ₚ pt_pages T ++ tp ∧ l ≡ₚ tp ++ ps ++ l' ∧
    (r = newsz ∧ pt_map T' = map_ptes (pt_map T) (npages oldsz) (uleaf <$> ps) ∧
       Z.of_nat (length ps) = npages newsz - npages oldsz ∧ zeroed (k_mem s') ps ∨
     r = 0 ∧ pt_map T' = pt_map T ∧ ps = [] ∧ Z.of_nat (length l') ≤ npages newsz - npages oldsz).
Proof.
  intros H Hsz Hmax Hf. destruct (uvmalloc_ok t L T own l oldsz newsz e s) as (r & ps & T' & l' & s' & Hr & HF & HZ & Hc);
    [done..|]. destruct (filled_taken _ _ _ _ _ _ _ _ _ _ _ _ HF) as (tp & Htp & Hl). destruct HF as [F1 F2 F3 F4 F5 F6 F7 F8 F9].
  exists r, ps, tp, T', l', s'. split_and!; [done..|]. destruct Hc as [[-> Hlen]|(-> & -> & Hle)]; [by left|by right].
Qed.

(** * Copying an address space *)

Lemma flags_valid v : has v PTE_V = true → Z.lor (PTE_FLAGS v) PTE_V = PTE_FLAGS v.
Proof.
  intros H. unfold has in H. destruct (Z.eqb_spec (Z.land v PTE_V) 0) as [|Hv]; [done|].
  assert (Hodd : Z.testbit v 0 = true).
  { change PTE_V with (Z.ones 1) in Hv. rewrite Z.land_ones in Hv by lia.
    rewrite Z.bit0_odd. change (2 ^ 1) with 2 in Hv. rewrite Zmod_odd in Hv. by destruct (Z.odd v). }
  apply Z.bits_inj'. intros n Hn. unfold PTE_FLAGS. rewrite Z.lor_spec, Z.land_spec.
  destruct (decide (n = 0)) as [->|]; [by rewrite Hodd|].
  change PTE_V with 1. rewrite (Z.bits_above_log2 1 n) by (cbn; lia). by rewrite orb_false_r.
Qed.

(** The pages [ps], mapped by [vs], hold what the pages of [fo] held in [m0]. *)
Record copied (fo : gmap Z Z) (m0 m : mem) (ps vs : list Z) : Prop := {
  cp_pte k p v : ps !! k = Some p → fo !! Z.of_nat k = Some v → vs !! k = Some (leaf_pte p (PTE_FLAGS v));
  cp_data k p v o : ps !! k = Some p → fo !! Z.of_nat k = Some v → 0 ≤ o < PGSIZE →
    ldb m (p + o) = ldb m0 (PTE2PA v + o)
}.

Lemma copied_kept fo m0 m m' ps vs : kept ps m m' → copied fo m0 m ps vs → copied fo m0 m' ps vs.
Proof.
  intros Hk [C1 C2]. split; [done|]. intros k p v o Hp Hv Ho.
  rewrite (Hk p (p + o)); [by eapply C2|by eapply list_elem_of_lookup_2|lia].
Qed.

Lemma copied_snoc fo m0 m ps vs p v :
  length vs = length ps → copied fo m0 m ps vs → fo !! Z.of_nat (length ps) = Some v →
  (∀ o, 0 ≤ o < PGSIZE → ldb m (p + o) = ldb m0 (PTE2PA v + o)) →
  copied fo m0 m (ps ++ [p]) (vs ++ [leaf_pte p (PTE_FLAGS v)]).
Proof.
  intros Hlen [C1 C2] Hv Hd. split.
  - intros k q w [Hq|[Hk Hq]]%lookup_app_Some Hw.
    + rewrite lookup_app_l; [by eapply C1|]. rewrite Hlen. by eapply lookup_lt_Some.
    + apply list_lookup_singleton_Some in Hq as [Hk0 <-].
      assert (k = length ps) as -> by lia. rewrite Hv in Hw. injection Hw as <-.
      by rewrite <-Hlen, list_lookup_middle.
  - intros k q w o [Hq|[Hk Hq]]%lookup_app_Some Hw Ho; [by eapply C2|].
    apply list_lookup_singleton_Some in Hq as [Hk0 <-].
    assert (k = length ps) as -> by lia. rewrite Hv in Hw. injection Hw as <-. by apply Hd.
Qed.

Lemma copy_owned t L T own l p src e s :
  vm_inv t L T (p :: own) l s →
  ∃ s', do_memmove p src PGSIZE e s = Ret tt e s' ∧
    vm_frame s s' ∧ vm_inv t L T (p :: own) l s' ∧ kept own (k_mem s) (k_mem s') ∧
    (∀ o, 0 ≤ o < PGSIZE → ldb (k_mem s') (p + o) = ldb (k_mem s) (src + o)).
Proof.
  intros H. destruct (own_apart _ _ _ _ _ _ _ H) as (? & ? & ?).
  assert (Hm : ∀ x, x < p ∨ p + PGSIZE ≤ x → ldb (memmove (k_mem s) p src PGSIZE) x = ldb (k_mem s) x).
  { intros x Hx. by rewrite ldb_memmove, decide_False by (done || lia). }
  eexists. split; [reflexivity|]. split_and!; [apply vm_frame_mem| |by eapply kept_write|].
  - eapply vm_inv_write; [done|constructor|done].
  - intros o Ho. kproj. rewrite ldb_memmove, decide_True by (done || lia). f_equal. lia.
Qed.

(** The parent: its tree and its pages are among the pages others own, and
    the first [n] virtual pages are mapped. *)
Record parent (own : list Z) (m : mem) (To : ptree) (n : Z) : Prop := {
  pa_rep : pt_rep m To;
  pa_tree : pt_pages To ⊆ own;
  pa_map k : 0 ≤ k < n → ∃ v, pt_map To !! k = Some v ∧ PTE_FLAGS v ≠ PTE_V ∧ PTE2PA v ∈ own
}.

Lemma parent_kept own m m' To n : kept own m m' → parent own m To n → parent own m' To n.
Proof.
  intros Hk [P1 P2 P3]. split; [|done|done]. eapply pt_rep_ext, P1.
  intros p x Hp Hx. apply (Hk p); [by apply P2|done].
Qed.

(** One turn of [uvmcopy]. *)
Lemma uvmcopy_turn_ok t L own T l s To ps vs T1 l1 s1 sz e :
  vm_filled t L own 0 T l s ps vs T1 l1 s1 → parent own (k_mem s) To (npages sz) →
  copied (pt_map To) (k_mem s) (k_mem s1) ps vs →
  Z.of_nat (length ps) * PGSIZE < sz → sz ≤ MAXVA → (∀ i, 0 ≤ i < npages sz → pt_map T !! i = None) →
  ∃ r ps' vs' T' l' s', uvmcopy_turn (pt_root To) (pt_root T) sz (Z.of_nat (length ps) * PGSIZE) e s1 = Ret r e s' ∧
    vm_filled t L own 0 T l s ps' vs' T' l' s' ∧ copied (pt_map To) (k_mem s) (k_mem s') ps' vs' ∧
    (r = inr (Z.of_nat (length ps') * PGSIZE, false) ∧ length ps' = length ps ∧ (length l' ≤ 1)%nat ∨
     r = inl (Z.of_nat (length ps') * PGSIZE) ∧ length ps' = S (length ps)).
Proof.
  intros HF HP HC Hlt Hmax Hf. unfold uvmcopy_turn. rewrite (proj2 (Z.ltb_lt _ _)) by done.
  assert (Hnp : Z.of_nat (length ps) < npages sz).
  { pose proof (npages_bound sz). unfold PGSIZE in *. lia. }
  destruct (npages_max sz) as [_ Hnm]; [unfold PGSIZE in *; lia|].
  assert (Hva : vpn (Z.of_nat (length ps) * PGSIZE) = Z.of_nat (length ps)) by apply vpn_mul.
  assert (HP1 : parent own (k_mem s1) To (npages sz)) by (eapply parent_kept, HP; apply HF).
  destruct HP1 as [P1 P2 P3]. destruct (P3 (Z.of_nat (length ps))) as (v & Hv & Hfl & Hin); [lia|].
  destruct (rep_leaf _ _ P1 _ _ Hv) as (HV & _ & [q Hq]).
  assert (Hr : 0 ≤ Z.of_nat (length ps) * PGSIZE < MAXVA) by (unfold PGSIZE in *; lia).
  mrun (walk_lookup To _ e s1 P1 Hr). unfold pte_addr. rewrite <-Hva, <-key_0 in Hq. rewrite Hq.
  destruct (Z.eqb_spec (q + 8 * PX 0 (Z.of_nat (length ps) * PGSIZE)) 0) as [Hz|_].
  { exfalso. pose proof (node_page _ _ _ _ _ P1 Hq) as Hq'%page_ok_pos. rewrite PX_0 in Hz by done.
    pose proof (Z.mod_pos_bound (vpn (Z.of_nat (length ps) * PGSIZE)) 512). lia. }
  unfold rd64. mstep. rewrite (leaf_value _ To) by done. rewrite Hva, Hv. cbn [default]. cbv [id].
  rewrite HV. cbn [negb].
  destruct (vm_kalloc t L T1 (ps ++ own) l1 e s1) as (r & s2 & Hr2 & Hf2 & Hk2 & Hl); [apply HF|]. mrun Hr2.
  destruct l1 as [|p l1].
  - destruct Hl as [-> H2]. cbn [Z.eqb]. eexists _, ps, vs, T1, [], s2. split_and!; [reflexivity| | |left; cbn; auto].
    + by eapply filled_empty.
    + eapply copied_kept, HC. eapply kept_sub, Hk2. set_solver.
  - destruct Hl as (-> & Hp0 & H2). destruct (Z.eqb_spec p 0); [done|].
    destruct (copy_owned t L T1 (ps ++ own) l1 p (PTE2PA v) e s2 H2) as (s3 & Hs3 & Hf3 & H3 & Hk3 & Hd3). mrun Hs3.
    assert (K3 : kept (ps ++ own) (k_mem s1) (k_mem s3)).
    { eapply kept_trans; [|exact Hk3]. eapply kept_sub, Hk2. set_solver. }
    destruct (fill_step t L own 0 T l s ps vs T1 p l1 s1 s3 (PTE_FLAGS v) e)
      as (r & T4 & l4 & s4 & Hr4 & K4 & Hc); [done|by eapply vm_frame_trans|done|done|done| | | | |].
    { unfold PGSIZE in *. lia. }
    { rewrite PTE_FLAGS_spec. apply Z.mod_pos_bound. lia. }
    { by rewrite flags_valid. }
    { apply Hf. lia. }
    rewrite Z.add_0_l in Hr4. mrun Hr4.
    assert (HC4 : copied (pt_map To) (k_mem s) (k_mem s4) ps vs).
    { eapply copied_kept, copied_kept, HC; [eapply kept_sub, K4|eapply kept_sub, K3]; set_solver. }
    destruct Hc as [[-> HF4]|(-> & s5 & Hr5 & HF5 & K5)]; cbn [Z.eqb negb].
    + rewrite u64_id by (change MAXVA with 274877906944 in *; unfold PGSIZE in *; lia).
      exists (inl (Z.of_nat (length (ps ++ [p])) * PGSIZE)), (ps ++ [p]), (vs ++ [leaf_pte p (PTE_FLAGS v)]), T4, l4, s4.
      rewrite length_app. cbn [length]. split_and!; [do 2 f_equal; lia|done| |right; split; [done|lia]].
      apply copied_snoc; [by eapply fi_length|done|done|]. intros o Ho.
      rewrite (K4 p (p + o)); [|constructor|lia]. rewrite Hd3 by done.
      rewrite (Hk2 (PTE2PA v)); [|rewrite !elem_of_app; auto|lia].
      apply (fi_kept _ _ _ _ _ _ _ _ _ _ _ _ HF (PTE2PA v)); [done|lia].
    + mrun Hr5. eexists _, ps, vs, T4, [p], s5. split_and!; [reflexivity|done| |left; cbn; auto].
      eapply copied_kept, HC4. eapply kept_sub, K5. set_solver.
Qed.

(** [uvmcopy] copies every page of the parent, or nothing. *)
Lemma uvmcopy_ok t L T own l To sz e s :
  vm_inv t L T own l s → parent own (k_mem s) To (npages sz) → 0 ≤ sz ≤ MAXVA →
  (∀ k, 0 ≤ k < npages sz → pt_map T !! k = None) →
  ∃ r ps vs T' l' s', uvmcopy (pt_root To) (pt_root T) sz e s = Ret r e s' ∧
    vm_filled t L own 0 T l s ps vs T' l' s' ∧ copied (pt_map To) (k_mem s) (k_mem s') ps vs ∧
    (r = 0 ∧ Z.of_nat (length ps) = npages sz ∨ r = -1 ∧ ps = [] ∧ Z.of_nat (length l') ≤ npages sz).
Proof.
  intros H HP Hsz Hf. unfold uvmcopy.
  destruct (npages_max sz) as [Hk Hk1]; [lia|]. pose proof (npages_bound sz) as Hnb.
  set (I := λ (a : Z) (e' : list (kstate → kstate)) (s' : kstate), e' = e ∧
    ∃ ps vs T' l', a = Z.of_nat (length ps) * PGSIZE ∧ Z.of_nat (length ps) ≤ npages sz ∧
      vm_filled t L own 0 T l s ps vs T' l' s' ∧ copied (pt_map To) (k_mem s) (k_mem s') ps vs).
  destruct (loop_measure (uvmcopy_turn (pt_root To) (pt_root T) sz) (λ a _ _, npages sz * PGSIZE - a) I
    (λ r e' s', e' = e ∧ ∃ ps vs T' l' (b : bool), r = (Z.of_nat (length ps) * PGSIZE, b) ∧
      Z.of_nat (length ps) ≤ npages sz ∧
      vm_filled t L own 0 T l s ps vs T' l' s' ∧ copied (pt_map To) (k_mem s) (k_mem s') ps vs ∧
      (b = true → Z.of_nat (length ps) = npages sz) ∧
      (b = false → Z.of_nat (length ps + length l') ≤ npages sz)) 0 e s)
    as (r & e' & s1 & Hr & -> & ps & vs & T1 & l1 & b & -> & Hle & HF & HC & Hb & Hb').
  - intros a e1 s1 (-> & ps & vs & T1 & l1 & -> & Hle & HF & HC). split; [unfold PGSIZE; lia|].
    destruct (Z.lt_ge_cases (Z.of_nat (length ps) * PGSIZE) sz) as [Hlt|Hge].
    + destruct (uvmcopy_turn_ok t L own T l s To ps vs T1 l1 s1 sz e) as (r & ps' & vs' & T' & l' & s' & Hr & HF' & HC' & Hc);
        [done..|lia|done|]. exists r, e, s'. split; [done|].
      destruct Hc as [(-> & Hlen & Hl')|[-> Hlen]].
      * split; [done|]. exists ps', vs', T', l', false. split_and!; [done|lia|done|done|done|unfold PGSIZE in *; lia].
      * split; [|unfold PGSIZE; lia]. split; [done|]. exists ps', vs', T', l'.
        split_and!; [done|unfold PGSIZE in *; lia|done|done].
    + unfold uvmcopy_turn. rewrite (proj2 (Z.ltb_ge _ _)) by lia. eexists _, _, _. split; [reflexivity|].
      split; [done|]. exists ps, vs, T1, l1, true. split_and!; [done|done|done|done| |done]. unfold PGSIZE in *. lia.
  - split; [done|]. exists [], [], T, l. split_and!; [done|done|by apply vm_filled_refl|by split].
  - change (2 ^ 64) with 18446744073709551616. change MAXVA with 274877906944 in *. unfold PGSIZE in *. lia.
  - mrun Hr. destruct b.
    { exists 0, ps, vs, T1, l1, s1. split_and!; [done|done|done|left; auto]. }
    rewrite Z.div_mul by done.
    destruct (uvmunmap_ok t L T1 (ps ++ own) own l1 0 (length ps) true e s1) as (T' & s' & Hr' & Hs & Hm).
    { apply HF. } { done. } { done. } { unfold PGSIZE in *. lia. }
    { intros k Hk'. change (vpn 0) with 0 in Hk'. by eapply filled_leaf. }
    { change (vpn 0) with 0. cbn [if_freed]. by erewrite filled_dpages. }
    change (vpn 0) with 0 in *. cbn [if_freed] in Hs. erewrite filled_dpages in Hs by done.
    rewrite (fi_root _ _ _ _ _ _ _ _ _ _ _ _ HF) in Hr'. mrun Hr'.
    exists (-1), [], [], T', (reverse ps ++ l1), s'.
    split_and!; [done| |by split|right; rewrite length_app, length_reverse; auto].
    eapply filled_undo; [done| |done|done]. intros i Hi. apply Hf. lia.
Qed.

End uvm.

(** * A small machine

    Eight free pages above the kernel image: a parent whose tree takes three
    pages and maps one, an empty tree, and three free pages. *)

Definition tiny_linker : Linker := mkLinker (PHYSTOP - 8 * PGSIZE) KERNBASE KERNBASE 0 0 0 0 0 0 0 0 0 0.
#[export] Instance tiny_linker_ok : LinkerOk tiny_linker.
Proof. split; done. Defined.

Definition page (i : Z) : Z := PHYSTOP - (i + 1) * PGSIZE.

Lemma page_page_ok i : 0 ≤ i < 8 → page_ok (lnk := tiny_linker) (page i).
Proof.
  intros Hi. unfold page. split; [|cbn [kend tiny_linker]; unfold PGSIZE; lia].
  unfold PHYSTOP, KERNBASE, PGSIZE. replace (2147483648 + 128 * 1024 * 1024 - (i + 1) * 4096) with ((557056 - (i + 1)) * 4096) by lia.
  by apply Z.mod_mul.
Qed.

Definition empty_tree (r : Z) : ptree := mkPtree r {[(2, 0) := r]} ∅.

Lemma empty_tree_rep m i :
  0 ≤ i < 8 → (∀ x, page i ≤ x < page i + PGSIZE → ldb m x = 0) →
  pt_rep (lnk := tiny_linker) m (empty_tree (page i)).
Proof.
  intros Hi Hz. unfold empty_tree. split; cbn [pt_root pt_nodes pt_map].
  - apply lookup_singleton_eq.
  - intros l k p j Hp Hj. apply lookup_singleton_Some in Hp as [[= <- <-] <-].
    unfold pt_entry. cbn [Z.eqb pt_nodes pt_map]. rewrite lookup_singleton_ne by done.
    apply ld64_all_zero. intros x Hx. apply Hz. unfold PGSIZE. lia.
  - intros l k p [[= <- <-] <-]%lookup_singleton_Some ?. done.
  - intros l k p [[= <- <-] <-]%lookup_singleton_Some. lia.
  - intros k v Hv. by rewrite lookup_empty in Hv.
  - unfold pt_pages. cbn [pt_nodes]. rewrite map_to_list_singleton. constructor; [by apply page_page_ok|constructor].
  - unfold pt_pages. cbn [pt_nodes]. rewrite map_to_list_singleton. apply NoDup_singleton.
Qed.

(** The parent: virtual page 0 is mapped to [page 3]. *)
Definition tree1 : ptree :=
  set_leaf (add_node (add_node (empty_tree (page 0)) 1 0 (page 1)) 0 0 (page 2)) 0 (Some (uleaf (page 3))).
Definition mem1 : mem :=
  st64 (st64 (memset (st64 (memset ∅ (page 1) 0 PGSIZE) (page 0) (Z.lor (PA2PTE (page 1)) PTE_V))
    (page 2) 0 PGSIZE) (page 1) (Z.lor (PA2PTE (page 2)) PTE_V)) (page 2) (uleaf (page 3)).

Lemma tree1_pages : pt_pages tree1 ≡ₚ [page 2; page 1; page 0].
Proof.
  change (pt_pages tree1) with
    (pt_pages (add_node (add_node (empty_tree (page 0)) 1 0 (page 1)) 0 0 (page 2))).
  rewrite !pt_pages_add by done. unfold pt_pages. cbn [empty_tree pt_nodes]. by rewrite map_to_list_singleton.
Qed.

Lemma tree1_rep : pt_rep (lnk := tiny_linker) mem1 tree1.
Proof.
  unfold tree1, mem1.
  assert (H0 : pt_rep (lnk := tiny_linker) ∅ (empty_tree (page 0))) by (by apply empty_tree_rep).
  assert (Hp0 : pt_pages (empty_tree (page 0)) = [page 0]).
  { unfold pt_pages. cbn [empty_tree pt_nodes]. by rewrite map_to_list_singleton. }
  assert (H1 := pt_rep_add_node _ _ (page 0) 1 0 (page 1) H0 ltac:(lia) ltac:(lia) eq_refl eq_refl
    (page_page_ok 1 ltac:(lia)) ltac:(by rewrite Hp0; intros ?%list_elem_of_singleton)).
  assert (Hp1 : pt_pages (add_node (empty_tree (page 0)) 1 0 (page 1)) ≡ₚ [page 1; page 0]).
  { rewrite pt_pages_add by done. by rewrite Hp0. }
  assert (H2 := pt_rep_add_node _ _ (page 1) 0 0 (page 2) H1 ltac:(lia) ltac:(lia) eq_refl eq_refl
    (page_page_ok 2 ltac:(lia)) ltac:(rewrite Hp1; by rewrite !elem_of_cons, elem_of_nil; intros [?|[?|?]])).
  apply (pt_rep_set_leaf _ _ (page 2) 0 (Some (uleaf (page 3))) H2); [done|]. by intros x [= <-].
Qed.

(** The machine: [page 4] holds an empty tree, [page 5] to [page 7] are free. *)
Definition tiny_free : list Z := [page 5; page 6; page 7].
Definition tiny_mem : mem := st64 (st64 (st64 mem1 (page 7) 0) (page 6) (page 7)) (page 5) (page 6).
Definition tiny_state : kstate := set_k_mem tiny_mem (set_k_freelist (page 5) (zero_kstate true)).
Definition tiny_own : list Z := pt_pages tree1 ++ [page 3].

Lemma tiny_ldb i x : 0 ≤ i < 5 → page i ≤ x < page i + PGSIZE → ldb tiny_mem x = ldb mem1 x.
Proof.
  intros Hi Hx. unfold tiny_mem, page, PGSIZE in *. by rewrite !ldb_st64_ne by lia.
Qed.

Lemma tiny_tree1 : pt_rep (lnk := tiny_linker) tiny_mem tree1.
Proof.
  eapply pt_rep_ext, tree1_rep. intros p x Hp Hx. rewrite tree1_pages in Hp.
  rewrite !elem_of_cons, elem_of_nil in Hp. destruct Hp as [-> |[-> |[-> |[]]]]; eapply tiny_ldb, Hx; lia.
Qed.

Lemma tiny_kmem : kmem_inv (lnk := tiny_linker) tiny_mem (page 5) tiny_free.
Proof.
  apply Build_kmem_inv.
  - unfold tiny_free, is_freelist, tiny_mem. split; [done|].
    rewrite ld64_st64_eq. split; [done|].
    rewrite ld64_st64_ne, ld64_st64_eq by (unfold page, PGSIZE; lia). split; [done|].
    rewrite !ld64_st64_ne, ld64_st64_eq by (unfold page, PGSIZE; lia). done.
  - by apply (bool_decide_eq_true_1 _).
  - repeat constructor; apply page_page_ok; lia.
Qed.

Lemma tiny_inv :
  vm_inv (lnk := tiny_linker) (mkthread 0 None true) [] (empty_tree (page 4)) tiny_own tiny_free tiny_state.
Proof.
  split.
  - apply zero_ctx.
  - apply not_elem_of_nil.
  - unfold tiny_state. kproj. apply empty_tree_rep; [lia|]. intros x Hx. rewrite (tiny_ldb 4) by (lia || done).
    unfold mem1, page, PGSIZE in *. repeat ((rewrite ldb_st64_ne by lia) || (rewrite ldb_memset, decide_False by lia)).
    unfold ldb. by rewrite lookup_empty.
  - unfold tiny_state. kproj. exact tiny_kmem.
  - unfold tiny_own. rewrite tree1_pages. unfold pt_pages, empty_tree. cbn [pt_nodes]. rewrite map_to_list_singleton.
    apply (bool_decide_eq_true_1 _). vm_compute. reflexivity.
  - unfold tiny_own. rewrite tree1_pages. cbn [app]. repeat apply Forall_cons_2; try apply page_page_ok; try lia. constructor.
Qed.

Lemma uvmalloc_all_or_nothing_witness :
  ∃ r s', uvmalloc (lnk := tiny_linker) (page 4) 0 100 [] tiny_state = Ret r [] s' ∧ (r = 100 ∨ r = 0).
Proof.
  destruct (uvmalloc_all_or_nothing (lnk := tiny_linker) (mkthread 0 None true) [] (empty_tree (page 4)) tiny_own
    tiny_free 0 100 [] tiny_state tiny_inv) as (r & ps & tp & T' & l' & s' & Hr & _ & _ & _ & _ & _ & Hc).
  - lia.
  - done.
  - intros k _. done.
  - exists r, s'. split; [exact Hr|]. destruct Hc as [[-> _]|[-> _]]; [by left|by right].
Defined.
