(* ===== verification/Uvmfree.v ===== *)
(** Freeing an address space: [freewalk] and [uvmfree] give every page back. *)

From S2P Require Import Prelude Mem KString Params Kernel Spinlock Kalloc Vm Uvm.

Section free.
Context {lnk : Linker} {lnk_ok : LinkerOk lnk}.

(** The pages of RAM are divided between [own] and the free list [l]. *)
Record al_inv (t : thread) (L : list lockid) (own l : list Z) (s : kstate) : Prop := {
  al_ctx : ctx t L (k_core s);
  al_kmem : L_kmem ∉ L;
  al_free : kmem_inv (k_mem s) (k_freelist s) l;
  al_nodup : NoDup (own ++ l);
  al_own : Forall page_ok own
}.

Lemma vm_al t L T own l s : vm_inv t L T own l s → al_inv t L (pt_pages T ++ own) l s.
Proof.
  intros H. split; [apply H|apply H|apply H|rewrite <-app_assoc; apply H|].
  apply Forall_app. split; [apply (vi_rep _ _ _ _ _ _ H)|apply H].
Qed.

Lemma al_kfree t L own own' l e s p :
  al_inv t L own l s → own ≡ₚ p :: own' →
  ∃ s', kfree p e s = Ret tt e s' ∧ vm_frame s s' ∧ kept own' (k_mem s) (k_mem s') ∧
    al_inv t L own' (p :: l) s'.
Proof.
  intros [A1 A2 A3 A4 A5] HP. rewrite HP in A4, A5. clear HP own.
  cbn [app] in A4. apply Forall_cons in A5 as [Hpg Hown]. pose proof A4 as [Hn _]%NoDup_cons.
  destruct (kfree_ok t L l p e s) as (c & Hr & Hc); [done..|set_solver|].
  eexists. split_and!; [exact Hr|by eexists _, _, _| |].
  - eapply kept_write; [exact Hpg|done|set_solver|apply ldb_kfree_mem].
  - split; [exact Hc|done|by apply kfree_inv; [..|set_solver]|by rewrite <-Permutation_middle|done].
Qed.

Lemma al_write t L own l s p m' :
  al_inv t L own l s → p ∈ own →
  (∀ x, x < p ∨ p + PGSIZE ≤ x → ldb m' x = ldb (k_mem s) x) → al_inv t L own l (set_k_mem m' s).
Proof.
  intros [A1 A2 A3 A4 A5] Hp Hm. split; [done|done| |done|done].
  rewrite Forall_forall in A5. apply NoDup_app in A4 as (_ & Hd & _).
  by eapply kmem_inv_write; [apply A5, Hp|by apply Hd|exact Hm|].
Qed.

Section tree.
Context (T : ptree).

(** The pages of the subtree of node [(lv, k)]. *)
Fixpoint tree_pages (lv : nat) (k : Z) : list Z :=
  match pt_nodes T !! (Z.of_nat lv, k) with
  | None => []
  | Some p =>
      p :: seq 0 512 ≫= λ j, match lv with O => [] | S lv' => tree_pages lv' (512 * k + Z.of_nat j) end
  end.
Definition child_pages (lv : nat) (k : Z) (j : nat) : list Z :=
  match lv with O => [] | S lv' => tree_pages lv' (512 * k + Z.of_nat j) end.

Lemma tree_pages_eq lv k :
  tree_pages lv k =
  match pt_nodes T !! (Z.of_nat lv, k) with None => [] | Some p => p :: (seq 0 512 ≫= child_pages lv k) end.
Proof. by destruct lv. Qed.

(** The slots of the subtree are those of [T]. *)
Fixpoint tree_ok (m : mem) (lv : nat) (k : Z) : Prop :=
  ∀ p, pt_nodes T !! (Z.of_nat lv, k) = Some p →
    (∀ j, (j < 512)%nat → ld64 m (p + 8 * Z.of_nat j) = pt_entry T (Z.of_nat lv) (512 * k + Z.of_nat j)) ∧
    (∀ j, (j < 512)%nat → match lv with O => True | S lv' => tree_ok m lv' (512 * k + Z.of_nat j) end).
Definition child_ok (m : mem) (lv : nat) (k : Z) (j : nat) : Prop :=
  match lv with O => True | S lv' => tree_ok m lv' (512 * k + Z.of_nat j) end.

Lemma tree_ok_kept lv k m m' : kept (tree_pages lv k) m m' → tree_ok m lv k → tree_ok m' lv k.
Proof.
  revert k. induction lv as [|lv IH]; intros k Hk Hok p Hp; rewrite tree_pages_eq, Hp in Hk;
    destruct (Hok p Hp) as [H1 H2]; split; try done.
  1,2: intros j Hj; rewrite <-H1 by done; apply ld64_ext; intros x Hx; apply (Hk p);
    [constructor|unfold PGSIZE; lia].
  intros j Hj. apply IH; [|by apply H2]. eapply kept_sub, Hk. intros q Hq. apply list_elem_of_further.
  apply list_elem_of_bind. exists j. split; [done|]. apply elem_of_seq. lia.
Qed.

Lemma pt_rep_tree_ok m lv k : pt_rep m T → tree_ok m lv k.
Proof.
  intros H. revert k. induction lv as [|lv IH]; intros k p Hp; (split; [|done || (intros; apply IH)]);
    intros j Hj; by apply (rep_slots _ _ H _ _ _ _ Hp); lia.
Qed.

Lemma child_ok_kept lv k j m m' : kept (child_pages lv k j) m m' → child_ok m lv k j → child_ok m' lv k j.
Proof. destruct lv; [done|]. apply tree_ok_kept. Qed.

Lemma node_not_leaf q : page_ok q → Z.land (node_pte (Some q)) (Z.lor (Z.lor PTE_R PTE_W) PTE_X) = 0.
Proof.
  intros Hq. destruct (page_phys q Hq) as (Hq1 & _ & _). change (2 ^ 56) with 72057594037927936 in Hq1.
  assert (Hfl : PTE_FLAGS (node_pte (Some q)) = PTE_V).
  { apply PTE_FLAGS_pack; [change (2 ^ 64) with 18446744073709551616; lia|done]. }
  change (Z.lor (Z.lor PTE_R PTE_W) PTE_X) with (Z.land 0x3FF 14). rewrite Z.land_assoc.
  unfold PTE_FLAGS in Hfl. by rewrite Hfl.
Qed.
End tree.
(** The rest of a node's children, from the [i]th. *)
Definition rest (T : ptree) (lv : nat) (k : Z) (i : nat) : list Z := seq i (512 - i) ≫= child_pages T lv k.

Lemma rest_step T lv k i :
  (i < 512)%nat → rest T lv k i = child_pages T lv k i ++ rest T lv k (S i).
Proof. intros Hi. unfold rest. replace (512 - i)%nat with (S (512 - S i)) by lia. done. Qed.

(** What [freewalk] does to node [(lv, k)], at page [p]. *)
Definition freewalk_spec (T : ptree) (lv fuel : nat) : Prop :=
  ∀ k p t L own own' l e s,
    pt_nodes T !! (Z.of_nat lv, k) = Some p → tree_ok T (k_mem s) lv k →
    al_inv t L own l s → own ≡ₚ tree_pages T lv k ++ own' →
    ∃ l' s', freewalk_fuel fuel p e s = Ret tt e s' ∧ vm_frame s s' ∧ al_inv t L own' l' s' ∧
      l' ≡ₚ tree_pages T lv k ++ l ∧ kept own' (k_mem s) (k_mem s').

(** The node while its first [i] slots have been dealt with. *)
Record walking (T : ptree) (lv : nat) (k p : Z) (t : thread) (L : list lockid) (own' l : list Z)
    (s : kstate) (i : nat) (s' : kstate) : Prop := {
  wk_frame : vm_frame s s';
  wk_inv : ∃ l1, al_inv t L (p :: rest T lv k i ++ own') l1 s' ∧ l1 ≡ₚ (seq 0 i ≫= child_pages T lv k) ++ l;
  wk_kept : kept own' (k_mem s) (k_mem s');
  wk_slots j : (i ≤ j < 512)%nat →
    ld64 (k_mem s') (p + 8 * Z.of_nat j) = pt_entry T (Z.of_nat lv) (512 * k + Z.of_nat j);
  wk_ok j : (i ≤ j < 512)%nat → child_ok T (k_mem s') lv k j
}.

Lemma seq_bind_S T lv k i :
  seq 0 (S i) ≫= child_pages T lv k = (seq 0 i ≫= child_pages T lv k) ++ child_pages T lv k i.
Proof. rewrite seq_S, bind_app. cbn. by rewrite app_nil_r. Qed.

Lemma walking_skip T lv k p t L own' l s i s' :
  child_pages T lv k i = [] → (i < 512)%nat →
  walking T lv k p t L own' l s i s' → walking T lv k p t L own' l s (S i) s'.
Proof.
  intros Hc Hi [W1 (l1 & W2 & W3) W4 W5 W6]. split; [done| |done|intros; apply W5; lia|intros; apply W6; lia].
  exists l1. rewrite rest_step, Hc in W2 by done. rewrite seq_bind_S, Hc, app_nil_r. done.
Qed.

(** A child is freed and its slot cleared. *)
Lemma walking_child T lv fuel k p t L own' l e s i s' q :
  freewalk_spec T lv fuel → page_ok p → (i < 512)%nat →
  pt_nodes T !! (Z.of_nat lv, 512 * k + Z.of_nat i) = Some q →
  walking T (S lv) k p t L own' l s i s' →
  ∃ s2, (freewalk_fuel fuel q ;;; wr64 (p + 8 * Z.of_nat i) 0) e s' = Ret tt e s2 ∧
    walking T (S lv) k p t L own' l s (S i) s2.
Proof.
  intros HIH Hp Hi Hq [W1 (l1 & W2 & W3) W4 W5 W6].
  set (own2 := p :: rest T (S lv) k (S i) ++ own').
  destruct (HIH _ q t L (p :: rest T (S lv) k i ++ own') own2 l1 e s' Hq) as (l2 & s1 & Hr & Hf & HA & Hl & Hk).
  { apply (W6 i). lia. } { done. }
  { rewrite rest_step by done. unfold own2. cbn [child_pages]. rewrite <-app_assoc. by rewrite <-Permutation_middle. }
  rewrite (bind_Ret _ _ _ _ _ _ _ Hr). eexists. split; [reflexivity|].
  set (m2 := st64 (k_mem s1) (p + 8 * Z.of_nat i) 0).
  assert (Hm2 : ∀ x, x < p ∨ p + PGSIZE ≤ x → ldb m2 x = ldb (k_mem s1) x).
  { intros x Hx. unfold PGSIZE in *. apply ldb_st64_ne. lia. }
  assert (Hk2 : kept (rest T (S lv) k (S i) ++ own') (k_mem s1) m2).
  { destruct HA as [_ _ _ Hnd Hpg]. apply Forall_cons in Hpg as [_ Hpg].
    cbn [own2 app] in Hnd. apply NoDup_cons in Hnd as [Hnd _]. eapply kept_write; [exact Hp|done|set_solver|done]. }
  split; [| | |intros j Hj|intros j Hj].
  - eapply vm_frame_trans; [exact W1|]. eapply vm_frame_trans; [exact Hf|apply vm_frame_mem].
  - exists l2. split; [eapply al_write; [done|constructor|done]|].
    rewrite Hl, W3, seq_bind_S, app_assoc. apply Permutation_app_tail, Permutation_app_comm.
  - eapply kept_trans; [exact W4|]. eapply kept_trans; [eapply kept_sub, Hk; unfold own2; set_solver|].
    eapply kept_sub, Hk2. set_solver.
  - rewrite <-W5 by lia. kproj. unfold m2. rewrite ld64_st64_ne by lia.
    apply ld64_ext. intros x Hx. apply (Hk p); [constructor|unfold PGSIZE; lia].
  - assert (Hsub : child_pages T (S lv) k j ⊆ rest T (S lv) k (S i)).
    { intros x Hx. unfold rest. apply list_elem_of_bind. exists j. split; [done|]. apply elem_of_seq. lia. }
    eapply child_ok_kept; [|eapply child_ok_kept, (W6 j); [|lia]].
    + eapply kept_sub, Hk2. set_solver.
    + eapply kept_sub, Hk. unfold own2. set_solver.
Qed.

(** [freewalk] frees the pages of a subtree without mappings. *)
Lemma freewalk_ok T lv fuel :
  pt_map T = ∅ → (∀ a q, pt_nodes T !! a = Some q → page_ok q) → (lv < fuel)%nat → freewalk_spec T lv fuel.
Proof.
  intros Hmap Hpgs. revert fuel. induction lv as [lv IH] using lt_wf_ind.
  intros fuel Hfuel k p t L own own' l e s Hp Hok HA Hown.
  destruct fuel as [|fuel]; [lia|]. cbn [freewalk_fuel].
  rewrite tree_pages_eq, Hp in Hown. pose proof (Hpgs _ _ Hp) as Hpg.
  match goal with |- context [for_in (seq 0 512) ?b] =>
    destruct (for_seq_all b (λ i e' s', e' = e ∧ walking T lv k p t L own' l s i s') 0 512 e s)
      as (e1 & s1 & Hrun & -> & HW) end.
  - intros i e1 s1 Hi [-> HW]. unfold rd64. mstep.
    rewrite (wk_slots _ _ _ _ _ _ _ _ _ _ _ HW) by lia. unfold pt_entry. destruct lv as [|lv].
    + rewrite Hmap, lookup_empty. exists e, s1. split; [done|]. split; [done|]. apply walking_skip; [done|lia|done].
    + rewrite (proj2 (Z.eqb_neq _ _)) by lia. replace (Z.of_nat (S lv) - 1) with (Z.of_nat lv) by lia.
      destruct (pt_nodes T !! (Z.of_nat lv, 512 * k + Z.of_nat i)) as [q|] eqn:Hq.
      * pose proof (Hpgs _ _ Hq) as Hqp. rewrite has_node, node_not_leaf, PTE2PA_node by done. cbn [Z.eqb andb].
        destruct (walking_child T lv fuel k p t L own' l e s i s1 q) as (s2 & Hr & HW2); [|done|lia|done|done|].
        { apply IH; lia. }
        exists e, s2. rewrite <-bind_assoc. by rewrite (bind_Ret _ _ _ _ _ _ _ Hr).
      * exists e, s1. split; [done|]. split; [done|]. apply walking_skip; [|lia|done].
        cbn [child_pages]. by rewrite tree_pages_eq, Hq.
  - split; [done|].
    assert (∀ m lv, tree_ok T m lv k → pt_nodes T !! (Z.of_nat lv, k) = Some p →
      (∀ j, (j < 512)%nat → ld64 m (p + 8 * Z.of_nat j) = pt_entry T (Z.of_nat lv) (512 * k + Z.of_nat j)) ∧
      (∀ j, (j < 512)%nat → child_ok T m lv k j)) as Huse.
    { intros m [|lv'] H Hp'; by apply H. }
    destruct (Huse _ _ Hok Hp) as [H1 H2].
    split; [apply vm_frame_refl| |apply kept_refl|intros; apply H1; lia|intros; apply H2; lia].
    exists l. split; [|done]. destruct HA as [A1 A2 A3 A4 A5]. rewrite Hown in A4, A5. by split.
  - rewrite (bind_Ret _ _ _ _ _ _ _ Hrun). destruct HW as [W1 (l1 & W2 & W3) W4 _ _].
    destruct (al_kfree t L (p :: rest T lv k 512 ++ own') own' l1 e s1 p W2) as (s2 & Hr & Hf & Hk & HA2); [done|].
    exists (p :: l1), s2. split_and!; [done|by eapply vm_frame_trans|done| |by eapply kept_trans].
    rewrite tree_pages_eq, Hp. cbn [app]. by constructor.
Qed.

(** ** The whole tree *)

Lemma tree_pages_key T lv k p :
  p ∈ tree_pages T lv k →
  ∃ l' : nat, ∃ k', pt_nodes T !! (Z.of_nat l', k') = Some p ∧ (l' ≤ lv)%nat ∧ k' / 512 ^ Z.of_nat (lv - l') = k.
Proof.
  revert k. induction lv as [|lv IH]; intros k; rewrite tree_pages_eq;
    (destruct (pt_nodes T !! _) as [q|] eqn:Hq; [|by intros ?%elem_of_nil]); intros [->|Hp]%elem_of_cons.
  - exists O, k. by rewrite Z.div_1_r.
  - apply list_elem_of_bind in Hp as (j & Hp & _). by apply elem_of_nil in Hp.
  - exists (S lv), k. by rewrite Nat.sub_diag, Z.div_1_r.
  - apply list_elem_of_bind in Hp as (j & Hp & Hj). apply elem_of_seq in Hj.
    apply IH in Hp as (l' & k' & H1 & H2 & H3). exists l', k'. split_and!; [done|lia|].
    replace (Z.of_nat (S lv - l')) with (Z.of_nat (lv - l') + 1) by lia.
    rewrite Z.pow_add_r, <-Z.div_div by lia. rewrite H3. change (512 ^ 1) with 512.
    rewrite Z.mul_comm, Z.div_add_l, Z.div_small by lia. lia.
Qed.

Lemma tree_pages_elem m T d (l' : nat) k' p :
  pt_rep m T → pt_nodes T !! (Z.of_nat l', k') = Some p → (l' + d ≤ 2)%nat →
  p ∈ tree_pages T (l' + d) (k' / 512 ^ Z.of_nat d) ∧
  is_Some (pt_nodes T !! (Z.of_nat (l' + d), k' / 512 ^ Z.of_nat d)).
Proof.
  intros H Hp. induction d as [|d IH]; intros Hd.
  - rewrite Nat.add_0_r, Z.div_1_r, tree_pages_eq, Hp. split; [constructor|done].
  - destruct IH as [Hin [q Hq]]; [lia|]. apply (rep_parent _ _ H) in Hq as Hr; [|lia]. destruct Hr as [r Hr].
    replace (k' / 512 ^ Z.of_nat (S d)) with (k' / 512 ^ Z.of_nat d / 512).
    2: { rewrite Nat2Z.inj_succ, <-Z.add_1_r, Z.pow_add_r, <-Z.div_div by lia. done. }
    set (kk := k' / 512 ^ Z.of_nat d) in *. replace (Z.of_nat (l' + S d)) with (Z.of_nat (l' + d) + 1) by lia.
    split; [|eauto]. rewrite Nat.add_succ_r, tree_pages_eq, Nat2Z.inj_succ, <-Z.add_1_r, Hr.
    pose proof (Z.mod_pos_bound kk 512). apply list_elem_of_further, list_elem_of_bind. exists (Z.to_nat (kk mod 512)).
    cbn [child_pages]. rewrite Z2Nat.id, <-Z_div_mod_eq_full by lia. split; [done|]. apply elem_of_seq. lia.
Qed.

Lemma tree_pages_nodup m T lv k : pt_rep m T → NoDup (tree_pages T lv k).
Proof.
  intros H. revert k. induction lv as [|lv IH]; intros k; rewrite tree_pages_eq;
    (destruct (pt_nodes T !! _) as [q|] eqn:Hq; [|constructor]).
  - constructor; [|].
    + intros (j & Hp & _)%list_elem_of_bind. by apply elem_of_nil in Hp.
    + assert (Hnil : ∀ n i, seq i n ≫= child_pages T 0 k = []).
      { induction n as [|n IHn]; intros i; [done|]. apply IHn. }
      rewrite Hnil. constructor.
  - constructor.
    + intros (j & (l' & k' & H1 & H2 & _)%tree_pages_key & _)%list_elem_of_bind.
      pose proof (nodes_inj _ _ _ _ _ H Hq H1) as [= ? _]. lia.
    + apply NoDup_bind; [|intros; apply IH|apply NoDup_seq].
      intros i j p Hi%elem_of_seq Hj%elem_of_seq (l1 & k1 & A1 & A2 & A3)%tree_pages_key (l2 & k2 & B1 & B2 & B3)%tree_pages_key.
      pose proof (nodes_inj _ _ _ _ _ H A1 B1) as [= Hl ->]. assert (l1 = l2) as -> by lia. lia.
Qed.

Lemma tree_pages_all m T : pt_rep m T → tree_pages T 2 0 ≡ₚ pt_pages T.
Proof.
  intros H. apply NoDup_Permutation; [by eapply tree_pages_nodup|apply H|]. intros p. split.
  - intros (l' & k' & H1 & _ & _)%tree_pages_key. apply elem_of_pt_pages. eauto.
  - intros (l & k & Hp)%elem_of_pt_pages. pose proof (rep_keys _ _ H _ _ _ Hp) as (Hl & Hk & _).
    pose proof Hp as Hp'. replace l with (Z.of_nat (Z.to_nat l)) in Hp' by lia.
    destruct (tree_pages_elem m T (2 - Z.to_nat l) (Z.to_nat l) k p H Hp') as [Hin [q Hq]]; [lia|].
    apply (rep_keys _ _ H) in Hq as (_ & _ & Hq). rewrite Hq in Hin by lia.
    by replace (Z.to_nat l + (2 - Z.to_nat l))%nat with 2%nat in Hin by lia.
Qed.

(** [uvmfree] frees the mapped pages and the tree. *)
Lemma uvmfree_ok t L T own own' l sz e s :
  vm_inv t L T own l s → 0 ≤ sz ≤ MAXVA → let n := Z.to_nat (npages sz) in
  (∀ k, is_Some (pt_map T !! k) → 0 ≤ k < npages sz) →
  (∀ k, 0 ≤ k < npages sz → is_leaf (pt_map T !! k)) →
  own ≡ₚ dpages (pt_map T) 0 n ++ own' →
  ∃ l' s', uvmfree (pt_root T) sz e s = Ret tt e s' ∧ vm_frame s s' ∧ al_inv t L own' l' s' ∧
    l' ≡ₚ pt_pages T ++ dpages (pt_map T) 0 n ++ l ∧ kept own' (k_mem s) (k_mem s').
Proof.
  intros H Hsz n Hdom Hleaf Hown. destruct (npages_max sz Hsz) as [Hn0 Hn1].
  assert (∃ T1 s1, when (sz >? 0) (uvmunmap (pt_root T) 0 (PGROUNDUP sz / PGSIZE) true) e s = Ret tt e s1 ∧
    vm_shrunk t L own' T s T1 (reverse (dpages (pt_map T) 0 n) ++ l) s1 ∧ pt_map T1 = ∅)
    as (T1 & s1 & Hr & [S1 S2 S3 S4 S5] & Hm).
  { destruct (Z.gtb_spec sz 0) as [Hpos|Hz]; cbn [when].
    - rewrite PGROUNDUP_npages, Z.div_mul by done. replace (npages sz) with (Z.of_nat n) by lia.
      destruct (uvmunmap_ok t L T own own' l 0 n true e s) as (T1 & s1 & Hr & Hs & Hm); [done|done|done|lia| |done|].
      { change (vpn 0) with 0. intros k Hk. apply Hleaf. lia. }
      exists T1, s1. split_and!; [done|done|]. rewrite Hm. apply map_eq. intros k. change (vpn 0) with 0.
      rewrite lookup_del_range, lookup_empty. case_decide; [done|]. apply eq_None_not_Some. intros ?%Hdom. lia.
    - assert (sz = 0) as -> by lia. change n with O in *. exists T, s. split_and!; [done| |].
      + split; [apply vm_frame_refl|by eapply vm_inv_own|done|done|apply kept_refl].
      + apply map_eq. intros k. rewrite lookup_empty. apply eq_None_not_Some. intros Hk%Hdom.
        change (npages 0) with 0 in Hk. lia. }
  unfold uvmfree. mrun Hr. unfold freewalk. rewrite <-S3. pose proof (vi_rep _ _ _ _ _ _ S2) as Hrep.
  destruct (freewalk_ok T1 2 8 Hm) with (k := 0) (p := pt_root T1) (t := t) (L := L) (e := e) (s := s1)
    (own := pt_pages T1 ++ own') (own' := own') (l := reverse (dpages (pt_map T) 0 n) ++ l)
    as (l' & s' & Hr2 & Hf & HA & Hl & Hk).
  { intros [a b] q Hq. by eapply node_page. }
  { lia. } { apply Hrep. } { by apply pt_rep_tree_ok. } { by apply vm_al. }
  { by rewrite (tree_pages_all (k_mem s1)). }
  exists l', s'. split_and!; [done|by eapply vm_frame_trans|done| |by eapply kept_trans].
  rewrite Hl, (tree_pages_all (k_mem s1)) by done. unfold pt_pages. rewrite S4. by rewrite reverse_Permutation.
Qed.
(** C25: Freeing an address space loses no page: [uvmfree] returns, and the free
    list then holds exactly what it held before, the pages that were mapped
    and every page of the three-level tree; the memory of the rest of the
    system is untouched. *)
Theorem uvmfree_no_leak t L T own own' l sz e s :
  vm_inv t L T own l s → 0 ≤ sz ≤ MAXVA →
  (∀ k, is_Some (pt_map T !! k) → 0 ≤ k < npages sz) →
  (∀ k, 0 ≤ k < npages sz → is_leaf (pt_map T !! k)) →
  own ≡ₚ dpages (pt_map T) 0 (Z.to_nat (npages sz)) ++ own' →
  ∃ l' s', uvmfree (pt_root T) sz e s = Ret tt e s' ∧
    kmem_inv (k_mem s') (k_freelist s') l' ∧
    l' ≡ₚ pt_pages T ++ dpages (pt_map T) 0 (Z.to_nat (npages sz)) ++ l ∧ kept own' (k_mem s) (k_mem s').
Proof.
  intros H H1 H2 H3 H4. destruct (uvmfree_ok t L T own own' l sz e s H H1 H2 H3 H4) as (l' & s' & Hr & _ & HA & Hl & Hk).
  exists l', s'. split_and!; [done|apply HA|done|done].
Qed.

End free.

Lemma tiny_inv_parent :
  vm_inv (lnk := tiny_linker) (mkthread 0 None true) [] tree1 [page 3; page 4] tiny_free tiny_state.
Proof.
  destruct tiny_inv as [H1 H2 H3 H4 H5 H6]. split; [done|done|exact tiny_tree1|done| |].
  - rewrite tree1_pages. apply (bool_decide_eq_true_1 _). vm_compute. reflexivity.
  - repeat apply Forall_cons_2; try apply page_page_ok; try lia. constructor.
Qed.

Lemma tree1_dpages : dpages (pt_map tree1) 0 (Z.to_nat (npages 100)) = [page 3].
Proof. vm_compute. reflexivity. Qed.

Lemma uvmfree_no_leak_witness :
  ∃ l' s', uvmfree (lnk := tiny_linker) (page 0) 100 [] tiny_state = Ret tt [] s' ∧
    l' ≡ₚ pt_pages tree1 ++ [page 3] ++ tiny_free.
Proof.
  assert (H0 : pt_map tree1 !! 0 = Some (uleaf (page 3))) by reflexivity.
  assert (H1 : ∀ k, is_Some (pt_map tree1 !! k) → k = 0).
  { intros k [v Hv]. destruct (decide (k = 0)) as [|Hk]; [done|].
    change (pt_map tree1) with (partial_alter (λ _, Some (uleaf (page 3))) 0 (∅ : gmap Z Z)) in Hv.
    rewrite lookup_partial_alter_ne, lookup_empty in Hv by done. done. }
  destruct (uvmfree_no_leak (lnk := tiny_linker) (mkthread 0 None true) [] tree1 [page 3; page 4] [page 4]
    tiny_free 100 [] tiny_state tiny_inv_parent) as (l' & s' & Hr & _ & Hl & _).
  - by split.
  - intros k ->%H1. by vm_compute.
  - intros k Hk. change (npages 100) with 1 in Hk. replace k with 0 by lia. exists (uleaf (page 3)). split; [exact H0|by vm_compute].
  - rewrite tree1_dpages. reflexivity.
  - exists l', s'. split; [exact Hr|]. rewrite Hl, tree1_dpages. reflexivity.
Defined.
