(* ===== verification/Ucopy.v ===== *)
(** Copying between the kernel and user memory: [copyout], [copyin] and
    [copyinstr] against the bytes the process sees. *)

From S2P Require Import Prelude Mem KString Params Kernel Spinlock Kalloc Vm Uvm.

(** The byte a process sees at a virtual address, if it may access it. *)
Definition uview (m : mem) (f : gmap Z Z) (va : Z) : option Z :=
  if va <? MAXVA then
    v ← f !! vpn va;
    if has v PTE_U then Some (ldb m (PTE2PA v + va mod PGSIZE)) else None
  else None.

Section ucopy.
Context {lnk : Linker} {lnk_ok : LinkerOk lnk}.

(** The user pages are distinct pages outside the tree. *)
Record uspace (m : mem) (T : ptree) : Prop := {
  us_rep : pt_rep m T;
  us_page k v : pt_map T !! k = Some v → has v PTE_U = true → page_ok (PTE2PA v);
  us_apart k v : pt_map T !! k = Some v → has v PTE_U = true → PTE2PA v ∉ pt_pages T;
  us_inj k k' v v' : pt_map T !! k = Some v → has v PTE_U = true →
    pt_map T !! k' = Some v' → has v' PTE_U = true → PTE2PA v = PTE2PA v' → k = k'
}.

(** The physical page of [va], or 0. *)
Definition uaddr (f : gmap Z Z) (va : Z) : Z :=
  if va <? MAXVA then
    match f !! vpn va with Some v => if has v PTE_U then PTE2PA v else 0 | None => 0 end
  else 0.

Lemma walkaddr_ok T va e s :
  pt_rep (k_mem s) T → 0 ≤ va → walkaddr (pt_root T) va e s = Ret (uaddr (pt_map T) va) e s.
Proof.
  intros H Hva. unfold walkaddr, uaddr.
  destruct (Z.leb_spec MAXVA va); [by rewrite (proj2 (Z.ltb_ge _ _)) by lia|].
  rewrite (proj2 (Z.ltb_lt _ _)) by lia.
  assert (Hr : 0 ≤ va < MAXVA) by lia. mrun (walk_lookup T va e s H Hr). unfold pte_addr.
  destruct (pt_nodes T !! (0, key 0 va)) as [q|] eqn:Hq.
  - pose proof (node_page _ _ _ _ _ H Hq) as Hp%page_ok_pos. rewrite PX_0 by done.
    pose proof (Z.mod_pos_bound (vpn va) 512). rewrite (proj2 (Z.eqb_neq _ 0)) by lia.
    unfold rd64. mstep. rewrite <-PX_0, (leaf_value _ T) by done.
    destruct (pt_map T !! vpn va) as [v|] eqn:Hv; [|done].
    cbn [default]. cbv [id]. destruct (rep_leaf _ _ H _ _ Hv) as (-> & _). cbn [negb]. by destruct (has v PTE_U).
  - destruct (pt_map T !! vpn va) as [v|] eqn:Hv; [|done].
    destruct (rep_leaf _ _ H _ _ Hv) as (_ & _ & Hs). rewrite <-key_0, Hq in Hs. by destruct Hs.
Qed.

(** The part of a page from [va] on. *)
Lemma same_page va o :
  0 ≤ o < PGSIZE - va mod PGSIZE → vpn (va + o) = vpn va ∧ (va + o) mod PGSIZE = va mod PGSIZE + o.
Proof.
  unfold vpn, PGSIZE. intros Ho. pose proof (Z_div_mod_eq_full va 4096). pose proof (Z.mod_pos_bound va 4096).
  replace (va + o) with (va / 4096 * 4096 + (va mod 4096 + o)) by lia.
  rewrite Z.div_add_l, (Z.div_small (va mod 4096 + o)) by lia. split; [lia|].
  rewrite Z.add_comm, Z.mod_add by lia. apply Z.mod_small. lia.
Qed.

Lemma PGROUNDDOWN_off va : va - PGROUNDDOWN va = va mod PGSIZE.
Proof. rewrite PGROUNDDOWN_spec. lia. Qed.

Lemma uaddr_round f va : 0 ≤ va → uaddr f (PGROUNDDOWN va) = uaddr f va.
Proof.
  intros Hva. unfold uaddr.
  assert (Hv : vpn (PGROUNDDOWN va) = vpn va).
  { rewrite PGROUNDDOWN_spec. unfold vpn, PGSIZE. pose proof (Z_div_mod_eq_full va 4096).
    replace (va - va mod 4096) with (va / 4096 * 4096) by lia. by rewrite Z.div_mul. }
  rewrite Hv. replace (PGROUNDDOWN va <? MAXVA) with (va <? MAXVA); [done|].
  rewrite PGROUNDDOWN_spec. change MAXVA with (67108864 * 4096). unfold PGSIZE.
  pose proof (Z_div_mod_eq_full va 4096). pose proof (Z.mod_pos_bound va 4096).
  destruct (Z.ltb_spec va (67108864 * 4096)), (Z.ltb_spec (va - va mod 4096) (67108864 * 4096)); lia.
Qed.

Lemma uaddr_view m T va :
  uspace m T → (uaddr (pt_map T) va = 0 → uview m (pt_map T) va = None) ∧
  (uaddr (pt_map T) va ≠ 0 → va < MAXVA ∧ ∃ v, pt_map T !! vpn va = Some v ∧ has v PTE_U = true ∧
     uaddr (pt_map T) va = PTE2PA v ∧ page_ok (PTE2PA v)).
Proof.
  intros H. unfold uaddr, uview. destruct (Z.ltb_spec va MAXVA); [|done].
  destruct (pt_map T !! vpn va) as [v|] eqn:Hv; [|done]. cbn.
  destruct (has v PTE_U) eqn:HU; [|done]. pose proof (us_page _ _ H _ _ Hv HU) as Hp. split.
  - intros Hz. apply page_ok_pos in Hp. lia.
  - intros _. split; [done|]. by exists v.
Qed.

(** The bytes of the page of [va], from [va] on. *)
Lemma uview_page m f va o v :
  va + o < MAXVA → 0 ≤ o < PGSIZE - va mod PGSIZE → f !! vpn va = Some v → has v PTE_U = true →
  uview m f (va + o) = Some (ldb m (PTE2PA v + va mod PGSIZE + o)).
Proof.
  intros Hva Ho Hv HU. unfold uview. rewrite (proj2 (Z.ltb_lt _ _)) by lia.
  destruct (same_page va o Ho) as [-> ->]. rewrite Hv. cbn. rewrite HU. do 2 f_equal. lia.
Qed.

Lemma page_below_max va : 0 ≤ va < MAXVA → va + (PGSIZE - va mod PGSIZE) ≤ MAXVA.
Proof.
  change MAXVA with (67108864 * 4096). unfold PGSIZE. intros.
  pose proof (Z_div_mod_eq_full va 4096). pose proof (Z.mod_pos_bound va 4096). lia.
Qed.

(** Whether an address is accessible depends on the map alone. *)
Lemma uview_mapped m m' f x : is_Some (uview m f x) ↔ is_Some (uview m' f x).
Proof.
  unfold uview. destruct (x <? MAXVA); [|done]. destruct (f !! vpn x) as [v|]; [|done]. cbn.
  by destruct (has v PTE_U).
Qed.

(** * [copyin] *)

Lemma lookup_read_bytes m a n i b :
  read_bytes m a n !! i = Some b → (i < n)%nat ∧ b = ldb m (a + Z.of_nat i).
Proof.
  intros H. pose proof (lookup_lt_Some _ _ _ H) as Hi. rewrite length_read_bytes in Hi. split; [done|].
  revert a i H Hi. induction n as [|n IH]; intros a i H Hi; [lia|]. rewrite read_bytes_S in H.
  destruct i as [|i]; cbn in H.
  - injection H as <-. by rewrite Z.add_0_r.
  - rewrite (IH (a + 1) i H) by lia. f_equal. lia.
Qed.

Lemma PGROUNDDOWN_pos va : 0 ≤ va → 0 ≤ PGROUNDDOWN va.
Proof. intros. apply Z.land_nonneg. by left. Qed.

(** How far the next turn gets in the page of [va]. *)
Definition chunk (va len : Z) : Z := Z.min (PGSIZE - va mod PGSIZE) len.

Lemma chunk_range va len : 0 < len → 0 < chunk va len ≤ PGSIZE - va mod PGSIZE ∧ chunk va len ≤ len.
Proof. intros. unfold chunk, PGSIZE. pose proof (Z.mod_pos_bound va 4096). lia. Qed.

(** The next page, which is where the copy goes on if it does. *)
Lemma next_page va len :
  0 ≤ va < MAXVA → 0 < len →
  u64 (PGROUNDDOWN va + PGSIZE) = va + (PGSIZE - va mod PGSIZE) ∧
  (len - chunk va len = 0 ∨ va + (PGSIZE - va mod PGSIZE) = va + chunk va len).
Proof.
  intros Hva Hlen. pose proof (page_below_max va Hva) as Hb. pose proof (PGROUNDDOWN_pos va ltac:(lia)).
  rewrite PGROUNDDOWN_spec in *. change MAXVA with 274877906944 in *. unfold chunk, PGSIZE in *.
  rewrite u64_id by lia. split; lia.
Qed.

(** The bytes read in one turn. *)
Lemma copyin_turn_ok T va len bs e s :
  uspace (k_mem s) T → 0 ≤ va → 0 < len →
  uview (k_mem s) (pt_map T) va = None ∧ copyin_turn (pt_root T) (va, len, bs) e s = Ret (inr (-1, bs)) e s ∨
  va < MAXVA ∧ ∃ cs, copyin_turn (pt_root T) (va, len, bs) e s =
      Ret (inl (va + (PGSIZE - va mod PGSIZE), len - chunk va len, bs ++ cs)) e s ∧
    Z.of_nat (length cs) = chunk va len ∧
    ∀ i b, cs !! i = Some b → uview (k_mem s) (pt_map T) (va + Z.of_nat i) = Some b.
Proof.
  intros H Hva Hlen. unfold copyin_turn. rewrite (proj2 (Z.gtb_lt _ _)) by lia.
  rewrite (bind_Ret _ _ _ _ _ _ _ (walkaddr_ok T _ e s (us_rep _ _ H) (PGROUNDDOWN_pos va Hva))).
  rewrite uaddr_round by lia. destruct (uaddr_view _ T va H) as [Hz Hnz].
  destruct (Z.eqb_spec (uaddr (pt_map T) va) 0) as [E|E]; [left; by rewrite Hz|right].
  destruct (Hnz E) as (Hvm & v & Hv & HU & -> & Hpg). rewrite PGROUNDDOWN_off. mstep.
  destruct (next_page va len) as [-> _]; [lia|done|]. change (Z.min _ len) with (chunk va len).
  destruct (chunk_range va len Hlen) as [Hc1 Hc2]. pose proof (page_below_max va).
  split; [done|]. eexists. split; [reflexivity|]. rewrite length_read_bytes. split; [lia|].
  intros i b [Hi ->]%lookup_read_bytes. erewrite uview_page; [done|lia|lia|done|done].
Qed.

Lemma copyin_ok T srcva len e s :
  uspace (k_mem s) T → 0 ≤ srcva → 0 ≤ len < 2 ^ 64 →
  ∃ r bs, copyin (pt_root T) srcva len e s = Ret (r, bs) e s ∧
    (∀ i b, bs !! i = Some b → uview (k_mem s) (pt_map T) (srcva + Z.of_nat i) = Some b) ∧
    (r = 0 ∧ Z.of_nat (length bs) = len ∨
     r = -1 ∧ Z.of_nat (length bs) < len ∧ uview (k_mem s) (pt_map T) (srcva + Z.of_nat (length bs)) = None).
Proof.
  intros H Hva Hlen. unfold copyin. set (f := pt_map T). set (m := k_mem s).
  set (I := λ (st : Z * Z * list Z) (e' : list (kstate → kstate)) (s' : kstate), e' = e ∧ s' = s ∧
    let '(va, rem, bs) := st in rem = len - Z.of_nat (length bs) ∧ 0 ≤ rem ∧
      (rem = 0 ∨ va = srcva + Z.of_nat (length bs)) ∧
      (∀ i b, bs !! i = Some b → uview m f (srcva + Z.of_nat i) = Some b)).
  destruct (loop_measure (copyin_turn (pt_root T)) (λ st _ _, st.1.2) I
    (λ r e' s', e' = e ∧ s' = s ∧ (∀ i b, r.2 !! i = Some b → uview m f (srcva + Z.of_nat i) = Some b) ∧
      (r.1 = 0 ∧ Z.of_nat (length r.2) = len ∨
       r.1 = -1 ∧ Z.of_nat (length r.2) < len ∧ uview m f (srcva + Z.of_nat (length r.2)) = None))
    (srcva, len, []) e s) as ([r bs] & e' & s' & Hr & -> & -> & H1 & H2).
  - intros [[va rem] bs] e1 s1 (-> & -> & -> & Hle & Hrem & Hbs). cbn [fst snd]. split; [lia|].
    destruct (Z.eq_dec (len - Z.of_nat (length bs)) 0) as [Hend|Hne].
    { rewrite Hend. eexists _, _, _. split; [reflexivity|]. split_and!; [done|done|done|left; cbn; split; [done|lia]]. }
    destruct Hrem as [?| ->]; [done|].
    destruct (copyin_turn_ok T (srcva + Z.of_nat (length bs)) (len - Z.of_nat (length bs)) bs e s)
      as [[Hn Hr]|(Hm & cs & Hr & Hcs & Hc)]; [done|lia|lia| |]; eexists _, _, _; (split; [exact Hr|]).
    + split_and!; [done|done|done|right; cbn; split_and!; [done|lia|done]].
    + set (va := srcva + Z.of_nat (length bs)) in *. set (rem := len - Z.of_nat (length bs)) in *.
      destruct (next_page va rem) as [_ Hnp]; [lia|lia|]. destruct (chunk_range va rem) as [Hc1 Hc2]; [lia|].
      split; [|cbn [fst snd]; lia]. unfold I. rewrite length_app. split_and!; [done|done|lia|lia|lia|].
      intros i b [Hi|[Hi1 Hi2]]%lookup_app_Some; [by apply Hbs|].
      apply Hc in Hi2. unfold va in Hi2. rewrite <-Hi2. f_equal. lia.
  - unfold I. split_and!; [done|done|cbn; lia|lia|cbn; lia|done].
  - cbn [fst snd]. lia.
  - exists r, bs. done.
Qed.

(** * [copyout] *)

(** Writing part of the page of [va] changes just those bytes of the view. *)
Lemma uview_write m T va v bs x :
  uspace m T → 0 ≤ va < MAXVA → 0 ≤ x → pt_map T !! vpn va = Some v → has v PTE_U = true →
  Z.of_nat (length bs) ≤ PGSIZE - va mod PGSIZE →
  uview (write_bytes m (PTE2PA v + va mod PGSIZE) bs) (pt_map T) x =
  if decide (va ≤ x < va + Z.of_nat (length bs)) then bs !! Z.to_nat (x - va) else uview m (pt_map T) x.
Proof.
  intros H Hva Hx Hv HU Hlen. pose proof (page_below_max va Hva) as Hpb. case_decide as Hin.
  - replace x with (va + (x - va)) at 1 by lia. erewrite uview_page; [|lia|lia|done|done].
    rewrite ldb_write_bytes, decide_True by lia.
    destruct (lookup_lt_is_Some_2 bs (Z.to_nat (x - va))) as [b Hb]; [lia|]. rewrite Hb. f_equal.
    apply nth_lookup_Some. rewrite <-Hb. f_equal. lia.
  - unfold uview. destruct (Z.ltb_spec x MAXVA); [|done]. destruct (pt_map T !! vpn x) as [w|] eqn:Hw; [|done].
    cbn. destruct (has w PTE_U) eqn:HwU; [|done]. f_equal. rewrite ldb_write_bytes, decide_False; [done|].
    intros Hc. pose proof (us_page _ _ H _ _ Hv HU) as Hp1. pose proof (us_page _ _ H _ _ Hw HwU) as Hp2.
    pose proof (Z.mod_pos_bound x PGSIZE). pose proof (Z.mod_pos_bound va PGSIZE).
    destruct (decide (PTE2PA v = PTE2PA w)) as [Heq|Hne].
    + pose proof (us_inj _ _ H _ _ _ _ Hv HU Hw HwU Heq) as Hk. apply Hin.
      unfold vpn, PGSIZE in *. pose proof (Z_div_mod_eq_full x 4096). pose proof (Z_div_mod_eq_full va 4096). lia.
    + destruct (pages_apart _ _ Hp1 Hp2 Hne); unfold PGSIZE in *; lia.
Qed.

Lemma uspace_write m T k v a bs :
  uspace m T → pt_map T !! k = Some v → has v PTE_U = true →
  PTE2PA v ≤ a → a + Z.of_nat (length bs) ≤ PTE2PA v + PGSIZE → uspace (write_bytes m a bs) T.
Proof.
  intros H Hv HU H1 H2. destruct H as [U1 U2 U3 U4]. split; [|done..].
  eapply (pt_rep_frame m _ T [PTE2PA v]); [|constructor; [by eapply U2|constructor]| |done].
  - intros x Hx. rewrite ldb_write_bytes, decide_False; [done|]. destruct (Hx (PTE2PA v)); [constructor|lia|lia].
  - intros p Hp ->%list_elem_of_singleton. by eapply U3.
Qed.

(** The pages a process may write. *)
Definition user_pages (f : gmap Z Z) (p : Z) : Prop :=
  ∃ k v, f !! k = Some v ∧ has v PTE_U = true ∧ PTE2PA v = p.

(** The state after [n] bytes of [src] were stored from [dstva] on. *)
Record stored (T : ptree) (dstva : Z) (src : list Z) (n : nat) (m m' : mem) : Prop := {
  so_space : uspace m' T;
  so_view x : 0 ≤ x → uview m' (pt_map T) x =
    if decide (dstva ≤ x < dstva + Z.of_nat n) then src !! Z.to_nat (x - dstva) else uview m (pt_map T) x;
  so_rest x : (∀ p, user_pages (pt_map T) p → x < p ∨ p + PGSIZE ≤ x) → ldb m' x = ldb m x
}.

Lemma copyout_turn_ok T dstva src n m e s :
  uspace m T → 0 ≤ dstva → (n < length src)%nat → stored T dstva src n m (k_mem s) →
  let va := dstva + Z.of_nat n in
  uview m (pt_map T) va = None ∧ copyout_turn (pt_root T) (va, drop n src) e s = Ret (inr (-1)) e s ∨
  va < MAXVA ∧ ∃ (c : nat) m', copyout_turn (pt_root T) (va, drop n src) e s =
      Ret (inl (va + (PGSIZE - va mod PGSIZE), drop (n + c) src)) e (set_k_mem m' s) ∧
    Z.of_nat c = chunk va (Z.of_nat (length src - n)) ∧ stored T dstva src (n + c) m m'.
Proof.
  intros Hm Hdst Hn HS va. destruct HS as [H Hview Hrest]. unfold copyout_turn. rewrite length_drop.
  rewrite (proj2 (Z.gtb_lt _ _)) by lia. assert (Hva : 0 ≤ va) by lia.
  rewrite (bind_Ret _ _ _ _ _ _ _ (walkaddr_ok T _ e s (us_rep _ _ H) (PGROUNDDOWN_pos va Hva))).
  rewrite uaddr_round by lia. destruct (uaddr_view m T va Hm) as [Hz Hnz].
  destruct (Z.eqb_spec (uaddr (pt_map T) va) 0) as [E|E]; [left; by rewrite Hz|right].
  destruct (Hnz E) as (Hvm & v & Hv & HU & -> & Hpg). rewrite PGROUNDDOWN_off. mstep.
  set (len := Z.of_nat (length src - n)).
  destruct (next_page va len) as [-> _]; [lia|lia|]. change (Z.min _ len) with (chunk va len).
  destruct (chunk_range va len) as [Hc1 Hc2]; [lia|]. pose proof (page_below_max va).
  set (bs := take (Z.to_nat (chunk va len)) (drop n src)).
  assert (Hbs : Z.of_nat (length bs) = chunk va len) by (unfold bs; rewrite length_take, length_drop; lia).
  split; [done|]. exists (Z.to_nat (chunk va len)), (write_bytes (k_mem s) (PTE2PA v + va mod PGSIZE) bs).
  rewrite drop_drop. split; [done|]. split; [lia|].
  pose proof (Z.mod_pos_bound va PGSIZE) as Hmb. split.
  - eapply uspace_write; [done|done|done|unfold PGSIZE in *; lia|lia].
  - intros x Hx. rewrite uview_write by (done || lia). rewrite Hview, Hbs by done. unfold bs.
    repeat case_decide; try lia; try done.
    rewrite lookup_take_lt, lookup_drop by lia. f_equal. lia.
  - intros x Hx. rewrite <-Hrest by done. rewrite ldb_write_bytes, decide_False; [done|].
    destruct (Hx (PTE2PA v)); [by exists (vpn va), v|unfold PGSIZE in *; lia..].
Qed.

Lemma stored_0 T dstva src m : uspace m T → stored T dstva src 0 m m.
Proof. intros H. split; [done| |done]. intros x Hx. by rewrite decide_False by lia. Qed.

Lemma copyout_ok T dstva src e s :
  uspace (k_mem s) T → 0 ≤ dstva → Z.of_nat (length src) < 2 ^ 64 →
  ∃ r n m', copyout (pt_root T) dstva src e s = Ret r e (set_k_mem m' s) ∧
    stored T dstva src n (k_mem s) m' ∧
    (r = 0 ∧ n = length src ∨
     r = -1 ∧ (n < length src)%nat ∧ uview (k_mem s) (pt_map T) (dstva + Z.of_nat n) = None).
Proof.
  intros H Hdst Hlen. unfold copyout. set (f := pt_map T). set (m := k_mem s).
  set (I := λ (st : Z * list Z) (e' : list (kstate → kstate)) (s' : kstate), e' = e ∧
    ∃ n m', s' = set_k_mem m' s ∧ stored T dstva src n m m' ∧ st.2 = drop n src ∧ (n ≤ length src)%nat ∧
      (n = length src ∨ st.1 = dstva + Z.of_nat n)).
  destruct (loop_measure (copyout_turn (pt_root T)) (λ st _ _, Z.of_nat (length st.2)) I
    (λ r e' s', e' = e ∧ ∃ n m', s' = set_k_mem m' s ∧ stored T dstva src n m m' ∧
      (r = 0 ∧ n = length src ∨ r = -1 ∧ (n < length src)%nat ∧ uview m f (dstva + Z.of_nat n) = None))
    (dstva, src) e s) as (r & e' & s' & Hr & -> & n & m' & -> & H1 & H2).
  - intros [va rem] e1 s1 (-> & n & m1 & -> & HS & Hrem & Hn & Hva). cbn [fst snd] in *. subst rem. split; [lia|].
    destruct (decide (n = length src)) as [->|Hne].
    { rewrite drop_all. eexists _, _, _. split; [reflexivity|]. split; [done|]. eexists _, _. split_and!; [done|done|by left]. }
    destruct Hva as [?| ->]; [done|].
    destruct (copyout_turn_ok T dstva src n m e (set_k_mem m1 s)) as [[Hu Hr]|(Hm & c & m2 & Hr & Hc & HS2)];
      [done|done|lia|done| |]; eexists _, _, _; (split; [exact Hr|]).
    + split; [done|]. exists n, m1. split_and!; [done|done|right; split_and!; [done|lia|done]].
    + destruct (chunk_range (dstva + Z.of_nat n) (Z.of_nat (length src - n))) as [Hc1 Hc2]; [lia|].
      destruct (next_page (dstva + Z.of_nat n) (Z.of_nat (length src - n))) as [_ Hnp]; [lia|lia|].
      split; [|cbn [snd]; rewrite !length_drop; lia]. split; [done|]. exists (n + c)%nat, m2. cbn [fst snd].
      split_and!; [kstate_eq|done|done|lia|lia].
  - split; [done|]. exists O, (k_mem s). split_and!; [by destruct s|by apply stored_0|done|lia|cbn; lia].
  - cbn [snd]. lia.
  - exists r, n, m'. done.
Qed.
(** * [copyinstr] *)

Lemma copy_until_nul_ok m p n bs b :
  copy_until_nul m p n = (bs, b) →
  (length bs ≤ n)%nat ∧ (∀ i x, bs !! i = Some x → x = ldb m (p + Z.of_nat i)) ∧
  if b then ∃ cs, bs = cs ++ [0] ∧ Forall (λ x, x ≠ 0) cs else length bs = n ∧ Forall (λ x, x ≠ 0) bs.
Proof.
  revert p bs b. induction n as [|n IH]; intros p bs b H; cbn in H.
  { injection H as <- <-. done. }
  destruct (Z.eqb_spec (ldb m p) 0) as [Hz|Hz].
  { injection H as <- <-. split_and!; [cbn; lia| |by exists []].
    intros i x [-> <-]%list_lookup_singleton_Some. by rewrite Z.add_0_r. }
  destruct (copy_until_nul m (p + 1) n) as [bs' b'] eqn:Hc. injection H as <- <-.
  destruct (IH _ _ _ Hc) as (H1 & H2 & H3). split_and!; [cbn; lia| |].
  - intros [|i] x Hx; cbn in Hx; [injection Hx as <-; f_equal; lia|].
    rewrite (H2 i x Hx). f_equal. lia.
  - destruct b'.
    + destruct H3 as (cs & -> & Hcs). exists (ldb m p :: cs). split; [done|by constructor].
    + destruct H3 as [H3 H4]. split; [cbn; lia|by constructor].
Qed.

Lemma copyinstr_turn_ok T va max bs e s :
  uspace (k_mem s) T → 0 ≤ va → 0 < max →
  uview (k_mem s) (pt_map T) va = None ∧
    copyinstr_turn (pt_root T) (va, max, bs, false) e s = Ret (inr (-1, bs)) e s ∨
  va < MAXVA ∧ ∃ cs (b : bool), copyinstr_turn (pt_root T) (va, max, bs, false) e s =
      Ret (inl (va + (PGSIZE - va mod PGSIZE), max - (if b then Z.of_nat (length cs) - 1 else Z.of_nat (length cs)), bs ++ cs, b)) e s ∧
    (∀ i x, cs !! i = Some x → uview (k_mem s) (pt_map T) (va + Z.of_nat i) = Some x) ∧
    Z.of_nat (length cs) ≤ chunk va max ∧
    if b then ∃ ds, cs = ds ++ [0] ∧ Forall (λ x, x ≠ 0) ds
    else Z.of_nat (length cs) = chunk va max ∧ Forall (λ x, x ≠ 0) cs.
Proof.
  intros H Hva Hmax. unfold copyinstr_turn. rewrite (proj2 (Z.gtb_lt _ _)) by lia. cbn [negb andb].
  rewrite (bind_Ret _ _ _ _ _ _ _ (walkaddr_ok T _ e s (us_rep _ _ H) (PGROUNDDOWN_pos va Hva))).
  rewrite uaddr_round by lia. destruct (uaddr_view _ T va H) as [Hz Hnz].
  destruct (Z.eqb_spec (uaddr (pt_map T) va) 0) as [E|E]; [left; by rewrite Hz|right].
  destruct (Hnz E) as (Hvm & v & Hv & HU & -> & Hpg). rewrite PGROUNDDOWN_off. mstep.
  destruct (next_page va max) as [-> _]; [lia|done|]. change (Z.min _ max) with (chunk va max).
  destruct (chunk_range va max Hmax) as [Hc1 Hc2]. pose proof (page_below_max va).
  destruct (copy_until_nul _ _ _) as [cs b] eqn:Hcs. destruct (copy_until_nul_ok _ _ _ _ _ Hcs) as (H1 & H2 & H3).
  split; [done|]. exists cs, b. split_and!; [done| |lia|destruct b; [done|]; destruct H3; split; [lia|done]].
  intros i x Hi. pose proof (lookup_lt_Some _ _ _ Hi). erewrite uview_page; [|lia|lia|done|done].
  by rewrite (H2 i x Hi).
Qed.

(** What [copyinstr] leaves in the buffer and returns. *)
Record instr_result (m : mem) (f : gmap Z Z) (srcva max r : Z) (bs : list Z) : Prop := {
  ir_view i b : bs !! i = Some b → uview m f (srcva + Z.of_nat i) = Some b;
  ir_len : Z.of_nat (length bs) ≤ max;
  ir_result :
    r = 0 ∧ (∃ cs, bs = cs ++ [0] ∧ Forall (λ x, x ≠ 0) cs) ∨
    r = -1 ∧ Forall (λ x, x ≠ 0) bs ∧
      (Z.of_nat (length bs) = max ∨ uview m f (srcva + Z.of_nat (length bs)) = None)
}.

Lemma copyinstr_ok T srcva max e s :
  uspace (k_mem s) T → 0 ≤ srcva → 0 ≤ max < 2 ^ 63 →
  ∃ r bs, copyinstr (pt_root T) srcva max e s = Ret (r, bs) e s ∧
    instr_result (k_mem s) (pt_map T) srcva max r bs.
Proof.
  intros H Hva Hmax. unfold copyinstr. set (f := pt_map T). set (m := k_mem s).
  set (I := λ (st : Z * Z * list Z * bool) (e' : list (kstate → kstate)) (s' : kstate), e' = e ∧ s' = s ∧
    let '(va, rem, bs, b) := st in
      (∀ i x, bs !! i = Some x → uview m f (srcva + Z.of_nat i) = Some x) ∧ 0 ≤ rem ∧
      if b : bool then Z.of_nat (length bs) ≤ max ∧ ∃ cs, bs = cs ++ [0] ∧ Forall (λ x, x ≠ 0) cs
      else Forall (λ x, x ≠ 0) bs ∧ rem = max - Z.of_nat (length bs) ∧ (rem = 0 ∨ va = srcva + Z.of_nat (length bs))).
  destruct (loop_measure (copyinstr_turn (pt_root T)) (λ st _ _, if st.2 then 0 else st.1.1.2 + 1) I
    (λ r e' s', e' = e ∧ s' = s ∧ instr_result m f srcva max r.1 r.2)
    (srcva, max, [], false) e s) as ([r bs] & e' & s' & Hr & -> & -> & H1).
  - intros [[[va rem] bs] b] e1 s1 (-> & -> & Hbs & Hrem & Hb). cbn [fst snd]. split; [destruct b; lia|]. destruct b.
    { eexists _, _, _. split; [reflexivity|]. split_and!; [done|done|]. destruct Hb as [Hb1 Hb2].
      split; cbn [fst snd]; [done|done|by left]. }
    destruct Hb as (Hnz & -> & Hv). destruct (Z.eq_dec (max - Z.of_nat (length bs)) 0) as [Hend|Hne].
    { rewrite Hend. eexists _, _, _. split; [reflexivity|]. split_and!; [done|done|].
      split; cbn [fst snd]; [done|lia|right; split_and!; [done|done|left; lia]]. }
    destruct Hv as [?| ->]; [done|].
    destruct (copyinstr_turn_ok T (srcva + Z.of_nat (length bs)) (max - Z.of_nat (length bs)) bs e s)
      as [[Hn Hr]|(Hm & cs & b & Hr & Hcs & Hlen & Hc)]; [done|lia|lia| |]; eexists _, _, _; (split; [exact Hr|]).
    + split_and!; [done|done|]. split; cbn [fst snd]; [done|lia|right; auto].
    + set (va := srcva + Z.of_nat (length bs)) in *. set (rem := max - Z.of_nat (length bs)) in *.
      destruct (next_page va rem) as [_ Hnp]; [lia|lia|]. destruct (chunk_range va rem) as [Hc1 Hc2]; [lia|].
      assert (Hv' : ∀ i x, (bs ++ cs) !! i = Some x → uview m f (srcva + Z.of_nat i) = Some x).
      { intros i x [Hi|[Hi1 Hi2]]%lookup_app_Some; [by apply Hbs|].
        apply Hcs in Hi2. unfold va in Hi2. rewrite <-Hi2. f_equal. lia. }
      destruct b.
      * split; [|cbn [fst snd]; lia]. unfold I. split_and!; [done|done|done|lia|rewrite length_app; lia|].
        destruct Hc as (ds & -> & Hds). exists (bs ++ ds). rewrite app_assoc. split; [done|by apply Forall_app].
      * destruct Hc as [Hcl Hcz]. split; [|cbn [fst snd]; lia]. unfold I. rewrite length_app.
        split_and!; [done|done|done|lia|by apply Forall_app|lia|lia].
  - unfold I. split_and!; [done|done|done|lia|done|cbn; lia|right; cbn; lia].
  - cbn [fst snd]. lia.
  - exists r, bs. done.
Qed.

(** C27: Copying into user memory and reading it back is the identity: if every
    byte of the range is accessible to the process, [copyout] returns 0, only
    that range of the process's memory changes, nothing outside the
    process's pages changes, and [copyin] then returns exactly the bytes that
    were stored. Otherwise [copyout] returns -1. *)
Theorem copyout_copyin T dstva src e s :
  uspace (k_mem s) T → 0 ≤ dstva → Z.of_nat (length src) < 2 ^ 64 →
  ∃ r m', copyout (pt_root T) dstva src e s = Ret r e (set_k_mem m' s) ∧
    (r = 0 ∨ r = -1) ∧
    (r = 0 ↔ ∀ i, (i < length src)%nat → is_Some (uview (k_mem s) (pt_map T) (dstva + Z.of_nat i))) ∧
    (r = 0 → copyin (pt_root T) dstva (Z.of_nat (length src)) e (set_k_mem m' s) = Ret (0, src) e (set_k_mem m' s)) ∧
    (∀ x, 0 ≤ x < dstva ∨ dstva + Z.of_nat (length src) ≤ x →
       uview m' (pt_map T) x = uview (k_mem s) (pt_map T) x) ∧
    (∀ x, (∀ p, user_pages (pt_map T) p → x < p ∨ p + PGSIZE ≤ x) → ldb m' x = ldb (k_mem s) x).
Proof.
  intros H Hdst Hlen. destruct (copyout_ok T dstva src e s H Hdst Hlen) as (r & n & m' & Hr & HS & Hc).
  destruct HS as [S1 S2 S3].
  assert (Hn : (n ≤ length src)%nat) by (destruct Hc as [[_ ->]|(_ & ? & _)]; lia).
  exists r, m'. split_and!; [done|naive_solver| | | |done].
  - split.
    + intros ->. destruct Hc as [[_ ->]|(? & _)]; [|done]. intros i Hi. apply (proj1 (uview_mapped m' (k_mem s) _ _)).
      rewrite S2, decide_True by lia. apply lookup_lt_is_Some_2. lia.
    + intros Hall. destruct Hc as [[-> _]|(_ & Hlt & Hu)]; [done|]. apply Hall in Hlt. rewrite Hu in Hlt. by destruct Hlt.
  - intros ->. destruct Hc as [[_ ->]|(? & _)]; [|done].
    destruct (copyin_ok T dstva (Z.of_nat (length src)) e (set_k_mem m' s)) as (r & bs & Hr2 & Hb & Hc);
      [exact S1|done|lia|]. rewrite Hr2. kproj.
    assert (Heq : ∀ i, (i < length src)%nat → uview m' (pt_map T) (dstva + Z.of_nat i) = src !! i).
    { intros i Hi. rewrite S2, decide_True by lia. f_equal. lia. }
    destruct Hc as [[-> Hl]|(_ & Hl & Hu)].
    + do 2 f_equal. apply (list_eq_same_length _ _ (length src)); [done|lia|].
      intros i x y Hi Hx Hy. apply Hb in Hx. rewrite Heq in Hx by done. congruence.
    + exfalso. rewrite Heq in Hu by lia. apply lookup_ge_None in Hu. lia.
  - intros x Hx. rewrite S2, decide_False by lia. done.
Qed.

(** C28: [copyinstr] fetches a string: with status 0 the buffer holds the user's
    bytes up to and including the first NUL, at most [max] of them; with
    status -1 either the first [max] bytes hold no NUL or the string runs
    into memory the process may not access. It always returns, and memory is
    unchanged. *)
Theorem copyinstr_string T srcva max e s :
  uspace (k_mem s) T → 0 ≤ srcva → 0 ≤ max < 2 ^ 63 →
  ∃ r bs, copyinstr (pt_root T) srcva max e s = Ret (r, bs) e s ∧
    (∀ i b, bs !! i = Some b → uview (k_mem s) (pt_map T) (srcva + Z.of_nat i) = Some b) ∧
    Z.of_nat (length bs) ≤ max ∧
    (r = 0 ∧ (∃ cs, bs = cs ++ [0] ∧ Forall (λ x, x ≠ 0) cs) ∨
     r = -1 ∧ Forall (λ x, x ≠ 0) bs ∧
       (Z.of_nat (length bs) = max ∨ uview (k_mem s) (pt_map T) (srcva + Z.of_nat (length bs)) = None)).
Proof.
  intros H H1 H2. destruct (copyinstr_ok T srcva max e s H H1 H2) as (r & bs & Hr & [? ? ?]). eauto 10.
Qed.

(** ** Fork *)

Lemma has_flags v bit : Z.land bit 0x3FF = bit → has v bit = has (PTE_FLAGS v) bit.
Proof.
  intros Hb. unfold has, PTE_FLAGS. rewrite <-Z.land_assoc, (Z.land_comm 1023), Hb. done.
Qed.

(** C26: [fork] gives the child a copy of the parent's memory.  When [uvmcopy]
    returns 0, page [k] of the child is a page of its own, taken from the free
    list and distinct from every page in use before, mapped with the flags of
    the parent's; and the child sees at every address the byte the parent
    saw.  When it returns -1 the child's map is as it was and all the data
    pages are back on the free list, which then has no more pages than the copy
    needed; new pages of the child's page table ([tp]) stay in its tree.  The
    parent's memory never changes and no page is lost. *)
Theorem uvmcopy_forks t L T own l To sz e s :
  vm_inv t L T own l s → parent own (k_mem s) To (npages sz) → 0 ≤ sz ≤ MAXVA →
  (∀ k, 0 ≤ k < npages sz → pt_map T !! k = None) →
  ∃ r ps tp T' l' s', uvmcopy (pt_root To) (pt_root T) sz e s = Ret r e s' ∧
    vm_inv t L T' (ps ++ own) l' s' ∧ vm_frame s s' ∧ kept own (k_mem s) (k_mem s') ∧
    pt_pages T' ≡ₚ pt_pages T ++ tp ∧ l ≡ₚ tp ++ ps ++ l' ∧
    (r = 0 ∧ Z.of_nat (length ps) = npages sz ∧
       (∀ k v, 0 ≤ k < npages sz → pt_map To !! k = Some v →
          ∃ p v', ps !! Z.to_nat k = Some p ∧ (p ∉ own) ∧ pt_map T' !! k = Some v' ∧ PTE2PA v' = p ∧ PTE_FLAGS v' = PTE_FLAGS v) ∧
       (∀ k, ¬ 0 ≤ k < npages sz → pt_map T' !! k = pt_map T !! k) ∧
       (∀ x, 0 ≤ x < npages sz * PGSIZE → uview (k_mem s') (pt_map T') x = uview (k_mem s) (pt_map To) x) ∨
     r = -1 ∧ ps = [] ∧ pt_map T' = pt_map T ∧ Z.of_nat (length l') ≤ npages sz).
Proof.
  intros H HP Hsz Hf. destruct (uvmcopy_ok t L T own l To sz e s H HP Hsz Hf) as (r & ps & vs & T' & l' & s' & Hr & HF & HC & Hc).
  pose proof (fi_length _ _ _ _ _ _ _ _ _ _ _ _ HF) as Hlen. destruct (filled_taken _ _ _ _ _ _ _ _ _ _ _ _ HF) as (tp & Htp & Hl).
  destruct HF as [F1 F2 F3 F4 F5 F6 F7 F8 F9].
  exists r, ps, tp, T', l', s'. split_and!; [done..|]. destruct Hc as [[-> Hn]|(-> & -> & Hle)].
  2: { right. destruct vs; [|done]. done. }
  left. assert (Hpage : ∀ k v, 0 ≤ k < npages sz → pt_map To !! k = Some v →
    ∃ p, ps !! Z.to_nat k = Some p ∧ pt_map T' !! k = Some (leaf_pte p (PTE_FLAGS v)) ∧
      PTE2PA (leaf_pte p (PTE_FLAGS v)) = p ∧ PTE_FLAGS (leaf_pte p (PTE_FLAGS v)) = PTE_FLAGS v).
  { intros k v Hk Hv. destruct (lookup_lt_is_Some_2 ps (Z.to_nat k)) as [p Hp]; [lia|]. exists p. split; [done|].
    rewrite F7, lookup_map_ptes, decide_True, Z.sub_0_r by lia.
    assert (Hv' : pt_map To !! Z.of_nat (Z.to_nat k) = Some v) by by rewrite Z2Nat.id by lia.
    split; [by apply (cp_pte _ _ _ _ _ HC _ p v Hp Hv')|].
    assert (Hpg : page_ok p) by (eapply vi_page; [exact F2|]; apply elem_of_app; left; by eapply list_elem_of_lookup_2).
    destruct (page_phys p Hpg) as (Hp1 & _ & Hp3).
    assert (Hfr : 0 ≤ PTE_FLAGS v < 1024) by (rewrite PTE_FLAGS_spec; apply Z.mod_pos_bound; lia).
    destruct (leaf_spec p (PTE_FLAGS v) Hp1 Hfr) as (_ & _ & L1 & L2). split; [by apply L1|].
    pose proof (rep_leaf _ _ (pa_rep _ _ _ _ HP) _ _ Hv) as (HV & _ & _). by rewrite L2, flags_valid. }
  split_and!; [done|done| | |].
  { intros k v Hk Hv. destruct (Hpage k v Hk Hv) as (p & Hp & Hm & E1 & E2). exists p, (leaf_pte p (PTE_FLAGS v)).
    split_and!; [done| |done|done|done]. pose proof (vi_nodup _ _ _ _ _ _ F2) as Hnd. rewrite <-app_assoc in Hnd.
    apply NoDup_app in Hnd as (_ & _ & Hnd). apply NoDup_app in Hnd as (_ & Hd & _).
    intros Ho. apply (Hd p); [by eapply list_elem_of_lookup_2|apply elem_of_app; by left]. }
  { intros k Hk. rewrite F7, lookup_map_ptes, decide_False by lia. done. }
  intros x Hx. unfold uview. destruct (x <? MAXVA) eqn:Hmax; [|done].
  assert (Hk : 0 ≤ vpn x < npages sz).
  { unfold vpn, PGSIZE in *. pose proof (Z_div_mod_eq_full x 4096). pose proof (Z.mod_pos_bound x 4096). lia. }
  destruct (pa_map _ _ _ _ HP (vpn x) Hk) as (v & Hv & Hfl & Hin). destruct (Hpage _ v Hk Hv) as (p & Hp & Hm & E1 & E2).
  pose proof (rep_leaf _ _ (pa_rep _ _ _ _ HP) _ _ Hv) as (HV & _ & _). rewrite Hv, Hm. cbn.
  rewrite (has_flags (leaf_pte p _)), E2, <-has_flags, E1 by done.
  assert (Hv' : pt_map To !! Z.of_nat (Z.to_nat (vpn x)) = Some v) by by rewrite Z2Nat.id by lia.
  destruct (has v PTE_U); [|done]. f_equal. apply (cp_data _ _ _ _ _ HC _ p v _ Hp Hv').
  unfold PGSIZE. apply Z.mod_pos_bound. lia.
Qed.
End ucopy.

(** * On the small machine *)

Lemma tree1_map k v : pt_map tree1 !! k = Some v ↔ k = 0 ∧ v = uleaf (page 3).
Proof.
  change (pt_map tree1) with (partial_alter (λ _, Some (uleaf (page 3))) 0 (∅ : gmap Z Z)).
  destruct (decide (0 = k)) as [<-|Hk].
  - rewrite lookup_partial_alter_eq. naive_solver.
  - rewrite lookup_partial_alter_ne by done. rewrite lookup_empty. naive_solver.
Qed.

Lemma uleaf_page3 : PTE2PA (uleaf (page 3)) = page 3 ∧ PTE_FLAGS (uleaf (page 3)) ≠ PTE_V.
Proof. by vm_compute. Qed.

Lemma tiny_uspace : uspace (lnk := tiny_linker) (k_mem tiny_state) tree1.
Proof.
  split.
  - exact tiny_tree1.
  - intros k v [-> ->]%tree1_map _. rewrite (proj1 uleaf_page3). by apply page_page_ok.
  - intros k v [-> ->]%tree1_map _. rewrite (proj1 uleaf_page3), tree1_pages.
    rewrite !elem_of_cons, elem_of_nil. by intros [?|[?|[?|?]]].
  - intros k k' v v' [-> ->]%tree1_map _ [-> ->]%tree1_map _ _. done.
Qed.

Lemma tiny_parent : parent (lnk := tiny_linker) tiny_own (k_mem tiny_state) tree1 1.
Proof.
  split.
  - exact tiny_tree1.
  - intros p Hp. apply elem_of_app. by left.
  - intros k Hk. exists (uleaf (page 3)). split; [apply tree1_map; split; [lia|done]|].
    split; [apply uleaf_page3|]. rewrite (proj1 uleaf_page3). apply elem_of_app. right. constructor.
Qed.

Lemma copyout_copyin_witness :
  ∃ r m', copyout (page 0) 10 [72; 105; 0] [] tiny_state = Ret r [] (set_k_mem m' tiny_state) ∧
    (r = 0 → copyin (page 0) 10 3 [] (set_k_mem m' tiny_state) = Ret (0, [72; 105; 0]) [] (set_k_mem m' tiny_state)).
Proof.
  destruct (copyout_copyin (lnk := tiny_linker) tree1 10 [72; 105; 0] [] tiny_state tiny_uspace)
    as (r & m' & Hr & _ & _ & Hi & _).
  - lia.
  - done.
  - exists r, m'. exact (conj Hr Hi).
Defined.

Lemma copyinstr_string_witness :
  ∃ r bs, copyinstr (page 0) 10 16 [] tiny_state = Ret (r, bs) [] tiny_state ∧
    (length bs ≤ 16)%nat.
Proof.
  destruct (copyinstr_string (lnk := tiny_linker) tree1 10 16 [] tiny_state tiny_uspace)
    as (r & bs & Hr & _ & Hl & _).
  - lia.
  - lia.
  - exists r, bs. split; [exact Hr|lia].
Defined.

Lemma uvmcopy_forks_witness :
  ∃ r s', uvmcopy (lnk := tiny_linker) (page 0) (page 4) 100 [] tiny_state = Ret r [] s' ∧ (r = 0 ∨ r = -1).
Proof.
  destruct (uvmcopy_forks (lnk := tiny_linker) (mkthread 0 None true) [] (empty_tree (page 4)) tiny_own
    tiny_free tree1 100 [] tiny_state tiny_inv tiny_parent) as (r & ps & tp & T' & l' & s' & Hr & _ & _ & _ & _ & _ & Hc).
  - by split.
  - intros k _. done.
  - exists r, s'. split; [exact Hr|]. destruct Hc as [[-> _]|[-> _]]; [by left|by right].
Defined.
