(* ===== verification/Pipe.v ===== *)
(** kernel/pipe.c: reading, writing and closing a pipe ([pipealloc] is with the
    file table, in File.v).

    A pipe is a ring of [PIPESIZE] bytes with two 32-bit counters that only
    ever grow and wrap around; [queue] is the sequence of bytes in it. *)

From S2P Require Import Prelude Mem KString Params Kernel Spinlock Kalloc Sched Vm Uvm Ucopy.

Definition PIPESIZE : Z := 512.

Definition pipe_of (pa : Z) : K pipe :=
  ps <- gets k_pipes ;;
  deref (ps !! pa).
Definition modify_pipe (pa : Z) (f : pipe → pipe) : K unit :=
  pipe_of pa ;;;
  modify (λ s, set_k_pipes (alter f pa (k_pipes s)) s).

(** [pi->data[pi->nwrite++ % PIPESIZE] = ch] *)
Definition pipe_put (ch : Z) (pi : pipe) : pipe :=
  set_pi_nwrite (u32 (pi_nwrite pi + 1))
    (set_pi_data (<[Z.to_nat (pi_nwrite pi mod PIPESIZE) := ch]> (pi_data pi)) pi).

Section pipe.
Context {lnk : Linker}.

Definition pipeclose (pa : Z) (writable : bool) : K unit :=
  acquire (L_pipe pa) ;;;
  (if writable then
     modify_pipe pa (set_pi_writeopen 0) ;;;
     wakeup (Ch_pipe_nread pa)
   else
     modify_pipe pa (set_pi_readopen 0) ;;;
     wakeup (Ch_pipe_nwrite pa)) ;;;
  pi <- pipe_of pa ;;
  if (pi_readopen pi =? 0) && (pi_writeopen pi =? 0) then
    release (L_pipe pa) ;;;
    modify (λ s, set_k_pipes (delete pa (k_pipes s)) s) ;;;
    kfree pa
  else release (L_pipe pa).
End pipe.

(** The loop of [pipewrite] leaves with [inl] on [return -1] and with [inr] on
    the way to the end of the function. *)
Definition pipewrite_turn (pa : Z) (pr : nat) (addr n i : Z) : K (Z + (Z + Z)) :=
  if i <? n then
    pi <- pipe_of pa ;;
    p <- proc_of pr ;;
    if (pi_readopen pi =? 0) || negb (p_killed p =? 0) then
      release (L_pipe pa) ;;;
      ret (inr (inl (-1)))
    else if pi_nwrite pi =? u32 (pi_nread pi + PIPESIZE) then
      wakeup (Ch_pipe_nread pa) ;;;
      sleep (Ch_pipe_nwrite pa) (L_pipe pa) ;;;
      ret (inl i)
    else
      r <- copyin (p_pagetable p) (u64 (addr + i)) 1 ;;
      if r.1 =? -1 then ret (inr (inr i))
      else
        modify_pipe pa (pipe_put (hd 0 r.2)) ;;;
        ret (inl (i + 1))
  else ret (inr (inr i)).
Definition pipewrite (pa addr n : Z) : K Z :=
  pr <- myproc ;;
  pr <- deref pr ;;
  acquire (L_pipe pa) ;;;
  r <- loop (pipewrite_turn pa pr addr n) 0 ;;
  match r with
  | inl v => ret v
  | inr i =>
      wakeup (Ch_pipe_nread pa) ;;;
      release (L_pipe pa) ;;;
      ret i
  end.

(** Waiting for the pipe to be non-empty: [inl] on [return -1]. *)
Definition piperead_wait (pa : Z) (pr : nat) (_ : unit) : K (unit + (Z + unit)) :=
  pi <- pipe_of pa ;;
  if (pi_nread pi =? pi_nwrite pi) && negb (pi_writeopen pi =? 0) then
    p <- proc_of pr ;;
    if negb (p_killed p =? 0) then
      release (L_pipe pa) ;;;
      ret (inr (inl (-1)))
    else
      sleep (Ch_pipe_nread pa) (L_pipe pa) ;;;
      ret (inl tt)
  else ret (inr (inr tt)).
Definition piperead_turn (pa : Z) (pr : nat) (addr n i : Z) : K (Z + Z) :=
  if i <? n then
    pi <- pipe_of pa ;;
    if pi_nread pi =? pi_nwrite pi then ret (inr i)
    else
      ch <- deref (pi_data pi !! Z.to_nat (pi_nread pi mod PIPESIZE)) ;;
      modify_pipe pa (set_pi_nread (u32 (pi_nread pi + 1))) ;;;
      p <- proc_of pr ;;
      r <- copyout (p_pagetable p) (u64 (addr + i)) [ch] ;;
      if r =? -1 then ret (inr i) else ret (inl (i + 1))
  else ret (inr i).
Definition piperead (pa addr n : Z) : K Z :=
  pr <- myproc ;;
  pr <- deref pr ;;
  acquire (L_pipe pa) ;;;
  r <- loop (piperead_wait pa pr) tt ;;
  match r with
  | inl v => ret v
  | inr _ =>
      i <- loop (piperead_turn pa pr addr n) 0 ;;
      wakeup (Ch_pipe_nwrite pa) ;;;
      release (L_pipe pa) ;;;
      ret i
  end.

(** * The ring as a queue *)

(** The number of bytes in the pipe, counters wrapping around. *)
Definition pipe_len (pi : pipe) : Z := u32 (pi_nwrite pi - pi_nread pi).
Definition queue (pi : pipe) : list Z :=
  (λ i, nth (Z.to_nat (u32 (pi_nread pi + Z.of_nat i) mod PIPESIZE)) (pi_data pi) 0)
    <$> seq 0 (Z.to_nat (pipe_len pi)).

Record pipe_ok (pi : pipe) : Prop := {
  po_data : length (pi_data pi) = Z.to_nat PIPESIZE;
  po_nread : 0 ≤ pi_nread pi < 2 ^ 32;
  po_nwrite : 0 ≤ pi_nwrite pi < 2 ^ 32;
  po_len : pipe_len pi ≤ PIPESIZE
}.

Lemma length_queue pi : length (queue pi) = Z.to_nat (pipe_len pi).
Proof. unfold queue. by rewrite length_fmap, length_seq. Qed.

Lemma pipe_len_pos pi : 0 ≤ pipe_len pi.
Proof. apply Z.mod_pos_bound. lia. Qed.

(** The test for a full pipe. *)
Lemma pipe_full_iff pi :
  pipe_ok pi → (pi_nwrite pi =? u32 (pi_nread pi + PIPESIZE)) = bool_decide (pipe_len pi = PIPESIZE).
Proof.
  intros [_ Hr Hw Hl]. unfold pipe_len, u32, PIPESIZE in *.
  change (2 ^ 32) with 4294967296 in *.
  pose proof (Z_div_mod_eq_full (pi_nwrite pi - pi_nread pi) 4294967296).
  pose proof (Z_div_mod_eq_full (pi_nread pi + 512) 4294967296).
  pose proof (Z.mod_pos_bound (pi_nwrite pi - pi_nread pi) 4294967296).
  pose proof (Z.mod_pos_bound (pi_nread pi + 512) 4294967296).
  destruct (Z.eqb_spec (pi_nwrite pi) ((pi_nread pi + 512) mod 4294967296)) as [He|He];
    [rewrite bool_decide_eq_true_2|rewrite bool_decide_eq_false_2]; try done; lia.
Qed.

(** The test for an empty pipe. *)
Lemma pipe_empty_iff pi : pipe_ok pi → (pi_nread pi =? pi_nwrite pi) = bool_decide (queue pi = []).
Proof.
  intros [_ Hr Hw Hl]. assert (Hq : queue pi = [] ↔ pipe_len pi = 0).
  { rewrite <-length_zero_iff_nil, length_queue. pose proof (pipe_len_pos pi). lia. }
  unfold pipe_len, u32 in *. change (2 ^ 32) with 4294967296 in *.
  pose proof (Z_div_mod_eq_full (pi_nwrite pi - pi_nread pi) 4294967296).
  pose proof (Z.mod_pos_bound (pi_nwrite pi - pi_nread pi) 4294967296).
  destruct (Z.eqb_spec (pi_nread pi) (pi_nwrite pi)) as [He|He];
    [rewrite bool_decide_eq_true_2|rewrite bool_decide_eq_false_2]; try done; rewrite Hq; lia.
Qed.

Lemma u32_mod_512 x : u32 x mod PIPESIZE = x mod PIPESIZE.
Proof.
  unfold u32, PIPESIZE. apply Z.mod_mod_divide. by exists 8388608.
Qed.

(** The slot written is not one of those in use. *)
Lemma slot_free pi i :
  pipe_ok pi → 0 ≤ i < pipe_len pi → pipe_len pi < PIPESIZE →
  (pi_nread pi + i) mod PIPESIZE ≠ pi_nwrite pi mod PIPESIZE.
Proof.
  intros _ Hi Hl. unfold pipe_len, u32, PIPESIZE in *. change (2 ^ 32) with 4294967296 in *.
  pose proof (Z_div_mod_eq_full (pi_nwrite pi - pi_nread pi) 4294967296).
  pose proof (Z_div_mod_eq_full (pi_nread pi + i) 512). pose proof (Z_div_mod_eq_full (pi_nwrite pi) 512). lia.
Qed.

(** The slot written is the one after those in use. *)
Lemma slot_next pi :
  pipe_ok pi → (pi_nread pi + pipe_len pi) mod PIPESIZE = pi_nwrite pi mod PIPESIZE.
Proof.
  intros _. unfold pipe_len, u32, PIPESIZE. change (2 ^ 32) with 4294967296.
  pose proof (Z_div_mod_eq_full (pi_nwrite pi - pi_nread pi) 4294967296) as H.
  set (q := (pi_nwrite pi - pi_nread pi) / 4294967296) in *.
  replace (pi_nwrite pi) with (pi_nread pi + (pi_nwrite pi - pi_nread pi) mod 4294967296 + (8388608 * q) * 512) at 2 by lia.
  by rewrite Z.mod_add by lia.
Qed.

Lemma pipe_put_len pi ch :
  pipe_len pi < PIPESIZE → pipe_len (pipe_put ch pi) = pipe_len pi + 1.
Proof.
  intros Hlt. unfold pipe_len, pipe_put, u32, PIPESIZE in *. cbn. change (2 ^ 32) with 4294967296 in *.
  pose proof (Z_div_mod_eq_full (pi_nwrite pi - pi_nread pi) 4294967296).
  pose proof (Z.mod_pos_bound (pi_nwrite pi - pi_nread pi) 4294967296).
  rewrite Zminus_mod_idemp_l.
  replace (pi_nwrite pi + 1 - pi_nread pi) with
    ((pi_nwrite pi - pi_nread pi) mod 4294967296 + 1 + (pi_nwrite pi - pi_nread pi) / 4294967296 * 4294967296) by lia.
  rewrite Z.mod_add, Z.mod_small by lia. lia.
Qed.

Lemma slot_lt x : (Z.to_nat (x mod PIPESIZE) < Z.to_nat PIPESIZE)%nat.
Proof. unfold PIPESIZE. pose proof (Z.mod_pos_bound x 512). lia. Qed.

Lemma pipe_put_ok pi ch :
  pipe_ok pi → pipe_len pi < PIPESIZE →
  pipe_ok (pipe_put ch pi) ∧ queue (pipe_put ch pi) = queue pi ++ [ch].
Proof.
  intros Hok Hlt. pose proof Hok as [Hd Hr Hw Hl]. pose proof (pipe_put_len pi ch Hlt) as Hlen.
  pose proof (pipe_len_pos pi) as Hp. split; [split|].
  - cbn. by rewrite length_insert.
  - done.
  - apply Z.mod_pos_bound. lia.
  - lia.
  - unfold queue. rewrite Hlen, Z2Nat.inj_add, Nat.add_1_r, seq_S, fmap_app by lia.
    cbn [fmap list_fmap pipe_put pi_nread pi_data set_pi_nwrite set_pi_data]. f_equal.
    + apply list_fmap_ext. intros k i Hi. apply list_elem_of_lookup_2, elem_of_seq in Hi.
      rewrite !nth_lookup, list_lookup_insert_ne; [done|]. rewrite u32_mod_512.
      intros Heq%Z2Nat.inj; try (apply Z.mod_pos_bound; done).
      symmetry in Heq. by eapply (slot_free pi (Z.of_nat i)); [|lia|..].
    + f_equal. rewrite nth_lookup, u32_mod_512, Nat.add_0_l, Z2Nat.id, slot_next by (done || lia).
      rewrite list_lookup_insert_eq; [done|]. rewrite Hd. apply slot_lt.
Qed.

(** Taking the oldest byte. *)
Lemma pipe_get_ok pi ch q :
  pipe_ok pi → queue pi = ch :: q →
  pi_data pi !! Z.to_nat (pi_nread pi mod PIPESIZE) = Some ch ∧
  pipe_ok (set_pi_nread (u32 (pi_nread pi + 1)) pi) ∧ queue (set_pi_nread (u32 (pi_nread pi + 1)) pi) = q.
Proof.
  intros Hok Hq. pose proof Hok as [Hd Hr Hw Hl].
  assert (Hpos : 0 < pipe_len pi).
  { pose proof (length_queue pi) as H. rewrite Hq in H. cbn in H. lia. }
  assert (Hlen : pipe_len (set_pi_nread (u32 (pi_nread pi + 1)) pi) = pipe_len pi - 1).
  { unfold pipe_len, u32 in *. cbn. change (2 ^ 32) with 4294967296 in *.
    pose proof (Z_div_mod_eq_full (pi_nwrite pi - pi_nread pi) 4294967296).
    pose proof (Z.mod_pos_bound (pi_nwrite pi - pi_nread pi) 4294967296).
    rewrite Zminus_mod_idemp_r.
    replace (pi_nwrite pi - (pi_nread pi + 1)) with
      ((pi_nwrite pi - pi_nread pi) mod 4294967296 - 1 + (pi_nwrite pi - pi_nread pi) / 4294967296 * 4294967296) by lia.
    rewrite Z.mod_add, Z.mod_small by lia. lia. }
  unfold queue in Hq. replace (Z.to_nat (pipe_len pi)) with (S (Z.to_nat (pipe_len pi - 1))) in Hq by lia.
  cbn [seq fmap list_fmap] in Hq. injection Hq as Hch Hq. rewrite Z.add_0_r, u32_mod_512 in Hch. split_and!.
  - destruct (lookup_lt_is_Some_2 (pi_data pi) (Z.to_nat (pi_nread pi mod PIPESIZE))) as [x Hx].
    { rewrite Hd. apply slot_lt. }
    rewrite Hx. f_equal. by rewrite nth_lookup, Hx in Hch.
  - split; [done|apply Z.mod_pos_bound; lia|done|lia].
  - unfold queue. rewrite Hlen, <-Hq, <-fmap_S_seq, <-list_fmap_compose.
    apply list_fmap_ext. intros k i _. cbn. do 2 f_equal. unfold u32. rewrite Zplus_mod_idemp_l. do 2 f_equal. lia.
Qed.

(** * Specifications *)

Lemma pipe_of_ok pa pi e s : k_pipes s !! pa = Some pi → pipe_of pa e s = Ret pi e s.
Proof. intros H. unfold pipe_of. mstep. by rewrite H. Qed.

Lemma modify_pipe_ok pa pi f e s :
  k_pipes s !! pa = Some pi → modify_pipe pa f e s = Ret tt e (set_k_pipes (<[pa := f pi]> (k_pipes s)) s).
Proof.
  intros H. unfold modify_pipe. mrun (pipe_of_ok pa pi e s H). unfold modify. do 2 f_equal.
  apply map_eq. intros x. rewrite lookup_alter, lookup_insert. case_decide; [subst; by rewrite H|done].
Qed.

Section specs.
Context {lnk : Linker} {lnk_ok : LinkerOk lnk}.

(** Process [p], not killed, with user memory [T]. *)
Record puser (t : thread) (L : list lockid) (p : nat) (T : ptree) (s : kstate) : Prop := {
  pu_ctx : ctx t L (k_core s);
  pu_thread : t_proc t = Some p;
  pu_len : length (k_procs s) = nproc;
  pu_proc : ∃ pr, k_procs s !! p = Some pr ∧ p_killed pr = 0 ∧ p_pagetable pr = pt_root T;
  pu_space : uspace (k_mem s) T
}.

Lemma puser_woken t L p T s ch c :
  ctx t L c → puser t L p T s →
  puser t L p T (set_k_core c (set_k_procs (woken (Some p) ch (k_procs s)) s)).
Proof.
  intros Hc [_ H2 H3 (pr & H4 & H5 & H6) H7]. split; kproj; [done|done|by rewrite length_woken| |done].
  exists pr. rewrite lookup_woken, H4. cbn. split; [|done]. unfold wake. rewrite bool_decide_eq_false_2; [done|]. auto.
Qed.

(** The pipe while [k] of the bytes [bs] have been written. *)
Definition written (pa : Z) (pi : pipe) (bs : list Z) (s : kstate) (k : nat) (s' : kstate) : Prop :=
  ∃ pi', s' = set_k_pipes (<[pa := pi']> (k_pipes s)) s ∧ pipe_ok pi' ∧
    queue pi' = queue pi ++ take k bs ∧ pi_readopen pi' = pi_readopen pi ∧ pi_writeopen pi' = pi_writeopen pi.

Lemma pipewrite_turn_ok t L p T pa pi addr n bs k e s s' :
  puser t L p T s → 0 ≤ addr → addr + n ≤ 2 ^ 64 → Z.of_nat (length bs) ≤ n →
  pi_readopen pi ≠ 0 → Z.of_nat (length (queue pi) + length bs) ≤ PIPESIZE →
  (∀ i b, bs !! i = Some b → uview (k_mem s) (pt_map T) (addr + Z.of_nat i) = Some b) →
  written pa pi bs s k s' → (k < length bs)%nat →
  ∃ s2, pipewrite_turn pa p addr n (Z.of_nat k) e s' = Ret (inl (Z.of_nat (S k))) e s2 ∧ written pa pi bs s (S k) s2.
Proof.
  intros [_ _ _ (pr & Hp & Hkl & Hpt) Hsp] Ha Han Hbn Hro Hroom Hbs (pi1 & -> & Hok & Hq & Hr1 & Hw1) Hk.
  unfold pipewrite_turn. rewrite (proj2 (Z.ltb_lt _ _)) by lia.
  set (s1 := set_k_pipes (<[pa := pi1]> (k_pipes s)) s).
  assert (Hpi : k_pipes s1 !! pa = Some pi1) by apply lookup_insert_eq.
  rewrite (bind_Ret _ _ _ _ _ _ _ (pipe_of_ok pa pi1 e s1 Hpi)).
  rewrite (bind_Ret _ _ _ _ _ _ _ (proc_of_ok p pr e s1 Hp)).
  rewrite Hr1, (proj2 (Z.eqb_neq _ 0)), Hkl by done. cbn [negb orb Z.eqb].
  assert (Hlt : pipe_len pi1 < PIPESIZE).
  { pose proof (length_queue pi1) as Hl. rewrite Hq, length_app, length_take in Hl. pose proof (pipe_len_pos pi1). lia. }
  rewrite pipe_full_iff, bool_decide_eq_false_2 by (done || lia).
  change (2 ^ 64) with 18446744073709551616 in *. rewrite u64_id by lia.
  destruct (lookup_lt_is_Some_2 bs k Hk) as [b Hb]. rewrite Hpt.
  destruct (copyin_ok T (addr + Z.of_nat k) 1 e s1 Hsp) as (r & cs & Hr & Hcs & Hc); [lia|lia|]. mrun Hr. cbn [fst snd].
  destruct Hc as [[-> Hl]|(_ & Hl & Hu)].
  2: { destruct cs; [|cbn in Hl; lia]. cbn [length Z.of_nat] in Hu. rewrite Z.add_0_r in Hu.
       change (k_mem s1) with (k_mem s) in Hu. by rewrite (Hbs k b Hb) in Hu. }
  destruct cs as [|x [|]]; [done| |cbn in Hl; lia].
  pose proof (Hcs O x eq_refl) as Hx. rewrite Z.add_0_r in Hx. change (k_mem s1) with (k_mem s) in Hx.
  rewrite (Hbs k b Hb) in Hx. injection Hx as <-.
  cbn [Z.eqb hd]. mrun (modify_pipe_ok pa pi1 (pipe_put b) e s1 Hpi).
  eexists. split; [do 2 f_equal; f_equal; lia|].
  destruct (pipe_put_ok pi1 b Hok Hlt) as [Hok' Hq']. exists (pipe_put b pi1).
  split_and!; [|done| |done|done].
  - unfold s1. kproj. rewrite insert_insert_eq. kstate_eq.
  - by rewrite Hq', Hq, (take_S_r bs k b Hb), app_assoc.
Qed.

(** Writing when there is room: the user's bytes, up to the first one the
    process may not access, join the queue. *)
Lemma pipewrite_ok t p T pa pi addr n bs e s :
  puser t [] p T s → 0 ≤ addr → 0 ≤ n → addr + n ≤ 2 ^ 64 → n < 2 ^ 31 →
  k_pipes s !! pa = Some pi → pipe_ok pi → pi_readopen pi ≠ 0 →
  Z.of_nat (length bs) ≤ n → Z.of_nat (length (queue pi)) + n ≤ PIPESIZE →
  (∀ i b, bs !! i = Some b → uview (k_mem s) (pt_map T) (addr + Z.of_nat i) = Some b) →
  (Z.of_nat (length bs) = n ∨ uview (k_mem s) (pt_map T) (addr + Z.of_nat (length bs)) = None) →
  ∃ c pi', pipewrite pa addr n e s = Ret (Z.of_nat (length bs)) e
      (set_k_core c (set_k_procs (woken (Some p) (Ch_pipe_nread pa) (k_procs s))
        (set_k_pipes (<[pa := pi']> (k_pipes s)) s))) ∧
    ctx t [] c ∧ pipe_ok pi' ∧ queue pi' = queue pi ++ bs ∧
    pi_readopen pi' = pi_readopen pi ∧ pi_writeopen pi' = pi_writeopen pi.
Proof.
  intros HP Ha Hn Han Hn31 Hpi Hok Hro Hbn Hroom Hbs Hend. pose proof HP as [Hc Ht Hlen (pr & Hp & Hkl & Hpt) Hsp].
  unfold pipewrite. kmyproc c1 Hc1. rewrite Ht. mstep. kacquire c2 Hc2; [set_solver|].
  set (s2 := set_k_core c2 (set_k_core c1 s)).
  assert (HP2 : puser t [L_pipe pa] p T s2) by (split; [done..|by exists pr|done]).
  assert (Hloop : ∃ s3, loop (pipewrite_turn pa p addr n) 0 e s2 = Ret (inr (Z.of_nat (length bs))) e s3 ∧
    written pa pi bs s2 (length bs) s3).
  { destruct (loop_measure (pipewrite_turn pa p addr n) (λ i _ _, n - i)
      (λ i e' s', e' = e ∧ ∃ k, i = Z.of_nat k ∧ (k ≤ length bs)%nat ∧ written pa pi bs s2 k s')
      (λ r e' s', e' = e ∧ r = inr (Z.of_nat (length bs)) ∧ written pa pi bs s2 (length bs) s') 0 e s2)
      as (r & e' & s3 & Hr & -> & -> & HW).
    - intros i e1 s1 (-> & k & -> & Hk & HW). split; [lia|]. destruct (decide (k = length bs)) as [->|Hne].
      + exists (inr (inr (Z.of_nat (length bs)))), e, s1. split; [|done]. destruct HW as (pi1 & -> & Hok1 & Hq1 & Hr1 & Hw1).
        unfold pipewrite_turn. destruct (Z.ltb_spec (Z.of_nat (length bs)) n) as [Hlt|Hge]; [|done].
        destruct Hend as [?|Hend]; [lia|]. change (2 ^ 64) with 18446744073709551616 in *.
        match goal with |- bind _ _ _ ?st = _ => set (s1 := st) end.
        assert (Hpi1 : k_pipes s1 !! pa = Some pi1) by apply lookup_insert_eq.
        rewrite (bind_Ret _ _ _ _ _ _ _ (pipe_of_ok pa pi1 e s1 Hpi1)).
        rewrite (bind_Ret _ _ _ _ _ _ _ (proc_of_ok p pr e s1 Hp)).
        rewrite Hr1, (proj2 (Z.eqb_neq _ 0)), Hkl by done. cbn [negb orb Z.eqb].
        assert (pipe_len pi1 < PIPESIZE).
        { pose proof (length_queue pi1) as Hl. rewrite Hq1, length_app, length_take in Hl. pose proof (pipe_len_pos pi1). lia. }
        rewrite pipe_full_iff, bool_decide_eq_false_2 by (done || lia). rewrite u64_id, Hpt by lia.
        destruct (copyin_ok T (addr + Z.of_nat (length bs)) 1 e s1 Hsp) as (r & cs & Hr & Hcs & Hc3); [lia|lia|].
        mrun Hr. cbn [fst snd]. destruct Hc3 as [[-> Hl]|(-> & _ & _)]; [|done].
        destruct cs as [|x cs]; [done|]. pose proof (Hcs O x eq_refl) as Hx. rewrite Z.add_0_r in Hx.
        change (k_mem s1) with (k_mem s) in Hx. by rewrite Hend in Hx.
      + destruct (pipewrite_turn_ok t [L_pipe pa] p T pa pi addr n bs k e s2 s1) as (s3 & Hr & HW'); [done..|lia|done|done|lia|].
        eexists _, _, _. split; [exact Hr|]. split; [|lia]. split; [done|]. exists (S k). split_and!; [done|lia|done].
    - split; [done|]. exists O. split_and!; [done|lia|]. exists pi.
      split_and!; [|done|by rewrite app_nil_r|done|done].
      unfold s2. kproj. rewrite insert_id by done. by destruct s.
    - lia.
    - eauto. }
  destruct Hloop as (s3 & Hr & pi' & -> & Hok' & Hq' & Hr' & Hw'). rewrite firstn_all in Hq'. mrun Hr.
  destruct (wakeup_ok t [L_pipe pa] (Ch_pipe_nread pa) e (set_k_pipes (<[pa := pi']> (k_pipes s2)) s2))
    as (c3 & Hwk & Hc3); [done|done|by intros i _ ?%list_elem_of_singleton|]. mrun Hwk.
  krelease c4 Hc4. mstep. exists c4, pi'. rewrite Ht. split_and!; [|done..]. unfold s2. kstate_eq.
Qed.
Lemma stored_snoc T addr q k b m m1 m2 :
  0 ≤ addr → stored T addr q k m m1 → q !! k = Some b → stored T (addr + Z.of_nat k) [b] 1 m1 m2 →
  stored T addr q (S k) m m2.
Proof.
  intros Ha [A1 A2 A3] Hb [B1 B2 B3]. split; [done| |].
  - intros x Hx. rewrite B2, A2 by done. repeat case_decide; try lia; try done.
    replace (Z.to_nat (x - (addr + Z.of_nat k))) with O by lia.
    replace (Z.to_nat (x - addr)) with k by lia. by rewrite Hb.
  - intros x Hx. by rewrite B3, A3.
Qed.

(** The pipe and memory while [k] bytes have been read. *)
Definition was_read (T : ptree) (pa addr : Z) (pi : pipe) (s : kstate) (k : nat) (s' : kstate) : Prop :=
  ∃ pi' m', s' = set_k_mem m' (set_k_pipes (<[pa := pi']> (k_pipes s)) s) ∧ pipe_ok pi' ∧
    queue pi' = drop k (queue pi) ∧ pi_readopen pi' = pi_readopen pi ∧ pi_writeopen pi' = pi_writeopen pi ∧
    stored T addr (queue pi) k (k_mem s) m'.

(** The byte that is read, and the copy to the user. *)
Lemma piperead_turn_ok t L p T pa addr pi n k b e s s' :
  puser t L p T s → 0 ≤ addr → addr + n ≤ 2 ^ 64 →
  was_read T pa addr pi s k s' → queue pi !! k = Some b → Z.of_nat k < n →
  ∃ r s2, piperead_turn pa p addr n (Z.of_nat k) e s' = Ret r e s2 ∧
    (is_Some (uview (k_mem s) (pt_map T) (addr + Z.of_nat k)) →
       r = inl (Z.of_nat (S k)) ∧ was_read T pa addr pi s (S k) s2) ∧
    (uview (k_mem s) (pt_map T) (addr + Z.of_nat k) = None →
       r = inr (Z.of_nat k) ∧ ∃ pi' m', s2 = set_k_mem m' (set_k_pipes (<[pa := pi']> (k_pipes s)) s) ∧
         pipe_ok pi' ∧ queue pi' = drop (S k) (queue pi)).
Proof.
  intros [_ _ _ (pr & Hp & Hkl & Hpt) _] Ha Han (pi1 & m1 & -> & Hok & Hq & Hr1 & Hw1 & HS) Hb Hk.
  change (2 ^ 64) with 18446744073709551616 in *.
  unfold piperead_turn. rewrite (proj2 (Z.ltb_lt _ _)) by lia.
  set (s1 := set_k_mem m1 (set_k_pipes (<[pa := pi1]> (k_pipes s)) s)).
  assert (Hpi : k_pipes s1 !! pa = Some pi1) by apply lookup_insert_eq.
  rewrite (bind_Ret _ _ _ _ _ _ _ (pipe_of_ok pa pi1 e s1 Hpi)).
  assert (Hq1 : queue pi1 = b :: drop (S k) (queue pi)) by by rewrite Hq, (drop_S _ _ _ Hb).
  rewrite pipe_empty_iff, bool_decide_eq_false_2 by (done || by rewrite Hq1).
  destruct (pipe_get_ok pi1 b _ Hok Hq1) as (Hd & Hok' & Hq'). rewrite Hd. mstep.
  mrun (modify_pipe_ok pa pi1 (set_pi_nread (u32 (pi_nread pi1 + 1))) e s1 Hpi).
  set (pi2 := set_pi_nread (u32 (pi_nread pi1 + 1)) pi1) in *.
  set (s2 := set_k_pipes (<[pa := pi2]> (k_pipes s1)) s1).
  mrun (proc_of_ok p pr e s2 Hp). rewrite Hpt, u64_id by lia.
  assert (Hsp : uspace (k_mem s2) T) by apply HS.
  destruct (copyout_ok T (addr + Z.of_nat k) [b] e s2 Hsp) as (r & n' & m' & Hr & HS' & Hc); [lia|cbn; lia|].
  mrun Hr.
  assert (Hs2 : ∀ m, set_k_mem m s2 = set_k_mem m (set_k_pipes (<[pa := pi2]> (k_pipes s)) s)).
  { intros m. unfold s2, s1. kproj. rewrite insert_insert_eq. kstate_eq. }
  destruct Hc as [[-> Hn']|(-> & Hn' & Hu)]; cbn in Hn'; cbn [Z.eqb].
  - subst n'. eexists _, _. split; [reflexivity|]. split; [intros _|].
    + split; [f_equal; lia|]. exists pi2, m'. split_and!; [apply Hs2|done|done|done|done|]. by eapply stored_snoc.
    + intros Hu. exfalso. pose proof (so_view _ _ _ _ _ _ HS' (addr + Z.of_nat k)) as Hv.
      rewrite decide_True, Z.sub_diag in Hv by lia. specialize (Hv ltac:(lia)). cbn in Hv.
      destruct (proj1 (uview_mapped m' (k_mem s) (pt_map T) (addr + Z.of_nat k))) as [y Hy]; [by rewrite Hv|].
      by rewrite Hu in Hy.
  - assert (n' = O) as -> by lia. cbn [Z.of_nat] in Hu. rewrite Z.add_0_r in Hu.
    eexists _, _. split; [reflexivity|]. split; intros Hm.
    + exfalso. apply (uview_mapped (k_mem s) (k_mem s2)) in Hm. rewrite Hu in Hm. by destruct Hm.
    + split; [done|]. exists pi2, m'. split_and!; [apply Hs2|done|done].
Qed.

(** Reading without waiting: as many bytes as there are, at most [n]. *)
Lemma piperead_ok t p T pa pi addr n e s :
  let k := Nat.min (Z.to_nat n) (length (queue pi)) in
  puser t [] p T s → 0 ≤ addr → 0 ≤ n → addr + n ≤ 2 ^ 64 → n < 2 ^ 31 →
  k_pipes s !! pa = Some pi → pipe_ok pi → queue pi ≠ [] ∨ pi_writeopen pi = 0 →
  (∀ i, (i < k)%nat → is_Some (uview (k_mem s) (pt_map T) (addr + Z.of_nat i))) →
  ∃ c pi' m', piperead pa addr n e s = Ret (Z.of_nat k) e
      (set_k_core c (set_k_procs (woken (Some p) (Ch_pipe_nwrite pa) (k_procs s))
        (set_k_mem m' (set_k_pipes (<[pa := pi']> (k_pipes s)) s)))) ∧
    ctx t [] c ∧ pipe_ok pi' ∧ queue pi' = drop k (queue pi) ∧
    pi_readopen pi' = pi_readopen pi ∧ pi_writeopen pi' = pi_writeopen pi ∧
    stored T addr (queue pi) k (k_mem s) m'.
Proof.
  intros k HP Ha Hn Han Hn31 Hpi Hok Hne Hmap. pose proof HP as [Hc Ht Hlen (pr & Hp & Hkl & Hpt) Hsp].
  unfold piperead. kmyproc c1 Hc1. rewrite Ht. mstep. kacquire c2 Hc2; [set_solver|].
  set (s2 := set_k_core c2 (set_k_core c1 s)).
  assert (HP2 : puser t [L_pipe pa] p T s2) by (split; [done..|by exists pr|done]).
  assert (Hwait : loop (piperead_wait pa p) tt e s2 = Ret (inr tt) e s2).
  { apply loop_exit. unfold piperead_wait. rewrite (bind_Ret _ _ _ _ _ _ _ (pipe_of_ok pa pi e s2 Hpi)).
    rewrite pipe_empty_iff by done. destruct Hne as [Hne| ->].
    - by rewrite bool_decide_eq_false_2.
    - cbn [Z.eqb negb]. by rewrite andb_false_r. }
  mrun Hwait.
  assert (Hloop : ∃ s3, loop (piperead_turn pa p addr n) 0 e s2 = Ret (Z.of_nat k) e s3 ∧ was_read T pa addr pi s2 k s3).
  { destruct (loop_measure (piperead_turn pa p addr n) (λ i _ _, n - i)
      (λ i e' s', e' = e ∧ ∃ j, i = Z.of_nat j ∧ (j ≤ k)%nat ∧ was_read T pa addr pi s2 j s')
      (λ r e' s', e' = e ∧ r = Z.of_nat k ∧ was_read T pa addr pi s2 k s') 0 e s2)
      as (r & e' & s3 & Hr & -> & -> & HW).
    - intros i e1 s1 (-> & j & -> & Hj & HW). split; [lia|]. destruct (decide (j = k)) as [->|Hjk].
      + exists (inr (Z.of_nat k)), e, s1. split; [|done]. unfold piperead_turn.
        destruct (Z.ltb_spec (Z.of_nat k) n) as [Hlt|Hge]; [|done].
        destruct HW as (pi1 & m1 & -> & Hok1 & Hq1 & _). rewrite (bind_Ret _ _ _ _ _ _ _ (pipe_of_ok pa pi1 e _ (lookup_insert_eq _ _ _))).
        rewrite pipe_empty_iff, bool_decide_eq_true_2; [done| |done]. rewrite Hq1, drop_ge by lia. done.
      + destruct (lookup_lt_is_Some_2 (queue pi) j) as [b Hb]; [lia|].
        destruct (piperead_turn_ok t [L_pipe pa] p T pa addr pi n j b e s2 s1) as (r & s3 & Hr & Hm & _); [done..|lia|].
        destruct (Hm (Hmap j ltac:(lia))) as [-> HW']. eexists _, _, _. split; [exact Hr|]. split; [|lia].
        split; [done|]. exists (S j). split_and!; [done|lia|done].
    - split; [done|]. exists O. split_and!; [done|lia|]. exists pi, (k_mem s2).
      split_and!; [|done|done|done|done|by apply stored_0].
      unfold s2. kproj. rewrite insert_id by done. by destruct s.
    - lia.
    - eauto. }
  destruct Hloop as (s3 & Hr & pi' & m' & -> & Hok' & Hq' & Hr' & Hw' & HS). mrun Hr.
  destruct (wakeup_ok t [L_pipe pa] (Ch_pipe_nwrite pa) e (set_k_mem m' (set_k_pipes (<[pa := pi']> (k_pipes s2)) s2)))
    as (c3 & Hwk & Hc3); [done|done|by intros i _ ?%list_elem_of_singleton|]. mrun Hwk.
  krelease c4 Hc4. mstep. exists c4, pi', m'. rewrite Ht. split_and!; [|done..]. unfold s2. kstate_eq.
Qed.

(** ** A pipe is a queue of bytes *)

Inductive pipe_op : Type :=
| PWrite (addr n : Z)
| PRead (addr n : Z).

Definition run_pipe_op (pa : Z) (op : pipe_op) : K Z :=
  match op with PWrite addr n => pipewrite pa addr n | PRead addr n => piperead pa addr n end.
Fixpoint run_pipe_ops (pa : Z) (ops : list pipe_op) : K (list Z) :=
  match ops with
  | [] => ret []
  | op :: ops' => r <- run_pipe_op pa op ;; rs <- run_pipe_ops pa ops' ;; ret (r :: rs)
  end.

(** The user's bytes from [addr] on. *)
Definition user_bytes (u : Z → option Z) (addr : Z) (n : nat) : option (list Z) :=
  mapM (λ i : nat, u (addr + Z.of_nat i)) (seq 0 n).

(** On a queue [q] and user memory [u]; [None] when the call would have to
    wait or the addresses are not the process's. *)
Definition abs_pipe_op (op : pipe_op) (q : list Z) (u : Z → option Z) :
    option (Z * list Z * (Z → option Z)) :=
  match op with
  | PWrite addr n =>
      guard (0 ≤ addr ∧ 0 ≤ n ∧ addr + n ≤ 2 ^ 64 ∧ n < 2 ^ 31 ∧ Z.of_nat (length q) + n ≤ PIPESIZE) ;;
      bs ← user_bytes u addr (Z.to_nat n);
      Some (n, q ++ bs, u)
  | PRead addr n =>
      let k := Nat.min (Z.to_nat n) (length q) in
      guard (0 ≤ addr ∧ 0 ≤ n ∧ addr + n ≤ 2 ^ 64 ∧ n < 2 ^ 31 ∧ q ≠ []) ;;
      user_bytes u addr k ;;
      Some (Z.of_nat k, drop k q,
            λ x, if decide (addr ≤ x < addr + Z.of_nat k) then q !! Z.to_nat (x - addr) else u x)
  end.
Fixpoint abs_pipe_ops (ops : list pipe_op) (q : list Z) (u : Z → option Z) :
    option (list Z * list Z * (Z → option Z)) :=
  match ops with
  | [] => Some ([], q, u)
  | op :: ops' =>
      '(r, q1, u1) ← abs_pipe_op op q u;
      '(rs, q2, u2) ← abs_pipe_ops ops' q1 u1;
      Some (r :: rs, q2, u2)
  end.

Lemma user_bytes_Some u addr n bs :
  user_bytes u addr n = Some bs ↔ length bs = n ∧ ∀ i b, bs !! i = Some b → u (addr + Z.of_nat i) = Some b.
Proof.
  unfold user_bytes. rewrite mapM_Some. split.
  - intros H. pose proof (Forall2_length _ _ _ H) as Hl. rewrite length_seq in Hl. split; [done|].
    intros i b Hb. pose proof (lookup_lt_Some _ _ _ Hb). eapply Forall2_lookup_r in H as (j & Hj & Hu); [|exact Hb].
    rewrite lookup_seq in Hj. destruct Hj as [-> _]. done.
  - intros [Hl H]. apply Forall2_same_length_lookup. rewrite length_seq. split; [done|].
    intros i j b Hj Hb. apply lookup_seq in Hj as [-> _]. by apply H.
Qed.

(** The pipe and the process's memory as the abstract queue and memory. *)
Record pipe_view (t : thread) (p : nat) (T : ptree) (pa : Z) (q : list Z) (u : Z → option Z) (s : kstate) : Prop := {
  pv_user : puser t [] p T s;
  pv_pipe : ∃ pi, k_pipes s !! pa = Some pi ∧ pipe_ok pi ∧ pi_readopen pi ≠ 0 ∧ queue pi = q;
  pv_mem x : 0 ≤ x → uview (k_mem s) (pt_map T) x = u x
}.

Lemma run_pipe_op_ok t p T pa op q u r q' u' e s :
  pipe_view t p T pa q u s → abs_pipe_op op q u = Some (r, q', u') →
  ∃ s', run_pipe_op pa op e s = Ret r e s' ∧ pipe_view t p T pa q' u' s'.
Proof.
  intros [HP (pi & Hpi & Hok & Hro & <-) Hu] H. pose proof HP as [Hc Ht Hlen (pr & Hp & Hkl & Hpt) Hsp].
  destruct op as [addr n|addr n]; cbn [abs_pipe_op run_pipe_op] in *.
  - apply bind_Some in H as ((Ha & Hn & Han & Hn31 & Hfit) & _ & (bs & Hbs & [= <- <- <-])%bind_Some).
    apply user_bytes_Some in Hbs as [Hlb Hbs].
    destruct (pipewrite_ok t p T pa pi addr n bs e s) as (c & pi' & Hr & Hc' & Hok' & Hq' & Hr' & Hw'); try done.
    { lia. } { intros i b Hb. rewrite Hu by lia. by apply Hbs. } { left. lia. }
    rewrite Hr. eexists. split; [do 2 f_equal; lia|]. split.
    + apply (puser_woken _ _ _ _ (set_k_pipes (<[pa := pi']> (k_pipes s)) s)); [done|].
      split; [done..|by exists pr|done].
    + exists pi'. kproj. rewrite lookup_insert_eq. split_and!; [done|done|congruence|done].
    + exact Hu.
  - apply bind_Some in H as ((Ha & Hn & Han & Hn31 & Hne) & _ & (bs & Hbs & [= <- <- <-])%bind_Some).
    apply user_bytes_Some in Hbs as [Hlb Hbs].
    destruct (piperead_ok t p T pa pi addr n e s) as (c & pi' & m' & Hr & Hc' & Hok' & Hq' & Hr' & Hw' & HS); try done.
    { by left. }
    { intros i Hi. rewrite Hu by lia. destruct (lookup_lt_is_Some_2 bs i) as [b Hb]; [lia|]. rewrite (Hbs i b Hb). done. }
    rewrite Hr. eexists. split; [done|]. split.
    + apply (puser_woken _ _ _ _ (set_k_mem m' (set_k_pipes (<[pa := pi']> (k_pipes s)) s))); [done|].
      split; [done..|by exists pr|apply HS].
    + exists pi'. kproj. rewrite lookup_insert_eq. split_and!; [done|done|congruence|done].
    + intros x Hx. kproj. rewrite (so_view _ _ _ _ _ _ HS) by done. by rewrite Hu.
Qed.

(** C29: A pipe is a first-in first-out queue of bytes: any sequence of writes
    that fit and reads of a non-empty pipe returns the counts, leaves the
    queue and delivers to the reader's memory exactly the bytes that the
    abstract queue prescribes, also when the 32-bit counters wrap around. *)
Theorem pipe_fifo t p T pa ops q u rs q' u' e s :
  pipe_view t p T pa q u s → abs_pipe_ops ops q u = Some (rs, q', u') →
  ∃ s', run_pipe_ops pa ops e s = Ret rs e s' ∧ pipe_view t p T pa q' u' s'.
Proof.
  revert q u rs s. induction ops as [|op ops IH]; intros q u rs s HV H; cbn [abs_pipe_ops run_pipe_ops] in *.
  - injection H as <- <- <-. by exists s.
  - apply bind_Some in H as ([[r q1] u1] & H1 & ([[rs1 q2] u2] & H2 & [= <- <- <-])%bind_Some).
    destruct (run_pipe_op_ok t p T pa op q u r q1 u1 e s HV H1) as (s1 & Hr & HV1). mrun Hr.
    destruct (IH q1 u1 rs1 s1 HV1 H2) as (s2 & Hr2 & HV2). mrun Hr2. by exists s2.
Qed.


End specs.

(** Process 0 of the small machine, with a pipe whose counters are about to wrap. *)
Definition wrap_pipe : pipe := mkpipe (replicate 512 0) 4294967295 4294967295 1 1.
Definition pipe_state : kstate :=
  set_k_pipes {[page 4 := wrap_pipe]}
    (set_k_procs (<[0%nat := set_p_pagetable (page 0) zero_proc]> (k_procs (zero_kstate true)))
      (set_k_core (proc0_core true) tiny_state)).
Definition tiny_view : Z → option Z := uview tiny_mem (pt_map tree1).

Lemma tiny_view_page x : 0 ≤ x < PGSIZE → tiny_view x = Some (ldb tiny_mem (page 3 + x)).
Proof.
  intros Hx. unfold tiny_view. rewrite <-(Z.add_0_l x) at 1.
  rewrite (uview_page _ _ 0 x (uleaf (page 3))).
  - rewrite (proj1 uleaf_page3), Z.mod_0_l, Z.add_0_r by done. done.
  - change MAXVA with 274877906944. unfold PGSIZE in *. lia.
  - by rewrite Z.mod_0_l, Z.sub_0_r.
  - by apply tree1_map.
  - by vm_compute.
Qed.

Lemma pipe_state_view : pipe_view (lnk := tiny_linker) (proc0_thread true) 0 tree1 (page 4) [] tiny_view pipe_state.
Proof.
  split.
  - split; unfold pipe_state; kproj.
    + apply proc0_ctx.
    + reflexivity.
    + reflexivity.
    + exists (set_p_pagetable (page 0) zero_proc). split_and!; reflexivity.
    + pose proof tiny_uspace as H. unfold tiny_state in *. kproj. exact H.
  - exists wrap_pipe. unfold pipe_state. kproj. split; [apply lookup_singleton_eq|]. split; [|done]. by split.
  - intros x _. unfold pipe_state, tiny_state. kproj. reflexivity.
Qed.

Lemma pipe_fifo_witness :
  ∃ s', run_pipe_ops (page 4) [PWrite 0 1; PRead 10 1] [] pipe_state = Ret [1; 1] [] s'.
Proof.
  assert (H : ∃ u', abs_pipe_ops [PWrite 0 1; PRead 10 1] [] tiny_view = Some ([1; 1], [], u')).
  { assert (Hb : ∀ a, 0 ≤ a < PGSIZE → user_bytes tiny_view a 1 = Some [ldb tiny_mem (page 3 + a)]).
    { intros a Ha. apply user_bytes_Some. split; [done|]. intros i b [-> <-]%list_lookup_singleton_Some.
      rewrite Z.add_0_r. by apply tiny_view_page. }
    eexists. cbn [abs_pipe_ops abs_pipe_op]. change (Z.to_nat 1) with 1%nat.
    rewrite option_guard_True by (unfold PIPESIZE; cbn; lia). rewrite Hb by (unfold PGSIZE; lia).
    cbn [mbind option_bind app length Nat.min].
    rewrite option_guard_True by (split_and!; [lia|lia|lia|lia|done]). rewrite Hb by (unfold PGSIZE; lia).
    reflexivity. }
  destruct H as [u' H].
  destruct (pipe_fifo (lnk := tiny_linker) (proc0_thread true) 0 tree1 (page 4) _ [] tiny_view _ _ _ [] pipe_state
    pipe_state_view H) as (s' & Hr & _).
  exists s'. exact Hr.
Defined.
