(* ===== verification/Fs.v ===== *)
(** kernel/fs.c: blocks, inodes, directories and paths (the code), and the two
    functions of kernel/proc.c that copy between it and its callers.

    A pointer to an in-memory inode is its index in the table.  A block is
    the list of its bytes; on-disk structures are read and written at their
    byte offsets.  C strings are the lists of their bytes, the end of the
    list standing for the terminating NUL. *)

From S2P Require Import Prelude Mem KString Params Kernel Spinlock Sched Sleeplock Virtio Bio Vm.
From S2P Require Import Log.

(** * Where data goes and comes from *)

(** A user address, an address in physical memory, or a local variable of the
    caller. *)
Inductive place : Type :=
| P_user (va : Z)
| P_kern (pa : Z)
| P_local (bs : list Z).

Definition place_add (a : place) (m : Z) : place :=
  match a with
  | P_user va => P_user (u64 (va + m))
  | P_kern pa => P_kern (u64 (pa + m))
  | P_local bs => P_local (drop (Z.to_nat m) bs)
  end.

Definition either_copyout (dst : place) (src : list Z) : K Z :=
  p <- myproc ;;
  match dst with
  | P_user va =>
      p <- deref p ;;
      pr <- proc_of p ;;
      copyout (p_pagetable pr) va src
  | P_kern pa => modify (λ s, set_k_mem (write_bytes (k_mem s) pa src) s) ;;; ret 0
  | P_local _ => ret 0
  end.

(** The status and the bytes that arrived. *)
Definition either_copyin (src : place) (len : Z) : K (Z * list Z) :=
  p <- myproc ;;
  match src with
  | P_user va =>
      p <- deref p ;;
      pr <- proc_of p ;;
      copyin (p_pagetable pr) va len
  | P_kern pa => bs <- gets (λ s, read_bytes (k_mem s) pa (Z.to_nat len)) ;; ret (0, bs)
  | P_local bs => ret (0, take (Z.to_nat len) bs)
  end.

(** * The superblock *)

Definition sb_of_block (x : list Z) : superblock :=
  mksb (blk_get 4 0 x) (blk_get 4 4 x) (blk_get 4 8 x) (blk_get 4 12 x)
       (blk_get 4 16 x) (blk_get 4 20 x) (blk_get 4 24 x) (blk_get 4 28 x).

Definition IBLOCK (i : Z) (sb : superblock) : Z := u32 (i / IPB + sb_inodestart sb).
Definition BBLOCK (b : Z) (sb : superblock) : Z := u32 (b / BPB + sb_bmapstart sb).

Section fs.
Context {dev : VirtioDev}.

Definition readsb (d : Z) : K unit :=
  bp <- bread d 1 ;;
  x <- data_of bp ;;
  modify (set_k_sb (sb_of_block x)) ;;;
  brelse bp.

Definition fsinit (d : Z) : K unit :=
  readsb d ;;;
  sb <- gets k_sb ;;
  if negb (sb_magic sb =? FSMAGIC) then panic "invalid file system" else
  initlog d sb.

(** * Blocks *)

Definition bzero (d bno : Z) : K unit :=
  bp <- bread d (u32 bno) ;;
  modify_data bp (λ _, replicate (Z.to_nat BSIZE) 0) ;;;
  log_write bp ;;;
  brelse bp.

(** [bp->data[bi/8]] and the mask of bit [bi]. *)
Definition byte_at (bp : nat) (i : Z) : K Z := x <- data_of bp ;; deref (x !! Z.to_nat i).
Definition set_byte (bp : nat) (i v : Z) : K unit :=
  modify_data bp (λ x, <[Z.to_nat i := u8 v]> x).
Definition bit_mask (bi : Z) : Z := Z.shiftl 1 (bi mod 8).

(** The inner loop of [balloc]: [Some] block found, [None] at the end. *)
Definition balloc_bit (bp : nat) (b bi : Z) : K (Z + option Z) :=
  size <- gets (λ s, sb_size (k_sb s)) ;;
  if (bi <? BPB) && (b + bi <? size) then
    v <- byte_at bp (bi / 8) ;;
    if Z.land v (bit_mask bi) =? 0 then ret (inr (Some bi)) else ret (inl (bi + 1))
  else ret (inr None).
Definition balloc_turn (d b : Z) : K (Z + Z) :=
  sb <- gets k_sb ;;
  if b <? sb_size sb then
    bp <- bread d (BBLOCK b sb) ;;
    r <- loop (balloc_bit bp b) 0 ;;
    match r with
    | Some bi =>
        v <- byte_at bp (bi / 8) ;;
        set_byte bp (bi / 8) (Z.lor v (bit_mask bi)) ;;;
        log_write bp ;;;
        brelse bp ;;;
        bzero d (b + bi) ;;;
        ret (inr (b + bi))
    | None => brelse bp ;;; ret (inl (b + BPB))
    end
  else panic "balloc: out of blocks".
Definition balloc (d : Z) : K Z := loop (balloc_turn d) 0.

Definition bfree (d b : Z) : K unit :=
  sb <- gets k_sb ;;
  bp <- bread d (BBLOCK b sb) ;;
  let bi := b mod BPB in
  v <- byte_at bp (bi / 8) ;;
  if Z.land v (bit_mask bi) =? 0 then panic "freeing free block" else
  set_byte bp (bi / 8) (Z.land v (Z.lnot (bit_mask bi))) ;;;
  log_write bp ;;;
  brelse bp.

(** * Inodes *)

Definition ninode : nat := Z.to_nat NINODE.
Definition inode_of (i : nat) : K inode :=
  l <- gets k_inodes ;;
  deref (l !! i).
Definition modify_inode (i : nat) (f : inode → inode) : K unit :=
  inode_of i ;;;
  modify (λ s, set_k_inodes (alter f i (k_inodes s)) s).

Definition iinit : K unit :=
  initlock L_itable "itable" ;;;
  for_in (seq 0 ninode) (λ i, initsleeplock (SL_inode i) "inode" ;;; ret (@None unit)) ;;;
  ret tt.

(** [struct dinode] in its block: type, major, minor, nlink, size, addrs. *)
Definition dinode_off (inum : Z) : nat := Z.to_nat (DINODE_SIZE * (inum mod IPB)).
Definition d_type (o : nat) (x : list Z) : Z := i16 (blk_get 2 o x).
Definition put_dinode (ip : inode) (o : nat) (x : list Z) : list Z :=
  foldl (λ x '(j, v), blk_put 4 (o + 12 + 4 * j) v x)
    (blk_put 4 (o + 8) (in_size ip)
      (blk_put 2 (o + 6) (in_nlink ip)
        (blk_put 2 (o + 4) (in_minor ip)
          (blk_put 2 (o + 2) (in_major ip) (blk_put 2 o (in_type ip) x)))))
    (zip (seq 0 13) (in_addrs ip)).
Definition get_dinode (o : nat) (x : list Z) (ip : inode) : inode :=
  mkinode (in_dev ip) (in_inum ip) (in_ref ip) (in_valid ip)
    (d_type o x) (i16 (blk_get 2 (o + 2) x)) (i16 (blk_get 2 (o + 4) x)) (i16 (blk_get 2 (o + 6) x))
    (blk_get 4 (o + 8) x) ((λ j, blk_get 4 (o + 12 + 4 * j) x) <$> seq 0 13).

(** The scan of the table: a hit, or the first empty slot. *)
Definition iget_turn (d inum : Z) (st : nat * option nat) : K (nat * option nat + (nat + option nat)) :=
  let '(i, empty) := st in
  if decide (i < ninode)%nat then
    ip <- inode_of i ;;
    if (in_ref ip >? 0) && (in_dev ip =? d) && (in_inum ip =? inum) then
      modify_inode i (λ ip, set_in_ref (i32 (in_ref ip + 1)) ip) ;;;
      release L_itable ;;;
      ret (inr (inl i))
    else
      let empty' := match empty with None => if in_ref ip =? 0 then Some i else None | _ => empty end in
      ret (inl (S i, empty'))
  else ret (inr (inr empty)).
Definition iget (d inum : Z) : K nat :=
  acquire L_itable ;;;
  r <- loop (iget_turn d inum) (O, None) ;;
  match r with
  | inl i => ret i
  | inr None => panic "iget: no inodes"
  | inr (Some i) =>
      modify_inode i (set_in_dev d) ;;;
      modify_inode i (set_in_inum inum) ;;;
      modify_inode i (set_in_ref 1) ;;;
      modify_inode i (set_in_valid 0) ;;;
      release L_itable ;;;
      ret i
  end.

Definition ialloc_turn (d type inum : Z) : K (Z + nat) :=
  sb <- gets k_sb ;;
  if inum <? sb_ninodes sb then
    bp <- bread d (IBLOCK inum sb) ;;
    x <- data_of bp ;;
    let o := dinode_off inum in
    if d_type o x =? 0 then
      modify_data bp (λ x, blk_put 2 o type (list_inserts o (replicate (Z.to_nat DINODE_SIZE) 0) x)) ;;;
      log_write bp ;;;
      brelse bp ;;;
      ip <- iget d inum ;;
      ret (inr ip)
    else brelse bp ;;; ret (inl (inum + 1))
  else panic "ialloc: no inodes".
Definition ialloc (d type : Z) : K nat := loop (ialloc_turn d type) 1.

Definition iupdate (i : nat) : K unit :=
  ip <- inode_of i ;;
  sb <- gets k_sb ;;
  bp <- bread (in_dev ip) (IBLOCK (in_inum ip) sb) ;;
  ip <- inode_of i ;;
  modify_data bp (put_dinode ip (dinode_off (in_inum ip))) ;;;
  log_write bp ;;;
  brelse bp.

Definition idup (i : nat) : K nat :=
  acquire L_itable ;;;
  modify_inode i (λ ip, set_in_ref (i32 (in_ref ip + 1)) ip) ;;;
  release L_itable ;;;
  ret i.

Definition ilock (oi : option nat) : K unit :=
  match oi with
  | None => panic "ilock"
  | Some i =>
      ip <- inode_of i ;;
      if in_ref ip <? 1 then panic "ilock" else
      acquiresleep (SL_inode i) ;;;
      ip <- inode_of i ;;
      when (in_valid ip =? 0) (
        sb <- gets k_sb ;;
        bp <- bread (in_dev ip) (IBLOCK (in_inum ip) sb) ;;
        x <- data_of bp ;;
        modify_inode i (get_dinode (dinode_off (in_inum ip)) x) ;;;
        brelse bp ;;;
        modify_inode i (set_in_valid 1) ;;;
        ip <- inode_of i ;;
        if in_type ip =? 0 then panic "ilock: no type" else ret tt)
  end.

Definition iunlock (oi : option nat) : K unit :=
  match oi with
  | None => panic "iunlock"
  | Some i =>
      h <- holdingsleep (SL_inode i) ;;
      if negb h then panic "iunlock" else
      ip <- inode_of i ;;
      if in_ref ip <? 1 then panic "iunlock" else
      releasesleep (SL_inode i)
  end.

(** * Inode content *)

(** [ip->addrs[bn]], allocated if it is 0. *)
Definition bmap_direct (i : nat) (bn : Z) : K Z :=
  ip <- inode_of i ;;
  addr <- deref (in_addrs ip !! Z.to_nat bn) ;;
  if addr =? 0 then
    addr <- balloc (in_dev ip) ;;
    modify_inode i (λ ip, set_in_addrs (<[Z.to_nat bn := addr]> (in_addrs ip)) ip) ;;;
    ret addr
  else ret addr.
Definition bmap (i : nat) (bn : Z) : K Z :=
  if bn <? NDIRECT then bmap_direct i bn else
  let bn := bn - NDIRECT in
  if bn <? NINDIRECT then
    addr <- bmap_direct i NDIRECT ;;
    ip <- inode_of i ;;
    bp <- bread (in_dev ip) addr ;;
    x <- data_of bp ;;
    let o := Z.to_nat (4 * bn) in
    if blk_get 4 o x =? 0 then
      addr <- balloc (in_dev ip) ;;
      modify_data bp (blk_put 4 o addr) ;;;
      log_write bp ;;;
      brelse bp ;;;
      ret addr
    else
      brelse bp ;;;
      ret (blk_get 4 o x)
  else panic "bmap: out of range".

Definition itrunc (i : nat) : K unit :=
  for_in (seq 0 (Z.to_nat NDIRECT)) (λ j,
    ip <- inode_of i ;;
    a <- deref (in_addrs ip !! j) ;;
    when (negb (a =? 0)) (
      bfree (in_dev ip) a ;;;
      modify_inode i (λ ip, set_in_addrs (<[j := 0]> (in_addrs ip)) ip)) ;;;
    ret (@None unit)) ;;;
  ip <- inode_of i ;;
  a <- deref (in_addrs ip !! Z.to_nat NDIRECT) ;;
  when (negb (a =? 0)) (
    bp <- bread (in_dev ip) a ;;
    for_in (seq 0 (Z.to_nat NINDIRECT)) (λ j,
      x <- data_of bp ;;
      let aj := blk_get 4 (4 * j) x in
      when (negb (aj =? 0)) (bfree (in_dev ip) aj) ;;;
      ret (@None unit)) ;;;
    brelse bp ;;;
    bfree (in_dev ip) a ;;;
    modify_inode i (λ ip, set_in_addrs (<[Z.to_nat NDIRECT := 0]> (in_addrs ip)) ip)) ;;;
  modify_inode i (set_in_size 0) ;;;
  iupdate i.

Definition iput (i : nat) : K unit :=
  acquire L_itable ;;;
  ip <- inode_of i ;;
  when ((in_ref ip =? 1) && negb (in_valid ip =? 0) && (in_nlink ip =? 0)) (
    acquiresleep (SL_inode i) ;;;
    release L_itable ;;;
    itrunc i ;;;
    modify_inode i (set_in_type 0) ;;;
    iupdate i ;;;
    modify_inode i (set_in_valid 0) ;;;
    releasesleep (SL_inode i) ;;;
    acquire L_itable) ;;;
  modify_inode i (λ ip, set_in_ref (i32 (in_ref ip - 1)) ip) ;;;
  release L_itable.

Definition iunlockput (i : nat) : K unit :=
  iunlock (Some i) ;;;
  iput i.

(** [struct stat] of kernel/stat.h. *)
Record stat : Type := mkstat { st_dev : Z; st_ino : Z; st_type : Z; st_nlink : Z; st_size : Z }.
Definition stati (i : nat) : K stat :=
  ip <- inode_of i ;;
  ret (mkstat (i32 (in_dev ip)) (in_inum ip) (in_type ip) (in_nlink ip) (in_size ip)).

(** [readi] also returns the bytes read: they are the contents of the
    destination when that is a local variable. *)
Definition readi_turn (i : nat) (n : Z) (st : Z * Z * place * list Z) :
    K (Z * Z * place * list Z + Z * list Z) :=
  let '(tot, off, dst, acc) := st in
  if tot <? n then
    addr <- bmap i (off / BSIZE) ;;
    ip <- inode_of i ;;
    bp <- bread (in_dev ip) addr ;;
    x <- data_of bp ;;
    let m := Z.min (n - tot) (BSIZE - off mod BSIZE) in
    let bs := take (Z.to_nat m) (drop (Z.to_nat (off mod BSIZE)) x) in
    r <- either_copyout dst bs ;;
    if r =? -1 then
      brelse bp ;;;
      ret (inr (-1, acc))
    else
      brelse bp ;;;
      ret (inl (tot + m, u32 (off + m), place_add dst m, acc ++ bs))
  else ret (inr (i32 tot, acc)).
Definition readi (i : nat) (dst : place) (off n : Z) : K (Z * list Z) :=
  ip <- inode_of i ;;
  let size := in_size ip in
  if (off >? size) || (u32 (off + n) <? off) then ret (0, []) else
  let n := if u32 (off + n) >? size then size - off else n in
  loop (readi_turn i n) (0, off, dst, []).

(** On a failed copy the bytes that did arrive are already in the buffer. *)
Definition writei_turn (i : nat) (n : Z) (st : Z * Z * place) : K (Z * Z * place + Z * Z) :=
  let '(tot, off, src) := st in
  if tot <? n then
    addr <- bmap i (off / BSIZE) ;;
    ip <- inode_of i ;;
    bp <- bread (in_dev ip) addr ;;
    let m := Z.min (n - tot) (BSIZE - off mod BSIZE) in
    r <- either_copyin src m ;;
    modify_data bp (list_inserts (Z.to_nat (off mod BSIZE)) r.2) ;;;
    if r.1 =? -1 then
      brelse bp ;;;
      ret (inr (tot, off))
    else
      log_write bp ;;;
      brelse bp ;;;
      ret (inl (tot + m, u32 (off + m), place_add src m))
  else ret (inr (tot, off)).
Definition writei (i : nat) (src : place) (off n : Z) : K Z :=
  ip <- inode_of i ;;
  if (off >? in_size ip) || (u32 (off + n) <? off) then ret (-1) else
  if u32 (off + n) >? MAXFILE * BSIZE then ret (-1) else
  r <- loop (writei_turn i n) (0, off, src) ;;
  let '(tot, off) := r in
  ip <- inode_of i ;;
  when (off >? in_size ip) (modify_inode i (set_in_size off)) ;;;
  iupdate i ;;;
  ret (i32 tot).

(** * Directories *)

Definition T_DIR : Z := 1.
Definition T_FILE : Z := 2.
Definition T_DEVICE : Z := 3.
Definition DIRENT_SIZE : Z := 16.

Definition namecmp (s t : list Z) : Z := strncmp s t (Z.to_nat DIRSIZ).

(** [struct dirent]: the inode number and the name. *)
Definition de_inum (bs : list Z) : Z := blk_get 2 0 bs.
Definition de_name (bs : list Z) : list Z := take (Z.to_nat DIRSIZ) (drop 2 bs).
Definition mk_dirent (inum : Z) (name : list Z) : list Z := le_bytes 2 inum ++ name.

Definition dirlookup_turn (dp : nat) (name : list Z) (off : Z) : K (Z + option (nat * Z)) :=
  ip <- inode_of dp ;;
  if off <? in_size ip then
    r <- readi dp (P_local []) off DIRENT_SIZE ;;
    if negb (r.1 =? DIRENT_SIZE) then panic "dirlookup read" else
    if de_inum r.2 =? 0 then ret (inl (u32 (off + DIRENT_SIZE))) else
    if namecmp name (de_name r.2) =? 0 then
      ip <- inode_of dp ;;
      j <- iget (in_dev ip) (de_inum r.2) ;;
      ret (inr (Some (j, off)))
    else ret (inl (u32 (off + DIRENT_SIZE)))
  else ret (inr None).
Definition dirlookup (dp : nat) (name : list Z) : K (option (nat * Z)) :=
  ip <- inode_of dp ;;
  if negb (in_type ip =? T_DIR) then panic "dirlookup not DIR" else
  loop (dirlookup_turn dp name) 0.

Definition dirlink_turn (dp : nat) (off : Z) : K (Z + Z) :=
  ip <- inode_of dp ;;
  if off <? in_size ip then
    r <- readi dp (P_local []) off DIRENT_SIZE ;;
    if negb (r.1 =? DIRENT_SIZE) then panic "dirlink read" else
    if de_inum r.2 =? 0 then ret (inr off) else ret (inl (off + DIRENT_SIZE))
  else ret (inr off).
Definition dirlink (dp : nat) (name : list Z) (inum : Z) : K Z :=
  r <- dirlookup dp name ;;
  match r with
  | Some (ip, _) =>
      iput ip ;;;
      ret (-1)
  | None =>
      off <- loop (dirlink_turn dp) 0 ;;
      let de := mk_dirent inum (strncpy (replicate (Z.to_nat DIRSIZ) 0) name DIRSIZ) in
      r <- writei dp (P_local de) off DIRENT_SIZE ;;
      if negb (r =? DIRENT_SIZE) then panic "dirlink" else
      ret 0
  end.

(** * Paths *)

Definition slash : Z := 47.

Fixpoint skip_slashes (path : list Z) : list Z :=
  match path with c :: path' => if c =? slash then skip_slashes path' else path | [] => [] end.
(** The characters up to the next slash or NUL, and what follows them. *)
Fixpoint path_elem (path : list Z) : list Z * list Z :=
  match path with
  | c :: path' =>
      if (c =? slash) || (c =? 0) then ([], path)
      else let '(s, rest) := path_elem path' in (c :: s, rest)
  | [] => ([], [])
  end.

(** [None] when there is no element; else the rest of the path and [name]. *)
Definition skipelem (path name : list Z) : option (list Z * list Z) :=
  let path := skip_slashes path in
  if hd 0 path =? 0 then None else
  let '(s, path) := path_elem path in
  let len := Z.of_nat (length s) in
  let name :=
    if DIRSIZ <=? len then take (Z.to_nat DIRSIZ) s ++ drop (Z.to_nat DIRSIZ) name
    else s ++ [0] ++ drop (S (length s)) name in
  Some (skip_slashes path, name).

Definition namex_turn (nameiparent : bool) (st : nat * list Z * list Z) :
    K (nat * list Z * list Z + option nat * list Z) :=
  let '(i, path, name) := st in
  match skipelem path name with
  | Some (path, name) =>
      ilock (Some i) ;;;
      ip <- inode_of i ;;
      if negb (in_type ip =? T_DIR) then
        iunlockput i ;;;
        ret (inr (None, name))
      else if nameiparent && (hd 0 path =? 0) then
        iunlock (Some i) ;;;
        ret (inr (Some i, name))
      else
        next <- dirlookup i name ;;
        match next with
        | None => iunlockput i ;;; ret (inr (None, name))
        | Some (j, _) => iunlockput i ;;; ret (inl (j, path, name))
        end
  | None =>
      if nameiparent then iput i ;;; ret (inr (None, name))
      else ret (inr (Some i, name))
  end.
Definition namex (path : list Z) (nameiparent : bool) (name : list Z) : K (option nat * list Z) :=
  i <- (if hd 0 path =? slash then iget ROOTDEV ROOTINO
        else
          p <- myproc ;;
          p <- deref p ;;
          pr <- proc_of p ;;
          cwd <- deref (p_cwd pr) ;;
          idup cwd) ;;
  loop (namex_turn nameiparent) (i, path, name).

Definition namei (path : list Z) : K (option nat) :=
  r <- namex path false (replicate (Z.to_nat DIRSIZ) 0) ;;
  ret r.1.
Definition nameiparent (path name : list Z) : K (option nat * list Z) := namex path true name.
End fs.
