(* ===== verification/Fstx.v ===== *)
(** The view file-system code has of the disk inside a transaction.

    Between [begin_op] and [end_op] the blocks are a map [dn], which [bread],
    changes to a buffer's data, [log_write] and [brelse] read and update; how
    the buffer cache, the pinned blocks and the log represent it is hidden in
    [tx].  [bs] are the blocks the transaction has logged and [h] the blocks
    whose buffers are locked.  Outside a transaction the same view, with no
    logged blocks, serves the operations that only read. *)

From S2P Require Import Prelude Mem KString Params Kernel Spinlock Sched Sleeplock Virtio Bio Bcache Log LogCrash.
From S2P Require Import Vm Fs.

(** References to a block: one by the log, one by the holder of its buffer. *)
Definition refs (bs : list Z) (h : gset Z) (b : Z) : Z :=
  (if decide (b ∈ bs) then 1 else 0) + (if decide (b ∈ h) then 1 else 0).

(** A transaction is open, with space for [k] more blocks in the log and for
    the buffers in use. *)
Definition room (k : nat) (bs : list Z) (lg : logst) : Prop :=
  1 ≤ log_outstanding lg ∧ Z.of_nat (length bs + k) + 3 ≤ LOGSIZE ∧ Z.of_nat (length bs + k) + 1 ≤ log_size lg.

Lemma room_le k k' bs lg : room k bs lg → (k' ≤ k)%nat → room k' bs lg.
Proof. unfold room. lia. Qed.

Section tx.
Context {dev : VirtioDev} {ok : VirtioOk dev}.
Context (p : nat) (pid : Z) (ie : bool).
Context (d : gmap Z (list Z)) (w : list (Z * list Z)).

Record tx (hd : gmap Z nat) (h : gset Z) (bs : list Z) (dn : gmap Z (list Z)) (R s : kstate) : Prop := {
  tx_fs : ∃ m lg, fs p pid ie hd h m d w (set_k_log lg R) s ∧ log_ok bs lg ∧ log_fixed lg = log_fixed (k_log R) ∧
    ∀ b, m !! b = (if decide (0 < refs bs h b) then Some (refs bs h b, disk_block dn b) else None);
  tx_rest : ∀ b, b ∉ bs → b ∉ h → disk_block dn b = disk_block d b
}.

Implicit Types hd : gmap Z nat.

Lemma refs_add bs h blk : blk ∉ h → refs bs ({[blk]} ∪ h) blk = refs bs h blk + 1.
Proof. intros Hn. unfold refs. rewrite (decide_True (P := blk ∈ {[blk]} ∪ h)) by set_solver. rewrite (decide_False (P := blk ∈ h)) by done. lia. Qed.
Lemma refs_other bs h b blk : b ≠ blk → refs bs ({[blk]} ∪ h) b = refs bs h b.
Proof. intros Hn. unfold refs. f_equal. apply decide_ext. set_solver. Qed.
Lemma refs_del bs h blk : blk ∈ h → refs bs (h ∖ {[blk]}) blk = refs bs h blk - 1.
Proof. intros Hn. unfold refs. rewrite (decide_False (P := blk ∈ h ∖ {[blk]})) by set_solver. rewrite (decide_True (P := blk ∈ h)) by done. lia. Qed.
Lemma refs_del_other bs h b blk : b ≠ blk → refs bs (h ∖ {[blk]}) b = refs bs h b.
Proof. intros Hn. unfold refs. f_equal. apply decide_ext. set_solver. Qed.
Lemma refs_range bs h b : 0 ≤ refs bs h b ≤ 2.
Proof. unfold refs. repeat case_decide; lia. Qed.
Lemma refs_held bs h b : b ∈ h → 1 ≤ refs bs h b.
Proof. intros H. unfold refs. rewrite (decide_True (P := b ∈ h)) by done. case_decide; lia. Qed.

(** The cache is as large as the blocks in use. *)
Lemma tx_size bs h dn (m : gmap Z (Z * list Z)) :
  NoDup bs →
  (∀ b, m !! b = (if decide (0 < refs bs h b) then Some (refs bs h b, disk_block dn b) else None)) →
  (size m ≤ length bs + size h)%nat.
Proof.
  intros Hnd Hm. rewrite <-size_dom. etrans; [apply (subseteq_size _ (list_to_set bs ∪ h))|].
  - intros b Hb. apply elem_of_dom in Hb as [x Hx]. rewrite Hm in Hx. case_decide as Hr; [|done].
    rewrite elem_of_union, elem_of_list_to_set. unfold refs in Hr.
    destruct (decide (b ∈ bs)); [by left|]. destruct (decide (b ∈ h)); [by right|lia].
  - rewrite size_union_alt, size_list_to_set by done.
    assert (size (h ∖ list_to_set bs) ≤ size h)%nat by (apply subseteq_size; set_solver). lia.
Qed.

(** ** The buffer operations *)

Lemma tx_bread hd h bs dn R s blk n e :
  tx hd h bs dn R s → blk ∉ h → 0 ≤ blk < 2 ^ 31 → (length bs + size h < nbuf)%nat → dev_env p (S n) e →
  ∃ i e' s', bread ROOTDEV blk e s = Ret i e' s' ∧ dev_env p n e' ∧
    tx (<[blk := i]> hd) ({[blk]} ∪ h) bs dn R s'.
Proof.
  intros [(m & lg & Hf & Hl & Hfix & Hm) Hrest] Hh Hb Hsp He.
  assert (Hre : read_entry m d blk = (refs bs h blk + 1, disk_block dn blk)).
  { unfold read_entry. rewrite Hm. pose proof (refs_range bs h blk). case_decide as Hr; [done|].
    replace (refs bs h blk) with 0 by lia. rewrite Hrest; [done| |done].
    intros Hin. apply Hr. unfold refs. rewrite decide_True by done. case_decide; lia. }
  pose proof (refs_range bs h blk).
  destruct (fs_bread p pid ie _ _ _ _ _ _ _ blk n e Hf) as (i & e1 & s1 & Hr1 & He1 & Hf1);
    [done|done|rewrite Hre; cbn; lia| |done|].
  { right. pose proof (tx_size _ _ _ _ (lo_nodup _ _ Hl) Hm). lia. }
  exists i, e1, s1. split_and!; [done|done|]. split; [|intros b ? ?; apply Hrest; set_solver].
  exists (<[blk := read_entry m d blk]> m), lg. split_and!; [done..|]. intros b. rewrite Hre, lookup_insert.
  case_decide as Hb'; [subst b|].
  - rewrite refs_add by done. by rewrite decide_True by lia.
  - rewrite Hm. by rewrite refs_other by done.
Qed.

Lemma tx_entry hd h bs dn R s blk :
  tx hd h bs dn R s → blk ∈ h →
  ∃ m lg, fs p pid ie hd h m d w (set_k_log lg R) s ∧ log_ok bs lg ∧ log_fixed lg = log_fixed (k_log R) ∧
    (∀ b, m !! b = (if decide (0 < refs bs h b) then Some (refs bs h b, disk_block dn b) else None)) ∧
    m !! blk = Some (refs bs h blk, disk_block dn blk) ∧ length (disk_block dn blk) = Z.to_nat BSIZE.
Proof.
  intros [(m & lg & Hf & Hl & Hfix & Hm) Hrest] Hh. exists m, lg. pose proof (refs_held bs h blk Hh).
  assert (Hb : m !! blk = Some (refs bs h blk, disk_block dn blk)) by (rewrite Hm, decide_True by lia; done).
  split_and!; try done. by apply (fs_len p pid ie _ _ _ _ _ _ _ _ _ _ Hf Hb).
Qed.

Lemma tx_data hd h bs dn R s blk i e :
  tx hd h bs dn R s → blk ∈ h → hd !! blk = Some i → data_of i e s = Ret (disk_block dn blk) e s.
Proof.
  intros H Hh Hi. destruct (tx_entry _ _ _ _ _ _ blk H Hh) as (m & lg & Hf & _ & _ & _ & Hb & _).
  by eapply fs_data.
Qed.
Lemma tx_len hd h bs dn R s blk :
  tx hd h bs dn R s → blk ∈ h → length (disk_block dn blk) = Z.to_nat BSIZE.
Proof. intros H Hh. by destruct (tx_entry _ _ _ _ _ _ blk H Hh) as (? & ? & _ & _ & _ & _ & _ & Hl). Qed.

Lemma tx_modify hd h bs dn R s blk i g e :
  tx hd h bs dn R s → blk ∈ h → hd !! blk = Some i → length (g (disk_block dn blk)) = Z.to_nat BSIZE →
  ∃ s', modify_data i g e s = Ret tt e s' ∧ tx hd h bs (<[blk := g (disk_block dn blk)]> dn) R s'.
Proof.
  intros H Hh Hi Hg. pose proof H as [_ Hrest].
  destruct (tx_entry _ _ _ _ _ _ blk H Hh) as (m & lg & Hf & Hl & Hfix & Hm & Hb & _).
  destruct (fs_modify_data p pid ie _ _ _ _ _ _ _ blk _ _ i g e Hf Hb Hi Hg) as (s' & Hr & Hf').
  exists s'. split; [done|]. split.
  - eexists _, lg. split_and!; [done..|]. intros b. rewrite lookup_insert, disk_block_insert.
    case_decide as Hbb; [subst b|by rewrite Hm]. pose proof (refs_held bs h blk Hh). by rewrite decide_True by lia.
  - intros b Hnb Hnh. rewrite disk_block_insert, decide_False by set_solver. auto.
Qed.

Lemma log_fixed_fields lg lg' :
  log_fixed lg = log_fixed lg' →
  log_start lg = log_start lg' ∧ log_size lg = log_size lg' ∧ log_outstanding lg = log_outstanding lg' ∧
  log_committing lg = log_committing lg' ∧ log_dev lg = log_dev lg'.
Proof.
  intros H. split_and!; [exact (f_equal log_start H)|exact (f_equal log_size H)|exact (f_equal log_outstanding H)
    |exact (f_equal log_committing H)|exact (f_equal log_dev H)].
Qed.

Lemma log_add_in b blk bs : b ∈ log_add blk bs ↔ b = blk ∨ b ∈ bs.
Proof. unfold log_add. case_decide; set_solver. Qed.

Lemma tx_log_write hd h bs dn R s blk i e :
  tx hd h bs dn R s → blk ∈ h → hd !! blk = Some i → room 1 bs (k_log R) → 0 ≤ blk < 2 ^ 31 →
  ¬ in_log (log_start (k_log R)) blk →
  ∃ s', log_write i e s = Ret tt e s' ∧ tx hd h (log_add blk bs) dn R s'.
Proof.
  intros H Hh Hi Hroom Hblk Hlg. pose proof H as [_ Hrest].
  destruct (tx_entry _ _ _ _ _ _ blk H Hh) as (m & lg & Hf & Hl & Hfix & Hm & Hb & _).
  destruct (log_fixed_fields _ _ Hfix) as (F1 & F2 & F3 & _).
  pose proof (refs_range bs h blk). unfold room in Hroom.
  destruct (log_write_ok p pid ie bs _ _ _ _ _ _ _ blk (refs bs h blk) (disk_block dn blk) i e Hf) as (lg' & s' & Hr & Hl' & Hfix' & Hf');
    [done|done|done|done|lia|..]; kproj; [lia|lia|lia|done|by rewrite F1|].
  exists s'. split; [done|]. split.
  - eexists _, lg'. split_and!; [exact Hf'|done|exact (eq_trans Hfix' Hfix)|].
    intros b. unfold log_pin, log_add. case_decide as Hin; [done|]. rewrite lookup_insert.
    case_decide as Hbb; [subst b|].
    + replace (refs (bs ++ [blk]) h blk) with (refs bs h blk + 1); [by rewrite decide_True by lia|].
      unfold refs. rewrite (decide_False (P := blk ∈ bs)), (decide_True (P := blk ∈ bs ++ [blk])) by set_solver. lia.
    + rewrite Hm. replace (refs (bs ++ [blk]) h b) with (refs bs h b); [done|].
      unfold refs. f_equal. apply decide_ext. set_solver.
  - intros b Hnb Hnh. apply Hrest; [|done]. intros Hin. apply Hnb, log_add_in. by right.
Qed.

Lemma tx_brelse hd h bs dn R s blk i e :
  tx hd h bs dn R s → blk ∈ h → hd !! blk = Some i → blk ∈ bs ∨ disk_block dn blk = disk_block d blk →
  ∃ s', brelse i e s = Ret tt e s' ∧ tx hd (h ∖ {[blk]}) bs dn R s'.
Proof.
  intros H Hh Hi Hc. pose proof H as [_ Hrest].
  destruct (tx_entry _ _ _ _ _ _ blk H Hh) as (m & lg & Hf & Hl & Hfix & Hm & Hb & _).
  pose proof (refs_held bs h blk Hh) as Hge.
  destruct (fs_brelse p pid ie _ _ _ _ _ _ _ blk _ _ i e Hf Hh Hb Hi) as (s' & Hr & Hf').
  { intros H1. destruct Hc as [Hc|Hc]; [|done]. exfalso. unfold refs in H1.
    rewrite (decide_True (P := blk ∈ bs)), (decide_True (P := blk ∈ h)) in H1 by done. lia. }
  exists s'. split; [done|]. split.
  - eexists _, lg. split_and!; [exact Hf'|done|done|]. intros b. unfold drop_ref.
    destruct (decide (b = blk)) as [->|Hne].
    + rewrite refs_del by done. case_decide.
      * rewrite lookup_delete_eq, decide_False by lia. done.
      * rewrite lookup_insert_eq, decide_True by lia. done.
    + rewrite refs_del_other by done. case_decide; [rewrite lookup_delete_ne by done|rewrite lookup_insert_ne by done]; apply Hm.
  - intros b Hnb Hnh. destruct (decide (b = blk)) as [->|]; [by destruct Hc|]. apply Hrest; set_solver.
Qed.

(** A block nobody holds is either logged or as on the disk. *)
Lemma tx_clean hd h bs dn R s blk :
  tx hd h bs dn R s → blk ∉ h → blk ∈ bs ∨ disk_block dn blk = disk_block d blk.
Proof. intros H Hh. destruct (decide (blk ∈ bs)); [by left|right]. by apply (tx_rest _ _ _ _ _ _ H). Qed.

(** A held block is changed, logged and released. *)
Lemma tx_update hd h bs dn R s blk i g e :
  tx hd ({[blk]} ∪ h) bs dn R s → blk ∉ h → hd !! blk = Some i → room 1 bs (k_log R) → 0 ≤ blk < 2 ^ 31 →
  ¬ in_log (log_start (k_log R)) blk → length (g (disk_block dn blk)) = Z.to_nat BSIZE →
  ∃ s', (∀ B (k : K B), (modify_data i g ;;; log_write i ;;; brelse i ;;; k) e s = k e s') ∧
    (modify_data i g ;;; log_write i ;;; brelse i) e s = Ret tt e s' ∧
    tx hd h (log_add blk bs) (<[blk := g (disk_block dn blk)]> dn) R s'.
Proof.
  intros H Hh Hi Hroom Hb Hlg Hg.
  destruct (tx_modify _ _ _ _ _ _ blk i g e H) as (s2 & Hr2 & H2); [set_solver|done|done|].
  destruct (tx_log_write _ _ _ _ _ _ blk i e H2) as (s3 & Hr3 & H3); [set_solver|done..|].
  destruct (tx_brelse _ _ _ _ _ _ blk i e H3) as (s4 & Hr4 & H4);
    [set_solver|done|left; apply log_add_in; by left|].
  exists s4. split; [intros B k; mrun Hr2; mrun Hr3; by mrun Hr4|]. split; [mrun Hr2; by mrun Hr3|]. by replace (({[blk]} ∪ h) ∖ {[blk]}) with h in H4 by set_solver.
Qed.

(** ** The rest of the kernel *)

Lemma tx_frame {A} (f : kstate → A) hd h bs dn R s :
  tx hd h bs dn R s → (∀ s, f (bio_rest s) = f s) → (∀ lg s, f (set_k_log lg s) = f s) → f s = f R.
Proof.
  intros [(m & lg & Hf & _) _] H1 H2. pose proof (bf_rest _ _ (fs_frame _ _ _ _ _ _ _ _ _ _ Hf)) as Hr.
  rewrite <-H1, Hr, H1. apply H2.
Qed.
Lemma tx_inodes hd h bs dn R s : tx hd h bs dn R s → k_inodes s = k_inodes R.
Proof. intros H. by apply (tx_frame k_inodes _ _ _ _ _ _ H). Qed.
Lemma tx_sb hd h bs dn R s : tx hd h bs dn R s → k_sb s = k_sb R.
Proof. intros H. by apply (tx_frame k_sb _ _ _ _ _ _ H). Qed.
Lemma tx_mem hd h bs dn R s : tx hd h bs dn R s → k_mem s = k_mem R.
Proof. intros H. by apply (tx_frame k_mem _ _ _ _ _ _ H). Qed.

Lemma tx_inode_of hd h bs dn R s i ip e :
  tx hd h bs dn R s → k_inodes R !! i = Some ip → inode_of i e s = Ret ip e s.
Proof. intros H Hi. unfold inode_of. mstep. by rewrite (tx_inodes _ _ _ _ _ _ H), Hi. Qed.

Lemma tx_gets_sb hd h bs dn R s e : tx hd h bs dn R s → gets k_sb e s = Ret (k_sb R) e s.
Proof. intros H. unfold gets. by rewrite (tx_sb _ _ _ _ _ _ H). Qed.

(** A change of the inode table. *)
Lemma tx_set_inodes l hd h bs dn R s :
  tx hd h bs dn R s → tx hd h bs dn (set_k_inodes l R) (set_k_inodes l s).
Proof.
  intros [(m & lg & [B1 B2 B3 B4 [F1 F2 F3]] & Hl & Hfix & Hm) Hrest]. split; [|done].
  exists m, lg. split_and!; [|done..]. split; [|done|done|done|].
  - destruct B1 as [[] ? ? ? ? ? ?]. split; try done.
  - split; [exact (f_equal (set_k_inodes l) F1)|exact F2|exact F3].
Qed.

Lemma tx_modify_inode f hd h bs dn R s i ip e :
  tx hd h bs dn R s → k_inodes R !! i = Some ip →
  ∃ s', modify_inode i f e s = Ret tt e s' ∧ tx hd h bs dn (set_k_inodes (<[i := f ip]> (k_inodes R)) R) s'.
Proof.
  intros H Hi. unfold modify_inode. mrun (tx_inode_of _ _ _ _ _ _ i ip e H Hi). mstep.
  eexists. split; [reflexivity|]. rewrite (tx_inodes _ _ _ _ _ _ H).
  replace (alter f i (k_inodes R)) with (<[i := f ip]> (k_inodes R)); [by apply tx_set_inodes|].
  symmetry. apply list_eq. intros j. destruct (decide (i = j)) as [<-|Hne].
  - rewrite list_lookup_alter_eq, Hi, list_lookup_insert_eq by (by eapply lookup_lt_Some). done.
  - by rewrite list_lookup_alter_ne, list_lookup_insert_ne.
Qed.
End tx.
