(* ===== verification/Fsblock.v ===== *)
(** The free-block bitmap: [balloc] and [bfree] inside a transaction. *)

From S2P Require Import Prelude Mem KString Params Kernel Spinlock Sched Sleeplock Virtio Bio Bcache Log LogCrash.
From S2P Require Import Vm Fs Fstx.

(** * Bits of a block *)

Definition bit (x : list Z) (bi : Z) : bool := Z.testbit (default 0 (x !! Z.to_nat (bi / 8))) (bi mod 8).
Definition put_bit (b : bool) (bi : Z) (x : list Z) : list Z :=
  let v := default 0 (x !! Z.to_nat (bi / 8)) in
  <[Z.to_nat (bi / 8) := u8 (if b then Z.lor v (bit_mask bi) else Z.land v (Z.lnot (bit_mask bi)))]> x.

Lemma mask_testbit bi j : 0 ≤ j → Z.testbit (bit_mask bi) j = bool_decide (j = bi mod 8).
Proof.
  intros Hj. unfold bit_mask. pose proof (Z.mod_pos_bound bi 8). rewrite Z.shiftl_1_l, Z.pow2_bits_eqb by lia.
  case_bool_decide; [by apply Z.eqb_eq|by apply Z.eqb_neq].
Qed.

Lemma land_mask v bi : (Z.land v (bit_mask bi) =? 0) = negb (Z.testbit v (bi mod 8)).
Proof.
  pose proof (Z.mod_pos_bound bi 8). destruct (Z.testbit v (bi mod 8)) eqn:E; cbn.
  - apply Z.eqb_neq. intros H0. assert (H1 : Z.testbit (Z.land v (bit_mask bi)) (bi mod 8) = false) by (by rewrite H0, Z.bits_0).
    rewrite Z.land_spec, E, mask_testbit, bool_decide_true in H1 by lia. done.
  - apply Z.eqb_eq, Z.bits_inj'. intros j Hj. rewrite Z.land_spec, mask_testbit, Z.bits_0 by done.
    destruct (decide (j = bi mod 8)) as [->|Hne]; [by rewrite E|by rewrite bool_decide_false, andb_false_r].
Qed.

Lemma testbit_u8 v j : 0 ≤ j < 8 → Z.testbit (u8 v) j = Z.testbit v j.
Proof. intros Hj. unfold u8. rewrite Z.mod_pow2_bits_low by lia. done. Qed.

Lemma put_bit_bit b bi bj x :
  0 ≤ bi → 0 ≤ bj → bi / 8 < Z.of_nat (length x) → bit (put_bit b bi x) bj = if decide (bj = bi) then b else bit x bj.
Proof.
  intros Hi Hj Hl. unfold bit, put_bit. pose proof (Z.mod_pos_bound bi 8). pose proof (Z.mod_pos_bound bj 8).
  pose proof (Z.div_mod bi 8). pose proof (Z.div_mod bj 8).
  destruct (decide (bi / 8 = bj / 8)) as [E|E].
  - rewrite <-E, list_lookup_insert_eq by (pose proof (Z.div_pos bi 8); lia). cbn [from_option id].
    rewrite testbit_u8 by lia. destruct b.
    + rewrite Z.lor_spec, mask_testbit by lia. case_decide; [subst bj; by rewrite bool_decide_true, orb_true_r by done|].
      rewrite bool_decide_false by lia. by rewrite orb_false_r.
    + rewrite Z.land_spec, Z.lnot_spec, mask_testbit by lia.
      case_decide; [subst bj; by rewrite bool_decide_true, andb_false_r by done|].
      rewrite bool_decide_false by lia. by rewrite andb_true_r.
  - rewrite list_lookup_insert_ne; [by rewrite decide_False by (intros ->; done)|].
    pose proof (Z.div_pos bi 8). pose proof (Z.div_pos bj 8). lia.
Qed.

Lemma length_put_bit b bi x : length (put_bit b bi x) = length x.
Proof. unfold put_bit. by rewrite length_insert. Qed.

(** * The layout of the disk *)

(** Log, inodes, bitmap and data, in this order; block numbers are ints. *)
Record layout (sb : superblock) : Prop := {
  la_log : 0 ≤ sb_logstart sb;
  la_inode : sb_logstart sb + LOGSIZE ≤ sb_inodestart sb;
  la_bmap : sb_inodestart sb ≤ sb_bmapstart sb;
  la_size : 0 ≤ sb_size sb < 2 ^ 30;
  la_end : sb_bmapstart sb < 2 ^ 30
}.

Definition bmap_blk (sb : superblock) (b : Z) : Z := b / BPB + sb_bmapstart sb.
(** The first data block. *)
Definition dstart (sb : superblock) : Z := sb_bmapstart sb + sb_size sb / BPB + 1.

Definition used (sb : superblock) (dn : gmap Z (list Z)) (b : Z) : bool :=
  bit (disk_block dn (bmap_blk sb b)) (b mod BPB).
(** Only data blocks are free. *)
Definition bitmap_ok (sb : superblock) (dn : gmap Z (list Z)) : Prop :=
  ∀ b, 0 ≤ b < sb_size sb → used sb dn b = false → dstart sb ≤ b.
Definition data_blk (sb : superblock) (dn : gmap Z (list Z)) (b : Z) : Prop :=
  dstart sb ≤ b < sb_size sb ∧ used sb dn b = true.
Definition free_blocks (sb : superblock) (dn : gmap Z (list Z)) : list Z :=
  filter (λ b, used sb dn b = false) (seqZ 0 (sb_size sb)).
Definition nfree (sb : superblock) (dn : gmap Z (list Z)) : nat := length (free_blocks sb dn).

(** The map after a block has been taken or given back. *)
Definition mark (sb : superblock) (v : bool) (b : Z) (dn : gmap Z (list Z)) : gmap Z (list Z) :=
  <[bmap_blk sb b := put_bit v (b mod BPB) (disk_block dn (bmap_blk sb b))]> dn.
Definition zero_block : list Z := replicate (Z.to_nat BSIZE) 0.

Section bitmap.
Context (sb : superblock) (Hla : layout sb).

Lemma BPB_val : BPB = 8192.
Proof. reflexivity. Qed.

Lemma bmap_blk_range b : 0 ≤ b < sb_size sb →
  sb_bmapstart sb ≤ bmap_blk sb b < dstart sb ∧ 0 ≤ bmap_blk sb b < 2 ^ 31 ∧
  ¬ in_log (sb_logstart sb) (bmap_blk sb b) ∧ BBLOCK b sb = bmap_blk sb b.
Proof.
  intros Hb. destruct Hla. unfold bmap_blk, dstart, in_log, BBLOCK. rewrite BPB_val in *. change LOGSIZE with 30 in *.
  pose proof (Z.div_pos b 8192). pose proof (Z.div_le_mono b (sb_size sb) 8192).
  assert (b / 8192 < 2 ^ 30) by (apply Z.div_lt_upper_bound; lia).
  rewrite u32_id by lia. lia.
Qed.

Lemma bmap_blk_same b b' : 0 ≤ b → 0 ≤ b' → bmap_blk sb b = bmap_blk sb b' → b mod BPB = b' mod BPB → b = b'.
Proof.
  unfold bmap_blk. rewrite BPB_val. intros ? ? H1 H2. pose proof (Z.div_mod b 8192). pose proof (Z.div_mod b' 8192). lia.
Qed.

Lemma used_mark v b b' dn :
  0 ≤ b < sb_size sb → 0 ≤ b' → length (disk_block dn (bmap_blk sb b)) = Z.to_nat BSIZE →
  used sb (mark sb v b dn) b' = if decide (b' = b) then v else used sb dn b'.
Proof.
  intros Hb Hb' Hlen. unfold used, mark. rewrite disk_block_insert.
  pose proof (Z.mod_pos_bound b BPB). pose proof (Z.mod_pos_bound b' BPB). rewrite BPB_val in *.
  destruct (decide (bmap_blk sb b = bmap_blk sb b')) as [E|E].
  - rewrite put_bit_bit; [|lia|lia|rewrite Hlen; change (Z.to_nat BSIZE) with 1024%nat; apply Z.div_lt_upper_bound; lia].
    destruct (decide (b' = b)) as [->|Hne]; [by rewrite decide_True|].
    rewrite decide_False; [by rewrite E|]. intros E2. apply Hne. symmetry. apply bmap_blk_same; rewrite ?BPB_val; done || lia.
  - rewrite decide_False; [done|]. intros ->. done.
Qed.

Lemma used_other b' dn k x :
  0 ≤ b' < sb_size sb → dstart sb ≤ k ∨ k < sb_bmapstart sb → used sb (<[k := x]> dn) b' = used sb dn b'.
Proof.
  intros Hb' Hk. unfold used. rewrite disk_block_insert, decide_False; [done|].
  destruct (bmap_blk_range b' Hb') as [? _]. lia.
Qed.

(** The number of free blocks. *)
Lemma nfree_take b dn dn' :
  0 ≤ b < sb_size sb → used sb dn b = false →
  (∀ b', 0 ≤ b' < sb_size sb → used sb dn' b' = if decide (b' = b) then true else used sb dn b') →
  nfree sb dn = S (nfree sb dn').
Proof.
  intros Hb Hf H. unfold nfree, free_blocks.
  assert (Hp : filter (λ b, used sb dn b = false) (seqZ 0 (sb_size sb)) ≡ₚ
               b :: filter (λ b, used sb dn' b = false) (seqZ 0 (sb_size sb))).
  { apply NoDup_Permutation; [apply NoDup_filter, NoDup_seqZ| |].
    - constructor; [|apply NoDup_filter, NoDup_seqZ]. rewrite list_elem_of_filter, H, decide_True by done. by intros [? _].
    - intros x. rewrite elem_of_cons, !list_elem_of_filter, elem_of_seqZ. split.
      + intros [H1 H2]. destruct (decide (x = b)) as [->|Hne]; [by left|right].
        split; [|done]. rewrite H by lia. by rewrite decide_False by done.
      + intros [->|[H1 H2]]; [split; [done|lia]|]. rewrite H in H1 by lia. case_decide; done. }
  by rewrite Hp.
Qed.

Lemma nfree_pos dn : (0 < nfree sb dn)%nat → ∃ b, 0 ≤ b < sb_size sb ∧ used sb dn b = false.
Proof.
  unfold nfree. destruct (free_blocks sb dn) as [|b l] eqn:E; [cbn; lia|]. intros _.
  assert (Hb : b ∈ free_blocks sb dn) by (rewrite E; left). unfold free_blocks in Hb.
  rewrite list_elem_of_filter, elem_of_seqZ in Hb. exists b. split; [lia|apply Hb].
Qed.
End bitmap.

(** * balloc and bfree *)

Section balloc.
Context {dev : VirtioDev} {ok : VirtioOk dev}.
Context (p : nat) (pid : Z) (ie : bool).
Context (d : gmap Z (list Z)) (w : list (Z * list Z)).
Context (sb : superblock) (Hla : layout sb).
Implicit Types (hd : gmap Z nat) (h : gset Z).

Abbreviation tx := (tx p pid ie d w).

(** The superblock in memory and the log's place. *)
Definition sb_in (R : kstate) : Prop := k_sb R = sb ∧ log_start (k_log R) = sb_logstart sb.

Lemma byte_at_ok hd h bs dn R s blk i bi e :
  tx hd h bs dn R s → blk ∈ h → hd !! blk = Some i → 0 ≤ bi < BPB →
  byte_at i (bi / 8) e s = Ret (default 0 (disk_block dn blk !! Z.to_nat (bi / 8))) e s.
Proof.
  intros H Hh Hi Hb. rewrite BPB_val in Hb. unfold byte_at. mrun (tx_data p pid ie d w _ _ _ _ _ _ _ _ e H Hh Hi).
  pose proof (tx_len p pid ie d w _ _ _ _ _ _ _ H Hh) as Hl. change (Z.to_nat BSIZE) with 1024%nat in Hl.
  destruct (lookup_lt_is_Some_2 (disk_block dn blk) (Z.to_nat (bi / 8))) as [v Hv].
  { rewrite Hl. pose proof (Z.div_pos bi 8). assert (bi / 8 < 1024) by (apply Z.div_lt_upper_bound; lia). lia. }
  by rewrite Hv.
Qed.

(** The inner loop: the first clear bit at or after [bi]. *)
Lemma balloc_bits_ok hd h bs dn R s blk i b e :
  tx hd h bs dn R s → k_sb R = sb → blk ∈ h → hd !! blk = Some i → 0 ≤ b →
  ∃ r, loop (balloc_bit i b) 0 e s = Ret r e s ∧
    match r with
    | Some bi => 0 ≤ bi < BPB ∧ b + bi < sb_size sb ∧ bit (disk_block dn blk) bi = false ∧
        ∀ j, 0 ≤ j < bi → bit (disk_block dn blk) j = true
    | None => ∀ j, 0 ≤ j < BPB → b + j < sb_size sb → bit (disk_block dn blk) j = true
    end.
Proof.
  intros H Hsb Hh Hi Hb.
  destruct (loop_measure (balloc_bit i b) (λ bi _ _, BPB - bi)
    (λ bi e' s', e' = e ∧ s' = s ∧ 0 ≤ bi ≤ BPB ∧ ∀ j, 0 ≤ j < bi → bit (disk_block dn blk) j = true)
    (λ r e' s', e' = e ∧ s' = s ∧ match r with
    | Some bi => 0 ≤ bi < BPB ∧ b + bi < sb_size sb ∧ bit (disk_block dn blk) bi = false ∧
        ∀ j, 0 ≤ j < bi → bit (disk_block dn blk) j = true
    | None => ∀ j, 0 ≤ j < BPB → b + j < sb_size sb → bit (disk_block dn blk) j = true
    end) 0 e s) as (r & e' & s' & Hr & -> & -> & HQ); [|by split_and!; try done; rewrite ?BPB_val; lia|rewrite BPB_val; lia|eauto].
  intros bi e' s' (-> & -> & Hbi & Hall). split; [lia|]. unfold balloc_bit. mstep.
  rewrite (tx_sb p pid ie d w _ _ _ _ _ _ H), Hsb.
  destruct (Z.ltb_spec bi BPB); [destruct (Z.ltb_spec (b + bi) (sb_size sb))|]; cbn [andb].
  - mrun (byte_at_ok _ _ _ _ _ _ _ _ bi e H Hh Hi ltac:(lia)). rewrite land_mask. fold (bit (disk_block dn blk) bi).
    destruct (bit (disk_block dn blk) bi) eqn:E; cbn [negb].
    + exists (inl (bi + 1)), e, s. split_and!; try done; try lia. intros j Hj.
      destruct (decide (j = bi)) as [->|]; [done|]. apply Hall. lia.
    + exists (inr (Some bi)), e, s. split_and!; done || lia.
  - exists (inr None), e, s. split_and!; try done. intros j Hj Hs. apply Hall. lia.
  - exists (inr None), e, s. split_and!; try done. intros j Hj Hs. apply Hall. lia.
Qed.

(** What [balloc] does to the blocks. *)
Definition taken (b : Z) (dn : gmap Z (list Z)) : gmap Z (list Z) := <[b := zero_block]> (mark sb true b dn).

Lemma dstart_range b : dstart sb ≤ b → 0 ≤ b ∧ sb_bmapstart sb ≤ b ∧ ¬ in_log (sb_logstart sb) b.
Proof.
  destruct Hla. unfold dstart, in_log. rewrite BPB_val. pose proof (Z.div_pos (sb_size sb) 8192).
  change LOGSIZE with 30 in *. lia.
Qed.

Lemma room_bufs k bs lg h : room k bs lg → (size h ≤ 2)%nat → (length bs + size h < nbuf)%nat.
Proof. unfold room. change LOGSIZE with 30. change nbuf with 30%nat. lia. Qed.

(** [bzero]. *)
Lemma bzero_ok hd h bs dn R s b n e :
  tx hd h bs dn R s → sb_in R → b ∉ h → (size h ≤ 1)%nat → room 1 bs (k_log R) → dstart sb ≤ b < 2 ^ 31 →
  dev_env p (S n) e →
  ∃ i e' s', bzero ROOTDEV b e s = Ret tt e' s' ∧ dev_env p n e' ∧
    tx (<[b := i]> hd) h (log_add b bs) (<[b := zero_block]> dn) R s'.
Proof.
  intros H [Hsb Hlg] Hh Hsz Hroom Hb He. destruct (dstart_range b) as (Hb0 & _ & Hbl); [lia|].
  unfold bzero. rewrite u32_id by lia.
  destruct (tx_bread p pid ie d w _ _ _ _ _ _ b n e H) as (i & e1 & s1 & Hr1 & He1 & H1);
    [done|lia|apply (room_bufs _ _ _ _ Hroom); lia|done|].
  mrun Hr1. exists i, e1.
  destruct (tx_update p pid ie d w _ _ _ _ _ _ b i (λ _, replicate (Z.to_nat BSIZE) 0) e1 H1) as (s2 & _ & Hr2 & H2);
    [done|by simplify_map_eq|done|lia|by rewrite Hlg|by rewrite length_replicate|].
  exists s2. done.
Qed.

Lemma used_block b j dn : 0 ≤ b → b mod BPB = 0 → 0 ≤ j < BPB →
  used sb dn (b + j) = bit (disk_block dn (bmap_blk sb b)) j ∧ bmap_blk sb (b + j) = bmap_blk sb b ∧ (b + j) mod BPB = j.
Proof.
  intros Hb Hal Hj. unfold used, bmap_blk. rewrite BPB_val in *.
  pose proof (Z.div_mod b 8192). replace (b + j) with (j + (b / 8192) * 8192) by lia.
  rewrite Z.div_add, Z_mod_plus_full, (Z.div_small j), (Z.mod_small j) by lia. done.
Qed.

(** One round of [balloc]: the block of the bitmap that starts at [b] has a
    clear bit, or not. *)
Lemma balloc_turn_ok hd h bs dn R s b n e :
  tx hd h bs dn R s → sb_in R → 0 ≤ b < sb_size sb → b mod BPB = 0 → bitmap_ok sb dn →
  (∀ k, k ∈ h → data_blk sb dn k) → (size h ≤ 1)%nat → room 2 bs (k_log R) → dev_env p (2 + n) e →
  ∃ r hd' bs' dn' e' s', balloc_turn ROOTDEV b e s = Ret r e' s' ∧ tx hd' h bs' dn' R s' ∧
    (∀ k, k ∈ h → hd' !! k = hd !! k) ∧
    match r with
    | inl b' => b' = b + BPB ∧ dn' = dn ∧ bs' = bs ∧ dev_env p (1 + n) e' ∧
        ∀ j, b ≤ j < b' → j < sb_size sb → used sb dn j = true
    | inr a => b ≤ a < b + BPB ∧ a < sb_size sb ∧ used sb dn a = false ∧
        dn' = taken a dn ∧ bs' = log_add a (log_add (bmap_blk sb a) bs) ∧ dev_env p n e'
    end.
Proof.
  intros H Hin Hb Hal Hbm Hhk Hsz Hroom He. pose proof Hin as [Hsb Hlg]. unfold balloc_turn.
  mrun (tx_gets_sb p pid ie d w _ _ _ _ _ _ e H). rewrite Hsb, (proj2 (Z.ltb_lt _ _)) by lia.
  destruct (bmap_blk_range sb Hla b Hb) as (Hbr & Hbr2 & Hbl & ->). set (bb := bmap_blk sb b) in *.
  assert (Hbbh : bb ∉ h). { intros Hk%Hhk. destruct Hk as [? _]. lia. }
  destruct (tx_bread p pid ie d w _ _ _ _ _ _ bb (1 + n) e H) as (i & e1 & s1 & Hr1 & He1 & H1);
    [done|lia|apply (room_bufs _ _ _ _ Hroom); lia|done|].
  mrun Hr1.
  destruct (balloc_bits_ok _ _ _ _ _ _ bb i b e1 H1 Hsb) as (r & Hr2 & Hres); [set_solver|by simplify_map_eq|lia|].
  mrun Hr2. destruct r as [bi|].
  - destruct Hres as (Hbi & Hsz2 & Hfree & _). destruct (used_block b bi dn) as (Hu & Hm & Hmod); [lia|done|done|].
    fold bb in Hu, Hm. rewrite <-Hu in Hfree. pose proof (Hbm (b + bi) ltac:(lia) Hfree) as Hds.
    mrun (byte_at_ok _ _ _ _ _ _ bb i bi e1 H1 ltac:(set_solver) ltac:(by simplify_map_eq) Hbi).
    unfold set_byte at 1. set (g := λ x, <[Z.to_nat (bi / 8) := _]> x).
    assert (Hg : g (disk_block dn bb) = put_bit true bi (disk_block dn bb)) by done.
    destruct (tx_update p pid ie d w _ h _ _ _ _ bb i g e1 H1) as (s2 & Hr3 & _ & H3);
      [done|by simplify_map_eq|eapply room_le; [done|lia]|lia|by rewrite Hlg| |].
    { rewrite Hg, length_put_bit. apply (tx_len p pid ie d w _ _ _ _ _ _ bb H1). set_solver. }
    rewrite Hr3, Hg in *. clear Hr3. pose proof (la_size sb Hla).
    destruct (bzero_ok _ _ _ _ _ _ (b + bi) n e1 H3) as (i2 & e2 & s3 & Hr4 & He4 & H4); [done| |done| |lia|done|].
    { intros Hk%Hhk. destruct Hk as [_ Hk]. congruence. }
    { unfold room, log_add in *. case_decide; rewrite ?length_app; cbn [length] in *; lia. }
    mrun Hr4. eexists (inr (b + bi)), _, _, _, _, _. split_and!; [reflexivity|exact H4| |lia|lia|lia|done| | |done].
    + intros k Hk. rewrite !lookup_insert_ne; [done|set_solver|]. intros <-. apply Hhk in Hk as [_ Hk]. congruence.
    + unfold taken, mark. by rewrite Hm, Hmod.
    + by rewrite Hm.
  - destruct (tx_brelse p pid ie d w _ _ _ _ _ _ bb i e1 H1) as (s2 & Hr3 & H3);
      [set_solver|by simplify_map_eq|by apply (tx_clean p pid ie d w _ _ _ _ _ _ _ H)|]. mrun Hr3.
    replace (({[bb]} ∪ h) ∖ {[bb]}) with h in H3 by set_solver.
    eexists (inl _), _, _, _, _, _. split_and!; [reflexivity|exact H3| |done..|].
    + intros k Hk. rewrite lookup_insert_ne by set_solver. done.
    + intros j Hj Hjs. replace j with (b + (j - b)) by lia.
      destruct (used_block b (j - b) dn) as (-> & _); [lia|done|lia|]. apply Hres; lia.
Qed.

(** Buffers a call may read: one per block of the bitmap, and the new block. *)
Definition balloc_io : nat := Z.to_nat (sb_size sb / BPB) + 2.

(** [balloc] finds a free block, marks it and clears it. *)
Lemma balloc_ok hd h bs dn R s n e :
  tx hd h bs dn R s → sb_in R → bitmap_ok sb dn → (0 < nfree sb dn)%nat →
  (∀ k, k ∈ h → data_blk sb dn k) → (size h ≤ 1)%nat → room 2 bs (k_log R) → dev_env p (balloc_io + n) e →
  ∃ a hd' e' s', balloc ROOTDEV e s = Ret a e' s' ∧ dev_env p n e' ∧
    tx hd' h (log_add a (log_add (bmap_blk sb a) bs)) (taken a dn) R s' ∧
    (∀ k, k ∈ h → hd' !! k = hd !! k) ∧ dstart sb ≤ a < sb_size sb ∧ used sb dn a = false.
Proof.
  intros H Hin Hbm Hfree Hhk Hsz Hroom He. destruct (nfree_pos sb dn Hfree) as (a0 & Ha0 & Hu0).
  destruct (loop_measure (balloc_turn ROOTDEV) (λ b _ _, sb_size sb - b)
    (λ b e s, b mod BPB = 0 ∧ 0 ≤ b ≤ a0 ∧ dev_env p (Z.to_nat (sb_size sb / BPB - b / BPB) + (2 + n)) e ∧
       ∃ hd', tx hd' h bs dn R s ∧ ∀ k, k ∈ h → hd' !! k = hd !! k)
    (λ a e s, dev_env p n e ∧ ∃ hd', tx hd' h (log_add a (log_add (bmap_blk sb a) bs)) (taken a dn) R s ∧
       (∀ k, k ∈ h → hd' !! k = hd !! k) ∧ dstart sb ≤ a < sb_size sb ∧ used sb dn a = false) 0 e s)
    as (a & e' & s' & Hr & He' & hd' & Ht & Hk & Ha & Hu).
  - clear dependent e s. intros b e s (Hmod & Hb & He & hd1 & H1 & Hk1). split; [lia|].
    destruct (balloc_turn_ok _ _ _ _ _ _ b (Z.to_nat (sb_size sb / BPB - b / BPB) + n) e H1)
      as (r & hd2 & bs2 & dn2 & e2 & s2 & Hr & H2 & Hk2 & Hres); [done|lia|done..| |].
    { by replace (2 + _)%nat with (Z.to_nat (sb_size sb / BPB - b / BPB) + (2 + n))%nat by lia. }
    exists r, e2, s2. split; [done|]. destruct r as [b'|a].
    + destruct Hres as (-> & -> & -> & He2 & Hall). rewrite BPB_val in *.
      assert (Ha : b + 8192 ≤ a0).
      { destruct (decide (a0 < b + 8192)); [|lia]. rewrite Hall in Hu0 by lia. done. }
      pose proof (Z.div_le_mono (b + 8192) (sb_size sb) 8192 ltac:(lia) ltac:(lia)) as Hd.
      replace (b + 8192) with (b + 1 * 8192) in * by lia. rewrite Z.div_add, Z_mod_plus_full in * by lia.
      split_and!; try done; try lia.
      * eapply dev_env_le; [exact He2|]. lia.
      * exists hd2. split; [done|]. intros k Hk. by rewrite Hk2, Hk1.
    + destruct Hres as (Ha1 & Ha2 & Hua & -> & -> & He2). split; [eapply dev_env_le; [exact He2|lia]|].
      exists hd2. split_and!; try done; [|apply Hbm; [lia|done]]. intros k Hk. by rewrite Hk2, Hk1.
  - rewrite Z.div_0_l, Z.sub_0_r by done. split_and!; [done|lia|lia| |by exists hd].
    unfold balloc_io in He. by replace (_ + (2 + n))%nat with (Z.to_nat (sb_size sb / BPB) + 2 + n)%nat by lia.
  - destruct Hla. lia.
  - exists a, hd', e', s'. done.
Qed.

(** The state of the bitmap after it. *)
Lemma used_taken a dn b :
  dstart sb ≤ a < sb_size sb → 0 ≤ b < sb_size sb → length (disk_block dn (bmap_blk sb a)) = Z.to_nat BSIZE →
  used sb (taken a dn) b = if decide (b = a) then true else used sb dn b.
Proof.
  intros Ha Hb Hl. destruct (dstart_range a) as (? & _); [lia|].
  unfold taken. rewrite used_other by (first [done|lia]). apply used_mark; first [done|lia].
Qed.

(** [bfree]. *)
Lemma bfree_ok hd h bs dn R s b n e :
  tx hd h bs dn R s → sb_in R → 0 ≤ b < sb_size sb → used sb dn b = true → bmap_blk sb b ∉ h → (size h ≤ 2)%nat →
  room 1 bs (k_log R) → dev_env p (1 + n) e →
  ∃ i e' s', bfree ROOTDEV b e s = Ret tt e' s' ∧ dev_env p n e' ∧
    tx (<[bmap_blk sb b := i]> hd) h (log_add (bmap_blk sb b) bs) (mark sb false b dn) R s'.
Proof.
  intros H [Hsb Hlg] Hb Hu Hh Hsz Hroom He. unfold bfree.
  mrun (tx_gets_sb p pid ie d w _ _ _ _ _ _ e H). rewrite Hsb.
  destruct (bmap_blk_range sb Hla b Hb) as (_ & Hbr & Hbl & ->).
  destruct (tx_bread p pid ie d w _ _ _ _ _ _ (bmap_blk sb b) n e H) as (i & e1 & s1 & Hr1 & He1 & H1);
    [done|lia|by apply (room_bufs _ _ _ _ Hroom)|done|].
  mrun Hr1. cbv zeta. pose proof (Z.mod_pos_bound b BPB ltac:(done)) as Hm.
  mrun (byte_at_ok _ _ _ _ _ _ (bmap_blk sb b) i (b mod BPB) e1 H1 ltac:(set_solver) ltac:(by simplify_map_eq) Hm).
  rewrite land_mask. fold (bit (disk_block dn (bmap_blk sb b)) (b mod BPB)). fold (used sb dn b). rewrite Hu. cbn [negb].
  unfold set_byte at 1. set (g := λ x, <[Z.to_nat (b mod BPB / 8) := _]> x).
  assert (Hg : g (disk_block dn (bmap_blk sb b)) = put_bit false (b mod BPB) (disk_block dn (bmap_blk sb b))) by done.
  destruct (tx_update p pid ie d w _ h _ _ _ _ (bmap_blk sb b) i g e1 H1) as (s2 & _ & Hr2 & H2);
    [done|by simplify_map_eq|done|lia|by rewrite Hlg| |].
  { rewrite Hg, length_put_bit. apply (tx_len p pid ie d w _ _ _ _ _ _ (bmap_blk sb b) H1). set_solver. }
  exists i, e1, s2. rewrite Hg in H2. done.
Qed.
End balloc.
