(* ===== verification/Fsfile.v ===== *)
(** The contents of a file: block addresses of an inode, [bmap], [readi] and
    [writei] inside a transaction, against a file that is a list of bytes. *)

From S2P Require Import Prelude Mem KString Params Kernel Spinlock Sched Sleeplock Virtio Bio Bcache Log LogCrash.
From S2P Require Import Vm Fs Fstx Fsblock.

(** * The blocks of an inode *)

(** Slots 0 to 11 are the direct addresses, 12 is the indirect block and the
    rest are the entries of that block. *)
Definition NSLOT : Z := 269.
Definition ind_of (ip : inode) : Z := default 0 (in_addrs ip !! 12%nat).
Definition slot (dn : gmap Z (list Z)) (ip : inode) (k : Z) : Z :=
  if k <? 13 then default 0 (in_addrs ip !! Z.to_nat k)
  else if ind_of ip =? 0 then 0 else blk_get 4 (Z.to_nat (4 * (k - 13))) (disk_block dn (ind_of ip)).
(** The slot of a block of the file. *)
Definition fslot (bn : Z) : Z := if bn <? NDIRECT then bn else bn + 1.

(** Block [bn] of the file: a block never allocated reads as zeroes. *)
Definition fblock (dn : gmap Z (list Z)) (ip : inode) (bn : Z) : list Z :=
  let a := slot dn ip (fslot bn) in if a =? 0 then zero_block else disk_block dn a.

Definition blocks_ok (dn : gmap Z (list Z)) : Prop := ∀ b, length (disk_block dn b) = Z.to_nat BSIZE.

(** The addresses of an inode are distinct data blocks in use. *)
Record iwf (sb : superblock) (dn : gmap Z (list Z)) (ip : inode) : Prop := {
  iw_dev : in_dev ip = ROOTDEV;
  iw_addrs : length (in_addrs ip) = 13%nat;
  iw_data : ∀ k, 0 ≤ k < NSLOT → slot dn ip k ≠ 0 → data_blk sb dn (slot dn ip k);
  iw_inj : ∀ j k, 0 ≤ j < NSLOT → 0 ≤ k < NSLOT → slot dn ip j ≠ 0 → slot dn ip j = slot dn ip k → j = k
}.

Definition owns (dn : gmap Z (list Z)) (ip : inode) (b : Z) : Prop := ∃ k, 0 ≤ k < NSLOT ∧ slot dn ip k = b.

(** What a change of this file leaves alone: the blocks before the bitmap and
    the blocks in use that are not its own. *)
Definition keeps (sb : superblock) (dn : gmap Z (list Z)) (ip : inode) (dn' : gmap Z (list Z)) (ip' : inode) : Prop :=
  (∀ b, b < sb_bmapstart sb → disk_block dn' b = disk_block dn b) ∧
  ∀ b, data_blk sb dn b → ¬ owns dn ip b →
    disk_block dn' b = disk_block dn b ∧ data_blk sb dn' b ∧ ¬ owns dn' ip' b.

Lemma keeps_refl sb dn ip : keeps sb dn ip dn ip.
Proof. by split. Qed.
Lemma keeps_trans sb dn ip dn1 ip1 dn2 ip2 :
  keeps sb dn ip dn1 ip1 → keeps sb dn1 ip1 dn2 ip2 → keeps sb dn ip dn2 ip2.
Proof.
  intros [A1 A2] [B1 B2]. split.
  - intros b Hb. by rewrite B1, A1.
  - intros b Hd Ho. destruct (A2 b Hd Ho) as (E1 & D1 & O1). destruct (B2 b D1 O1) as (E2 & D2 & O2).
    split_and!; [by rewrite E2|done|done].
Qed.

(** Block [a] becomes slot [k]. *)
Record grown (sb : superblock) (k a : Z) (dn : gmap Z (list Z)) (ip : inode) (dn' : gmap Z (list Z)) (ip' : inode) : Prop := {
  gr_slot : ∀ j, 0 ≤ j < NSLOT → slot dn' ip' j = if decide (j = k) then a else slot dn ip j;
  gr_used : ∀ b, 0 ≤ b < sb_size sb → used sb dn' b = if decide (b = a) then true else used sb dn b;
  gr_new : disk_block dn' a = zero_block;
  gr_blocks : blocks_ok dn';
  gr_old : ∀ b, b < sb_bmapstart sb ∨ data_blk sb dn b ∧ b ≠ slot dn ip 12 → disk_block dn' b = disk_block dn b;
  gr_ip : ∃ l, length l = 13%nat ∧ ip' = set_in_addrs l ip
}.

Definition fsys (sb : superblock) (dn : gmap Z (list Z)) (ip : inode) : Prop :=
  bitmap_ok sb dn ∧ blocks_ok dn ∧ iwf sb dn ip.

Section grown.
Context (sb : superblock) (Hla : layout sb) (k a : Z) (dn : gmap Z (list Z)) (ip : inode).
Context (Hk : 0 ≤ k < NSLOT) (Hsys : fsys sb dn ip) (Hk0 : slot dn ip k = 0).
Context (Ha : dstart sb ≤ a < sb_size sb) (Hfree : used sb dn a = false).

Lemma fresh_ne b : data_blk sb dn b → b ≠ a.
Proof. intros [_ Hu] ->. congruence. Qed.
Lemma a_pos : 0 < a.
Proof. destruct Hla. pose proof (Z.div_pos (sb_size sb) 8192). unfold dstart in Ha. rewrite BPB_val in *. change LOGSIZE with 30 in *. lia. Qed.

Lemma grown_data dn' ip' b : grown sb k a dn ip dn' ip' → data_blk sb dn b → data_blk sb dn' b.
Proof.
  intros H [Hb Hu]. destruct (dstart_range sb Hla b) as [? _]; [lia|].
  split; [done|]. rewrite (gr_used _ _ _ _ _ _ _ H) by lia. case_decide; done.
Qed.

Lemma grown_fsys dn' ip' : grown sb k a dn ip dn' ip' → fsys sb dn' ip'.
Proof.
  intros H. destruct Hsys as (Hbm & Hbl & [W1 W2 W3 W4]). pose proof a_pos. split_and!.
  - intros b Hb Hu. rewrite (gr_used _ _ _ _ _ _ _ H) in Hu by done. case_decide; [done|]. by apply Hbm.
  - apply H.
  - destruct (gr_ip _ _ _ _ _ _ _ H) as (l & Hl & Hip). split.
    + by rewrite Hip.
    + by rewrite Hip.
    + intros j Hj Hn. rewrite (gr_slot _ _ _ _ _ _ _ H) in * by done. case_decide as Hjk.
      * split; [lia|]. rewrite (gr_used _ _ _ _ _ _ _ H) by lia. by rewrite decide_True.
      * apply (grown_data _ _ _ H). by apply W3.
    + intros j j' Hj Hj' Hn He. rewrite (gr_slot _ _ _ _ _ _ _ H j Hj) in Hn, He.
      rewrite (gr_slot _ _ _ _ _ _ _ H j' Hj') in He.
      destruct (decide (j = k)) as [Ej|Ej], (decide (j' = k)) as [Ej'|Ej']; [congruence| | |by apply W4].
      * exfalso. refine (fresh_ne _ (W3 j' Hj' _) _); [lia|done].
      * exfalso. refine (fresh_ne _ (W3 j Hj _) _); done.
Qed.

Lemma fslot_range bn : 0 ≤ bn < MAXFILE → 0 ≤ fslot bn < NSLOT ∧ fslot bn ≠ 12.
Proof. unfold fslot, NSLOT. change MAXFILE with 268. change NDIRECT with 12. case_match; lia. Qed.

Lemma grown_fblock dn' ip' bn : grown sb k a dn ip dn' ip' → 0 ≤ bn < MAXFILE → fblock dn' ip' bn = fblock dn ip bn.
Proof.
  intros H Hbn. destruct (fslot_range bn Hbn) as [Hr Hn]. unfold fblock.
  rewrite (gr_slot _ _ _ _ _ _ _ H) by done. destruct (decide (fslot bn = k)) as [E|E].
  - rewrite E, Hk0. pose proof a_pos. rewrite (proj2 (Z.eqb_neq a 0)) by lia. cbn. apply H.
  - destruct (Z.eqb_spec (slot dn ip (fslot bn)) 0); [done|]. apply (gr_old _ _ _ _ _ _ _ H). right.
    destruct Hsys as (_ & _ & W). split; [by apply W|]. intros E2. apply Hn. by apply (iw_inj _ _ _ W).
Qed.

Lemma grown_keeps dn' ip' : grown sb k a dn ip dn' ip' → keeps sb dn ip dn' ip'.
Proof.
  intros H. split; [intros b Hb; apply (gr_old _ _ _ _ _ _ _ H); by left|]. intros b Hb Ho. split_and!.
  - apply (gr_old _ _ _ _ _ _ _ H). right. split; [done|]. intros ->. apply Ho. by exists 12.
  - by apply (grown_data _ _ _ H).
  - intros (j & Hj & Hs). rewrite (gr_slot _ _ _ _ _ _ _ H) in Hs by done. case_decide.
    + by apply (fresh_ne _ Hb).
    + apply Ho. by exists j.
Qed.

Lemma grown_nfree dn' ip' : grown sb k a dn ip dn' ip' → nfree sb dn = S (nfree sb dn').
Proof.
  intros H. pose proof a_pos. apply (nfree_take sb a); [lia|done|]. intros b Hb. by apply H.
Qed.

(** ** The three ways a slot is filled *)

Lemma taken_blocks : blocks_ok (taken sb a dn).
Proof.
  intros b. unfold taken, mark. rewrite !disk_block_insert. destruct Hsys as (_ & Hbl & _).
  repeat case_decide; [by unfold zero_block; rewrite length_replicate|by rewrite length_put_bit|done].
Qed.
Lemma taken_new : disk_block (taken sb a dn) a = zero_block.
Proof. unfold taken. by rewrite disk_block_insert, decide_True. Qed.
Lemma taken_old b : b < sb_bmapstart sb ∨ data_blk sb dn b → disk_block (taken sb a dn) b = disk_block dn b.
Proof.
  intros Hb. unfold taken, mark. rewrite !disk_block_insert. pose proof a_pos.
  destruct (bmap_blk_range sb Hla a) as [? _]; [lia|]. destruct (dstart_range sb Hla a) as (_ & ? & _); [lia|].
  rewrite !decide_False; [done| |].
  - destruct Hb as [?|[? _]]; lia.
  - intros <-. destruct Hb as [?|Hb]; [lia|]. by apply (fresh_ne _ Hb).
Qed.
Lemma taken_used b : 0 ≤ b < sb_size sb → used sb (taken sb a dn) b = if decide (b = a) then true else used sb dn b.
Proof. intros Hb. apply used_taken; [done|done|done|apply Hsys]. Qed.

(** A direct block, or the indirect block itself. *)
Lemma grown_direct : k < 13 → grown sb k a dn ip (taken sb a dn) (set_in_addrs (<[Z.to_nat k := a]> (in_addrs ip)) ip).
Proof.
  intros Hk13. destruct Hsys as (_ & Hbl & W). pose proof (iw_addrs _ _ _ W) as Hlen. pose proof a_pos. split.
  - intros j Hj. unfold slot, ind_of. cbn [in_addrs set_in_addrs]. destruct (Z.ltb_spec j 13).
    + destruct (decide (j = k)) as [->|Hne]; [by rewrite list_lookup_insert_eq by lia|].
      by rewrite list_lookup_insert_ne by lia.
    + rewrite decide_False by lia. destruct (decide (k = 12)) as [Ek|Ek].
      * assert (Hi : default 0 (in_addrs ip !! 12%nat) = 0) by (revert Hk0; rewrite Ek; done).
        rewrite Hi, Ek. change (Z.to_nat 12) with 12%nat. rewrite list_lookup_insert_eq by lia. cbn [from_option id].
        rewrite (proj2 (Z.eqb_neq a 0)) by lia. rewrite taken_new. cbn [Z.eqb].
        unfold blk_get, zero_block. rewrite drop_replicate, take_replicate. apply le_val_zero.
      * rewrite list_lookup_insert_ne by lia. fold (ind_of ip). destruct (Z.eqb_spec (ind_of ip) 0) as [E|E]; [done|].
        rewrite taken_old; [done|]. right. by apply (iw_data _ _ _ W 12).
  - apply taken_used.
  - apply taken_new.
  - apply taken_blocks.
  - intros b Hb. apply taken_old. tauto.
  - eexists. split; [|reflexivity]. by rewrite length_insert.
Qed.

(** An entry of the indirect block. *)
Lemma grown_indirect :
  13 ≤ k → ind_of ip ≠ 0 →
  grown sb k a dn ip (<[ind_of ip := blk_put 4 (Z.to_nat (4 * (k - 13))) a (disk_block dn (ind_of ip))]> (taken sb a dn)) ip.
Proof.
  intros Hk13 Hi. destruct Hsys as (_ & Hbl & W). pose proof a_pos. set (o := Z.to_nat (4 * (k - 13))).
  assert (Hd : data_blk sb dn (ind_of ip)) by (by apply (iw_data _ _ _ W 12)). pose proof (fresh_ne _ Hd) as Hne.
  split.
  - intros j Hj. unfold slot. rewrite (proj2 (Z.eqb_neq _ 0) Hi), disk_block_insert, decide_True by done.
    destruct (Z.ltb_spec j 13); [by rewrite decide_False by lia|]. unfold NSLOT in *.
    destruct (decide (j = k)) as [->|Hjk].
    + fold o. rewrite blk_get_put_eq by (rewrite Hbl; change (Z.to_nat BSIZE) with 1024%nat; lia).
      apply Z.mod_small. destruct Hla. change (256 ^ Z.of_nat 4) with (2 ^ 32). lia.
    + by rewrite blk_get_put_ne by lia.
  - intros b Hb. rewrite used_other; [by apply taken_used|done|done|]. left. apply Hd.
  - rewrite disk_block_insert, decide_False by done. apply taken_new.
  - intros b. rewrite disk_block_insert. case_decide; [by rewrite length_blk_put|apply taken_blocks].
  - intros b Hb. rewrite disk_block_insert, decide_False; [apply taken_old; tauto|]. intros <-.
    destruct Hb as [Hb|[_ Hb]]; [|by apply Hb]. destruct Hd as [Hd _]. destruct (dstart_range sb Hla (ind_of ip)) as (_ & ? & _); lia.
  - exists (in_addrs ip). split; [apply W|]. by destruct ip.
Qed.
End grown.

(** * bmap *)

(** The inode table with one entry changed. *)
Definition set_ip (i : nat) (ip : inode) (R : kstate) : kstate := set_k_inodes (<[i := ip]> (k_inodes R)) R.

Lemma set_ip_same i ip R : k_inodes R !! i = Some ip → set_ip i ip R = R.
Proof. intros H. unfold set_ip. rewrite list_insert_id by done. by destruct R. Qed.
Lemma set_ip_twice i ip ip' R : set_ip i ip' (set_ip i ip R) = set_ip i ip' R.
Proof. unfold set_ip. kproj. by rewrite list_insert_insert_eq. Qed.
Lemma set_ip_lookup i ip ip' R : k_inodes R !! i = Some ip → k_inodes (set_ip i ip' R) !! i = Some ip'.
Proof. intros H. unfold set_ip. kproj. apply list_lookup_insert_eq. by eapply lookup_lt_Some. Qed.

(** The file is as before, with at most [r] more blocks in use and [c] more in
    the log. *)
Record mapped (sb : superblock) (r c : nat) (bs : list Z) (dn : gmap Z (list Z)) (ip : inode)
    (bs' : list Z) (dn' : gmap Z (list Z)) (ip' : inode) : Prop := {
  mp_fsys : fsys sb dn' ip';
  mp_same : ∀ bn, 0 ≤ bn < MAXFILE → fblock dn' ip' bn = fblock dn ip bn;
  mp_slots : ∀ k, 0 ≤ k < NSLOT → slot dn ip k ≠ 0 → slot dn' ip' k = slot dn ip k;
  mp_keeps : keeps sb dn ip dn' ip';
  mp_free : (nfree sb dn ≤ nfree sb dn' + r)%nat;
  mp_log : (length bs' ≤ length bs + c)%nat;
  mp_ip : ∃ l, ip' = set_in_addrs l ip
}.

Lemma mapped_refl sb bs dn ip : fsys sb dn ip → mapped sb 0 0 bs dn ip bs dn ip.
Proof.
  intros H. split; [done|done|done|apply keeps_refl|lia|lia|]. exists (in_addrs ip). by destruct ip.
Qed.
Lemma mapped_trans sb r1 c1 r2 c2 bs dn ip bs1 dn1 ip1 bs2 dn2 ip2 :
  mapped sb r1 c1 bs dn ip bs1 dn1 ip1 → mapped sb r2 c2 bs1 dn1 ip1 bs2 dn2 ip2 →
  mapped sb (r1 + r2) (c1 + c2) bs dn ip bs2 dn2 ip2.
Proof.
  intros [A1 A2 A2' A3 A4 A5 [l1 ->]] [B1 B2 B2' B3 B4 B5 [l2 ->]].
  split; [done| | |by eapply keeps_trans|lia|lia|by exists l2].
  - intros bn Hbn. by rewrite B2, A2.
  - intros k Hk Hn. rewrite B2', A2'; [done..|by rewrite A2'].
Qed.
Lemma mapped_le sb r c r' c' bs dn ip bs' dn' ip' :
  mapped sb r c bs dn ip bs' dn' ip' → (r ≤ r')%nat → (c ≤ c')%nat → mapped sb r' c' bs dn ip bs' dn' ip'.
Proof. intros [A1 A2 A2' A3 A4 A5 A6] Hr Hc. split; [done..|lia|lia|done]. Qed.

Lemma grown_mapped sb (Hla : layout sb) k a bs bs' dn ip dn' ip' c :
  0 ≤ k < NSLOT → fsys sb dn ip → slot dn ip k = 0 → dstart sb ≤ a < sb_size sb → used sb dn a = false →
  grown sb k a dn ip dn' ip' → (length bs' ≤ length bs + c)%nat → mapped sb 1 c bs dn ip bs' dn' ip'.
Proof.
  intros Hk Hs H0 Ha Hu Hg Hl. split.
  - by eapply grown_fsys.
  - intros bn Hbn. by eapply grown_fblock.
  - intros j Hj Hn. rewrite (gr_slot _ _ _ _ _ _ _ Hg) by done. case_decide; [congruence|done].
  - by eapply grown_keeps.
  - rewrite (grown_nfree sb Hla k a dn ip Ha Hu dn' ip' Hg). lia.
  - done.
  - destruct (gr_ip _ _ _ _ _ _ _ Hg) as (l & _ & Hl'). by exists l.
Qed.

Lemma length_log_add b bs : (length (log_add b bs) ≤ S (length bs))%nat.
Proof. unfold log_add. case_decide; [lia|]. rewrite length_app. cbn. lia. Qed.
Lemma room_more k c bs bs' lg : room (c + k) bs lg → (length bs' ≤ length bs + c)%nat → room k bs' lg.
Proof. unfold room. lia. Qed.

Section bmap.
Context {dev : VirtioDev} {ok : VirtioOk dev}.
Context (p : nat) (pid : Z) (ie : bool).
Context (d : gmap Z (list Z)) (w : list (Z * list Z)).
Context (sb : superblock) (Hla : layout sb).
Implicit Types (hd : gmap Z nat) (h : gset Z).

Abbreviation tx := (tx p pid ie d w).

Lemma bmap_direct_ok hd bs dn R s i ip bn n e :
  tx hd ∅ bs dn R s → sb_in sb R → k_inodes R !! i = Some ip → fsys sb dn ip → 0 ≤ bn ≤ 12 → (1 ≤ nfree sb dn)%nat →
  room 2 bs (k_log R) → dev_env p (balloc_io sb + n) e →
  ∃ hd' bs' dn' ip' e' s', bmap_direct i bn e s = Ret (slot dn' ip' bn) e' s' ∧ dev_env p n e' ∧
    tx hd' ∅ bs' dn' (set_ip i ip' R) s' ∧ mapped sb 1 2 bs dn ip bs' dn' ip' ∧ slot dn' ip' bn ≠ 0.
Proof.
  intros H Hsb Hi Hs Hbn Hfree Hroom He. pose proof Hs as (Hbm & Hbl & W). unfold bmap_direct.
  mrun (tx_inode_of p pid ie d w _ _ _ _ _ _ i ip e H Hi).
  destruct (lookup_lt_is_Some_2 (in_addrs ip) (Z.to_nat bn)) as [a Ha]; [rewrite (iw_addrs _ _ _ W); lia|].
  rewrite Ha. mstep.
  assert (Hsl : slot dn ip bn = a). { unfold slot. rewrite (proj2 (Z.ltb_lt bn 13)) by lia. by rewrite Ha. }
  destruct (Z.eqb_spec a 0) as [E|E].
  - rewrite (iw_dev _ _ _ W).
    destruct (balloc_ok p pid ie d w sb Hla _ _ _ _ _ _ n e H Hsb Hbm) as (b & hd1 & e1 & s1 & Hr1 & He1 & H1 & _ & Hb & Hu);
      [lia|set_solver|rewrite size_empty; lia|done|done|]. mrun Hr1.
    destruct (tx_modify_inode p pid ie d w (λ ip, set_in_addrs (<[Z.to_nat bn := b]> (in_addrs ip)) ip) _ _ _ _ _ _ i ip e1 H1 Hi) as (s2 & Hr2 & H2).
    mrun Hr2. set (ip' := set_in_addrs (<[Z.to_nat bn := b]> (in_addrs ip)) ip) in *.
    assert (Hg : grown sb bn b dn ip (taken sb b dn) ip') by (apply grown_direct; try done; unfold NSLOT; congruence || lia).
    assert (Hsb' : slot (taken sb b dn) ip' bn = b).
    { rewrite (gr_slot _ _ _ _ _ _ _ Hg) by (unfold NSLOT; lia). by rewrite decide_True. }
    eexists _, _, _, ip', e1, s2. rewrite Hsb'. split_and!; [done|done|exact H2| |].
    + apply (grown_mapped sb Hla bn b); try done; [unfold NSLOT; lia|congruence|].
      pose proof (length_log_add b (log_add (bmap_blk sb b) bs)). pose proof (length_log_add (bmap_blk sb b) bs). lia.
    + pose proof (a_pos sb Hla b Hb). lia.
  - mstep. exists hd, bs, dn, ip, e, s. rewrite Hsl, (set_ip_same i ip R Hi). split_and!; [done| |done| |done].
    + eapply dev_env_le; [done|lia].
    + eapply mapped_le; [by apply mapped_refl|lia..].
Qed.

(** The entry of the indirect block: the second half of [bmap]. *)
Lemma bmap_indirect_ok hd bs dn R s i ip bn n e :
  tx hd ∅ bs dn R s → sb_in sb R → k_inodes R !! i = Some ip → fsys sb dn ip → 0 ≤ bn < NINDIRECT → (1 ≤ nfree sb dn)%nat →
  ind_of ip ≠ 0 → room 3 bs (k_log R) → dev_env p (S (balloc_io sb + n)) e →
  ∃ hd' bs' dn' e' s',
    (ip' <- inode_of i ;;
     bp <- bread (in_dev ip') (ind_of ip) ;;
     x <- data_of bp ;;
     let o := Z.to_nat (4 * bn) in
     if blk_get 4 o x =? 0 then
       addr <- balloc (in_dev ip') ;; modify_data bp (blk_put 4 o addr) ;;; log_write bp ;;; brelse bp ;;; ret addr
     else brelse bp ;;; ret (blk_get 4 o x)) e s = Ret (slot dn' ip (13 + bn)) e' s' ∧ dev_env p n e' ∧
    tx hd' ∅ bs' dn' R s' ∧ mapped sb 1 3 bs dn ip bs' dn' ip ∧ slot dn' ip (13 + bn) ≠ 0.
Proof.
  intros H Hsb Hi Hs Hbn Hfree Hind Hroom He. pose proof Hs as (Hbm & Hbl & W). change NINDIRECT with 256 in Hbn.
  mrun (tx_inode_of p pid ie d w _ _ _ _ _ _ i ip e H Hi). rewrite (iw_dev _ _ _ W).
  assert (Hd : data_blk sb dn (ind_of ip)) by (by apply (iw_data _ _ _ W 12)).
  destruct (dstart_range sb Hla (ind_of ip)) as (Hi0 & _ & Hnl); [apply Hd|]. pose proof (la_size sb Hla) as Hsz.
  assert (Hir : 0 ≤ ind_of ip < 2 ^ 31) by (destruct Hd; lia).
  destruct (tx_bread p pid ie d w _ _ _ _ _ _ (ind_of ip) (balloc_io sb + n) e H) as (bp & e1 & s1 & Hr1 & He1 & H1);
    [set_solver|lia|apply (room_bufs _ _ _ _ Hroom); rewrite size_empty; lia|done|]. mrun Hr1.
  mrun (tx_data p pid ie d w _ _ _ _ _ _ (ind_of ip) bp e1 H1 ltac:(set_solver) ltac:(by simplify_map_eq)).
  assert (Hsl : slot dn ip (13 + bn) = blk_get 4 (Z.to_nat (4 * bn)) (disk_block dn (ind_of ip))).
  { unfold slot. rewrite (proj2 (Z.ltb_ge (13 + bn) 13)), (proj2 (Z.eqb_neq _ _) Hind) by lia. do 3 f_equal. lia. }
  cbv zeta. rewrite <-Hsl. destruct (Z.eqb_spec (slot dn ip (13 + bn)) 0) as [E|E].
  - destruct (balloc_ok p pid ie d w sb Hla _ _ _ _ _ _ n e1 H1 Hsb Hbm) as (b & hd2 & e2 & s2 & Hr2 & He2 & H2 & Hk2 & Hb & Hu);
      [lia|set_solver|rewrite union_empty_r_L, size_singleton; lia|by eapply room_le; [|apply Nat.le_succ_diag_r]|done|]. mrun Hr2.
    set (bs2 := log_add b (log_add (bmap_blk sb b) bs)) in *.
    assert (Hl2 : (length bs2 ≤ length bs + 2)%nat).
    { pose proof (length_log_add b (log_add (bmap_blk sb b) bs)). pose proof (length_log_add (bmap_blk sb b) bs). unfold bs2. lia. }
    assert (Ho : disk_block (taken sb b dn) (ind_of ip) = disk_block dn (ind_of ip)) by (eapply taken_old; by eauto).
    destruct (tx_update p pid ie d w _ ∅ _ _ _ _ (ind_of ip) bp (blk_put 4 (Z.to_nat (4 * bn)) b) e2 H2) as (s3 & Hr3 & _ & H3);
      [set_solver|rewrite Hk2 by set_solver; by simplify_map_eq|by eapply (room_more 1 2)|lia|by destruct Hsb as [_ ->]|by rewrite length_blk_put, Ho|].
    rewrite Hr3. clear Hr3. rewrite Ho in H3.
    assert (Hg : grown sb (13 + bn) b dn ip (<[ind_of ip := blk_put 4 (Z.to_nat (4 * bn)) b (disk_block dn (ind_of ip))]> (taken sb b dn)) ip).
    { replace (4 * bn) with (4 * (13 + bn - 13)) by lia. apply grown_indirect; try done; unfold NSLOT; lia. }
    eexists _, _, _, e2, s3. rewrite (gr_slot _ _ _ _ _ _ _ Hg), decide_True by (done || (unfold NSLOT; lia)).
    split_and!; [reflexivity|done|exact H3| |pose proof (a_pos sb Hla b Hb); lia].
    apply (grown_mapped sb Hla (13 + bn) b); try done; [unfold NSLOT; lia|].
    pose proof (length_log_add (ind_of ip) bs2). lia.
  - destruct (tx_brelse p pid ie d w _ _ _ _ _ _ (ind_of ip) bp e1 H1) as (s2 & Hr2 & H2);
      [set_solver|by simplify_map_eq|by apply (tx_clean p pid ie d w _ _ _ _ _ _ _ H)|]. mrun Hr2.
    replace (({[ind_of ip]} ∪ ∅) ∖ {[ind_of ip]}) with (∅ : gset Z) in H2 by set_solver.
    eexists _, bs, dn, e1, s2. split_and!; [reflexivity| |exact H2| |done].
    + eapply dev_env_le; [done|lia].
    + eapply mapped_le; [by apply mapped_refl|lia..].
Qed.

(** Buffers one call of [bmap] may read. *)
Definition bmap_io : nat := balloc_io sb + S (balloc_io sb).

(** [bmap] returns the address of block [bn], which it allocates, and the
    indirect block, if they are missing. *)
Lemma bmap_ok hd bs dn R s i ip bn n e :
  tx hd ∅ bs dn R s → sb_in sb R → k_inodes R !! i = Some ip → fsys sb dn ip → 0 ≤ bn < MAXFILE → (2 ≤ nfree sb dn)%nat →
  room 5 bs (k_log R) → dev_env p (bmap_io + n) e →
  ∃ hd' bs' dn' ip' e' s', bmap i bn e s = Ret (slot dn' ip' (fslot bn)) e' s' ∧ dev_env p n e' ∧
    tx hd' ∅ bs' dn' (set_ip i ip' R) s' ∧ mapped sb 2 5 bs dn ip bs' dn' ip' ∧ slot dn' ip' (fslot bn) ≠ 0.
Proof.
  intros H Hsb Hi Hs Hbn Hfree Hroom He. unfold bmap, fslot. change MAXFILE with 268 in Hbn. change NDIRECT with 12.
  change NINDIRECT with 256. unfold bmap_io in He. destruct (Z.ltb_spec bn 12).
  - destruct (bmap_direct_ok _ _ _ _ _ i ip bn (S (balloc_io sb + n)) e H Hsb Hi Hs) as (hd' & bs' & dn' & ip' & e' & s' & Hr & He' & H' & Hm & Hne);
      [lia|lia|apply (room_le 5); [done|lia]|eapply dev_env_le; [done|lia]|].
    exists hd', bs', dn', ip', e', s'. split_and!; [done|eapply dev_env_le; [done|lia]|done|apply (mapped_le _ 1 2); [done|lia..]|done].
  - rewrite (proj2 (Z.ltb_lt _ _)) by lia.
    destruct (bmap_direct_ok _ _ _ _ _ i ip 12 (S (balloc_io sb + n)) e H Hsb Hi Hs) as (hd1 & bs1 & dn1 & ip1 & e1 & s1 & Hr1 & He1 & H1 & Hm1 & Hne1);
      [lia|lia|apply (room_le 5); [done|lia]|eapply dev_env_le; [done|lia]|]. cbv zeta. mrun Hr1.
    destruct (bmap_indirect_ok _ _ _ _ _ i ip1 (bn - 12) n e1 H1) as (hd2 & bs2 & dn2 & e2 & s2 & Hr2 & He2 & H2 & Hm2 & Hne2);
      [done|by eapply set_ip_lookup|apply Hm1|change NINDIRECT with 256; lia|pose proof (mp_free _ _ _ _ _ _ _ _ _ Hm1); lia|done|
       by eapply (room_more 3 2); [|apply Hm1]|done|].
    replace (13 + (bn - 12)) with (bn + 1) in * by lia.
    exists hd2, bs2, dn2, ip1, e2, s2. split_and!; [exact Hr2|done|done|exact (mapped_trans _ _ _ _ _ _ _ _ _ _ _ _ _ _ Hm1 Hm2)|done].
Qed.

(** A block that is there is found without any change. *)
Lemma bmap_full_ok hd bs dn R s i ip bn n e :
  tx hd ∅ bs dn R s → k_inodes R !! i = Some ip → fsys sb dn ip → 0 ≤ bn < MAXFILE → slot dn ip (fslot bn) ≠ 0 →
  (length bs < nbuf)%nat → dev_env p (S n) e →
  ∃ hd' e' s', bmap i bn e s = Ret (slot dn ip (fslot bn)) e' s' ∧ dev_env p n e' ∧ tx hd' ∅ bs dn R s'.
Proof.
  intros H Hi (Hbm & Hbl & W) Hbn Hne Hbuf He. unfold bmap, fslot in *. change MAXFILE with 268 in Hbn.
  change NDIRECT with 12 in *. change NINDIRECT with 256.
  assert (Hdir : ∀ k, 0 ≤ k ≤ 12 → slot dn ip k ≠ 0 → bmap_direct i k e s = Ret (slot dn ip k) e s).
  { intros k Hk Hn. unfold bmap_direct. mrun (tx_inode_of p pid ie d w _ _ _ _ _ _ i ip e H Hi). unfold slot in *.
    rewrite (proj2 (Z.ltb_lt k 13)) in * by lia.
    destruct (lookup_lt_is_Some_2 (in_addrs ip) (Z.to_nat k)) as [a Ha]; [rewrite (iw_addrs _ _ _ W); lia|].
    rewrite Ha in *. cbn [from_option id] in *. mstep. by rewrite (proj2 (Z.eqb_neq a 0)) by done. }
  destruct (Z.ltb_spec bn 12).
  - exists hd, e, s. split_and!; [apply Hdir; [lia|done]| |done]. eapply dev_env_le; [done|lia].
  - rewrite (proj2 (Z.ltb_lt _ _)) by lia. unfold slot in Hne. rewrite (proj2 (Z.ltb_ge _ _)) in Hne by lia.
    destruct (Z.eqb_spec (ind_of ip) 0) as [E|E]; [done|]. cbv zeta. mrun (Hdir 12 ltac:(lia) E).
    mrun (tx_inode_of p pid ie d w _ _ _ _ _ _ i ip e H Hi). rewrite (iw_dev _ _ _ W).
    change (slot dn ip 12) with (ind_of ip).
    assert (Hd : data_blk sb dn (ind_of ip)) by (by apply (iw_data _ _ _ W 12)).
    destruct (dstart_range sb Hla (ind_of ip)) as (Hi0 & _); [apply Hd|]. pose proof (la_size sb Hla) as Hsz.
    destruct (tx_bread p pid ie d w _ _ _ _ _ _ (ind_of ip) n e H) as (bp & e1 & s1 & Hr1 & He1 & H1);
      [set_solver|destruct Hd; lia|rewrite size_empty; lia|done|]. mrun Hr1.
    mrun (tx_data p pid ie d w _ _ _ _ _ _ (ind_of ip) bp e1 H1 ltac:(set_solver) ltac:(by simplify_map_eq)). cbv zeta.
    replace (4 * (bn + 1 - 13)) with (4 * (bn - 12)) in Hne by lia. rewrite (proj2 (Z.eqb_neq _ 0)) by done.
    destruct (tx_brelse p pid ie d w _ _ _ _ _ _ (ind_of ip) bp e1 H1) as (s2 & Hr2 & H2);
      [set_solver|by simplify_map_eq|by apply (tx_clean p pid ie d w _ _ _ _ _ _ _ H)|]. mrun Hr2.
    replace (({[ind_of ip]} ∪ ∅) ∖ {[ind_of ip]}) with (∅ : gset Z) in H2 by set_solver.
    eexists _, e1, s2. split_and!; [|done|exact H2]. unfold ret. f_equal. unfold slot.
    rewrite (proj2 (Z.ltb_ge _ _)), (proj2 (Z.eqb_neq _ _) E) by lia. do 3 f_equal. lia.
Qed.
End bmap.

(** * The bytes of a file *)

Definition fbyte (dn : gmap Z (list Z)) (ip : inode) (o : Z) : Z :=
  default 0 (fblock dn ip (o / BSIZE) !! Z.to_nat (o mod BSIZE)).
(** [n] bytes from [off] on. *)
Definition content (dn : gmap Z (list Z)) (ip : inode) (off n : Z) : list Z := fbyte dn ip <$> seqZ off n.
Definition filedata (dn : gmap Z (list Z)) (ip : inode) : list Z := content dn ip 0 (in_size ip).
(** Every block of the file is there. *)
Definition solid (dn : gmap Z (list Z)) (ip : inode) : Prop :=
  ∀ bn, 0 ≤ bn → bn * BSIZE < in_size ip → slot dn ip (fslot bn) ≠ 0.
(** The size of a file is at most the largest one. *)
Definition size_ok (ip : inode) : Prop := 0 ≤ in_size ip ≤ MAXFILE * BSIZE.

Lemma length_content dn ip off n : length (content dn ip off n) = Z.to_nat n.
Proof. unfold content. by rewrite length_fmap, length_seqZ. Qed.
Lemma lookup_content dn ip off n i :
  content dn ip off n !! i = if decide (Z.of_nat i < n) then Some (fbyte dn ip (off + Z.of_nat i)) else None.
Proof.
  unfold content. rewrite list_lookup_fmap. case_decide.
  - by rewrite lookup_seqZ_lt.
  - by rewrite lookup_seqZ_ge by lia.
Qed.
Lemma content_app dn ip off m n :
  0 ≤ m → 0 ≤ n → content dn ip off (m + n) = content dn ip off m ++ content dn ip (off + m) n.
Proof. intros Hm Hn. unfold content. by rewrite seqZ_app, fmap_app. Qed.
Lemma content_take_drop dn ip off n m k :
  0 ≤ k → 0 ≤ m → k + m ≤ n →
  take (Z.to_nat m) (drop (Z.to_nat k) (content dn ip off n)) = content dn ip (off + k) m.
Proof.
  intros Hk Hm Hn. replace n with (k + (m + (n - k - m))) by lia. rewrite !content_app by lia.
  rewrite drop_app_length' by (by rewrite length_content).
  by rewrite take_app_length' by (by rewrite length_content).
Qed.

Lemma length_fblock dn ip bn : blocks_ok dn → length (fblock dn ip bn) = Z.to_nat BSIZE.
Proof. intros H. unfold fblock. case_match; [apply length_replicate|apply H]. Qed.

Lemma BSIZE_val : BSIZE = 1024.
Proof. reflexivity. Qed.

(** The part of the block at [off]. *)
Lemma content_block dn ip off m :
  blocks_ok dn → 0 ≤ off → 0 ≤ m ≤ BSIZE - off mod BSIZE →
  take (Z.to_nat m) (drop (Z.to_nat (off mod BSIZE)) (fblock dn ip (off / BSIZE))) = content dn ip off m.
Proof.
  intros Hb Ho Hm. pose proof (Z.mod_pos_bound off BSIZE ltac:(done)) as Hr.
  apply list_eq. intros i. rewrite lookup_content. case_decide as Hi; [|apply lookup_ge_None_2; rewrite length_take; lia].
  rewrite lookup_take_lt, lookup_drop by lia.
  destruct (lookup_lt_is_Some_2 (fblock dn ip (off / BSIZE)) (Z.to_nat (off mod BSIZE) + i)) as [v Hv].
  { rewrite length_fblock by done. lia. }
  rewrite Hv. f_equal. unfold fbyte. pose proof (Z.div_mod off BSIZE ltac:(done)).
  replace (off + Z.of_nat i) with (off mod BSIZE + Z.of_nat i + off / BSIZE * BSIZE) by lia.
  rewrite Z.div_add, Z_mod_plus_full, Z.div_small, Z.mod_small by (done || lia).
  rewrite Z.add_0_l, Z2Nat.inj_add, Nat2Z.id, Hv by lia. done.
Qed.

(** * Changing a block of the file *)

Section put_block.
Context (sb : superblock) (Hla : layout sb) (dn : gmap Z (list Z)) (ip : inode) (bn : Z).
Context (Hbn : 0 ≤ bn < MAXFILE) (Hsys : fsys sb dn ip) (Hne : slot dn ip (fslot bn) ≠ 0).

Lemma put_data : data_blk sb dn (slot dn ip (fslot bn)).
Proof. destruct Hsys as (_ & _ & W). apply W; [by apply fslot_range|done]. Qed.
Lemma put_blk_range : 0 ≤ slot dn ip (fslot bn) < 2 ^ 31 ∧ ¬ in_log (sb_logstart sb) (slot dn ip (fslot bn)).
Proof.
  destruct put_data as [Hd _]. destruct (dstart_range sb Hla (slot dn ip (fslot bn))) as (? & _ & ?); [lia|].
  pose proof (la_size sb Hla). split; [lia|done].
Qed.

Context (x : list Z) (Hx : length x = Z.to_nat BSIZE).

Definition put_fblock : gmap Z (list Z) := <[slot dn ip (fslot bn) := x]> dn.

Lemma put_slot k : 0 ≤ k < NSLOT → slot put_fblock ip k = slot dn ip k.
Proof.
  intros Hk. unfold put_fblock, slot at 1. destruct (Z.ltb_spec k 13) as [Hl|Hl].
  - unfold slot. by rewrite (proj2 (Z.ltb_lt k 13) Hl).
  - unfold slot at 2. rewrite (proj2 (Z.ltb_ge k 13) Hl). destruct (Z.eqb_spec (ind_of ip) 0); [done|].
    rewrite disk_block_insert, decide_False; [done|]. intros E. destruct (fslot_range bn Hbn) as [Hr Hn]. apply Hn.
    destruct Hsys as (_ & _ & W). by apply (iw_inj _ _ _ W).
Qed.
Lemma put_used b : 0 ≤ b < sb_size sb → used sb put_fblock b = used sb dn b.
Proof. intros Hb. unfold put_fblock. apply used_other; [done|done|]. left. apply put_data. Qed.
Lemma put_data_blk b : data_blk sb put_fblock b ↔ data_blk sb dn b.
Proof.
  unfold data_blk. split; intros [Hb Hu]; (split; [done|]);
    destruct (dstart_range sb Hla b) as [? _]; try lia; (rewrite put_used in * by lia); done.
Qed.

Lemma put_fsys : fsys sb put_fblock ip.
Proof.
  destruct Hsys as (Hbm & Hbl & [W1 W2 W3 W4]). split_and!.
  - intros b Hb. rewrite put_used by done. by apply Hbm.
  - intros b. unfold put_fblock. rewrite disk_block_insert. case_decide; [done|apply Hbl].
  - split; [done|done| |].
    + intros k Hk. rewrite put_slot, put_data_blk by done. by apply W3.
    + intros j k Hj Hk. rewrite !put_slot by done. by apply W4.
Qed.
Lemma put_fblock_at bn' : 0 ≤ bn' < MAXFILE → fblock put_fblock ip bn' = if decide (bn' = bn) then x else fblock dn ip bn'.
Proof.
  intros Hb'. destruct (fslot_range bn Hbn) as [Hr Hn]. destruct (fslot_range bn' Hb') as [Hr' Hn']. unfold fblock.
  rewrite put_slot by done. unfold put_fblock. rewrite disk_block_insert. destruct (decide (bn' = bn)) as [->|E].
  - rewrite decide_True by done. by rewrite (proj2 (Z.eqb_neq _ _) Hne).
  - case_match eqn:E0; [done|]. rewrite decide_False; [done|]. intros E2. apply E.
    destruct Hsys as (_ & _ & W). assert (Hf : fslot bn = fslot bn') by (by apply (iw_inj _ _ _ W)).
    unfold fslot in Hf. change NDIRECT with 12 in Hf. repeat case_match; lia.
Qed.
Lemma put_keeps : keeps sb dn ip put_fblock ip.
Proof.
  pose proof put_data as [Hd _]. destruct (dstart_range sb Hla (slot dn ip (fslot bn))) as (_ & ? & _); [lia|].
  destruct (fslot_range bn Hbn) as [Hr _]. split.
  - intros b Hb. unfold put_fblock. rewrite disk_block_insert, decide_False by lia. done.
  - intros b Hb Ho. split_and!.
    + unfold put_fblock. rewrite disk_block_insert, decide_False; [done|]. intros <-. apply Ho. by exists (fslot bn).
    + by apply put_data_blk.
    + intros (k & Hk & Hs). rewrite put_slot in Hs by done. apply Ho. by exists k.
Qed.
Lemma put_nfree : nfree sb put_fblock = nfree sb dn.
Proof.
  unfold nfree, free_blocks. apply Permutation_length, NoDup_Permutation; [apply NoDup_filter, NoDup_seqZ..|].
  intros b. rewrite !list_elem_of_filter, elem_of_seqZ. split; intros [Hu Hb]; (split; [|done]); rewrite put_used in * by lia; done.
Qed.
End put_block.

(** The bytes after some of one block were replaced. *)
Lemma fbyte_put dn ip dn' ip' off l :
  blocks_ok dn → 0 ≤ off → Z.of_nat (length l) ≤ BSIZE - off mod BSIZE →
  fblock dn' ip' (off / BSIZE) = list_inserts (Z.to_nat (off mod BSIZE)) l (fblock dn ip (off / BSIZE)) →
  (∀ bn, 0 ≤ bn < MAXFILE → bn ≠ off / BSIZE → fblock dn' ip' bn = fblock dn ip bn) →
  ∀ o, 0 ≤ o < MAXFILE * BSIZE →
    fbyte dn' ip' o = if decide (off ≤ o < off + Z.of_nat (length l)) then default 0 (l !! Z.to_nat (o - off)) else fbyte dn ip o.
Proof.
  intros Hb Ho Hl H1 H2 o Hor. unfold fbyte. rewrite BSIZE_val in *. change MAXFILE with 268 in *.
  pose proof (Z.mod_pos_bound off 1024). pose proof (Z.mod_pos_bound o 1024).
  pose proof (Z.div_mod off 1024). pose proof (Z.div_mod o 1024).
  destruct (decide (o / 1024 = off / 1024)) as [E|E].
  - rewrite E, H1. pose proof (length_fblock dn ip (off / 1024) Hb) as Hlen. change (Z.to_nat BSIZE) with 1024%nat in Hlen.
    case_decide.
    + rewrite list_lookup_inserts by lia. do 2 f_equal. lia.
    + destruct (decide (o < off)); [by rewrite list_lookup_inserts_lt by lia|by rewrite list_lookup_inserts_ge by lia].
  - rewrite decide_False by lia. rewrite H2; [done| |done]. split; [apply Z.div_pos; lia|apply Z.div_lt_upper_bound; lia].
Qed.
