(* ===== verification/Fsio.v ===== *)
(** [readi], [writei] and [iupdate] inside a transaction: a file is the list of
    its bytes, and the callers' memory is where they come from and go to. *)

From S2P Require Import Prelude Mem KString Params Kernel Spinlock Kalloc Sched Sleeplock Virtio Bio Bcache Log LogCrash.
From S2P Require Import Vm Uvm Ucopy Fs Fstx Fsblock Fsfile.

(** * The caller's memory *)

Section place.
Context {dev : VirtioDev} {ok : VirtioOk dev} {lnk : Linker} {lnk_ok : LinkerOk lnk}.
Context (p : nat) (pid : Z) (ie : bool).
Context (d : gmap Z (list Z)) (w : list (Z * list Z)).
(** The page table of the process. *)
Context (T : ptree).
Implicit Types (hd : gmap Z nat) (h : gset Z).

Abbreviation tx := (tx p pid ie d w).

Lemma tx_core hd h bs dn R s c hh :
  tx hd h bs dn R s → ctx (mkthread hh (Some p) ie) [] c → tx hd h bs dn R (set_k_core c s).
Proof.
  intros [(m & lg & [B1 B2 B3 B4 [F1 F2 F3]] & Hl & Hfix & Hm) Hrest] Hc. split; [|done].
  exists m, lg. split_and!; [|done..]. split; [|done|done|done|].
  - destruct B1 as [[_ ? ?] ? ? ? ? ? ?]. split; try done. split; [by exists hh|done|done].
  - split; [exact F1|exact F2|exact F3].
Qed.

Lemma tx_set_mem mm hd h bs dn R s : tx hd h bs dn R s → tx hd h bs dn (set_k_mem mm R) (set_k_mem mm s).
Proof.
  intros [(m & lg & [B1 B2 B3 B4 [F1 F2 F3]] & Hl & Hfix & Hm) Hrest]. split; [|done].
  exists m, lg. split_and!; [|done..]. split; [|done|done|done|].
  - destruct B1 as [[] ? ? ? ? ? ?]. split; try done.
  - split; [exact (f_equal (set_k_mem mm) F1)|exact F2|exact F3].
Qed.

Lemma tx_myproc hd h bs dn R s e :
  tx hd h bs dn R s → ∃ s', myproc e s = Ret (Some p) e s' ∧ tx hd h bs dn R s'.
Proof.
  intros H. pose proof H as [(m & lg & Hf & _) _]. destruct (rn_ctx _ _ _ _ _ (bi_runs _ _ _ _ _ _ (fs_bio _ _ _ _ _ _ _ _ _ _ Hf))) as [hh Hc].
  destruct (myproc_ok _ _ e s Hc) as (c & Hr & Hc'). exists (set_k_core c s). split; [exact Hr|]. by apply (tx_core _ _ _ _ _ _ c hh).
Qed.

Lemma tx_proc hd h bs dn R s pr e :
  tx hd h bs dn R s → k_procs R !! p = Some pr →
  ∃ pr', proc_of p e s = Ret pr' e s ∧ p_pagetable pr' = p_pagetable pr.
Proof.
  intros [(m & lg & Hf & _) _] Hp. pose proof (bf_procs _ _ (fs_frame _ _ _ _ _ _ _ _ _ _ Hf)) as Hs.
  apply (f_equal (λ l, l !! p)) in Hs. rewrite !list_lookup_fmap in Hs.
  change (k_procs (set_k_log lg R)) with (k_procs R) in Hs. rewrite Hp in Hs. cbn in Hs.
  destruct (k_procs s !! p) as [pr'|] eqn:E; [|done]. cbn in Hs. simplify_eq.
  exists pr'. split; [unfold proc_of; mstep; by rewrite E|]. done.
Qed.

(** The process whose memory it is. *)
Definition mine (R : kstate) : Prop :=
  uspace (k_mem R) T ∧ ∃ pr, k_procs R !! p = Some pr ∧ p_pagetable pr = pt_root T.

(** The bytes at a place. *)
Definition holds_at (R : kstate) (src : place) (l : list Z) : Prop :=
  match src with
  | P_local bs => bs = l
  | P_kern pa => 0 ≤ pa ∧ pa + Z.of_nat (length l) < 2 ^ 64 ∧ read_bytes (k_mem R) pa (length l) = l
  | P_user va => mine R ∧ 0 ≤ va ∧ va + Z.of_nat (length l) < 2 ^ 64 ∧
      ∀ i, (i < length l)%nat → uview (k_mem R) (pt_map T) (va + Z.of_nat i) = l !! i
  end.

Lemma copyin_exact va l e s :
  uspace (k_mem s) T → 0 ≤ va → Z.of_nat (length l) < 2 ^ 64 →
  (∀ i, (i < length l)%nat → uview (k_mem s) (pt_map T) (va + Z.of_nat i) = l !! i) →
  copyin (pt_root T) va (Z.of_nat (length l)) e s = Ret (0, l) e s.
Proof.
  intros Hm Hva Hl Hv. destruct (copyin_ok T va (Z.of_nat (length l)) e s Hm Hva) as (r & bs & Hr & Hb & Hc); [lia|].
  rewrite Hr. destruct Hc as [[-> Hl2]|(-> & Hlt & Hu)].
  - do 2 f_equal. apply (list_eq_same_length _ _ (length l)); [done|lia|].
    intros i x y Hi Hx Hy. apply Hb in Hx. rewrite Hv in Hx by done. congruence.
  - exfalso. rewrite Hv in Hu by lia. apply lookup_ge_None in Hu. lia.
Qed.

Lemma either_copyin_ok hd h bs dn R s src l m e :
  tx hd h bs dn R s → holds_at R src l → 0 ≤ m ≤ Z.of_nat (length l) →
  ∃ s', either_copyin src m e s = Ret (0, take (Z.to_nat m) l) e s' ∧ tx hd h bs dn R s'.
Proof.
  intros H Hat Hm. unfold either_copyin. destruct (tx_myproc _ _ _ _ _ _ e H) as (s1 & Hr1 & H1). mrun Hr1.
  pose proof (tx_mem p pid ie d w _ _ _ _ _ _ H1) as Hmem.
  assert (Hl : length (take (Z.to_nat m) l) = Z.to_nat m) by (rewrite length_take; lia).
  destruct src as [va|pa|bs']; cbn in Hat.
  - destruct Hat as ((Hus & pr & Hpr & Hpt) & Hva & Hlt & Hv). mstep.
    destruct (tx_proc _ _ _ _ _ _ pr e H1 Hpr) as (pr' & Hr2 & Hpt'). mrun Hr2. rewrite Hpt', Hpt.
    exists s1. split; [|done]. replace m with (Z.of_nat (length (take (Z.to_nat m) l))) at 1 by lia.
    apply copyin_exact; rewrite ?Hmem; [done|done|lia|].
    intros i Hi. rewrite Hv, lookup_take_lt by lia. done.
  - destruct Hat as (Hpa & Hlt & Hrd). mstep. exists s1. split; [|done]. rewrite Hmem. do 2 f_equal.
    rewrite <-Hrd, read_bytes_take by lia. done.
  - subst bs'. mstep. by exists s1.
Qed.

Lemma holds_at_drop R src l m :
  holds_at R src l → 0 ≤ m ≤ Z.of_nat (length l) → holds_at R (place_add src m) (drop (Z.to_nat m) l).
Proof.
  intros H Hm. destruct src as [va|pa|bs]; cbn in *; rewrite ?length_drop.
  - destruct H as (Hme & Hva & Hlt & Hv). rewrite u64_id by lia. split_and!; [done|lia|lia|].
    intros i Hi. rewrite lookup_drop, <-Hv by lia. f_equal. lia.
  - destruct H as (Hpa & Hlt & Hrd). rewrite u64_id by lia. split_and!; [lia|lia|].
    rewrite <-Hrd at 2. rewrite read_bytes_drop by lia. by rewrite Z2Nat.id by lia.
  - by rewrite H.
Qed.

(** A place with room for [n] bytes, and the state after they were stored. *)
Definition fits_at (R : kstate) (dst : place) (n : Z) : Prop :=
  match dst with
  | P_local _ => True
  | P_kern pa => 0 ≤ pa ∧ pa + n < 2 ^ 64
  | P_user va => mine R ∧ 0 ≤ va ∧ va + n < 2 ^ 64 ∧
      ∀ x, va ≤ x < va + n → is_Some (uview (k_mem R) (pt_map T) x)
  end.
Definition put_at (R : kstate) (dst : place) (l : list Z) (R' : kstate) : Prop :=
  match dst with
  | P_local _ => R' = R
  | P_kern pa => R' = set_k_mem (write_bytes (k_mem R) pa l) R
  | P_user va => ∃ m, R' = set_k_mem m R ∧ stored T va l (length l) (k_mem R) m
  end.

Lemma put_at_mem R dst l R' : put_at R dst l R' → ∃ m, R' = set_k_mem m R.
Proof.
  destruct dst as [va|pa|bs]; cbn.
  - intros (m & -> & _). by exists m.
  - intros ->. eauto.
  - intros ->. exists (k_mem R). by destruct R.
Qed.

Lemma either_copyout_ok hd h bs dn R s dst l e :
  tx hd h bs dn R s → fits_at R dst (Z.of_nat (length l)) →
  ∃ R' s', either_copyout dst l e s = Ret 0 e s' ∧ tx hd h bs dn R' s' ∧ put_at R dst l R'.
Proof.
  intros H Hat. unfold either_copyout. destruct (tx_myproc _ _ _ _ _ _ e H) as (s1 & Hr1 & H1). mrun Hr1.
  pose proof (tx_mem p pid ie d w _ _ _ _ _ _ H1) as Hmem. destruct dst as [va|pa|bs']; cbn in Hat.
  - destruct Hat as ((Hus & pr & Hpr & Hpt) & Hva & Hlt & Hv). mstep.
    destruct (tx_proc _ _ _ _ _ _ pr e H1 Hpr) as (pr' & Hr2 & Hpt'). mrun Hr2. rewrite Hpt', Hpt.
    destruct (copyout_ok T va l e s1) as (r & n & m' & Hr & HS & Hc); [by rewrite Hmem|done|lia|]. rewrite Hmem in *.
    destruct Hc as [[-> ->]|(_ & Hn & Hu)].
    + exists (set_k_mem m' R), (set_k_mem m' s1). split_and!; [done|by apply tx_set_mem|]. by exists m'.
    + exfalso. destruct (Hv (va + Z.of_nat n)) as [b Hb]; [lia|]. congruence.
  - mstep. rewrite Hmem. eexists _, _. split_and!; [reflexivity|by apply tx_set_mem|done].
  - mstep. by exists R, s1.
Qed.

Lemma put_at_nil R dst : fits_at R dst 0 → put_at R dst [] R.
Proof.
  destruct dst as [va|pa|bs]; cbn.
  - intros ((Hus & _) & _). exists (k_mem R). split; [by destruct R|by apply stored_0].
  - intros _. by destruct R.
  - done.
Qed.

Lemma fits_at_le R dst n n' : fits_at R dst n → 0 ≤ n' ≤ n → fits_at R dst n'.
Proof.
  intros H Hn. destruct dst as [va|pa|bs]; cbn in *; [|lia|done]. destruct H as (Hm & H1 & H2 & H3).
  split_and!; [done|done|lia|]. intros x Hx. apply H3. lia.
Qed.

(** The rest of the place after the first bytes were stored. *)
Lemma fits_at_rest R dst l n R' :
  fits_at R dst (Z.of_nat (length l) + n) → 0 ≤ n → put_at R dst l R' → fits_at R' (place_add dst (Z.of_nat (length l))) n.
Proof.
  intros H Hn Hp. destruct dst as [va|pa|bs]; cbn in *; [|rewrite u64_id by lia; lia|done].
  destruct Hp as (m & -> & HS). destruct H as ((Hus & pr & Hpr & Hpt) & Hva & Hlt & Hv).
  rewrite u64_id by lia. split_and!; [|lia|lia|].
  - split; [apply HS|by exists pr].
  - intros x Hx. kproj. apply (uview_mapped m (k_mem R)), Hv. lia.
Qed.

Lemma stored_app va l1 l2 m m1 m2 :
  0 ≤ va → stored T va l1 (length l1) m m1 → stored T (va + Z.of_nat (length l1)) l2 (length l2) m1 m2 →
  stored T va (l1 ++ l2) (length (l1 ++ l2)) m m2.
Proof.
  intros Hva [A1 A2 A3] [B1 B2 B3]. rewrite length_app. split; [done| |].
  - intros x Hx. rewrite B2, A2 by done. repeat case_decide; try lia.
    + rewrite lookup_app_r by lia. f_equal. lia.
    + rewrite lookup_app_l by lia. done.
    + done.
  - intros x Hx. by rewrite B3, A3.
Qed.

Lemma put_at_app R dst l1 l2 R1 R2 :
  fits_at R dst (Z.of_nat (length (l1 ++ l2))) → put_at R dst l1 R1 → put_at R1 (place_add dst (Z.of_nat (length l1))) l2 R2 →
  put_at R dst (l1 ++ l2) R2.
Proof.
  rewrite length_app. intros Hf H1 H2. destruct dst as [va|pa|bs]; cbn in *.
  - destruct H1 as (m1 & -> & HS1). destruct H2 as (m2 & -> & HS2). rewrite u64_id in HS2 by lia.
    exists m2. split; [done|]. eapply stored_app; [apply Hf|done|done].
  - subst R1 R2. rewrite u64_id by lia. kproj. by rewrite write_bytes_app.
  - congruence.
Qed.
End place.

(** Addresses are 64 bits wide. *)
Definition place_ok (a : place) : Prop :=
  match a with P_user va => 0 ≤ va < 2 ^ 64 | P_kern pa => 0 ≤ pa < 2 ^ 64 | P_local _ => True end.
Lemma place_add_0 a : place_ok a → place_add a 0 = a.
Proof. destruct a; cbn; intros H; [by rewrite Z.add_0_r, u64_id by lia..|done]. Qed.
Lemma place_add_add a m n : 0 ≤ m → 0 ≤ n → place_add (place_add a m) n = place_add a (m + n).
Proof.
  intros Hm Hn. destruct a as [va|pa|bs]; cbn.
  - unfold u64. rewrite Z.add_mod_idemp_l by done. do 2 f_equal. lia.
  - unfold u64. rewrite Z.add_mod_idemp_l by done. do 2 f_equal. lia.
  - rewrite drop_drop. do 2 f_equal. lia.
Qed.

(** The number of blocks that [n] bytes from [off] on lie in. *)
Definition nblocks (off n : Z) : nat := if n <=? 0 then 0 else Z.to_nat ((off + n - 1) / BSIZE - off / BSIZE + 1).

Lemma nblocks_step off n :
  0 ≤ off → 0 < n → let m := Z.min n (BSIZE - off mod BSIZE) in
  0 < m ≤ n ∧ m ≤ BSIZE - off mod BSIZE ∧ nblocks off n = S (nblocks (off + m) (n - m)).
Proof.
  intros Ho Hn m. assert (Hm : m = Z.min n (BSIZE - off mod BSIZE)) by done. clearbody m. unfold nblocks. rewrite BSIZE_val in *. pose proof (Z.mod_pos_bound off 1024 ltac:(done)).
  pose proof (Z.div_mod off 1024 ltac:(done)). split; [lia|]. split; [lia|]. rewrite (proj2 (Z.leb_gt n 0)) by lia.
  destruct (Z.leb_spec (n - m) 0).
  - assert (E : (off + n - 1) / 1024 = off / 1024); [|rewrite E; lia].
    symmetry. apply (Z.div_unique _ _ _ (off mod 1024 + n - 1)); lia.
  - assert (E : (off + m) / 1024 = off / 1024 + 1).
    { symmetry. apply (Z.div_unique _ _ _ 0); lia. }
    replace (off + m + (n - m) - 1) with (off + n - 1) by lia. rewrite E.
    pose proof (Z.div_le_mono (off + m) (off + n - 1) 1024 ltac:(done) ltac:(lia)). lia.
Qed.

(** * readi *)

Section readi.
Context {dev : VirtioDev} {ok : VirtioOk dev} {lnk : Linker} {lnk_ok : LinkerOk lnk}.
Context (p : nat) (pid : Z) (ie : bool).
Context (d : gmap Z (list Z)) (w : list (Z * list Z)).
Context (T : ptree) (sb : superblock) (Hla : layout sb).
Implicit Types (hd : gmap Z nat) (h : gset Z).

Abbreviation tx := (tx p pid ie d w).
Abbreviation put_at := (put_at T).
Abbreviation fits_at := (fits_at p T).

(** One block of [readi]. *)
Lemma readi_turn_ok hd bs dn R s i ip n tot off dst acc k e :
  tx hd ∅ bs dn R s → k_inodes R !! i = Some ip → fsys sb dn ip → 0 ≤ tot < n → 0 ≤ off < 2 ^ 31 →
  let m := Z.min (n - tot) (BSIZE - off mod BSIZE) in
  0 ≤ off / BSIZE < MAXFILE → slot dn ip (fslot (off / BSIZE)) ≠ 0 → fits_at R dst m →
  (length bs + 1 < nbuf)%nat → dev_env p (2 + k) e →
  ∃ hd' R' e' s', readi_turn i n (tot, off, dst, acc) e s =
      Ret (inl (tot + m, off + m, place_add dst m, acc ++ content dn ip off m)) e' s' ∧
    dev_env p k e' ∧ tx hd' ∅ bs dn R' s' ∧ put_at R dst (content dn ip off m) R'.
Proof.
  intros H Hi Hs Ht Ho m Hbn Hne Hfit Hbuf He. pose proof Hs as (Hbm & Hbl & W). unfold readi_turn.
  rewrite (proj2 (Z.ltb_lt _ _)) by lia. destruct (nblocks_step off (n - tot)) as (Hm & Hm2 & _); [lia|lia|]. fold m in Hm, Hm2.
  destruct (bmap_full_ok p pid ie d w sb Hla _ _ _ _ _ i ip (off / BSIZE) (S k) e H Hi Hs Hbn Hne) as (hd1 & e1 & s1 & Hr1 & He1 & H1);
    [lia|done|]. mrun Hr1.
  mrun (tx_inode_of p pid ie d w _ _ _ _ _ _ i ip e1 H1 Hi). rewrite (iw_dev _ _ _ W).
  set (a := slot dn ip (fslot (off / BSIZE))) in *.
  assert (Hd : data_blk sb dn a) by (apply (iw_data _ _ _ W); [by apply fslot_range|done]).
  destruct (dstart_range sb Hla a) as (Ha0 & _); [apply Hd|]. pose proof (la_size sb Hla) as Hsz.
  destruct (tx_bread p pid ie d w _ _ _ _ _ _ a k e1 H1) as (bp & e2 & s2 & Hr2 & He2 & H2);
    [set_solver|destruct Hd; lia|rewrite size_empty; lia|done|]. mrun Hr2.
  mrun (tx_data p pid ie d w _ _ _ _ _ _ a bp e2 H2 ltac:(set_solver) ltac:(by simplify_map_eq)). fold m. cbv zeta.
  assert (Hc : take (Z.to_nat m) (drop (Z.to_nat (off mod BSIZE)) (disk_block dn a)) = content dn ip off m).
  { rewrite <-content_block by (done || lia). do 2 f_equal. unfold fblock. fold a. by rewrite (proj2 (Z.eqb_neq a 0)) by done. }
  rewrite Hc.
  destruct (either_copyout_ok p pid ie d w T _ _ _ _ _ _ dst (content dn ip off m) e2 H2) as (R' & s3 & Hr3 & H3 & Hp).
  { rewrite length_content, Z2Nat.id by lia. done. }
  mrun Hr3. cbn [Z.eqb].
  destruct (tx_brelse p pid ie d w _ _ _ _ _ _ a bp e2 H3) as (s4 & Hr4 & H4);
    [set_solver|by simplify_map_eq|by apply (tx_clean p pid ie d w _ _ _ _ _ _ _ H)|]. mrun Hr4.
  replace (({[a]} ∪ ∅) ∖ {[a]}) with (∅ : gset Z) in H4 by set_solver.
  rewrite BSIZE_val in *. pose proof (Z.mod_pos_bound off 1024). rewrite u32_id by lia.
  eexists _, R', e2, s4. split_and!; [reflexivity|done|exact H4|done].
Qed.

(** The loop: [n] bytes from [off] on. *)
Lemma readi_loop_ok hd bs dn R s i ip off n dst k e :
  tx hd ∅ bs dn R s → k_inodes R !! i = Some ip → fsys sb dn ip → solid dn ip → size_ok ip →
  0 ≤ off → 0 ≤ n → off + n ≤ in_size ip → fits_at R dst n → (length bs + 1 < nbuf)%nat →
  dev_env p (2 * nblocks off n + k) e →
  ∃ hd' R' e' s', loop (readi_turn i n) (0, off, dst, []) e s = Ret (n, content dn ip off n) e' s' ∧
    dev_env p k e' ∧ tx hd' ∅ bs dn R' s' ∧ put_at R dst (content dn ip off n) R'.
Proof.
  intros H Hi Hs Hso [Hz0 Hz1] Ho Hn Hsz Hfit Hbuf He. change MAXFILE with 268 in *. rewrite BSIZE_val in *.
  destruct (loop_measure (readi_turn i n) (λ st _ _, n - st.1.1.1)
    (λ st e s, ∃ tot hd' R', st = (tot, off + tot, place_add dst tot, content dn ip off tot) ∧ 0 ≤ tot ≤ n ∧
      dev_env p (2 * nblocks (off + tot) (n - tot) + k) e ∧ tx hd' ∅ bs dn R' s ∧ put_at R dst (content dn ip off tot) R')
    (λ r e s, r = (n, content dn ip off n) ∧ ∃ hd' R', dev_env p k e ∧ tx hd' ∅ bs dn R' s ∧ put_at R dst (content dn ip off n) R')
    (0, off, dst, []) e s) as (r & e' & s' & Hr & -> & hd' & R' & He' & H' & Hp').
  - intros st e1 s1 (tot & hd1 & R1 & -> & Ht & He1 & H1 & Hp1). cbn [fst]. split; [lia|].
    destruct (decide (tot < n)) as [Hlt|Hge].
    + destruct (nblocks_step (off + tot) (n - tot)) as (Hm1 & Hm2 & Hnb); [lia|lia|]. rewrite BSIZE_val in *.
      set (m := Z.min _ _) in *. pose proof (Z.div_mod (off + tot) 1024 ltac:(done)) as Hdm. pose proof (Z.mod_pos_bound (off + tot) 1024 ltac:(done)) as Hmb.
      assert (Hl : length (content dn ip off tot) = Z.to_nat tot) by (by rewrite length_content).
      destruct (put_at_mem _ _ _ _ _ Hp1) as [mm Emm].
      assert (Hf1 : fits_at R1 (place_add dst tot) (n - tot)).
      { pose proof (fits_at_rest p T R dst (content dn ip off tot) (n - tot) R1) as Hf. rewrite Hl, Z2Nat.id in Hf by lia.
        apply Hf; [by replace (tot + (n - tot)) with n by lia|lia|done]. }
      destruct (readi_turn_ok hd1 bs dn R1 s1 i ip n tot (off + tot) (place_add dst tot) (content dn ip off tot)
        (2 * nblocks (off + tot + m) (n - tot - m) + k) e1) as (hd2 & R2 & e2 & s2 & Hr2 & He2 & H2 & Hp2).
      * done.
      * by rewrite Emm.
      * done.
      * lia.
      * lia.
      * rewrite BSIZE_val. change MAXFILE with 268. split; [apply Z.div_pos; lia|apply Z.div_lt_upper_bound; lia].
      * apply Hso; rewrite BSIZE_val; [apply Z.div_pos; lia|lia].
      * apply (fits_at_le p T _ _ (n - tot)); [done|rewrite BSIZE_val; fold m; lia].
      * done.
      * rewrite Hnb in He1. eapply dev_env_le; [exact He1|]. lia.
      * rewrite BSIZE_val in Hr2, Hp2. fold m in Hr2, Hp2. eexists _, e2, s2. split; [exact Hr2|]. cbn beta iota. split; [|cbn [fst]; lia].
        exists (tot + m), hd2, R2. rewrite content_app, place_add_add by lia.
        replace (off + (tot + m)) with (off + tot + m) by lia. replace (n - (tot + m)) with (n - tot - m) by lia.
        split_and!; [done|lia|lia|done|done|].
        eapply (put_at_app p T); [|exact Hp1|by rewrite Hl, Z2Nat.id by lia].
        rewrite length_app, !length_content. eapply (fits_at_le p T); [exact Hfit|lia].
    + assert (tot = n) as -> by lia. unfold readi_turn. rewrite (proj2 (Z.ltb_ge _ _)) by lia.
      eexists _, _, _. split; [reflexivity|]. cbn beta iota. rewrite i32_id by lia. split; [done|].
      exists hd1, R1. split_and!; [|done|done]. eapply dev_env_le; [exact He1|lia].
  - exists 0, hd, R. rewrite Z.add_0_r, Z.sub_0_r. split_and!; [|lia|lia|done|done|].
    + rewrite place_add_0; [done|]. destruct dst; cbn in *; done || lia.
    + apply (put_at_nil p T). by eapply (fits_at_le p T); [exact Hfit|lia].
  - cbn [fst]. lia.
  - exists hd', R', e', s'. done.
Qed.

Lemma file_slice dn ip off n :
  0 ≤ off ≤ in_size ip → 0 ≤ n →
  take (Z.to_nat n) (drop (Z.to_nat off) (filedata dn ip)) = content dn ip off (Z.min n (in_size ip - off)).
Proof.
  intros Ho Hn. unfold filedata. rewrite <-(content_take_drop dn ip 0 (in_size ip) _ off) by lia.
  destruct (Z.leb_spec n (in_size ip - off)); [by rewrite Z.min_l by lia|]. rewrite Z.min_r by lia.
  rewrite !take_ge; [done|rewrite length_drop, length_content; lia..].
Qed.

(** [readi] returns the bytes of the file from [off] on, at most [n] of them
    and none beyond its end. *)
Lemma readi_ok hd bs dn R s i ip off n dst k e :
  let l := take (Z.to_nat n) (drop (Z.to_nat off) (filedata dn ip)) in
  tx hd ∅ bs dn R s → k_inodes R !! i = Some ip → fsys sb dn ip → solid dn ip → size_ok ip →
  0 ≤ off → 0 ≤ n → off + n < 2 ^ 32 → fits_at R dst (Z.of_nat (length l)) → (length bs + 1 < nbuf)%nat →
  dev_env p (2 * nblocks off (Z.of_nat (length l)) + k) e →
  ∃ hd' R' e' s', readi i dst off n e s = Ret (Z.of_nat (length l), l) e' s' ∧
    dev_env p k e' ∧ tx hd' ∅ bs dn R' s' ∧ put_at R dst l R'.
Proof.
  intros l H Hi Hs Hso Hz Ho Hn Hlt Hfit Hbuf He. unfold readi. mrun (tx_inode_of p pid ie d w _ _ _ _ _ _ i ip e H Hi).
  cbv zeta. rewrite u32_id by lia. pose proof Hz as [Hz0 Hz1]. rewrite (proj2 (Z.ltb_ge (off + n) off)), orb_false_r by lia.
  destruct (Z.gtb_spec off (in_size ip)) as [Hgt|Hle].
  - assert (Hl : l = []). { unfold l, filedata. rewrite drop_ge by (rewrite length_content; lia). apply take_nil. }
    rewrite Hl in *. mstep. exists hd, R, e, s. split_and!; [done| |done|by apply (put_at_nil p T)].
    eapply dev_env_le; [exact He|lia].
  - assert (Hl : l = content dn ip off (Z.min n (in_size ip - off))) by (apply file_slice; lia). rewrite Hl in *.
    rewrite length_content, Z2Nat.id in * by lia.
    replace (if off + n >? in_size ip then in_size ip - off else n) with (Z.min n (in_size ip - off))
      by (destruct (Z.gtb_spec (off + n) (in_size ip)); lia).
    eapply readi_loop_ok; try done; lia.
Qed.
End readi.

(** * writei *)

(** The bytes [l] were written at [off], into [r] more blocks and with [c] more
    blocks in the log. *)
Record wrote (sb : superblock) (r c : nat) (off : Z) (l : list Z) (bs : list Z) (dn : gmap Z (list Z)) (ip : inode)
    (bs' : list Z) (dn' : gmap Z (list Z)) (ip' : inode) : Prop := {
  wr_fsys : fsys sb dn' ip';
  wr_byte : ∀ o, 0 ≤ o < MAXFILE * BSIZE → fbyte dn' ip' o =
    if decide (off ≤ o < off + Z.of_nat (length l)) then default 0 (l !! Z.to_nat (o - off)) else fbyte dn ip o;
  wr_slots : ∀ k, 0 ≤ k < NSLOT → slot dn ip k ≠ 0 → slot dn' ip' k ≠ 0;
  wr_solid : ∀ o, off ≤ o < off + Z.of_nat (length l) → o < MAXFILE * BSIZE → slot dn' ip' (fslot (o / BSIZE)) ≠ 0;
  wr_keeps : keeps sb dn ip dn' ip';
  wr_free : (nfree sb dn ≤ nfree sb dn' + r)%nat;
  wr_log : (length bs' ≤ length bs + c)%nat;
  wr_ip : ∃ a, ip' = set_in_addrs a ip
}.

Lemma wrote_none sb off bs dn ip : fsys sb dn ip → wrote sb 0 0 off [] bs dn ip bs dn ip.
Proof.
  intros H. split; [done| |done| |apply keeps_refl|lia|lia|exists (in_addrs ip); by destruct ip].
  - intros o Ho. rewrite decide_False by (cbn; lia). done.
  - cbn [length]. lia.
Qed.

Lemma block_of_range o : 0 ≤ o < MAXFILE * BSIZE → 0 ≤ o / BSIZE < MAXFILE.
Proof. change MAXFILE with 268. rewrite BSIZE_val. intros H. split; [apply Z.div_pos; lia|apply Z.div_lt_upper_bound; lia]. Qed.


Lemma wrote_more sb r1 c1 r2 c2 off l1 l2 bs dn ip bs1 dn1 ip1 bs2 dn2 ip2 :
  0 ≤ off → off + Z.of_nat (length l1) ≤ MAXFILE * BSIZE →
  wrote sb r1 c1 off l1 bs dn ip bs1 dn1 ip1 → wrote sb r2 c2 (off + Z.of_nat (length l1)) l2 bs1 dn1 ip1 bs2 dn2 ip2 →
  wrote sb (r1 + r2) (c1 + c2) off (l1 ++ l2) bs dn ip bs2 dn2 ip2.
Proof.
  intros Ho Hl [A1 A2 A3 A4 A5 A6 A7 [a1 ->]] [B1 B2 B3 B4 B5 B6 B7 [a2 ->]]. rewrite ?length_app.
  split; [done| |by auto| |by eapply keeps_trans|lia|lia|by exists a2]; rewrite ?length_app.
  - intros o Hor. rewrite B2, A2 by done. repeat case_decide; try lia.
    + rewrite lookup_app_r by lia. do 2 f_equal. lia.
    + rewrite lookup_app_l by lia. done.
  - intros o H1 H2. destruct (fslot_range (o / BSIZE)) as [Hr _]; [apply block_of_range; lia|].
    destruct (decide (o < off + Z.of_nat (length l1))); [apply B3; [done|]; apply A4; lia|apply B4; lia].
Qed.

(** Bytes stored in a block [bmap] returned. *)
Lemma put_wrote sb (Hla : layout sb) r c off l bs dn ip bs1 dn1 ip1 :
  mapped sb r c bs dn ip bs1 dn1 ip1 → 0 ≤ off < MAXFILE * BSIZE → Z.of_nat (length l) ≤ BSIZE - off mod BSIZE →
  let a := slot dn1 ip1 (fslot (off / BSIZE)) in a ≠ 0 →
  wrote sb r (S c) off l bs dn ip (log_add a bs1)
    (<[a := list_inserts (Z.to_nat (off mod BSIZE)) l (disk_block dn1 a)]> dn1) ip1.
Proof.
  intros [A1 A2 A2' A3 A4 A5 A6] Ho Hl a Hne. pose proof (block_of_range off Ho) as Hbn. pose proof A1 as (_ & Hbl & _).
  set (x := list_inserts _ _ _). assert (Hx : length x = Z.to_nat BSIZE) by (unfold x; by rewrite length_inserts).
  change (<[a := x]> dn1) with (put_fblock dn1 ip1 (off / BSIZE) x).
  assert (Hfb : fblock dn1 ip1 (off / BSIZE) = disk_block dn1 a).
  { unfold fblock. fold a. by rewrite (proj2 (Z.eqb_neq a 0)) by done. }
  assert (Hbyte : ∀ o, 0 ≤ o < MAXFILE * BSIZE → fbyte dn1 ip1 o = fbyte dn ip o).
  { intros o Hor. unfold fbyte. by rewrite A2 by (by apply block_of_range). }
  split.
  - by apply put_fsys.
  - intros o Hor. rewrite <-Hbyte by done. apply fbyte_put; [done|lia|done| | |done].
    + rewrite (put_fblock_at sb), decide_True by done. by rewrite Hfb.
    + intros bn' Hbn' Hn'. by rewrite (put_fblock_at sb), decide_False.
  - intros k Hk Hn. rewrite (put_slot sb), A2' by done. done.
  - intros o H1 H2. destruct (fslot_range (o / BSIZE)) as [Hr _]; [apply block_of_range; lia|]. rewrite (put_slot sb) by done.
    replace (o / BSIZE) with (off / BSIZE); [done|]. rewrite BSIZE_val in *. pose proof (Z.div_mod off 1024 ltac:(done)).
    pose proof (Z.mod_pos_bound off 1024 ltac:(done)). apply (Z.div_unique _ _ _ (o - off + off mod 1024)); lia.
  - eapply keeps_trans; [done|]. by apply put_keeps.
  - by rewrite put_nfree.
  - pose proof (length_log_add a bs1). lia.
  - done.
Qed.

Section writei.
Context {dev : VirtioDev} {ok : VirtioOk dev} {lnk : Linker} {lnk_ok : LinkerOk lnk}.
Context (p : nat) (pid : Z) (ie : bool).
Context (d : gmap Z (list Z)) (w : list (Z * list Z)).
Context (T : ptree) (sb : superblock) (Hla : layout sb).
Implicit Types (hd : gmap Z nat) (h : gset Z).

Abbreviation tx := (tx p pid ie d w).
Abbreviation holds_at := (holds_at p T).

(** One block of [writei]. *)
Lemma writei_turn_ok hd bs dn R s i ip n tot off src l k e :
  tx hd ∅ bs dn R s → sb_in sb R → k_inodes R !! i = Some ip → fsys sb dn ip → 0 ≤ tot < n → 0 ≤ off →
  off + (n - tot) ≤ MAXFILE * BSIZE → (2 ≤ nfree sb dn)%nat →
  let m := Z.min (n - tot) (BSIZE - off mod BSIZE) in
  holds_at R src l → m ≤ Z.of_nat (length l) → room 6 bs (k_log R) → dev_env p (bmap_io sb + S k) e →
  ∃ hd' bs' dn' ip' e' s', writei_turn i n (tot, off, src) e s = Ret (inl (tot + m, off + m, place_add src m)) e' s' ∧
    dev_env p k e' ∧ tx hd' ∅ bs' dn' (set_ip i ip' R) s' ∧ wrote sb 2 6 off (take (Z.to_nat m) l) bs dn ip bs' dn' ip'.
Proof.
  intros H Hsb Hi Hs Ht Ho Hmax Hfree m Hat Hml Hroom He. unfold writei_turn. rewrite (proj2 (Z.ltb_lt _ _)) by lia.
  destruct (nblocks_step off (n - tot)) as (Hm & Hm2 & _); [lia|lia|]. fold m in Hm, Hm2.
  assert (Hbn : 0 ≤ off / BSIZE < MAXFILE).
  { rewrite BSIZE_val in *. change MAXFILE with 268 in *. split; [apply Z.div_pos; lia|apply Z.div_lt_upper_bound; lia]. }
  destruct (bmap_ok p pid ie d w sb Hla _ _ _ _ _ i ip (off / BSIZE) (S k) e H Hsb Hi Hs Hbn Hfree)
    as (hd1 & bs1 & dn1 & ip1 & e1 & s1 & Hr1 & He1 & H1 & Hmp & Hne); [apply (room_le 6); [done|lia]|done|]. mrun Hr1.
  pose proof (set_ip_lookup i ip ip1 R Hi) as Hi1. mrun (tx_inode_of p pid ie d w _ _ _ _ _ _ i ip1 e1 H1 Hi1).
  pose proof (mp_fsys _ _ _ _ _ _ _ _ _ Hmp) as Hs1. pose proof Hs1 as (_ & Hbl1 & W1). rewrite (iw_dev _ _ _ W1).
  destruct (put_blk_range sb Hla dn1 ip1 (off / BSIZE) Hbn Hs1 Hne) as [Har Hnl].
  set (a := slot dn1 ip1 (fslot (off / BSIZE))) in *.
  assert (Hroom1 : room 1 bs1 (k_log R)) by (apply (room_more 1 5 bs); [done|apply Hmp]).
  destruct (tx_bread p pid ie d w _ _ _ _ _ _ a k e1 H1) as (bp & e2 & s2 & Hr2 & He2 & H2);
    [set_solver|done|apply (room_bufs _ _ _ _ Hroom1); rewrite size_empty; lia|done|]. mrun Hr2. fold m. cbv zeta.
  destruct (either_copyin_ok p pid ie d w T _ _ _ _ _ _ src l m e2 H2) as (s3 & Hr3 & H3); [exact Hat|lia|].
  mrun Hr3. cbn [fst snd Z.eqb Z.opp].
  assert (Hfb : fblock dn1 ip1 (off / BSIZE) = disk_block dn1 a).
  { unfold fblock. fold a. by rewrite (proj2 (Z.eqb_neq a 0)) by done. }
  set (l1 := take (Z.to_nat m) l) in *. assert (Hl1 : Z.of_nat (length l1) = m) by (unfold l1; rewrite length_take; lia).
  destruct (tx_update p pid ie d w _ ∅ _ _ _ _ a bp (list_inserts (Z.to_nat (off mod BSIZE)) l1) e2 H3) as (s4 & Hr4 & _ & H4);
    [set_solver|by simplify_map_eq|done|done|by destruct Hsb as [_ Hsb]; cbn; rewrite Hsb|by rewrite length_inserts|].
  rewrite Hr4. mstep. clear Hr4. rewrite BSIZE_val in *. pose proof (Z.mod_pos_bound off 1024). change MAXFILE with 268 in Hmax.
  rewrite u32_id by lia. eexists _, _, _, ip1, e2, s4. split_and!; [reflexivity|done|exact H4|].
  subst l1. rewrite <-BSIZE_val. apply put_wrote; rewrite ?BSIZE_val; [done|done|change MAXFILE with 268; lia|lia|done].
Qed.

(** The loop: [n] bytes at [off]. *)
Lemma writei_loop_ok hd bs dn R s i ip off n src l k e :
  tx hd ∅ bs dn R s → sb_in sb R → k_inodes R !! i = Some ip → fsys sb dn ip → 0 ≤ off → 0 ≤ n →
  off + n ≤ MAXFILE * BSIZE → place_ok src → holds_at R src l → n = Z.of_nat (length l) →
  let nb := nblocks off n in
  (2 * nb ≤ nfree sb dn)%nat → room (6 * nb + 1) bs (k_log R) → dev_env p ((bmap_io sb + 1) * nb + k) e →
  ∃ hd' bs' dn' ip' e' s', loop (writei_turn i n) (0, off, src) e s = Ret (n, off + n) e' s' ∧
    dev_env p k e' ∧ tx hd' ∅ bs' dn' (set_ip i ip' R) s' ∧ wrote sb (2 * nb) (6 * nb) off l bs dn ip bs' dn' ip'.
Proof.
  intros H Hsb Hi Hs Ho Hn Hmax Hpl Hat Hnl nb Hfree Hroom He.
  destruct (loop_measure (writei_turn i n) (λ st _ _, n - st.1.1)
    (λ st e s, ∃ tot j hd' bs' dn' ip', st = (tot, off + tot, place_add src tot) ∧ 0 ≤ tot ≤ n ∧
      nb = (j + nblocks (off + tot) (n - tot))%nat ∧ dev_env p ((bmap_io sb + 1) * nblocks (off + tot) (n - tot) + k) e ∧
      tx hd' ∅ bs' dn' (set_ip i ip' R) s ∧ wrote sb (2 * j) (6 * j) off (take (Z.to_nat tot) l) bs dn ip bs' dn' ip')
    (λ r e s, r = (n, off + n) ∧ ∃ hd' bs' dn' ip', dev_env p k e ∧ tx hd' ∅ bs' dn' (set_ip i ip' R) s ∧
      wrote sb (2 * nb) (6 * nb) off l bs dn ip bs' dn' ip')
    (0, off, src) e s) as (r & e' & s' & Hr & -> & hd' & bs' & dn' & ip' & He' & H' & Hw').
  - intros st e1 s1 (tot & j & hd1 & bs1 & dn1 & ip1 & -> & Ht & Hj & He1 & H1 & Hw1). cbn [fst]. split; [lia|].
    destruct (decide (tot < n)) as [Hlt|Hge].
    + destruct (nblocks_step (off + tot) (n - tot)) as (Hm1 & Hm2 & Hnb); [lia|lia|]. set (m := Z.min _ _) in *.
      pose proof Hw1 as [V1 _ _ _ _ V6 V7 _].
      destruct (writei_turn_ok hd1 bs1 dn1 (set_ip i ip1 R) s1 i ip1 n tot (off + tot) (place_add src tot) (drop (Z.to_nat tot) l)
        ((bmap_io sb + 1) * nblocks (off + tot + m) (n - tot - m) + k) e1) as (hd2 & bs2 & dn2 & ip2 & e2 & s2 & Hr2 & He2 & H2 & Hw2).
      * done.
      * exact Hsb.
      * by eapply set_ip_lookup.
      * done.
      * lia.
      * lia.
      * lia.
      * lia.
      * apply (holds_at_drop p T); [exact Hat|lia].
      * rewrite length_drop. fold m. lia.
      * apply (room_more 6 (6 * j) bs); [|done]. apply (room_le (6 * nb + 1)); [exact Hroom|lia].
      * eapply dev_env_le; [exact He1|]. rewrite Hnb. lia.
      * fold m in Hr2, Hw2. rewrite set_ip_twice in H2.
        eexists _, e2, s2. split; [exact Hr2|]. cbn beta iota. split; [|cbn [fst]; lia].
        exists (tot + m), (j + 1)%nat, hd2, bs2, dn2, ip2.
        replace (off + (tot + m)) with (off + tot + m) by lia. replace (n - (tot + m)) with (n - tot - m) by lia.
        rewrite place_add_add by lia. split_and!; [done|lia|lia|lia|done|done|].
        replace (Z.to_nat (tot + m)) with (Z.to_nat tot + Z.to_nat m)%nat by lia. rewrite <-take_take_drop.
        rewrite !Nat.mul_add_distr_l. assert (Hlt2 : Z.of_nat (length (take (Z.to_nat tot) l)) = tot) by (rewrite length_take; lia).
        eapply wrote_more; [lia|lia|exact Hw1|]. by rewrite Hlt2.
    + assert (tot = n) as -> by lia. unfold writei_turn. rewrite (proj2 (Z.ltb_ge _ _)) by lia.
      eexists _, _, _. split; [reflexivity|]. cbn beta iota. split; [done|].
      assert (E0 : nblocks (off + n) (n - n) = 0%nat) by (by rewrite Z.sub_diag). rewrite E0 in *.
      rewrite take_ge in Hw1 by lia. replace j with nb in Hw1 by lia.
      exists hd1, bs1, dn1, ip1. split_and!; [|done|done]. eapply dev_env_le; [exact He1|lia].
  - exists 0, 0%nat, hd, bs, dn, ip. rewrite Z.add_0_r, Z.sub_0_r, place_add_0, set_ip_same by done.
    split_and!; [done|lia|lia|done|done|done|]. by apply wrote_none.
  - cbn [fst]. rewrite BSIZE_val in Hmax. change MAXFILE with 268 in Hmax. lia.
  - exists hd', bs', dn', ip', e', s'. done.
Qed.
End writei.
