(* ===== verification/Fsinode.v ===== *)
(** Inodes on the disk, [iupdate], and [writei] as a change of a file that is
    a list of bytes: what it does to the file, to its inode on the disk, and
    that every other file is left alone. *)

From S2P Require Import Prelude Mem KString Params Kernel Spinlock Kalloc Sched Sleeplock Virtio Bio Bcache Log LogCrash.
From S2P Require Import Vm Uvm Ucopy Fs Fstx Fsblock Fsfile Fsio.

(** * Inodes on the disk *)

(** Inode number [inum], read into [x]. *)
Definition dinode_at (sb : superblock) (dn : gmap Z (list Z)) (inum : Z) (x : inode) : inode :=
  get_dinode (dinode_off inum) (disk_block dn (inum / IPB + sb_inodestart sb)) x.
(** [x] with the contents of [ip]. *)
Definition loaded (ip x : inode) : inode :=
  mkinode (in_dev x) (in_inum x) (in_ref x) (in_valid x) (in_type ip) (in_major ip) (in_minor ip) (in_nlink ip)
    (in_size ip) (in_addrs ip).

(** The fields fit their places on the disk. *)
Definition is_short (x : Z) : Prop := - 2 ^ 15 ≤ x < 2 ^ 15.
Record dinode_ok (ip : inode) : Prop := {
  do_type : is_short (in_type ip);
  do_major : is_short (in_major ip);
  do_minor : is_short (in_minor ip);
  do_nlink : is_short (in_nlink ip);
  do_size : 0 ≤ in_size ip < 2 ^ 32;
  do_len : length (in_addrs ip) = 13%nat;
  do_addrs : ∀ j a, in_addrs ip !! j = Some a → 0 ≤ a < 2 ^ 32
}.

Definition put_addrs (o j0 : nat) (l : list Z) (x : list Z) : list Z :=
  foldl (λ x '(j, v), blk_put 4 (o + 12 + 4 * j) v x) x (zip (seq j0 (length l)) l).

Lemma length_put_addrs o j0 l x : length (put_addrs o j0 l x) = length x.
Proof.
  unfold put_addrs. revert j0 x. induction l as [|v l IH]; intros j0 x; [done|].
  cbn [length seq zip zip_with foldl]. rewrite IH. apply length_blk_put.
Qed.
Lemma get_put_addrs_ne n off o j0 l x :
  (off + n ≤ o + 12 + 4 * j0)%nat ∨ (o + 12 + 4 * (j0 + length l) ≤ off)%nat →
  blk_get n off (put_addrs o j0 l x) = blk_get n off x.
Proof.
  unfold put_addrs. revert j0 x. induction l as [|v l IH]; intros j0 x Hoff; [done|].
  cbn [length seq zip zip_with foldl] in *. rewrite IH by lia. apply blk_get_put_ne. lia.
Qed.
Lemma get_put_addrs o j0 l x k v :
  l !! k = Some v → 0 ≤ v < 2 ^ 32 → (o + 12 + 4 * (j0 + length l) ≤ length x)%nat →
  blk_get 4 (o + 12 + 4 * (j0 + k)) (put_addrs o j0 l x) = v.
Proof.
  revert j0 x k. induction l as [|u l IH]; intros j0 x k Hk Hv Hlen; [done|].
  assert (E : put_addrs o j0 (u :: l) x = put_addrs o (S j0) l (blk_put 4 (o + 12 + 4 * j0) u x)) by done.
  rewrite E. cbn [length] in Hlen. destruct k as [|k]; cbn in Hk.
  - simplify_eq. rewrite get_put_addrs_ne by lia. rewrite Nat.add_0_r, blk_get_put_eq by lia. by apply Z.mod_small.
  - replace (j0 + S k)%nat with (S j0 + k)%nat by lia. apply IH; [done|done|]. rewrite length_blk_put. lia.
Qed.

Definition put_fields (ip : inode) (o : nat) (x : list Z) : list Z :=
  blk_put 4 (o + 8) (in_size ip) (blk_put 2 (o + 6) (in_nlink ip)
    (blk_put 2 (o + 4) (in_minor ip) (blk_put 2 (o + 2) (in_major ip) (blk_put 2 o (in_type ip) x)))).
Lemma put_dinode_eq ip o x :
  length (in_addrs ip) = 13%nat → put_dinode ip o x = put_addrs o 0 (in_addrs ip) (put_fields ip o x).
Proof. intros H. unfold put_addrs. by rewrite H. Qed.
Lemma length_put_fields ip o x : length (put_fields ip o x) = length x.
Proof. unfold put_fields. by rewrite !length_blk_put. Qed.

Lemma get_put_dinode ip o x y :
  dinode_ok ip → (o + 64 ≤ length x)%nat → get_dinode o (put_dinode ip o x) y = loaded ip y.
Proof.
  intros [H1 H2 H3 H4 H5 H6 H7] Hlen. rewrite put_dinode_eq by done. unfold get_dinode, loaded, d_type.
  rewrite !get_put_addrs_ne by lia. f_equal.
  1-5: unfold put_fields; repeat (rewrite blk_get_put_ne by lia); rewrite blk_get_put_eq by (rewrite ?length_blk_put; lia).
  1-4: by apply i16_mod.
  - by apply Z.mod_small.
  - apply list_eq. intros j. rewrite list_lookup_fmap. destruct (decide (j < 13)%nat) as [Hj|Hj].
    + rewrite lookup_seq_lt by done. cbn [fmap option_fmap option_map].
      destruct (lookup_lt_is_Some_2 (in_addrs ip) j) as [v Hv]; [lia|]. rewrite Hv. f_equal.
      apply (get_put_addrs o 0); [done|by eapply H7|]. rewrite length_put_fields. lia.
    + rewrite lookup_seq_ge by lia. symmetry. apply lookup_ge_None_2. lia.
Qed.

Lemma get_put_dinode_ne ip o o' x y :
  length (in_addrs ip) = 13%nat → (o' + 64 ≤ o)%nat ∨ (o + 64 ≤ o')%nat →
  get_dinode o' (put_dinode ip o x) y = get_dinode o' x y.
Proof.
  intros Hl Ho. assert (E : ∀ n off, (o' ≤ off)%nat → (off + n ≤ o' + 64)%nat → blk_get n off (put_dinode ip o x) = blk_get n off x).
  { intros n off H1 H2. rewrite put_dinode_eq, get_put_addrs_ne by (done || lia). unfold put_fields.
    repeat (rewrite blk_get_put_ne by lia). done. }
  unfold get_dinode, d_type. rewrite !E by lia. f_equal. apply list_fmap_ext. intros i j Hj.
  apply lookup_seq in Hj as [-> Hj]. apply E; lia.
Qed.

(** * iupdate *)

(** The block and the offset of an inode on the disk. *)
Definition inode_blk (sb : superblock) (ip : inode) : Z := in_inum ip / IPB + sb_inodestart sb.
Definition inum_ok (sb : superblock) (ip : inode) : Prop := 0 ≤ in_inum ip ∧ inode_blk sb ip < sb_bmapstart sb.
Definition put_inode (sb : superblock) (ip : inode) (dn : gmap Z (list Z)) : gmap Z (list Z) :=
  <[inode_blk sb ip := put_dinode ip (dinode_off (in_inum ip)) (disk_block dn (inode_blk sb ip))]> dn.

Lemma length_put_dinode ip o x : length (put_dinode ip o x) = length x.
Proof.
  unfold put_dinode. generalize (zip (seq 0 13) (in_addrs ip)). intros l.
  transitivity (length (put_fields ip o x)); [|apply length_put_fields].
  fold (put_fields ip o x). generalize (put_fields ip o x).
  induction l as [|[j v] l IH]; intros y; [done|]. cbn [foldl]. rewrite IH. apply length_blk_put.
Qed.

Lemma inode_blk_range sb ip : layout sb → inum_ok sb ip →
  0 ≤ inode_blk sb ip < 2 ^ 31 ∧ ¬ in_log (sb_logstart sb) (inode_blk sb ip) ∧ IBLOCK (in_inum ip) sb = inode_blk sb ip.
Proof.
  intros [] [H1 H2]. unfold inode_blk, in_log, IBLOCK in *. change IPB with 16 in *. change LOGSIZE with 30 in *.
  pose proof (Z.div_pos (in_inum ip) 16 ltac:(done)). rewrite u32_id by lia. lia.
Qed.

(** Writing before the bitmap leaves the files alone. *)
Section meta.
Context (sb : superblock) (Hla : layout sb) (dn dn' : gmap Z (list Z)).
Context (Hsame : ∀ b, sb_bmapstart sb ≤ b → disk_block dn' b = disk_block dn b).

Lemma meta_used b : 0 ≤ b < sb_size sb → used sb dn' b = used sb dn b.
Proof. intros Hb. unfold used. rewrite Hsame; [done|]. by destruct (bmap_blk_range sb Hla b Hb) as [? _]; lia. Qed.
Lemma meta_nfree : nfree sb dn' = nfree sb dn.
Proof.
  unfold nfree, free_blocks. apply Permutation_length, NoDup_Permutation; [apply NoDup_filter, NoDup_seqZ..|].
  intros b. rewrite !list_elem_of_filter, elem_of_seqZ. split; intros [Hu Hb]; (split; [|done]); rewrite meta_used in * by lia; done.
Qed.
Lemma meta_data b : data_blk sb dn' b ↔ data_blk sb dn b.
Proof.
  unfold data_blk. split; intros [Hb Hu]; (split; [done|]);
    destruct (dstart_range sb Hla b) as [? _]; try lia; (rewrite meta_used in * by lia); done.
Qed.
Lemma meta_slot ip k : iwf sb dn ip → slot dn' ip k = slot dn ip k.
Proof.
  intros W. unfold slot. case_match; [done|]. destruct (Z.eqb_spec (ind_of ip) 0) as [|E]; [done|]. rewrite Hsame; [done|].
  destruct (iw_data _ _ _ W 12 ltac:(done) E) as [Hd _]. change (slot dn ip 12) with (ind_of ip) in Hd.
  destruct (dstart_range sb Hla (ind_of ip)) as (_ & ? & _); lia.
Qed.
Lemma meta_fblock ip bn : iwf sb dn ip → 0 ≤ bn < MAXFILE → fblock dn' ip bn = fblock dn ip bn.
Proof.
  intros W Hbn. unfold fblock. rewrite meta_slot by done. destruct (Z.eqb_spec (slot dn ip (fslot bn)) 0) as [|E]; [done|].
  apply Hsame. destruct (fslot_range bn Hbn) as [Hr _]. destruct (iw_data _ _ _ W _ Hr E) as [Hd _].
  destruct (dstart_range sb Hla (slot dn ip (fslot bn))) as (_ & ? & _); lia.
Qed.
Lemma meta_fsys ip : blocks_ok dn' → fsys sb dn ip → fsys sb dn' ip.
Proof.
  intros Hbl (Hbm & _ & W). split_and!; [|done|].
  - intros b Hb. rewrite meta_used by done. by apply Hbm.
  - split; [apply W|apply W| |].
    + intros k Hk. rewrite (meta_slot ip) by done. rewrite meta_data. by apply W.
    + intros j k Hj Hk. rewrite !(meta_slot ip) by done. by apply W.
Qed.
End meta.

(** Two files share no block. *)
Definition apart (dn : gmap Z (list Z)) (ip ip2 : inode) : Prop :=
  ∀ k, 0 ≤ k < NSLOT → slot dn ip2 k ≠ 0 → ¬ owns dn ip (slot dn ip2 k).

(** A file apart from the one that changed is as it was. *)
Section other.
Context (sb : superblock) (Hla : layout sb) (dn : gmap Z (list Z)) (ip : inode) (dn' : gmap Z (list Z)) (ip' ip2 : inode).
Context (Hk : keeps sb dn ip dn' ip') (H2 : iwf sb dn ip2) (Hap : apart dn ip ip2).

Lemma other_block k : 0 ≤ k < NSLOT → slot dn ip2 k ≠ 0 →
  disk_block dn' (slot dn ip2 k) = disk_block dn (slot dn ip2 k) ∧ data_blk sb dn' (slot dn ip2 k) ∧ ¬ owns dn' ip' (slot dn ip2 k).
Proof. intros Hr Hn. destruct Hk as [_ Hd]. apply Hd; [by apply (iw_data _ _ _ H2)|by apply Hap]. Qed.
Lemma other_slot k : 0 ≤ k < NSLOT → slot dn' ip2 k = slot dn ip2 k.
Proof.
  intros Hr. unfold slot. case_match; [done|]. destruct (Z.eqb_spec (ind_of ip2) 0) as [|E]; [done|].
  destruct (other_block 12 ltac:(done) E) as [E2 _]. change (slot dn ip2 12) with (ind_of ip2) in E2. by rewrite E2.
Qed.
Lemma other_fblock bn : 0 ≤ bn < MAXFILE → fblock dn' ip2 bn = fblock dn ip2 bn.
Proof.
  intros Hbn. destruct (fslot_range bn Hbn) as [Hr _]. unfold fblock. rewrite other_slot by done.
  destruct (Z.eqb_spec (slot dn ip2 (fslot bn)) 0) as [|E]; [done|]. by destruct (other_block _ Hr E).
Qed.
Lemma other_iwf : iwf sb dn' ip2.
Proof.
  split; [apply H2|apply H2| |].
  - intros k Hr. rewrite other_slot by done. intros Hn. by apply other_block.
  - intros j k Hj Hr. rewrite !other_slot by done. by apply H2.
Qed.
Lemma other_apart : apart dn' ip' ip2.
Proof. intros k Hr. rewrite other_slot by done. intros Hn. by apply other_block. Qed.
End other.

Lemma content_ext dn ip dn' ip' off n :
  (∀ bn, 0 ≤ bn < MAXFILE → fblock dn' ip' bn = fblock dn ip bn) → 0 ≤ off → off + n ≤ MAXFILE * BSIZE →
  content dn' ip' off n = content dn ip off n.
Proof.
  intros H Ho Hn. apply list_eq. intros i. rewrite !lookup_content. case_decide; [|done]. f_equal. unfold fbyte.
  rewrite H; [done|]. apply block_of_range. lia.
Qed.

(** * The whole of writei *)

Section update.
Context {dev : VirtioDev} {ok : VirtioOk dev} {lnk : Linker} {lnk_ok : LinkerOk lnk}.
Context (p : nat) (pid : Z) (ie : bool).
Context (d : gmap Z (list Z)) (w : list (Z * list Z)).
Context (T : ptree) (sb : superblock) (Hla : layout sb).
Implicit Types (hd : gmap Z nat) (h : gset Z).

Abbreviation tx := (tx p pid ie d w).

Lemma iupdate_ok hd bs dn R s i ip k e :
  tx hd ∅ bs dn R s → sb_in sb R → k_inodes R !! i = Some ip → in_dev ip = ROOTDEV → inum_ok sb ip → blocks_ok dn →
  room 1 bs (k_log R) → dev_env p (S k) e →
  ∃ hd' e' s', iupdate i e s = Ret tt e' s' ∧ dev_env p k e' ∧
    tx hd' ∅ (log_add (inode_blk sb ip) bs) (put_inode sb ip dn) R s'.
Proof.
  intros H [Hsb Hlg] Hi Hdev Hin Hbl Hroom He. unfold iupdate. mrun (tx_inode_of p pid ie d w _ _ _ _ _ _ i ip e H Hi).
  mrun (tx_gets_sb p pid ie d w _ _ _ _ _ _ e H). rewrite Hsb, Hdev.
  destruct (inode_blk_range sb ip Hla Hin) as (Hr & Hnl & ->).
  destruct (tx_bread p pid ie d w _ _ _ _ _ _ (inode_blk sb ip) k e H) as (bp & e1 & s1 & Hr1 & He1 & H1);
    [set_solver|done|apply (room_bufs _ _ _ _ Hroom); rewrite size_empty; lia|done|]. mrun Hr1.
  mrun (tx_inode_of p pid ie d w _ _ _ _ _ _ i ip e1 H1 Hi).
  destruct (tx_update p pid ie d w _ ∅ _ _ _ _ (inode_blk sb ip) bp (put_dinode ip (dinode_off (in_inum ip))) e1 H1) as (s2 & _ & Hr2 & H2);
    [set_solver|by simplify_map_eq|done|done|by rewrite Hlg|by rewrite length_put_dinode|].
  eexists _, e1, s2. split_and!; [exact Hr2|done|exact H2].
Qed.

Lemma put_inode_same ip dn b : inum_ok sb ip → sb_bmapstart sb ≤ b → disk_block (put_inode sb ip dn) b = disk_block dn b.
Proof. intros [_ Hr] Hb. unfold put_inode. rewrite disk_block_insert, decide_False by lia. done. Qed.
Lemma put_inode_blocks ip dn : blocks_ok dn → blocks_ok (put_inode sb ip dn).
Proof. intros H b. unfold put_inode. rewrite disk_block_insert. case_decide; [by rewrite length_put_dinode|done]. Qed.

Lemma dinode_at_put ip dn inum y :
  inum_ok sb ip → 0 ≤ inum → dinode_ok ip → blocks_ok dn →
  dinode_at sb (put_inode sb ip dn) inum y = if decide (inum = in_inum ip) then loaded ip y else dinode_at sb dn inum y.
Proof.
  intros [Hi _] Hin Hd Hbl. unfold dinode_at, put_inode, inode_blk. rewrite disk_block_insert.
  unfold dinode_off. change IPB with 16. change DINODE_SIZE with 64.
  pose proof (Z.mod_pos_bound inum 16 ltac:(done)). pose proof (Z.mod_pos_bound (in_inum ip) 16 ltac:(done)).
  pose proof (Z.div_mod inum 16 ltac:(done)). pose proof (Z.div_mod (in_inum ip) 16 ltac:(done)).
  destruct (decide (inum = in_inum ip)) as [->|Hne].
  - rewrite decide_True by done. apply get_put_dinode; [done|]. rewrite Hbl. change (Z.to_nat BSIZE) with 1024%nat. lia.
  - case_decide as E; [|done]. rewrite <-E. apply get_put_dinode_ne; [apply Hd|]. lia.
Qed.

(** What [writei] of [l] at [off] makes of the file and of the disk. *)
Record written (off : Z) (l : list Z) (dn : gmap Z (list Z)) (ip : inode) (dn' : gmap Z (list Z)) (ip' : inode) : Prop := {
  wt_fsys : fsys sb dn' ip';
  wt_solid : solid dn' ip';
  wt_size : in_size ip' = Z.max (in_size ip) (off + Z.of_nat (length l));
  wt_file : filedata dn' ip' =
    take (Z.to_nat off) (filedata dn ip) ++ l ++ drop (Z.to_nat off + length l) (filedata dn ip);
  wt_inode : ∃ a, ip' = set_in_size (in_size ip') (set_in_addrs a ip);
  wt_disk : ∀ y, dinode_at sb dn' (in_inum ip) y = loaded ip' y;
  wt_inodes : ∀ inum y, 0 ≤ inum → inum / IPB + sb_inodestart sb < sb_bmapstart sb → inum ≠ in_inum ip → dinode_at sb dn' inum y = dinode_at sb dn inum y;
  wt_meta : ∀ b, b < sb_logstart sb → disk_block dn' b = disk_block dn b;
  wt_other : ∀ ip2, fsys sb dn ip2 → apart dn ip ip2 → size_ok ip2 →
    fsys sb dn' ip2 ∧ apart dn' ip' ip2 ∧ filedata dn' ip2 = filedata dn ip2
}.

Lemma splice_file dn ip dn' ip' off l :
  0 ≤ off ≤ in_size ip → size_ok ip → off + Z.of_nat (length l) ≤ MAXFILE * BSIZE →
  in_size ip' = Z.max (in_size ip) (off + Z.of_nat (length l)) →
  (∀ o, 0 ≤ o < MAXFILE * BSIZE → fbyte dn' ip' o =
    if decide (off ≤ o < off + Z.of_nat (length l)) then default 0 (l !! Z.to_nat (o - off)) else fbyte dn ip o) →
  filedata dn' ip' = take (Z.to_nat off) (filedata dn ip) ++ l ++ drop (Z.to_nat off + length l) (filedata dn ip).
Proof.
  intros Ho [Hz0 Hz1] Hmax Hsz Hb. unfold filedata. rewrite Hsz.
  set (f := content dn ip 0 (in_size ip)). assert (Hf : length f = Z.to_nat (in_size ip)) by apply length_content.
  assert (Ht : length (take (Z.to_nat off) f) = Z.to_nat off) by (rewrite length_take; lia).
  apply list_eq. intros i. rewrite lookup_content.
  destruct (decide (i < Z.to_nat off)%nat) as [H1|H1].
  - rewrite decide_True, lookup_app_l, lookup_take_lt by lia. unfold f. rewrite lookup_content, decide_True by lia.
    rewrite Hb, decide_False by lia. done.
  - rewrite lookup_app_r, Ht by lia. destruct (decide (i < Z.to_nat off + length l)%nat) as [H2|H2].
    + rewrite decide_True, lookup_app_l by lia. rewrite Hb, decide_True by lia.
      replace (Z.to_nat (0 + Z.of_nat i - off)) with (i - Z.to_nat off)%nat by lia.
      destruct (lookup_lt_is_Some_2 l (i - Z.to_nat off)) as [v Hv]; [lia|]. by rewrite Hv.
    + rewrite lookup_app_r, lookup_drop by lia. unfold f. rewrite lookup_content.
      replace (Z.to_nat off + length l + (i - Z.to_nat off - length l))%nat with i by lia.
      case_decide; [|rewrite decide_False by lia; done]. rewrite decide_True by lia. rewrite Hb, decide_False by lia. done.
Qed.

Lemma iwf_addrs dn ip j a : iwf sb dn ip → in_addrs ip !! j = Some a → 0 ≤ a < 2 ^ 32.
Proof.
  intros W Hj. pose proof (lookup_lt_Some _ _ _ Hj) as Hlt. rewrite (iw_addrs _ _ _ W) in Hlt.
  assert (Hs : slot dn ip (Z.of_nat j) = a).
  { unfold slot. rewrite (proj2 (Z.ltb_lt _ _)) by lia. by rewrite Nat2Z.id, Hj. }
  destruct (decide (a = 0)) as [->|Hn]; [lia|]. pose proof (la_size sb Hla).
  destruct (iw_data _ _ _ W (Z.of_nat j)) as [Hd _]; [unfold NSLOT; lia|by rewrite Hs|]. rewrite Hs in Hd.
  destruct (dstart_range sb Hla a) as [? _]; lia.
Qed.

(** The short fields of an inode. *)
Record shorts_ok (ip : inode) : Prop := {
  sh_type : is_short (in_type ip);
  sh_major : is_short (in_major ip);
  sh_minor : is_short (in_minor ip);
  sh_nlink : is_short (in_nlink ip)
}.
Lemma iwf_dinode dn ip : iwf sb dn ip → shorts_ok ip → size_ok ip → dinode_ok ip.
Proof.
  intros W [] [Hz0 Hz1]. change (MAXFILE * BSIZE) with 274432 in Hz1. split; try done; [lia|apply W|].
  intros j a. by apply (iwf_addrs dn).
Qed.

Lemma wrote_written r c off l bs dn ip bs1 dn1 ip1 :
  wrote sb r c off l bs dn ip bs1 dn1 ip1 → solid dn ip → size_ok ip → 0 ≤ off ≤ in_size ip →
  off + Z.of_nat (length l) ≤ MAXFILE * BSIZE → inum_ok sb ip → shorts_ok ip →
  let ip2 := set_in_size (Z.max (in_size ip) (off + Z.of_nat (length l))) ip1 in
  written off l dn ip (put_inode sb ip2 dn1) ip2.
Proof.
  intros [V1 V2 V3 V4 V5 V6 V7 [a Ha]] Hso Hz Ho Hmax Hin Hsh ip2.
  assert (Hin2 : inum_ok sb ip2) by (unfold ip2; rewrite Ha; exact Hin).
  assert (Hib : inode_blk sb ip2 = inode_blk sb ip) by (unfold ip2; by rewrite Ha).
  assert (Hinum : in_inum ip2 = in_inum ip) by (unfold ip2; by rewrite Ha).
  assert (Hs2 : fsys sb dn1 ip2) by (destruct V1 as (? & ? & []); split_and!; [done|done|by split]). pose proof Hs2 as (_ & Hbl & W2).
  assert (Hsame : ∀ b, sb_bmapstart sb ≤ b → disk_block (put_inode sb ip2 dn1) b = disk_block dn1 b)
    by (intros b Hb; by apply put_inode_same).
  assert (Hdi : dinode_ok ip2).
  { apply (iwf_dinode dn1); [done| |].
    - unfold ip2. rewrite Ha. by destruct Hsh.
    - unfold size_ok, ip2 in *. cbn [in_size set_in_size]. lia. }
  pose proof (put_inode_blocks ip2 dn1 Hbl) as Hbl2. destruct Hz as [Hz0 Hz1]. split.
  - by apply (meta_fsys sb Hla dn1).
  - intros bn Hb0 Hb1. rewrite (meta_slot sb Hla dn1) by done. cbn [in_size ip2 set_in_size] in Hb1.
    change (slot dn1 ip1 (fslot bn) ≠ 0). assert (Hbr : 0 ≤ bn < MAXFILE) by (rewrite BSIZE_val in *; lia).
    destruct (fslot_range bn Hbr) as [Hr _]. destruct (decide (bn * BSIZE < in_size ip)).
    + apply V3; [done|]. by apply Hso.
    + replace bn with (bn * BSIZE / BSIZE) by (by apply Z.div_mul). apply V4; lia.
  - done.
  - apply splice_file; try done. intros o Hor. rewrite <-V2 by done. unfold fbyte.
    by rewrite (meta_fblock sb Hla dn1 _ Hsame ip2) by (done || by apply block_of_range).
  - exists a. unfold ip2. by rewrite Ha.
  - intros y. rewrite dinode_at_put, decide_True by (done || apply Hin). done.
  - intros inum y H0 H1 Hne. rewrite dinode_at_put, decide_False by (done || congruence). unfold dinode_at.
    by rewrite (proj1 V5).
  - intros b Hb. unfold put_inode. pose proof (Z.div_pos (in_inum ip) 16 (proj1 Hin) ltac:(done)).
    destruct Hla. change LOGSIZE with 30 in *.
    rewrite Hib, disk_block_insert, decide_False by (unfold inode_blk; change IPB with 16; lia). apply (proj1 V5). lia.
  - intros ip3 (Hbm3 & Hbl3 & W3) Hap Hz3.
    pose proof (other_iwf sb dn ip dn1 ip1 ip3 V5 W3 Hap) as W3'.
    assert (Hs3 : fsys sb dn1 ip3) by (split_and!; [apply V1|apply V1|done]).
    split_and!; [by apply (meta_fsys sb Hla dn1)| |].
    + intros k Hk. rewrite (meta_slot sb Hla dn1) by done. intros Hn (j & Hj & E).
      rewrite (meta_slot sb Hla dn1) in E by done.
      apply (other_apart sb dn ip dn1 ip1 ip3 V5 W3 Hap k Hk Hn). by exists j.
    + unfold filedata. destruct Hz3. apply content_ext; [|lia|lia]. intros bn Hbn.
      rewrite (meta_fblock sb Hla dn1) by done. by apply (other_fblock sb dn ip dn1 ip1).
Qed.
(** [writei] of a whole buffer inside the limits of the file system. *)
Lemma writei_ok hd bs dn R s i ip off src l k e :
  let n := Z.of_nat (length l) in
  let nb := nblocks off n in
  tx hd ∅ bs dn R s → sb_in sb R → k_inodes R !! i = Some ip → fsys sb dn ip → solid dn ip → size_ok ip → inum_ok sb ip → shorts_ok ip →
  0 ≤ off ≤ in_size ip → off + n ≤ MAXFILE * BSIZE → place_ok src → holds_at p T R src l →
  (2 * nb ≤ nfree sb dn)%nat → room (6 * nb + 1) bs (k_log R) → dev_env p ((bmap_io sb + 1) * nb + S k) e →
  ∃ hd' bs' dn' ip' e' s', writei i src off n e s = Ret n e' s' ∧ dev_env p k e' ∧
    tx hd' ∅ bs' dn' (set_ip i ip' R) s' ∧ written off l dn ip dn' ip' ∧ (length bs' ≤ length bs + (6 * nb + 1))%nat ∧
    (nfree sb dn ≤ nfree sb dn' + 2 * nb)%nat.
Proof.
  intros n nb H Hsb Hi Hs Hso Hz Hin Hsh Ho Hmax Hpl Hat Hfree Hroom He. unfold writei.
  assert (Hlim : MAXFILE * BSIZE = 274432) by reflexivity. pose proof Hz as [Hz0 Hz1].
  mrun (tx_inode_of p pid ie d w _ _ _ _ _ _ i ip e H Hi). rewrite u32_id by lia.
  rewrite (proj2 (Z.ltb_ge (off + n) off)), orb_false_r, !Z.gtb_ltb, (proj2 (Z.ltb_ge (in_size ip) off)),
    (proj2 (Z.ltb_ge (MAXFILE * BSIZE) (off + n))) by lia.
  destruct (writei_loop_ok p pid ie d w T sb Hla hd bs dn R s i ip off n src l (S k) e) as
    (hd1 & bs1 & dn1 & ip1 & e1 & s1 & Hr1 & He1 & H1 & Hw1); try done; [lia|lia|]. mrun Hr1.
  pose proof (set_ip_lookup i ip ip1 R Hi) as Hi1. mrun (tx_inode_of p pid ie d w _ _ _ _ _ _ i ip1 e1 H1 Hi1).
  pose proof (wr_ip _ _ _ _ _ _ _ _ _ _ _ Hw1) as [a Ha].
  set (ip2 := set_in_size (Z.max (in_size ip) (off + n)) ip1).
  assert (Hset : ∃ s2, when (off + n >? in_size ip1) (modify_inode i (set_in_size (off + n))) e1 s1 = Ret tt e1 s2 ∧
    tx hd1 ∅ bs1 dn1 (set_ip i ip2 R) s2).
  { rewrite Z.gtb_ltb. destruct (Z.ltb_spec (in_size ip1) (off + n)) as [Hlt|Hge]; cbn [when].
    - destruct (tx_modify_inode p pid ie d w (set_in_size (off + n)) _ _ _ _ _ _ i ip1 e1 H1 Hi1) as (s2 & Hr2 & H2).
      exists s2. split; [done|]. change (set_k_inodes (<[i := set_in_size (off + n) ip1]> (k_inodes (set_ip i ip1 R))) (set_ip i ip1 R))
        with (set_ip i (set_in_size (off + n) ip1) (set_ip i ip1 R)) in H2. rewrite set_ip_twice in H2.
      unfold ip2. rewrite Z.max_r; [done|]. rewrite Ha in Hlt. cbn in Hlt. lia.
    - exists s1. split; [done|]. unfold ip2. rewrite Z.max_l by (rewrite Ha in Hge; cbn in Hge; lia).
      replace (set_in_size (in_size ip) ip1) with ip1; [done|]. rewrite Ha. by destruct ip. }
  destruct Hset as (s2 & Hr2 & H2). mrun Hr2.
  pose proof (wr_fsys _ _ _ _ _ _ _ _ _ _ _ Hw1) as (_ & Hbl1 & W1).
  destruct (iupdate_ok _ _ _ _ _ i ip2 k e1 H2) as (hd3 & e3 & s3 & Hr3 & He3 & H3).
  { exact Hsb. } { by eapply set_ip_lookup. } { apply (iw_dev _ _ _ W1). } { unfold ip2. rewrite Ha. exact Hin. } { done. }
  { apply (room_more 1 (6 * nb) bs); [done|]. apply (wr_log _ _ _ _ _ _ _ _ _ _ _ Hw1). } { done. }
  mrun Hr3. rewrite i32_id by lia. eexists hd3, _, _, ip2, e3, s3. split_and!; [reflexivity|done|exact H3| | |].
  - by eapply wrote_written.
  - pose proof (length_log_add (inode_blk sb ip2) bs1). pose proof (wr_log _ _ _ _ _ _ _ _ _ _ _ Hw1). lia.
  - rewrite (meta_nfree sb Hla dn1 (put_inode sb ip2 dn1)); [exact (wr_free _ _ _ _ _ _ _ _ _ _ _ Hw1)|]. intros b Hb. apply put_inode_same; [|done]. unfold ip2. by rewrite Ha.
Qed.
End update.
