(* ===== verification/Mkfs.v ===== *)
(** mkfs/mkfs.c: the program that makes the first file-system image (the code;
    Mkimage.v has its theory).

    The image file is the map of its sectors, of BSIZE bytes each.  An argument
    is a path with what the host delivers for it: [None] when it cannot be
    opened, otherwise the bytes of each [read] that returns some.  A failed
    call of the host or a failed assertion ends the program, which is the
    outcome [Panic].  Of a [struct dinode] the fields are those of an [inode];
    what is printed is left out. *)

From S2P Require Import Prelude Mem KString Params Kernel Virtio Fs.

Module Mkfs.

Definition NINODES : Z := 200.
Definition nbitmap : Z := FSSIZE / (BSIZE * 8) + 1.
Definition ninodeblocks : Z := NINODES / IPB + 1.
Definition nlog : Z := LOGSIZE.
Definition nmeta : Z := 2 + nlog + ninodeblocks + nbitmap.
Definition nblocks : Z := FSSIZE - nmeta.

(** The image, [freeinode] and [freeblock]. *)
Record mkst : Type := mkmkst { mk_disk : gmap Z (list Z); mk_freeinode : Z; mk_freeblock : Z }.
Abbreviation I := (M mkst).
Definition set_mk_disk (d : gmap Z (list Z)) (s : mkst) : mkst := mkmkst d (mk_freeinode s) (mk_freeblock s).
Definition set_mk_freeinode (n : Z) (s : mkst) : mkst := mkmkst (mk_disk s) n (mk_freeblock s).
Definition set_mk_freeblock (n : Z) (s : mkst) : mkst := mkmkst (mk_disk s) (mk_freeinode s) n.

(** The value whose bytes in memory are those of [x], least significant first,
    on a little-endian host. *)
Definition xshort (x : Z) : Z := le_val [x mod 256; Z.shiftr x 8 mod 256].
Definition xint (x : Z) : Z :=
  le_val [x mod 256; Z.shiftr x 8 mod 256; Z.shiftr x 16 mod 256; Z.shiftr x 24 mod 256].

Definition sb : superblock :=
  mksb FSMAGIC (xint FSSIZE) (xint nblocks) (xint NINODES) (xint nlog) (xint 2) (xint (2 + nlog))
       (xint (2 + nlog + ninodeblocks)).
Definition zeroes : list Z := replicate (Z.to_nat BSIZE) 0.
(** [memmove(buf, &sb, sizeof(sb))] into a cleared block. *)
Definition sb_bytes (s : superblock) : list Z :=
  list_inserts 0 (concat (le_bytes 4 <$>
    [sb_magic s; sb_size s; sb_nblocks s; sb_ninodes s; sb_nlog s; sb_logstart s; sb_inodestart s; sb_bmapstart s])) zeroes.

Definition wsect (sec : Z) (buf : list Z) : I unit := modify (λ s, set_mk_disk (<[sec := buf]> (mk_disk s)) s).
Definition rsect (sec : Z) : I (list Z) :=
  d <- gets mk_disk ;;
  match d !! sec with Some buf => ret buf | None => panic "read" end.

Definition winode (inum : Z) (ip : inode) : I unit :=
  let bn := IBLOCK inum sb in
  buf <- rsect bn ;;
  wsect bn (put_dinode ip (dinode_off inum) buf).
(** A [struct dinode] of zeroes, as inode [inum]. *)
Definition zero_dinode (inum : Z) : inode := mkinode ROOTDEV inum 0 0 0 0 0 0 0 (replicate 13 0).
Definition rinode (inum : Z) : I inode :=
  let bn := IBLOCK inum sb in
  buf <- rsect bn ;;
  ret (get_dinode (dinode_off inum) buf (zero_dinode inum)).

Definition ialloc (type : Z) : I Z :=
  inum <- gets mk_freeinode ;;
  modify (set_mk_freeinode (inum + 1)) ;;;
  let din := zero_dinode inum in
  let din := set_in_type (xshort type) din in
  let din := set_in_nlink (xshort 1) din in
  let din := set_in_size (xint 0) din in
  winode inum din ;;;
  ret inum.

(** The bitmap with the first [used] bits set. *)
Definition set_bit (buf : list Z) (i : Z) : list Z :=
  <[Z.to_nat (i / 8) := u8 (Z.lor (default 0 (buf !! Z.to_nat (i / 8))) (Z.shiftl 1 (i mod 8)))]> buf.
Definition bitmap (used : Z) : list Z := foldl set_bit zeroes (seqZ 0 used).
Definition balloc (used : Z) : I unit :=
  if negb (used <? BSIZE * 8) then panic "used < BSIZE*8" else
  wsect (sb_bmapstart sb) (bitmap used).

(** [freeblock++] *)
Definition next_block : I Z :=
  b <- gets mk_freeblock ;;
  modify (set_mk_freeblock (b + 1)) ;;;
  ret b.

(** The address of block [fbn] of the file, which is allocated if it is
    missing, and the inode with it. *)
Definition iappend_addr (fbn : Z) (din : inode) : I (Z * inode) :=
  if fbn <? NDIRECT then
    a <- deref (in_addrs din !! Z.to_nat fbn) ;;
    if xint a =? 0 then
      b <- next_block ;;
      ret (xint (xint b), set_in_addrs (<[Z.to_nat fbn := xint b]> (in_addrs din)) din)
    else ret (xint a, din)
  else
    a <- deref (in_addrs din !! Z.to_nat NDIRECT) ;;
    din <- (if xint a =? 0 then
              b <- next_block ;;
              ret (set_in_addrs (<[Z.to_nat NDIRECT := xint b]> (in_addrs din)) din)
            else ret din) ;;
    a <- deref (in_addrs din !! Z.to_nat NDIRECT) ;;
    indirect <- rsect (xint a) ;;
    let o := Z.to_nat (4 * (fbn - NDIRECT)) in
    if blk_get 4 o indirect =? 0 then
      b <- next_block ;;
      wsect (xint a) (blk_put 4 o (xint b) indirect) ;;;
      ret (xint (xint b), din)
    else ret (xint (blk_get 4 o indirect), din).

(** One turn of the loop: the inode, the offset and the bytes left. *)
Definition iappend_turn (st : inode * Z * list Z) : I (inode * Z * list Z + inode * Z) :=
  let '(din, off, p) := st in
  let n := Z.of_nat (length p) in
  if 0 <? n then
    let fbn := off / BSIZE in
    if negb (fbn <? MAXFILE) then panic "fbn < MAXFILE" else
    r <- iappend_addr fbn din ;;
    let '(x, din) := r in
    let n1 := Z.min n ((fbn + 1) * BSIZE - off) in
    buf <- rsect x ;;
    wsect x (list_inserts (Z.to_nat (off - fbn * BSIZE)) (take (Z.to_nat n1) p) buf) ;;;
    ret (inl (din, off + n1, drop (Z.to_nat n1) p))
  else ret (inr (din, off)).
Definition iappend (inum : Z) (xp : list Z) : I unit :=
  din <- rinode inum ;;
  r <- loop iappend_turn (din, xint (in_size din), xp) ;;
  let '(din, off) := r in
  winode inum (set_in_size (xint off) din).

(** [de] with a name, of which [strncpy] copies at most DIRSIZ bytes. *)
Definition de (inum : Z) (name : list Z) : list Z :=
  mk_dirent (xshort inum) (strncpy (replicate (Z.to_nat DIRSIZ) 0) name DIRSIZ).

Abbreviation arg := (list Z * option (list (list Z)))%type.
(** The name of a file without [user/] and a leading underscore. *)
Definition shortname (path : list Z) : list Z :=
  if bool_decide (take 5 path = [117; 115; 101; 114; 47]) then drop 5 path else path.
Definition skip_underscore (name : list Z) : list Z :=
  match name with 95 :: name => name | _ => name end.

Fixpoint append_all (inum : Z) (chunks : list (list Z)) : I unit :=
  match chunks with
  | [] => ret tt
  | buf :: chunks => iappend inum buf ;;; append_all inum chunks
  end.
Definition main_file (rootino : Z) (a : arg) : I unit :=
  let name := shortname a.1 in
  if bool_decide (47 ∈ name) then panic "index(shortname, '/') == 0" else
  match a.2 with
  | None => panic "open"
  | Some chunks =>
      inum <- ialloc 2 ;;
      iappend rootino (de inum (skip_underscore name)) ;;;
      append_all inum chunks
  end.
Fixpoint main_files (rootino : Z) (l : list arg) : I unit :=
  match l with
  | [] => ret tt
  | a :: l => main_file rootino a ;;; main_files rootino l
  end.

Fixpoint zero_sectors (l : list Z) : I unit :=
  match l with
  | [] => ret tt
  | i :: l => wsect i zeroes ;;; zero_sectors l
  end.

(** The size of the root directory becomes a number of whole blocks. *)
Definition fix_root (rootino : Z) : I unit :=
  din <- rinode rootino ;;
  let off := xint (in_size din) in
  let off := (off / BSIZE + 1) * BSIZE in
  winode rootino (set_in_size (xint off) din).

Definition main (args : list arg) : I unit :=
  match args with
  | [] => panic "Usage: mkfs fs.img files..."
  | img :: files =>
      match img.2 with
      | None => panic "open"
      | Some _ =>
          modify (set_mk_freeblock nmeta) ;;;
          zero_sectors (seqZ 0 FSSIZE) ;;;
          wsect 1 (sb_bytes sb) ;;;
          rootino <- ialloc 1 ;;
          if negb (rootino =? ROOTINO) then panic "rootino == ROOTINO" else
          iappend rootino (de rootino [46]) ;;;
          iappend rootino (de rootino [46; 46]) ;;;
          main_files rootino files ;;;
          fix_root rootino ;;;
          used <- gets mk_freeblock ;;
          balloc used
      end
  end.

(** The globals when the program starts. *)
Definition start : mkst := mkmkst ∅ 1 0.
End Mkfs.
