(* ===== verification/Mkimage.v ===== *)
(** The image that mkfs makes is a file system the kernel can use: the disk
    layout, the bitmap, the inodes and the bytes of every file are what the
    theorems about kernel/fs.c ask for. *)

From S2P Require Import Prelude Mem KString Params Kernel Virtio Log Fs Fsblock Fsfile Fsio Fsinode Mkfs.

Module Mkimage.
Import Mkfs.

Lemma xint_id x : 0 ≤ x < 2 ^ 32 → xint x = x.
Proof.
  intros Hx. transitivity (le_val (le_bytes 4 x)); [|by apply le_val_bytes_small]. unfold xint. cbn [le_bytes].
  rewrite !Z.shiftr_div_pow2 by lia. change (2 ^ 8) with 256. change (2 ^ 16) with (256 * 256).
  change (2 ^ 24) with (256 * 256 * 256). by rewrite <-!Z.div_div by lia.
Qed.

Lemma sb_size_val : sb_size sb = 1000.
Proof. reflexivity. Qed.
Lemma bmapstart_val : sb_bmapstart sb = 45.
Proof. reflexivity. Qed.
Lemma inodestart_val : sb_inodestart sb = 32.
Proof. reflexivity. Qed.
Lemma dstart_val : dstart sb = 46.
Proof. reflexivity. Qed.
Lemma mk_layout : layout sb.
Proof. split; vm_compute; repeat split; discriminate. Qed.

(** * The bitmap *)

Lemma set_bit_eq x i : set_bit x i = put_bit true i x.
Proof. reflexivity. Qed.
Lemma bitmap_S n : 0 ≤ n → bitmap (n + 1) = put_bit true n (bitmap n).
Proof.
  intros Hn. unfold bitmap. rewrite seqZ_app by lia. rewrite foldl_app. change (seqZ (0 + n) 1) with [0 + n]. cbn [foldl]. by rewrite set_bit_eq.
Qed.
Lemma length_bitmap n : length (bitmap n) = Z.to_nat BSIZE.
Proof.
  unfold bitmap. assert (H : ∀ l x, length (foldl set_bit x l) = length x).
  { induction l as [|i l IH]; intros x; [done|]. cbn [foldl]. rewrite IH. rewrite set_bit_eq. apply length_put_bit. }
  rewrite H. apply length_replicate.
Qed.
Lemma bit_bitmap n i : 0 ≤ n ≤ 8192 → 0 ≤ i → bit (bitmap n) i = bool_decide (i < n).
Proof.
  intros Hn Hi. destruct Hn as [Hn Hle]. revert Hle. revert n Hn. apply (natlike_ind (λ n, n ≤ 8192 → bit (bitmap n) i = bool_decide (i < n))).
  - intros _. rewrite bool_decide_false by lia. unfold bitmap, bit. change (seqZ 0 0) with (@nil Z). cbn [foldl].
    destruct (zeroes !! Z.to_nat (i / 8)) as [v|] eqn:E; [apply lookup_replicate in E as [-> _]|]; apply Z.testbit_0_l.
  - intros n Hn IH Hle. rewrite <-Z.add_1_r, bitmap_S by done. rewrite put_bit_bit; [|lia|done|].
    2: { rewrite length_bitmap. change (Z.of_nat (Z.to_nat BSIZE)) with 1024. apply Z.div_lt_upper_bound; lia. }
    rewrite IH by lia. destruct (decide (i = n)); [by rewrite bool_decide_true by lia|]. apply bool_decide_ext. lia.
Qed.

(** The image with the bitmap that would be written now. *)
Definition view (s : mkst) : gmap Z (list Z) := <[sb_bmapstart sb := bitmap (mk_freeblock s)]> (mk_disk s).

(** Every sector is there, and the blocks not yet given out are clear. *)
Record sound (s : mkst) : Prop := mksound {
  so_dom : ∀ b, 0 ≤ b < FSSIZE → ∃ x, mk_disk s !! b = Some x ∧ length x = Z.to_nat BSIZE;
  so_out : ∀ b, ¬ 0 ≤ b < FSSIZE → mk_disk s !! b = None;
  so_range : nmeta ≤ mk_freeblock s ≤ FSSIZE;
  so_free : ∀ b, mk_freeblock s ≤ b < FSSIZE → mk_disk s !! b = Some zero_block
}.

Lemma nmeta_val : nmeta = 46.
Proof. reflexivity. Qed.

Section sound.
Context (s : mkst) (Hs : sound s).

Lemma view_block b : disk_block (view s) b = if decide (b = 45) then bitmap (mk_freeblock s) else disk_block (mk_disk s) b.
Proof. unfold view. rewrite bmapstart_val, disk_block_insert. repeat case_decide; done || congruence. Qed.
Lemma sound_blocks : blocks_ok (mk_disk s).
Proof.
  intros b. unfold disk_block. destruct (decide (0 ≤ b < FSSIZE)) as [H|H].
  - destruct (so_dom _ Hs b H) as (x & -> & Hx). done.
  - rewrite (so_out _ Hs b H). apply length_replicate.
Qed.
Lemma view_blocks : blocks_ok (view s).
Proof. intros b. rewrite view_block. case_decide; [apply length_bitmap|apply sound_blocks]. Qed.
Lemma view_used b : 0 ≤ b < 1000 → used sb (view s) b = bool_decide (b < mk_freeblock s).
Proof.
  intros Hb. unfold used, bmap_blk. rewrite bmapstart_val, BPB_val. rewrite Z.div_small, Z.mod_small by lia. rewrite view_block, decide_True by done.
  destruct Hs as [_ _ Hr _]. rewrite nmeta_val in Hr. unfold FSSIZE in Hr. apply bit_bitmap; lia.
Qed.
Lemma view_bitmap : bitmap_ok sb (view s).
Proof.
  intros b Hb. rewrite sb_size_val in Hb. rewrite view_used by done. intros H%bool_decide_eq_false.
  rewrite dstart_val. pose proof (so_range _ Hs). rewrite nmeta_val in *. lia.
Qed.
Lemma view_data b : data_blk sb (view s) b ↔ 46 ≤ b < mk_freeblock s.
Proof.
  unfold data_blk. rewrite dstart_val, sb_size_val. pose proof (so_range _ Hs) as Hr. unfold FSSIZE in Hr. split.
  - intros [Hb Hu]. rewrite view_used in Hu by lia. apply bool_decide_eq_true in Hu. lia.
  - intros Hb. split; [lia|]. rewrite view_used by lia. apply bool_decide_true. lia.
Qed.

(** Reading and writing sectors. *)
Lemma rsect_ok b e : 0 ≤ b < FSSIZE → rsect b e s = Ret (disk_block (mk_disk s) b) e s.
Proof.
  intros Hb. unfold rsect. mstep. destruct (so_dom _ Hs b Hb) as (x & Hx & _). unfold disk_block. by rewrite Hx.
Qed.
Lemma wsect_sound b x :
  0 ≤ b < mk_freeblock s → length x = Z.to_nat BSIZE → sound (set_mk_disk (<[b := x]> (mk_disk s)) s).
Proof.
  intros Hb Hx. destruct Hs as [S1 S2 S3 S4]. split; cbn [mk_disk mk_freeblock set_mk_disk]; [| |done|].
  - intros b' Hb'. destruct (decide (b = b')) as [->|Hne]; [exists x; by rewrite lookup_insert_eq|].
    rewrite lookup_insert_ne by done. by apply S1.
  - intros b' Hb'. rewrite lookup_insert_ne by lia. by apply S2.
  - intros b' Hb'. rewrite lookup_insert_ne by lia. by apply S4.
Qed.
Lemma wsect_view b x : b ≠ 45 → view (set_mk_disk (<[b := x]> (mk_disk s)) s) = <[b := x]> (view s).
Proof. intros Hb. unfold view. cbn [mk_disk mk_freeblock set_mk_disk]. rewrite bmapstart_val. by rewrite insert_insert_ne. Qed.

(** Giving out the next block is what [balloc] of the kernel does. *)
Context (Hlt : mk_freeblock s < FSSIZE).
Abbreviation a := (mk_freeblock s).
Lemma next_sound : sound (set_mk_freeblock (a + 1) s).
Proof. destruct Hs as [S1 S2 S3 S4]. split; cbn; [done|done|lia|]. intros b Hb. apply S4. lia. Qed.
Lemma next_view : view (set_mk_freeblock (a + 1) s) = taken sb a (view s).
Proof.
  pose proof (so_range _ Hs) as Hr. rewrite nmeta_val in Hr. unfold FSSIZE in *. unfold taken, mark, bmap_blk.
  rewrite BPB_val, bmapstart_val, Z.div_small, Z.mod_small, Z.add_0_l, view_block, decide_True by lia.
  unfold view. cbn [mk_disk mk_freeblock set_mk_freeblock]. rewrite bmapstart_val, bitmap_S, insert_insert_eq by lia.
  rewrite (insert_insert_ne _ a 45) by lia. f_equal. symmetry. apply insert_id. apply Hs. unfold FSSIZE. lia.
Qed.
Lemma next_unused : dstart sb ≤ a < sb_size sb ∧ used sb (view s) a = false.
Proof.
  pose proof (so_range _ Hs) as Hr. rewrite nmeta_val in Hr. unfold FSSIZE in *. rewrite dstart_val, sb_size_val. split; [lia|].
  rewrite view_used by lia. apply bool_decide_false. lia.
Qed.
End sound.

(** * The blocks of a file *)

(** The slots that a file of [off] bytes fills, and how many they are. *)
Definition need (off k : Z) : Prop := (if k <? 12 then k * 1024 else if k =? 12 then 12288 else (k - 1) * 1024) < off.
Definition exact (dn : gmap Z (list Z)) (ip : inode) (off : Z) : Prop := ∀ k, 0 ≤ k < NSLOT → slot dn ip k ≠ 0 ↔ need off k.
Definition nblk (off : Z) : Z := (off + 1023) / 1024 + (if 12288 <? off then 1 else 0).

Lemma need_direct off k : k < 12 → need off k ↔ k * 1024 < off.
Proof. intros Hk. unfold need. by rewrite (proj2 (Z.ltb_lt k 12) Hk). Qed.
Lemma need_indirect off : need off 12 ↔ 12288 < off.
Proof. done. Qed.
Lemma need_entry off k : 12 < k → need off k ↔ (k - 1) * 1024 < off.
Proof. intros Hk. unfold need. rewrite (proj2 (Z.ltb_ge k 12)), (proj2 (Z.eqb_neq k 12)) by lia. done. Qed.
Lemma nblk_step off off' :
  0 ≤ off → off < off' ≤ (off / 1024 + 1) * 1024 →
  nblk off' = nblk off + (if off mod 1024 =? 0 then 1 else 0) + (if off =? 12288 then 1 else 0).
Proof.
  intros Ho Ho'. unfold nblk. pose proof (Z.div_mod off 1024 ltac:(lia)). pose proof (Z.mod_pos_bound off 1024 ltac:(lia)).
  pose proof (Z.div_mod (off + 1023) 1024 ltac:(lia)). pose proof (Z.mod_pos_bound (off + 1023) 1024 ltac:(lia)).
  pose proof (Z.div_mod (off' + 1023) 1024 ltac:(lia)). pose proof (Z.mod_pos_bound (off' + 1023) 1024 ltac:(lia)).
  destruct (Z.eqb_spec (off mod 1024) 0), (Z.eqb_spec off 12288), (Z.ltb_spec 12288 off'), (Z.ltb_spec 12288 off); lia.
Qed.
Lemma need_step off off' k :
  0 ≤ off → off < off' ≤ (off / 1024 + 1) * 1024 → 0 ≤ k < NSLOT →
  need off' k ↔ need off k ∨ k = fslot (off / 1024) ∨ k = 12 ∧ 12288 ≤ off.
Proof.
  intros Ho Ho' Hk. pose proof (Z.div_mod off 1024 ltac:(lia)). pose proof (Z.mod_pos_bound off 1024 ltac:(lia)). unfold fslot.
  change NDIRECT with 12. unfold need. destruct (Z.ltb_spec (off / 1024) 12), (Z.ltb_spec k 12), (Z.eqb_spec k 12); lia.
Qed.

Lemma grow_step s k ip :
  sound s → fsys sb (view s) ip → 0 ≤ k < 13 → slot (view s) ip k = 0 → mk_freeblock s < FSSIZE →
  let s' := set_mk_freeblock (mk_freeblock s + 1) s in
  let ip' := set_in_addrs (<[Z.to_nat k := mk_freeblock s]> (in_addrs ip)) ip in
  sound s' ∧ grown sb k (mk_freeblock s) (view s) ip (view s') ip' ∧ mapped sb 1 0 [] (view s) ip [] (view s') ip'.
Proof.
  intros Hs Hf Hk H0 Hlt s' ip'. destruct (next_unused s Hs Hlt) as [Ha Hu].
  assert (Hg : grown sb k (mk_freeblock s) (view s) ip (view s') ip').
  { unfold s'. rewrite next_view by done. apply (grown_direct sb mk_layout); try done; unfold NSLOT; lia. }
  split_and!; [by apply next_sound|done|].
  eapply (grown_mapped sb mk_layout k); try done. unfold NSLOT. lia.
Qed.

Lemma slot_direct dn ip k a : 0 ≤ k < 13 → in_addrs ip !! Z.to_nat k = Some a → slot dn ip k = a.
Proof. intros Hk Ha. unfold slot. rewrite (proj2 (Z.ltb_lt k 13)) by lia. by rewrite Ha. Qed.
Lemma slot_range s ip k : sound s → fsys sb (view s) ip → 0 ≤ k < NSLOT → slot (view s) ip k ≠ 0 → 46 ≤ slot (view s) ip k < mk_freeblock s.
Proof. intros Hs (_ & _ & W) Hk Hn. apply (view_data s Hs). by apply W. Qed.
Lemma addr_at s ip k : fsys sb (view s) ip → 0 ≤ k < 13 → ∃ a, in_addrs ip !! Z.to_nat k = Some a ∧ slot (view s) ip k = a.
Proof.
  intros (_ & _ & W) Hk. destruct (lookup_lt_is_Some_2 (in_addrs ip) (Z.to_nat k)) as [a Ha]; [rewrite (iw_addrs _ _ _ W); lia|].
  exists a. split; [done|]. by apply slot_direct.
Qed.

(** What [iappend_addr] does: the block is there, and the slots filled are
    those of one more byte. *)
Record placed (off : Z) (s : mkst) (ip : inode) (s' : mkst) (ip' : inode) : Prop := mkplaced {
  pl_sound : sound s';
  pl_mapped : ∃ r c, mapped sb r c [] (view s) ip [] (view s') ip';
  pl_exact : exact (view s') ip' (off + 1);
  pl_count : mk_freeblock s' = mk_freeblock s + nblk (off + 1) - nblk off;
  pl_inode : mk_freeinode s' = mk_freeinode s
}.

Lemma addr_direct off s ip e :
  sound s → fsys sb (view s) ip → exact (view s) ip off → 0 ≤ off → off / 1024 < 12 → mk_freeblock s + nblk (off + 1) - nblk off ≤ FSSIZE →
  ∃ s' ip', iappend_addr (off / 1024) ip e s = Ret (slot (view s') ip' (fslot (off / 1024)), ip') e s' ∧ placed off s ip s' ip'.
Proof.
  intros Hs Hf Hx Ho Hb Hc. pose proof (Z.div_pos off 1024 Ho ltac:(lia)) as Hb0. set (k := off / 1024) in *.
  pose proof (Z.div_mod off 1024 ltac:(lia)) as Hdm. pose proof (Z.mod_pos_bound off 1024 ltac:(lia)) as Hmb. fold k in Hdm.
  assert (Hfs : fslot k = k) by (unfold fslot; change NDIRECT with 12; by rewrite (proj2 (Z.ltb_lt k 12)) by done). rewrite Hfs.
  unfold iappend_addr. change NDIRECT with 12. rewrite (proj2 (Z.ltb_lt k 12)) by done.
  destruct (addr_at s ip k Hf ltac:(lia)) as (a & Ha & Hsl). rewrite Ha. mstep.
  assert (Hkr : 0 ≤ k < NSLOT) by (unfold NSLOT; lia). pose proof (Hx k Hkr) as Hxk. rewrite need_direct in Hxk by done.
  pose proof (nblk_step off (off + 1) Ho ltac:(fold k; lia)) as Hns. assert (Hne : (off =? 12288) = false) by (apply Z.eqb_neq; lia). rewrite Hne in Hns.
  destruct (decide (a = 0)) as [->|Hn0].
  - change (xint 0 =? 0) with true. cbv iota. unfold next_block. mstep. 
    assert (Hm0 : (off mod 1024 =? 0) = true) by (apply Z.eqb_eq; lia). rewrite Hm0 in Hns.
    destruct (grow_step s k ip Hs Hf ltac:(lia) Hsl ltac:(lia)) as (Hs' & Hg & Hm).
    pose proof (so_range _ Hs) as Hr. rewrite nmeta_val in Hr. unfold FSSIZE in *. rewrite !xint_id by (rewrite ?xint_id; lia).
    eexists _, _. split; [rewrite (gr_slot _ _ _ _ _ _ _ Hg k Hkr), decide_True by done; reflexivity|].
    split; [done|eauto| |cbn; lia|done]. intros j Hj. rewrite (gr_slot _ _ _ _ _ _ _ Hg j Hj), (need_step off) by (fold k; done || lia). fold k. rewrite Hfs.
    specialize (Hx j Hj). case_decide; [subst j; split; [by auto|lia]|]. rewrite Hx. split; [by auto|]. intros [?|[?|[? ?]]]; [done|done|lia].
  - assert (Hrg : 46 ≤ a < mk_freeblock s) by (rewrite <-Hsl; apply slot_range; try done; by rewrite Hsl).
    pose proof (so_range _ Hs) as Hr. unfold FSSIZE in *. rewrite xint_id by lia. rewrite (proj2 (Z.eqb_neq a 0)) by done.
    exists s, ip. rewrite Hsl. split; [done|].
    assert (Hm0 : (off mod 1024 =? 0) = false) by (apply Z.eqb_neq; lia). rewrite Hm0 in Hns.
    split; [done|exists 0%nat, 0%nat; by apply mapped_refl| |lia|done].
    intros j Hj. rewrite (need_step off) by (fold k; done || lia). fold k. rewrite Hfs. specialize (Hx j Hj). rewrite Hx.
    split; [by auto|]. intros [?|[->|[? ?]]]; [done|rewrite need_direct by done; lia|lia].
Qed.

(** The indirect block. *)
Definition indirect_block (din : inode) : I inode :=
  a <- deref (in_addrs din !! Z.to_nat NDIRECT) ;;
  if xint a =? 0 then
    b <- next_block ;;
    ret (set_in_addrs (<[Z.to_nat NDIRECT := xint b]> (in_addrs din)) din)
  else ret din.
Lemma indirect_ok off s ip e :
  sound s → fsys sb (view s) ip → exact (view s) ip off → 12288 ≤ off →
  mk_freeblock s + (if off =? 12288 then 1 else 0) ≤ FSSIZE →
  ∃ s' ip', indirect_block ip e s = Ret ip' e s' ∧ sound s' ∧ (∃ r, mapped sb r 0 [] (view s) ip [] (view s') ip') ∧
    (∀ j, 0 ≤ j < NSLOT → slot (view s') ip' j ≠ 0 ↔ need off j ∨ j = 12) ∧
    mk_freeblock s' = mk_freeblock s + (if off =? 12288 then 1 else 0) ∧ mk_freeinode s' = mk_freeinode s.
Proof.
  intros Hs Hf Hx Ho Hc. unfold indirect_block. change NDIRECT with 12.
  destruct (addr_at s ip 12 Hf ltac:(lia)) as (a & Ha & Hsl). rewrite Ha. mstep.
  assert (H12 : 0 ≤ 12 < NSLOT) by done. pose proof (Hx 12 H12) as Hxk. rewrite need_indirect in Hxk. pose proof (so_range _ Hs) as Hr.
  rewrite nmeta_val in Hr. unfold FSSIZE in *. destruct (Z.eqb_spec off 12288) as [->|Hne].
  - assert (a = 0) as -> by lia. change (xint 0 =? 0) with true. cbv iota. unfold next_block. mstep. rewrite xint_id by lia.
    destruct (grow_step s 12 ip Hs Hf ltac:(lia) Hsl ltac:(unfold FSSIZE; lia)) as (Hs' & Hg & Hm).
    eexists _, _. split_and!; [reflexivity|done|eauto| |done|done].
    intros j Hj. rewrite (gr_slot _ _ _ _ _ _ _ Hg j Hj). specialize (Hx j Hj). case_decide; [subst j; split; [by auto|lia]|]. rewrite Hx. naive_solver.
  - assert (a ≠ 0) by lia. assert (46 ≤ a < mk_freeblock s) by (rewrite <-Hsl; apply slot_range; try done; by rewrite Hsl).
    rewrite xint_id by lia. rewrite (proj2 (Z.eqb_neq a 0)) by done. exists s, ip.
    split_and!; [done|done|exists 0%nat; by apply mapped_refl| |lia|done].
    intros j Hj. rewrite (Hx j Hj). split; [by auto|]. intros [?| ->]; [done|]. rewrite need_indirect. lia.
Qed.

Lemma addr_indirect off s ip e :
  sound s → fsys sb (view s) ip → exact (view s) ip off → 0 ≤ off < 274432 → 12 ≤ off / 1024 → mk_freeblock s + nblk (off + 1) - nblk off ≤ FSSIZE →
  ∃ s' ip', iappend_addr (off / 1024) ip e s = Ret (slot (view s') ip' (fslot (off / 1024)), ip') e s' ∧ placed off s ip s' ip'.
Proof.
  intros Hs Hf Hx Ho Hb Hc. set (k := off / 1024) in *.
  pose proof (Z.div_mod off 1024 ltac:(lia)) as Hdm. pose proof (Z.mod_pos_bound off 1024 ltac:(lia)) as Hmb. fold k in Hdm.
  pose proof (nblk_step off (off + 1) ltac:(lia) ltac:(fold k; lia)) as Hns.
  destruct (indirect_ok off s ip e Hs Hf Hx ltac:(lia)) as (s1 & ip1 & Hr1 & Hs1 & (r & Hm1) & Hx1 & Hc1 & Hi1).
  { destruct (off mod 1024 =? 0), (off =? 12288); lia. }
  assert (Hfs : fslot k = k + 1) by (unfold fslot; change NDIRECT with 12; by rewrite (proj2 (Z.ltb_ge k 12)) by done). rewrite Hfs.
  pose proof (mp_fsys _ _ _ _ _ _ _ _ _ Hm1) as Hf1. assert (Hkr : 0 ≤ k + 1 < NSLOT) by (unfold NSLOT; lia).
  assert (Hrun : iappend_addr k ip e s = (let o := Z.to_nat (4 * (k - 12)) in
      a <- deref (in_addrs ip1 !! 12%nat) ;; indirect <- rsect (xint a) ;;
      if blk_get 4 o indirect =? 0 then b <- next_block ;; wsect (xint a) (blk_put 4 o (xint b) indirect) ;;; ret (xint (xint b), ip1)
      else ret (xint (blk_get 4 o indirect), ip1)) e s1).
  { unfold iappend_addr. change NDIRECT with 12 in *. rewrite (proj2 (Z.ltb_ge k 12)) by done. unfold indirect_block in Hr1.
    rewrite <-bind_assoc. by mrun Hr1. }
  rewrite Hrun. clear Hrun Hr1. cbv zeta. destruct (addr_at s1 ip1 12 Hf1 ltac:(lia)) as (a & Ha & Hsl). change (Z.to_nat 12) with 12%nat in Ha.
  rewrite Ha. mstep. assert (Hn0 : slot (view s1) ip1 12 ≠ 0) by (apply Hx1; [done|by right]).
  pose proof (slot_range s1 ip1 12 Hs1 Hf1 ltac:(done) Hn0) as Hrg. rewrite Hsl in Hrg, Hn0. pose proof (so_range _ Hs1) as Hr. unfold FSSIZE in *.
  rewrite xint_id by lia. mrun (rsect_ok s1 Hs1 a e ltac:(unfold FSSIZE; lia)).
  assert (Hind : ind_of ip1 = a) by (by rewrite <-Hsl). assert (Hblk : disk_block (mk_disk s1) a = disk_block (view s1) a) by (rewrite view_block, decide_False by lia; done).
  rewrite Hblk. assert (Hent : blk_get 4 (Z.to_nat (4 * (k - 12))) (disk_block (view s1) a) = slot (view s1) ip1 (k + 1)).
  { unfold slot. rewrite (proj2 (Z.ltb_ge (k + 1) 13)), Hind, (proj2 (Z.eqb_neq a 0)) by lia. by replace (k + 1 - 13) with (k - 12) by lia. }
  rewrite Hent. pose proof (Hx1 (k + 1) Hkr) as Hxk. rewrite need_entry in Hxk by lia.
  assert (Hslots : ∀ j, 0 ≤ j < NSLOT → need (off + 1) j ↔ (need off j ∨ j = 12) ∨ j = k + 1).
  { intros j Hj. rewrite (need_step off) by (fold k; done || lia). fold k. rewrite Hfs. split; [tauto|]. intros [[?| ->]| ->]; [by left| |by right; left].
    right; right. split; [done|lia]. }
  destruct (Z.eqb_spec (slot (view s1) ip1 (k + 1)) 0) as [E0|E0].
  - unfold next_block, wsect. mstep. assert (Hm0 : (off mod 1024 =? 0) = true) by (apply Z.eqb_eq; lia). rewrite Hm0 in Hns.
    rewrite !xint_id by (rewrite ?xint_id; lia). set (b := mk_freeblock s1) in *.
    assert (Hlt : b < FSSIZE) by (unfold FSSIZE, b in *; lia). destruct (next_unused s1 Hs1 Hlt) as [Hb1 Hb2].
    set (s2 := set_mk_freeblock (b + 1) s1). set (x := blk_put 4 (Z.to_nat (4 * (k - 12))) b (disk_block (view s1) a)).
    set (s3 := set_mk_disk (<[a := x]> (mk_disk s2)) s2). assert (Hs2 : sound s2) by (by apply next_sound).
    assert (Hs3 : sound s3). { apply wsect_sound; [done|cbn; unfold b; lia|]. unfold x. rewrite length_blk_put. by apply view_blocks. }
    assert (Hv3 : view s3 = <[ind_of ip1 := x]> (taken sb b (view s1))). { unfold s3. rewrite wsect_view, Hind by lia. unfold s2, b. by rewrite next_view. }
    assert (Hg : grown sb (k + 1) b (view s1) ip1 (view s3) ip1).
    { rewrite Hv3. unfold x. rewrite <-Hind. replace (k - 12) with (k + 1 - 13) by lia. apply (grown_indirect sb mk_layout); try done; [lia|by rewrite Hind]. }
    assert (Hm2 : mapped sb 1 0 [] (view s1) ip1 [] (view s3) ip1) by (by eapply (grown_mapped sb mk_layout (k + 1) b)).
    pose proof (gr_slot _ _ _ _ _ _ _ Hg _ Hkr) as Hsk. rewrite decide_True in Hsk by done.
    exists s3, ip1. split; [by rewrite Hsk|].
    split; [done|do 2 eexists; by eapply mapped_trans| |change (mk_freeblock s3) with (b + 1); lia|done].
    intros j Hj. rewrite (gr_slot _ _ _ _ _ _ _ Hg j Hj), Hslots by done. specialize (Hx1 j Hj).
    case_decide; [subst j; split; [by auto|unfold b; lia]|]. rewrite Hx1. tauto.
  - pose proof (slot_range s1 ip1 (k + 1) Hs1 Hf1 Hkr E0). rewrite xint_id by lia.
    assert (Hm0 : (off mod 1024 =? 0) = false) by (apply Z.eqb_neq; lia). rewrite Hm0 in Hns.
    exists s1, ip1. split; [done|]. split; [done|eauto| |rewrite Hc1, Hns; lia|done].
    intros j Hj. rewrite Hslots, (Hx1 j Hj) by done. split; [by auto|]. intros [?| ->]; [done|]. left. rewrite need_entry by lia. lia.
Qed.

Lemma addr_ok off s ip e :
  sound s → fsys sb (view s) ip → exact (view s) ip off → 0 ≤ off < 274432 → mk_freeblock s + nblk (off + 1) - nblk off ≤ FSSIZE →
  ∃ s' ip', iappend_addr (off / 1024) ip e s = Ret (slot (view s') ip' (fslot (off / 1024)), ip') e s' ∧ placed off s ip s' ip'.
Proof.
  intros Hs Hf Hx Ho Hc. destruct (Z_lt_dec (off / 1024) 12); [apply addr_direct|apply addr_indirect]; try done; lia.
Qed.

(** * iappend *)

Lemma nblk_mono a b : 0 ≤ a ≤ b → nblk a ≤ nblk b.
Proof.
  intros H. unfold nblk. pose proof (Z.div_le_mono (a + 1023) (b + 1023) 1024). destruct (Z.ltb_spec 12288 a), (Z.ltb_spec 12288 b); lia.
Qed.
Lemma mapped_any r c bs dn ip dn' ip' : mapped sb r c [] dn ip [] dn' ip' → mapped sb r c bs dn ip bs dn' ip'.
Proof. intros []. split; [done..|lia|done]. Qed.

(** The bytes [l] were written from [off] on. *)
Record appended (off : Z) (l : list Z) (s : mkst) (ip : inode) (s' : mkst) (ip' : inode) : Prop := mkappended {
  ap_sound : sound s';
  ap_wrote : ∃ r c bs, wrote sb r c off l [] (view s) ip bs (view s') ip';
  ap_exact : exact (view s') ip' (off + Z.of_nat (length l));
  ap_count : mk_freeblock s' = mk_freeblock s + nblk (off + Z.of_nat (length l)) - nblk off;
  ap_inode : mk_freeinode s' = mk_freeinode s
}.
Lemma appended_more off l1 l2 s ip s1 ip1 s2 ip2 :
  0 ≤ off → off + Z.of_nat (length l1) ≤ 274432 →
  appended off l1 s ip s1 ip1 → appended (off + Z.of_nat (length l1)) l2 s1 ip1 s2 ip2 → appended off (l1 ++ l2) s ip s2 ip2.
Proof.
  intros Ho Hm [A1 (r1 & c1 & bs1 & A2) A3 A4 A5] [B1 (r2 & c2 & bs2 & B2) B3 B4 B5].
  split; rewrite ?length_app, ?Nat2Z.inj_add, ?Z.add_assoc; [done| |done|lia|congruence].
  exists (r1 + r2)%nat, (c1 + (c2 + length bs2))%nat, bs2. eapply wrote_more; [done|exact Hm|exact A2|].
  destruct B2. split; [done..|lia|done].
Qed.

Lemma turn_ok off p s ip e :
  sound s → fsys sb (view s) ip → exact (view s) ip off → 0 ≤ off → p ≠ [] → off + Z.of_nat (length p) ≤ 274432 →
  mk_freeblock s + nblk (off + Z.of_nat (length p)) - nblk off ≤ FSSIZE →
  ∃ s' ip' p1 p2, p = p1 ++ p2 ∧ p1 ≠ [] ∧
    iappend_turn (ip, off, p) e s = Ret (inl (ip', off + Z.of_nat (length p1), p2)) e s' ∧ appended off p1 s ip s' ip'.
Proof.
  intros Hs Hf Hx Ho Hp Hmax Hc. assert (Hlen : 0 < Z.of_nat (length p)) by (destruct p; [done|cbn; lia]).
  pose proof (Z.div_mod off 1024 ltac:(lia)) as Hdm. pose proof (Z.mod_pos_bound off 1024 ltac:(lia)) as Hmb.
  unfold iappend_turn. rewrite (proj2 (Z.ltb_lt 0 _)) by done. rewrite BSIZE_val. change MAXFILE with 268.
  assert (Hlt : off / 1024 < 268) by (apply Z.div_lt_upper_bound; lia). rewrite (proj2 (Z.ltb_lt (off / 1024) 268)) by done. cbn [negb].
  pose proof (nblk_mono (off + 1) (off + Z.of_nat (length p)) ltac:(lia)) as Hmono.
  destruct (addr_ok off s ip e Hs Hf Hx ltac:(lia) ltac:(lia)) as (s1 & ip1 & Hr1 & [Hs1 (r & c & Hm) Hx1 Hc1 Hi1]). mrun Hr1.
  pose proof (mp_fsys _ _ _ _ _ _ _ _ _ Hm) as Hf1. set (k := off / 1024) in *. set (a := slot (view s1) ip1 (fslot k)).
  destruct (fslot_range k) as [Hkr _]; [change MAXFILE with 268; pose proof (Z.div_pos off 1024); lia|].
  assert (Ha : a ≠ 0). { apply Hx1; [done|]. rewrite (need_step off) by (done || lia). by right; left. }
  pose proof (slot_range s1 ip1 (fslot k) Hs1 Hf1 Hkr Ha) as Hrg. fold a in Hrg. pose proof (so_range _ Hs1) as Hr. unfold FSSIZE in *.
  mrun (rsect_ok s1 Hs1 a e ltac:(unfold FSSIZE; lia)). unfold wsect. mstep.
  set (n1 := Z.min (Z.of_nat (length p)) ((k + 1) * 1024 - off)). assert (Hn1 : 0 < n1 ≤ Z.of_nat (length p) ∧ off + n1 ≤ (k + 1) * 1024) by (unfold n1; lia).
  assert (Hl1 : Z.of_nat (length (take (Z.to_nat n1) p)) = n1) by (rewrite length_take; lia).
  replace (disk_block (mk_disk s1) a) with (disk_block (view s1) a) by (rewrite view_block, decide_False by lia; done).
  set (x := list_inserts _ _ _). eexists (set_mk_disk (<[a := x]> (mk_disk s1)) s1), ip1, (take (Z.to_nat n1) p), (drop (Z.to_nat n1) p).
  split_and!; [by rewrite take_drop|intros E; rewrite E in Hl1; cbn in Hl1; lia|by rewrite Hl1|].
  assert (Hbn : 0 ≤ k < MAXFILE) by (change MAXFILE with 268; pose proof (Z.div_pos off 1024); lia).
  assert (Hx2 : length x = Z.to_nat BSIZE) by (unfold x; rewrite length_inserts; by apply view_blocks).
  assert (Hv : view (set_mk_disk (<[a := x]> (mk_disk s1)) s1) = <[a := x]> (view s1)) by (apply wsect_view; lia).
  split; rewrite ?Hl1; rewrite ?Hv.
  - apply wsect_sound; [done|lia|done].
  - pose proof (put_wrote sb mk_layout r c off (take (Z.to_nat n1) p) [] (view s) ip [] (view s1) ip1 Hm) as Hw. rewrite BSIZE_val in Hw.
    fold k a in Hw. exists r, (S c), (log_add a []). unfold x. replace (off - k * 1024) with (off mod 1024) by lia.
    apply Hw; [change MAXFILE with 268; lia| |done]. lia.
  - intros j Hj. change (<[a := x]> (view s1)) with (put_fblock (view s1) ip1 k x). rewrite (put_slot sb) by done. rewrite (Hx1 j Hj).
    rewrite (need_step off (off + 1)), (need_step off (off + n1)) by (done || (fold k; lia)). tauto.
  - cbn [mk_freeblock set_mk_disk]. rewrite Hc1, (nblk_step off (off + 1)), (nblk_step off (off + n1)) by (fold k; lia). lia.
  - done.
Qed.

Lemma append_loop off l s ip e :
  sound s → fsys sb (view s) ip → exact (view s) ip off → 0 ≤ off → off + Z.of_nat (length l) ≤ 274432 →
  mk_freeblock s + nblk (off + Z.of_nat (length l)) - nblk off ≤ FSSIZE →
  ∃ s' ip', loop iappend_turn (ip, off, l) e s = Ret (ip', off + Z.of_nat (length l)) e s' ∧ appended off l s ip s' ip'.
Proof.
  intros Hs Hf Hx Ho Hmax Hc.
  destruct (loop_measure iappend_turn (λ x _ _, Z.of_nat (length x.2))
    (λ x e' s', e' = e ∧ ∃ l1, l = l1 ++ x.2 ∧ x.1.2 = off + Z.of_nat (length l1) ∧ appended off l1 s ip s' x.1.1)
    (λ v e' s', e' = e ∧ v.2 = off + Z.of_nat (length l) ∧ appended off l s ip s' v.1) (ip, off, l) e s)
    as ([ip' off'] & e' & s' & Hr & -> & Hoff & Ha).
  - intros [[ip1 off1] p] e1 s1 (-> & l1 & El & Eo & Ha1). cbn [fst snd] in *. split; [lia|].
    assert (Hlen : Z.of_nat (length l) = Z.of_nat (length l1) + Z.of_nat (length p)) by (rewrite El, length_app; lia).
    destruct p as [|v p].
    + exists (inr (ip1, off1)), e, s1. split; [done|]. rewrite app_nil_r in El. by subst l1 off1.
    + pose proof Ha1 as [A1 (r & c & bs & A2) A3 A4 A5]. rewrite <-Eo in A3.
      destruct (turn_ok off1 (v :: p) s1 ip1 e) as (s2 & ip2 & p1 & p2 & Ep & Hne & Hr & Ha2); try done; try lia.
      { apply A2. } { rewrite A4. replace (off1 + Z.of_nat (length (v :: p))) with (off + Z.of_nat (length l)) by lia. rewrite <-Eo. lia. }
      eexists (inl _), e, s2. split; [exact Hr|]. cbn [fst snd]. split.
      * split; [done|]. exists (l1 ++ p1). rewrite <-app_assoc, <-Ep, length_app. split_and!; [done|lia|].
        eapply appended_more; [done|lia|exact Ha1|by rewrite <-Eo].
      * rewrite Ep, length_app. destruct p1; [done|cbn; lia].
  - split; [done|]. exists []. cbn [fst snd length]. rewrite Z.add_0_r. split_and!; [done|done|].
    split; cbn [length]; rewrite ?Z.add_0_r; [done|exists 0%nat, 0%nat, []; by apply wrote_none|done|lia|done].
  - cbn [snd]. change (2 ^ 64) with 18446744073709551616. lia.
  - exists s', ip'. cbn [fst snd] in *. split; [by rewrite Hr, Hoff|done].
Qed.

(** * Inodes *)

Lemma iblock_val inum : 0 ≤ inum < 208 → IBLOCK inum sb = inum / IPB + 32 ∧ 32 ≤ inum / IPB + 32 < 45.
Proof.
  intros Hi. unfold IBLOCK. rewrite inodestart_val. change IPB with 16. pose proof (Z.div_pos inum 16).
  assert (inum / 16 < 13) by (apply Z.div_lt_upper_bound; lia). rewrite u32_id by lia. lia.
Qed.
Lemma inum_fits ip : 0 ≤ in_inum ip < 208 → inum_ok sb ip.
Proof. intros Hi. split; [lia|]. unfold inode_blk. rewrite inodestart_val, bmapstart_val. destruct (iblock_val _ Hi); lia. Qed.
Lemma rinode_ok s inum e : sound s → 0 ≤ inum < 208 → rinode inum e s = Ret (dinode_at sb (view s) inum (zero_dinode inum)) e s.
Proof.
  intros Hs Hi. unfold rinode. destruct (iblock_val _ Hi) as [-> Hr]. mrun (rsect_ok s Hs (inum / IPB + 32) e ltac:(unfold FSSIZE; lia)).
  unfold dinode_at. rewrite inodestart_val, view_block, decide_False by lia. done.
Qed.
Lemma winode_ok s ip e :
  sound s → 0 ≤ in_inum ip < 208 →
  ∃ s', winode (in_inum ip) ip e s = Ret tt e s' ∧ sound s' ∧ view s' = put_inode sb ip (view s) ∧
    mk_freeblock s' = mk_freeblock s ∧ mk_freeinode s' = mk_freeinode s.
Proof.
  intros Hs Hi. unfold winode. destruct (iblock_val _ Hi) as [-> Hr]. pose proof (so_range _ Hs) as Hn. rewrite nmeta_val in Hn.
  mrun (rsect_ok s Hs (in_inum ip / IPB + 32) e ltac:(unfold FSSIZE; lia)). unfold wsect. mstep. eexists. split; [done|]. split_and!; [|..|done|done].
  - apply wsect_sound; [done|lia|]. rewrite length_put_dinode. by apply sound_blocks.
  - rewrite wsect_view by lia. unfold put_inode, inode_blk. rewrite inodestart_val, view_block, decide_False by lia. done.
Qed.

(** A file of the image: its inode is on the disk, its blocks are those of its
    size, and what follows its bytes is clear. *)
Record file_ok (d : gmap Z (list Z)) (ip : inode) (l : list Z) : Prop := mkfile {
  fo_fsys : fsys sb d ip;
  fo_data : filedata d ip = l;
  fo_size : size_ok ip;
  fo_inum : 0 ≤ in_inum ip < 208;
  fo_short : shorts_ok ip;
  fo_disk : ∀ y, dinode_at sb d (in_inum ip) y = loaded ip y;
  fo_exact : exact d ip (in_size ip);
  fo_tail : ∀ o, in_size ip ≤ o < 274432 → fbyte d ip o = 0;
  fo_mem : in_ref ip = 0 ∧ in_valid ip = 0
}.

Lemma exact_solid d ip : size_ok ip → exact d ip (in_size ip) → solid d ip.
Proof.
  intros [_ Hz] Hx bn H0 Hb. change (MAXFILE * BSIZE) with 274432 in Hz. rewrite BSIZE_val in Hb.
  destruct (fslot_range bn) as [Hr _]; [change MAXFILE with 268; lia|]. apply Hx; [done|]. unfold fslot. change NDIRECT with 12.
  destruct (Z.ltb_spec bn 12); [rewrite need_direct by done; lia|rewrite need_entry by lia; lia].
Qed.
Lemma file_kept d d' ip l :
  file_ok d ip l → fsys sb d' ip → (∀ k, 0 ≤ k < NSLOT → slot d' ip k = slot d ip k) →
  (∀ bn, 0 ≤ bn < MAXFILE → fblock d' ip bn = fblock d ip bn) →
  (∀ y, dinode_at sb d' (in_inum ip) y = dinode_at sb d (in_inum ip) y) → file_ok d' ip l.
Proof.
  intros [F1 F2 F3 F4 F5 F6 F7 F8 F9] Hf Hs Hb Hd. split; try done.
  - rewrite <-F2. unfold filedata. destruct F3 as [? ?]. apply content_ext; [done|lia|lia].
  - intros y. by rewrite Hd.
  - intros k Hk. rewrite Hs by done. by apply F7.
  - intros o Ho. unfold fbyte. rewrite Hb; [by apply F8|]. apply block_of_range. change (MAXFILE * BSIZE) with 274432. destruct F3. lia.
Qed.

Lemma apart_sym d ip ip2 : apart d ip ip2 → apart d ip2 ip.
Proof. intros H k Hk Hn (j & Hj & E). apply (H j Hj); [by rewrite E|]. exists k. done. Qed.
Lemma apart_ext d d' ip ip2 :
  (∀ k, 0 ≤ k < NSLOT → slot d' ip k = slot d ip k) → (∀ k, 0 ≤ k < NSLOT → slot d' ip2 k = slot d ip2 k) →
  apart d ip ip2 → apart d' ip ip2.
Proof. intros H1 H2 H k Hk. rewrite H2 by done. intros Hn (j & Hj & E). rewrite H1 in E by done. apply (H k Hk Hn). by exists j. Qed.

Lemma file_length d ip l : file_ok d ip l → Z.of_nat (length l) = in_size ip.
Proof. intros [_ <- [Hz _] _ _ _ _ _ _]. unfold filedata. rewrite length_content. lia. Qed.
Lemma loaded_zero d ip l : file_ok d ip l → loaded ip (zero_dinode (in_inum ip)) = ip.
Proof. intros [(_ & _ & [W _ _ _]) _ _ _ _ _ _ _ [E1 E2]]. destruct ip. cbn in *. by subst. Qed.

(** Writing one inode leaves the other files alone. *)
Lemma put_other d ip ip2 l :
  file_ok d ip l → 0 ≤ in_inum ip2 < 208 → in_inum ip ≠ in_inum ip2 → dinode_ok ip2 →
  file_ok (put_inode sb ip2 d) ip l ∧ ∀ k, 0 ≤ k < NSLOT → slot (put_inode sb ip2 d) ip k = slot d ip k.
Proof.
  intros F Hi Hne Hd. pose proof (fo_fsys _ _ _ F) as (Hbm & Hbl & W). pose proof (inum_fits ip2 Hi) as Hok.
  assert (Hsame : ∀ b, sb_bmapstart sb ≤ b → disk_block (put_inode sb ip2 d) b = disk_block d b) by (intros b Hb; by apply put_inode_same).
  assert (Hsl : ∀ k, 0 ≤ k < NSLOT → slot (put_inode sb ip2 d) ip k = slot d ip k) by (intros k _; by apply (meta_slot sb mk_layout d)).
  split; [|done]. apply (file_kept d); try done.
  - apply (meta_fsys sb mk_layout d); [done|by apply put_inode_blocks|by split_and!].
  - intros bn Hbn. by apply (meta_fblock sb mk_layout d).
  - intros y. pose proof (fo_inum _ _ _ F). rewrite dinode_at_put by (done || lia). by rewrite decide_False by done.
Qed.

(** A change of the files of other inodes. *)
Definition spares (s : mkst) (ip : inode) (s' : mkst) (ip' : inode) : Prop :=
  ∀ ip2 l2, file_ok (view s) ip2 l2 → in_inum ip2 ≠ in_inum ip → apart (view s) ip ip2 →
    file_ok (view s') ip2 l2 ∧ apart (view s') ip' ip2 ∧ ∀ k, 0 ≤ k < NSLOT → slot (view s') ip2 k = slot (view s) ip2 k.
(** What [iappend] leaves: the file has grown, and all else is as it was. *)
Record grew (xp : list Z) (s : mkst) (ip : inode) (s' : mkst) (ip' : inode) : Prop := mkgrew {
  gw_sound : sound s';
  gw_node : ∃ a, ip' = set_in_size (in_size ip + Z.of_nat (length xp)) (set_in_addrs a ip);
  gw_count : mk_freeblock s' = mk_freeblock s + nblk (in_size ip + Z.of_nat (length xp)) - nblk (in_size ip);
  gw_next : mk_freeinode s' = mk_freeinode s;
  gw_spares : spares s ip s' ip';
  gw_inodes : ∀ inum y, 0 ≤ inum < 208 → inum ≠ in_inum ip → dinode_at sb (view s') inum y = dinode_at sb (view s) inum y;
  gw_meta : ∀ b, b < 32 → disk_block (view s') b = disk_block (view s) b
}.

Lemma put_spares s ip l s1 ip1 s' ip' :
  file_ok (view s) ip l → keeps sb (view s) ip (view s1) ip1 → sound s1 → dinode_ok ip' → in_inum ip' = in_inum ip →
  (∀ k, 0 ≤ k < NSLOT → slot (view s') ip' k = slot (view s1) ip1 k) → view s' = put_inode sb ip' (view s1) → spares s ip s' ip'.
Proof.
  intros F Hk Hs1 Hd Hin Hsl Hv ip2 l2 F2 Hne Hap. pose proof (fo_fsys _ _ _ F2) as (Hbm & Hbl & W). pose proof (fo_inum _ _ _ F) as Hi.
  assert (F3 : file_ok (view s1) ip2 l2).
  { apply (file_kept (view s)); try done.
    - split_and!; [by apply view_bitmap|by apply view_blocks|by eapply other_iwf].
    - intros k Hkr. by eapply other_slot.
    - intros bn Hbn. by eapply other_fblock.
    - intros y. unfold dinode_at. rewrite inodestart_val. f_equal. apply (proj1 Hk). rewrite bmapstart_val.
      destruct (iblock_val _ (fo_inum _ _ _ F2)). lia. }
  destruct (put_other (view s1) ip2 ip' l2 F3) as [F4 Hs4]; [by rewrite Hin|by rewrite Hin|done|]. rewrite <-Hv in F4, Hs4.
  split_and!; [done| |intros k Hkr; rewrite Hs4 by done; by eapply other_slot].
  intros k Hkr. rewrite Hs4 by done. intros Hn (j & Hj & E). rewrite Hsl in E by done.
  apply (other_apart sb (view s) ip (view s1) ip1 ip2 Hk W Hap k Hkr Hn). by exists j.
Qed.

Lemma iappend_ok s ip l xp e :
  sound s → file_ok (view s) ip l → in_size ip + Z.of_nat (length xp) ≤ 274432 →
  mk_freeblock s + nblk (in_size ip + Z.of_nat (length xp)) - nblk (in_size ip) ≤ FSSIZE →
  ∃ s' ip', iappend (in_inum ip) xp e s = Ret tt e s' ∧ grew xp s ip s' ip' ∧ file_ok (view s') ip' (l ++ xp).
Proof.
  intros Hs F Hmax Hc. pose proof F as [F1 F2 F3 F4 F5 F6 F7 F8 F9]. pose proof F3 as [Hz0 Hz1]. change (MAXFILE * BSIZE) with 274432 in Hz1.
  unfold iappend. mrun (rinode_ok s (in_inum ip) e Hs F4). rewrite F6, (loaded_zero (view s) ip l F), xint_id by lia.
  destruct (append_loop (in_size ip) xp s ip e Hs F1 F7 Hz0 Hmax Hc) as (s1 & ip1 & Hr1 & [A1 (r & c & bs & A2) A3 A4 A5]). mrun Hr1.
  rewrite xint_id by lia. set (sz := in_size ip + Z.of_nat (length xp)) in *. destruct (wr_ip _ _ _ _ _ _ _ _ _ _ _ A2) as [a Ha].
  pose proof (wrote_written sb mk_layout r c (in_size ip) xp [] (view s) ip bs (view s1) ip1 A2 (exact_solid _ _ F3 F7) F3 ltac:(lia) Hmax (inum_fits ip F4) F5) as Hw.
  cbn zeta in Hw. fold sz in Hw. rewrite Z.max_r in Hw by lia. set (ip2 := set_in_size sz ip1) in *.
  assert (Hin : in_inum ip2 = in_inum ip) by (unfold ip2; by rewrite Ha).
  assert (Hin2 : inum_ok sb ip2) by (apply inum_fits; by rewrite Hin).
  destruct (winode_ok s1 ip2 e A1) as (s2 & Hr2 & Hs2 & Hv2 & Hc2 & Hn2); [by rewrite Hin|]. rewrite Hin in Hr2.
  exists s2, ip2. split; [exact Hr2|]. rewrite <-Hv2 in Hw. pose proof (wt_fsys _ _ _ _ _ _ _ Hw) as (Hbm & Hbl & W).
  assert (Hsh : shorts_ok ip2) by (unfold ip2; rewrite Ha; destruct F5; by split).
  assert (Hsz : size_ok ip2) by (split; cbn; change (MAXFILE * BSIZE) with 274432; lia).
  assert (Hd : dinode_ok ip2) by (by apply (iwf_dinode sb mk_layout (view s2))).
  assert (Hsame : ∀ b, sb_bmapstart sb ≤ b → disk_block (view s2) b = disk_block (view s1) b) by (intros b Hb; rewrite Hv2; by apply put_inode_same).
  assert (Hsl : ∀ k, slot (view s2) ip2 k = slot (view s1) ip1 k) by (intros k; apply (meta_slot sb mk_layout _ _ Hsame ip1 k); apply A2).
  assert (Hfb : ∀ bn, 0 ≤ bn < MAXFILE → fblock (view s2) ip2 bn = fblock (view s1) ip1 bn) by (intros bn Hbn; apply (meta_fblock sb mk_layout _ _ Hsame ip1 bn); [apply A2|done]).
  split.
  - split; [done|exists a; unfold ip2; by rewrite Ha|fold sz; lia|congruence| | |].
    + apply (put_spares s ip l s1 ip1 s2 ip2); try done. apply A2.
    + intros inum y Hi Hne. apply (wt_inodes _ _ _ _ _ _ _ Hw); [lia| |done]. rewrite inodestart_val, bmapstart_val. destruct (iblock_val _ Hi). lia.
    + intros b Hb. rewrite Hv2. unfold put_inode. rewrite disk_block_insert, decide_False; [apply (proj1 (wr_keeps _ _ _ _ _ _ _ _ _ _ _ A2)); rewrite bmapstart_val; lia|].
      unfold inode_blk. rewrite inodestart_val, Hin. destruct (iblock_val _ F4). lia.
  - pose proof (file_length _ _ _ F) as Hlen. split; try done.
    + rewrite (wt_file _ _ _ _ _ _ _ Hw), F2. rewrite take_ge, drop_ge by lia. by rewrite app_nil_r.
    + by rewrite Hin.
    + rewrite Hin. apply Hw.
    + intros k Hk. rewrite Hsl. by apply A3.
    + intros o Ho. cbn in Ho. assert (Hor : 0 ≤ o < MAXFILE * BSIZE) by (change (MAXFILE * BSIZE) with 274432; lia).
      unfold fbyte. rewrite Hfb by (by apply block_of_range). change (fbyte (view s1) ip1 o = 0). rewrite (wr_byte _ _ _ _ _ _ _ _ _ _ _ A2) by done.
      rewrite decide_False by lia. apply F8. lia.
    + unfold ip2. by rewrite Ha.
Qed.

(** * The image *)

(** The files from inode 1 on, each with its bytes. *)
Abbreviation node := (inode * list Z)%type.
Fixpoint blocks_of (ds : list (list Z)) : Z :=
  match ds with [] => 0 | x :: ds => nblk (Z.of_nat (length x)) + blocks_of ds end.
Record image (s : mkst) (l : list node) : Prop := mkimage {
  im_sound : sound s;
  im_file : ∀ i n, l !! i = Some n →
    file_ok (view s) n.1 n.2 ∧ in_inum n.1 = Z.of_nat i + 1 ∧ in_type n.1 = (if decide (i = 0%nat) then 1 else 2) ∧ in_nlink n.1 = 1;
  im_apart : ∀ i j n m, i ≠ j → l !! i = Some n → l !! j = Some m → apart (view s) n.1 m.1;
  im_next : mk_freeinode s = Z.of_nat (length l) + 1;
  im_count : mk_freeblock s = nmeta + blocks_of l.*2;
  im_free : ∀ inum y, 0 ≤ inum < 208 → inum = 0 ∨ Z.of_nat (length l) < inum → dinode_at sb (view s) inum y = loaded (zero_dinode 0) y;
  im_meta : ∀ b, b < 32 → disk_block (view s) b = if decide (b = 1) then sb_bytes sb else zero_block
}.

Lemma nblk_nonneg n : 0 ≤ n → 0 ≤ nblk n.
Proof. intros H. apply (nblk_mono 0 n). lia. Qed.
Lemma blocks_nonneg ds : 0 ≤ blocks_of ds.
Proof. induction ds as [|x ds IH]; cbn; [done|]. pose proof (nblk_nonneg (Z.of_nat (length x))). lia. Qed.
Lemma blocks_app ds ds' : blocks_of (ds ++ ds') = blocks_of ds + blocks_of ds'.
Proof. induction ds as [|x ds IH]; cbn; [done|]. rewrite IH. lia. Qed.
Lemma blocks_insert ds i x y :
  ds !! i = Some x → blocks_of (<[i := y]> ds) = blocks_of ds + nblk (Z.of_nat (length y)) - nblk (Z.of_nat (length x)).
Proof.
  revert i. induction ds as [|z ds IH]; intros [|i] Hi; [done|done| |].
  - injection Hi as ->. cbn [blocks_of insert list_insert]. lia.
  - change (<[S i := y]> (z :: ds)) with (z :: <[i := y]> ds). cbn [blocks_of]. rewrite (IH i) by done. lia.
Qed.

Definition holds (s : mkst) (ds : list (list Z)) : Prop := ∃ l, image s l ∧ l.*2 = ds.

Lemma append_image s l i ip x xp e :
  image s l → l !! i = Some (ip, x) → Z.of_nat (length (x ++ xp)) ≤ 274432 → nmeta + blocks_of (<[i := x ++ xp]> l.*2) ≤ FSSIZE →
  ∃ s' ip', iappend (Z.of_nat i + 1) xp e s = Ret tt e s' ∧ image s' (<[i := (ip', x ++ xp)]> l).
Proof.
  intros H Hi Hmax Hc. destruct (im_file _ _ H i _ Hi) as (F & Hin & Ht & Hn). cbn [fst snd] in *. pose proof (file_length _ _ _ F) as Hlen.
  assert (Hi2 : l.*2 !! i = Some x) by (by rewrite list_lookup_fmap, Hi). pose proof (blocks_insert _ _ _ (x ++ xp) Hi2) as Hbl.
  assert (Hsz : Z.of_nat (length (x ++ xp)) = in_size ip + Z.of_nat (length xp)) by (rewrite length_app; lia). rewrite Hsz in *. rewrite Hlen in *.
  destruct (iappend_ok s ip x xp e (im_sound _ _ H) F Hmax) as (s' & ip' & Hr & [G1 [a G2] G3 G4 G5 G6 G7] & F');
    [rewrite (im_count _ _ H); lia|]. rewrite Hin in Hr. exists s', ip'. split; [done|].
  assert (Hoth : ∀ j m, j ≠ i → l !! j = Some m → file_ok (view s') m.1 m.2 ∧ apart (view s') ip' m.1 ∧ ∀ k, 0 ≤ k < NSLOT → slot (view s') m.1 k = slot (view s) m.1 k).
  { intros j m Hj Hm. destruct (im_file _ _ H j m Hm) as (Fm & Hinm & _). apply G5; [done|lia|]. by apply (im_apart _ _ H i j (ip, x) m). }
  pose proof (lookup_lt_Some _ _ _ Hi) as Hil. split; [done| | | | | |].
  - intros j m Hm. destruct (decide (j = i)) as [->|Hj].
    + rewrite list_lookup_insert_eq in Hm by done. injection Hm as <-. cbn [fst snd]. split; [done|]. rewrite G2. done.
    + rewrite list_lookup_insert_ne in Hm by done. destruct (im_file _ _ H j m Hm) as (_ & ?). destruct (Hoth j m Hj Hm) as (? & _). done.
  - intros j k n m Hjk Hn' Hm'. destruct (decide (j = i)) as [->|Hj], (decide (k = i)) as [->|Hk]; [done| | |].
    + rewrite list_lookup_insert_eq in Hn' by done. rewrite list_lookup_insert_ne in Hm' by done. simplify_eq. by destruct (Hoth k m Hk Hm') as (_ & ? & _).
    + rewrite list_lookup_insert_eq in Hm' by done. rewrite list_lookup_insert_ne in Hn' by done. simplify_eq. apply apart_sym. by destruct (Hoth j n Hj Hn') as (_ & ? & _).
    + rewrite list_lookup_insert_ne in Hn', Hm' by done. destruct (Hoth j n Hj Hn') as (_ & _ & S1), (Hoth k m Hk Hm') as (_ & _ & S2).
      apply (apart_ext (view s)); [done..|]. by apply (im_apart _ _ H j k).
  - rewrite length_insert, G4. apply H.
  - rewrite list_fmap_insert. cbn [snd]. rewrite Hbl, G3, (im_count _ _ H). lia.
  - intros inum y Hr1 Hr2. rewrite length_insert in Hr2. rewrite G6 by lia. by apply (im_free _ _ H).
  - intros b Hb. rewrite G7 by done. by apply (im_meta _ _ H).
Qed.

Lemma append_ok s ds i x xp e :
  holds s ds → ds !! i = Some x → Z.of_nat (length (x ++ xp)) ≤ 274432 → nmeta + blocks_of (<[i := x ++ xp]> ds) ≤ FSSIZE →
  ∃ s', iappend (Z.of_nat i + 1) xp e s = Ret tt e s' ∧ holds s' (<[i := x ++ xp]> ds).
Proof.
  intros (l & H & <-) Hi Hmax Hc. rewrite list_lookup_fmap in Hi. destruct (l !! i) as [[ip x']|] eqn:E; cbn in Hi; simplify_eq.
  destruct (append_image s l i ip x xp e H E Hmax Hc) as (s' & ip' & Hr & H'). exists s'. split; [done|]. exists (<[i := (ip', x ++ xp)]> l).
  split; [done|]. by rewrite list_fmap_insert.
Qed.
Lemma append_all_ok s ds i x chunks e :
  holds s ds → ds !! i = Some x → Z.of_nat (length (x ++ concat chunks)) ≤ 274432 → nmeta + blocks_of (<[i := x ++ concat chunks]> ds) ≤ FSSIZE →
  ∃ s', append_all (Z.of_nat i + 1) chunks e s = Ret tt e s' ∧ holds s' (<[i := x ++ concat chunks]> ds).
Proof.
  revert s ds x. induction chunks as [|c chunks IH]; intros s ds x H Hi Hmax Hc; cbn [concat append_all] in *.
  { rewrite app_nil_r. exists s. by rewrite list_insert_id. }
  rewrite app_assoc in *. rewrite (blocks_insert _ _ _ _ Hi) in Hc. rewrite (length_app (x ++ c)) in Hmax, Hc.
  pose proof (nblk_mono (Z.of_nat (length (x ++ c))) (Z.of_nat (length (x ++ c) + length (concat chunks)))) as Hmono.
  destruct (append_ok s ds i x c e H Hi) as (s1 & Hr1 & H1); [lia|rewrite (blocks_insert _ _ _ _ Hi); lia|]. mrun Hr1.
  pose proof (lookup_lt_Some _ _ _ Hi) as Hil. assert (Hi1 : <[i := x ++ c]> ds !! i = Some (x ++ c)) by (by apply list_lookup_insert_eq).
  destruct (IH s1 (<[i := x ++ c]> ds) (x ++ c) H1 Hi1) as (s2 & Hr2 & H2);
    [rewrite length_app; lia|rewrite list_insert_insert_eq, (blocks_insert _ _ _ _ Hi), (length_app (x ++ c)); lia|].
  rewrite list_insert_insert_eq in H2. by exists s2.
Qed.

(** * ialloc *)

Definition new_dinode (ty inum : Z) : inode := set_in_size (xint 0) (set_in_nlink (xshort 1) (set_in_type (xshort ty) (zero_dinode inum))).
Lemma new_slot d ty inum k : 0 ≤ k → slot d (new_dinode ty inum) k = 0.
Proof.
  intros Hk. unfold slot. destruct (Z.ltb_spec k 13); [|done]. cbn [in_addrs new_dinode set_in_size set_in_nlink set_in_type zero_dinode].
  destruct (replicate 13 0 !! Z.to_nat k) as [v|] eqn:E; [by apply lookup_replicate in E as [-> _]|done].
Qed.
Lemma need_nothing k : 0 ≤ k → ¬ need 0 k.
Proof. intros Hk. unfold need. destruct (Z.ltb_spec k 12), (Z.eqb_spec k 12); lia. Qed.
Lemma new_dinode_ok ty inum : is_short (xshort ty) → dinode_ok (new_dinode ty inum).
Proof.
  intros Ht. split; [done|done|done|done|done|done|]. intros j a [-> _]%lookup_replicate. done.
Qed.
Lemma new_file s ty inum :
  sound s → is_short (xshort ty) → 0 ≤ inum < 208 → file_ok (put_inode sb (new_dinode ty inum) (view s)) (new_dinode ty inum) [].
Proof.
  intros Hs Ht Hi. set (ip := new_dinode ty inum). set (d := put_inode sb ip (view s)). pose proof (inum_fits ip Hi) as Hok.
  assert (Hsl : ∀ k, 0 ≤ k → slot d ip k = 0) by (intros k Hk; by apply new_slot).
  assert (Hsame : ∀ b, sb_bmapstart sb ≤ b → disk_block d b = disk_block (view s) b) by (intros b Hb; by apply put_inode_same).
  split; try done.
  - split_and!; [|apply put_inode_blocks; by apply view_blocks|split; [done|done| |]].
    + intros b Hb. rewrite (meta_used sb mk_layout (view s) d Hsame) by done. by apply view_bitmap.
    + intros k Hk Hn. by rewrite Hsl in Hn by lia.
    + intros j k Hj Hk Hn. by rewrite Hsl in Hn by lia.
  - intros y. unfold d. rewrite dinode_at_put; [by rewrite decide_True by done|done|apply Hi|by apply new_dinode_ok|by apply view_blocks].
  - intros k Hk. rewrite Hsl by lia. split; [done|]. intros Hn. by apply need_nothing in Hn; [|lia].
  - intros o Ho. change (in_size ip) with 0 in Ho. change 274432 with (MAXFILE * BSIZE) in Ho.
    destruct (fslot_range (o / BSIZE)) as [Hr _]; [by apply block_of_range|]. unfold fbyte, fblock. rewrite Hsl by lia.
    cbn [Z.eqb]. unfold zero_block. destruct (replicate _ 0 !! _) as [v|] eqn:E; [by apply lookup_replicate in E as [-> _]|done].
Qed.

Lemma ialloc_image s l ty e :
  image s l → Z.of_nat (length l) + 1 < 208 → xshort ty = (if decide (l = []) then 1 else 2) →
  ∃ s', ialloc ty e s = Ret (Z.of_nat (length l) + 1) e s' ∧ image s' (l ++ [(new_dinode ty (Z.of_nat (length l) + 1), [])]).
Proof.
  intros H Hlen Hty. pose proof H as [I1 I2 I3 I4 I5 I6 I7]. set (inum := Z.of_nat (length l) + 1) in *. set (ip := new_dinode ty inum).
  assert (Hsh : is_short (xshort ty)) by (rewrite Hty; unfold is_short; case_decide; lia).
  set (s0 := set_mk_freeinode (inum + 1) s). assert (Hs0 : sound s0) by (destruct I1; by split).
  destruct (winode_ok s0 ip e Hs0) as (s1 & Hr1 & Hs1 & Hv1 & Hc1 & Hn1); [unfold ip; cbn; lia|]. change (view s0) with (view s) in Hv1.
  exists s1. split; [unfold ialloc; mstep; rewrite I4; fold s0; change (in_inum ip) with inum in Hr1; by mrun Hr1|].
  assert (Hoth : ∀ j m, l !! j = Some m → file_ok (view s1) m.1 m.2 ∧ ∀ k, 0 ≤ k < NSLOT → slot (view s1) m.1 k = slot (view s) m.1 k).
  { intros j m Hm. destruct (I2 j m Hm) as (F & Hin & _). pose proof (lookup_lt_Some _ _ _ Hm). rewrite Hv1.
    apply put_other; [done|unfold ip; cbn; lia|unfold ip; cbn; lia|by apply new_dinode_ok]. }
  assert (Hnew : ∀ jp, apart (view s1) jp ip) by (intros jp k Hk Hn; unfold ip in Hn; by rewrite new_slot in Hn by lia).
  assert (Hlast : ∀ j m, (l ++ [(ip, [])]) !! j = Some m → l !! j = Some m ∨ j = length l ∧ m = (ip, [])).
  { intros j m [?|[? Hm]]%lookup_app_Some; [by left|right]. apply list_lookup_singleton_Some in Hm as [? <-]. split; [lia|done]. }
  split; [done| | | | | |].
  - intros j m [Hm|[-> ->]]%Hlast; [destruct (I2 j m Hm) as (_ & ?); split; [by eapply Hoth|done]|]. cbn [fst snd].
    split_and!; [rewrite Hv1; apply new_file; [done|done|lia]|done| |done]. change (in_type ip) with (xshort ty). rewrite Hty. by destruct l.
  - intros j k n m Hjk [Hn|[-> ->]]%Hlast [Hm|[-> ->]]%Hlast; [|by apply Hnew|apply apart_sym; by apply Hnew|done].
    destruct (Hoth j n Hn) as [_ S1], (Hoth k m Hm) as [_ S2]. apply (apart_ext (view s)); [done..|]. by apply (I3 j k).
  - rewrite length_app, Hn1. cbn. lia.
  - rewrite fmap_app, blocks_app, Hc1. change (mk_freeblock s0) with (mk_freeblock s). rewrite I5. change (blocks_of [(ip, [])].*2) with 0. lia.
  - intros n y Hr Hn. rewrite length_app in Hn. cbn [length] in Hn. rewrite Hv1, dinode_at_put; [|by apply inum_fits; unfold ip; cbn; lia|lia|by apply new_dinode_ok|by apply view_blocks].
    rewrite decide_False by (unfold ip; cbn; lia). apply I6; [done|lia].
  - intros b Hb. rewrite Hv1. unfold put_inode. rewrite disk_block_insert, decide_False; [by apply I7|]. unfold inode_blk. rewrite inodestart_val.
    destruct (iblock_val (in_inum ip)); [unfold ip; cbn; lia|lia].
Qed.
Lemma ialloc_ok s ds e :
  holds s ds → Z.of_nat (length ds) + 1 < 208 →
  ∃ s', ialloc (if decide (ds = []) then 1 else 2) e s = Ret (Z.of_nat (length ds) + 1) e s' ∧ holds s' (ds ++ [[]]).
Proof.
  intros (l & H & <-) Hlen. rewrite length_fmap in *. destruct (ialloc_image s l (if decide (l.*2 = []) then 1 else 2) e H Hlen) as (s' & Hr & H').
  { destruct l; done. }
  exists s'. split; [done|]. eexists. split; [exact H'|]. by rewrite fmap_app.
Qed.

(** * The files of the command line *)

Definition file_bytes (a : arg) : list Z := concat (default [] a.2).
Definition entry (inum : Z) (a : arg) : list Z := de inum (skip_underscore (shortname a.1)).
Fixpoint entries (inum : Z) (files : list arg) : list Z :=
  match files with [] => [] | a :: files => entry inum a ++ entries (inum + 1) files end.
(** A file that can be opened, whose name is in the directory itself. *)
Definition arg_ok (a : arg) : Prop :=
  (47 ∉ shortname a.1) ∧ is_Some a.2 ∧ Z.of_nat (length (file_bytes a)) ≤ MAXFILE * BSIZE.

Lemma length_de inum name : length (de inum name) = 16%nat.
Proof. unfold de, mk_dirent, strncpy. rewrite !length_app, length_strncpy_bytes. reflexivity. Qed.
Lemma length_entries inum files : length (entries inum files) = (16 * length files)%nat.
Proof. revert inum. induction files as [|a files IH]; intros inum; cbn [entries]; [done|]. rewrite length_app, IH. unfold entry. rewrite length_de. cbn. lia. Qed.

Lemma main_file_ok s rd fs a e :
  holds s (rd :: fs) → arg_ok a → let inum := Z.of_nat (length (rd :: fs)) + 1 in
  inum < 208 → Z.of_nat (length (rd ++ entry inum a)) ≤ 274432 → nmeta + blocks_of ((rd ++ entry inum a) :: fs ++ [file_bytes a]) ≤ FSSIZE →
  ∃ s', main_file 1 a e s = Ret tt e s' ∧ holds s' ((rd ++ entry inum a) :: fs ++ [file_bytes a]).
Proof.
  intros H (Hn & [chunks Ea] & Hz) inum Hi Hmax Hc. unfold main_file. rewrite bool_decide_false, Ea by done. 
  assert (Eb : file_bytes a = concat chunks) by (unfold file_bytes; by rewrite Ea). rewrite Eb in *.
  destruct (ialloc_ok s (rd :: fs) e H Hi) as (s1 & Hr1 & H1). fold inum in Hr1. rewrite decide_False in Hr1 by done. mrun Hr1.
  cbn [blocks_of] in Hc. rewrite blocks_app in Hc. cbn [blocks_of app] in Hc, H1. pose proof (nblk_nonneg (Z.of_nat (length (concat chunks)))).
  destruct (append_ok s1 (rd :: fs ++ [[]]) 0 rd (entry inum a) e H1 eq_refl Hmax) as (s2 & Hr2 & H2).
  { cbn [insert list_insert blocks_of]. rewrite blocks_app. cbn [blocks_of length]. change (nblk (Z.of_nat 0)) with 0. lia. }
  change (Z.of_nat 0 + 1) with 1 in Hr2. unfold entry in Hr2. mrun Hr2. change (<[0%nat := rd ++ entry inum a]> (rd :: fs ++ [[]])) with ((rd ++ entry inum a) :: (fs ++ [[]])) in H2.
  assert (Hl : ((rd ++ entry inum a) :: (fs ++ [[]])) !! S (length fs) = Some []).
  { change ((fs ++ [[]]) !! length fs = Some (@nil Z)). by apply list_lookup_middle. }
  assert (Hins : <[S (length fs) := [] ++ concat chunks]> ((rd ++ entry inum a) :: fs ++ [[]]) = (rd ++ entry inum a) :: fs ++ [concat chunks]).
  { change ((rd ++ entry inum a) :: <[length fs := concat chunks]> (fs ++ [[]]) = (rd ++ entry inum a) :: fs ++ [concat chunks]).
    rewrite insert_app_r_alt by done. by rewrite Nat.sub_diag. }
  destruct (append_all_ok s2 _ (S (length fs)) [] chunks e H2 Hl) as (s3 & Hr3 & H3).
  { change (MAXFILE * BSIZE) with 274432 in Hz. exact Hz. }
  { rewrite Hins. cbn [blocks_of]. rewrite blocks_app. cbn [blocks_of]. lia. }
  rewrite Hins in H3. exists s3. split; [|done]. unfold inum. exact Hr3.
Qed.

Lemma main_files_ok s rd fs files e :
  holds s (rd :: fs) → Forall arg_ok files → let inum := Z.of_nat (length (rd :: fs)) + 1 in
  inum + Z.of_nat (length files) ≤ 208 → Z.of_nat (length (rd ++ entries inum files)) ≤ 274432 →
  nmeta + blocks_of ((rd ++ entries inum files) :: fs ++ (file_bytes <$> files)) ≤ FSSIZE →
  ∃ s', main_files 1 files e s = Ret tt e s' ∧ holds s' ((rd ++ entries inum files) :: fs ++ (file_bytes <$> files)).
Proof.
  revert s rd fs. induction files as [|a files IH]; intros s rd fs H Hok inum Hi Hmax Hc; rewrite ?fmap_cons, ?fmap_nil in *; cbn [entries main_files] in *.
  { rewrite !app_nil_r. by exists s. }
  apply Forall_cons in Hok as [Ha Hok]. cbn [length] in Hi. rewrite app_assoc, length_app in Hmax.
  cbn [blocks_of] in Hc. rewrite (app_assoc rd), length_app, (cons_middle (file_bytes a)), app_assoc, blocks_app in Hc.
  pose proof (nblk_mono (Z.of_nat (length (rd ++ entry inum a))) (Z.of_nat (length (rd ++ entry inum a) + length (entries (inum + 1) files)))) as Hm.
  pose proof (blocks_nonneg (file_bytes <$> files)).
  destruct (main_file_ok s rd fs a e H Ha) as (s1 & Hr1 & H1); fold inum; [lia|lia|cbn [blocks_of]; lia|]. mrun Hr1. fold inum in H1.
  assert (En : Z.of_nat (length ((rd ++ entry inum a) :: fs ++ [file_bytes a])) + 1 = inum + 1) by (unfold inum; cbn [length]; rewrite length_app; cbn; lia).
  destruct (IH s1 (rd ++ entry inum a) (fs ++ [file_bytes a]) H1 Hok) as (s2 & Hr2 & H2); rewrite ?En in *;
    [lia|rewrite length_app; lia|cbn [blocks_of]; rewrite blocks_app, length_app; lia|].
  exists s2. split; [done|]. by rewrite (app_assoc rd), (cons_middle (file_bytes a)), (app_assoc fs).
Qed.

(** * Every block given out belongs to a file *)

#[global] Instance need_dec off k : Decision (need off k).
Proof. unfold need. apply _. Defined.

Lemma filter_below m a n : 0 ≤ n → Z.of_nat (length (filter (λ k, k < m) (seqZ a n))) = Z.max 0 (Z.min n (m - a)).
Proof.
  revert n. apply natlike_ind; [change (seqZ a 0) with (@nil Z); cbn [filter length]; rewrite filter_nil; cbn [length]; lia|]. intros n Hn IH. rewrite <-Z.add_1_r, seqZ_app by lia. rewrite filter_app, length_app, Nat2Z.inj_add, IH.
  change (seqZ (a + n) 1) with [a + n]. destruct (decide (a + n < m)).
  - rewrite filter_cons_True, filter_nil by done. cbn. lia.
  - rewrite filter_cons_False, filter_nil by done. cbn. lia.
Qed.
Lemma filter_agree {A} (P Q : A → Prop) `{!∀ x, Decision (P x), !∀ x, Decision (Q x)} (l : list A) :
  (∀ x, x ∈ l → P x ↔ Q x) → filter P l = filter Q l.
Proof.
  induction l as [|x l IH]; intros Hpq; [done|]. rewrite !filter_cons, IH by (intros y Hy; apply Hpq; by right).
  pose proof (Hpq x ltac:(by left)). repeat case_decide; tauto.
Qed.
Lemma count_need off : 0 ≤ off ≤ 274432 → Z.of_nat (length (filter (need off) (seqZ 0 NSLOT))) = nblk off.
Proof.
  intros Ho. set (m := (off + 1023) / 1024). pose proof (Z.div_mod (off + 1023) 1024 ltac:(lia)) as H1. pose proof (Z.mod_pos_bound (off + 1023) 1024 ltac:(lia)) as H2. fold m in H1.
  change NSLOT with (12 + (1 + 256)). rewrite !seqZ_app by lia. change (seqZ (0 + 12) 1) with [12]. rewrite !filter_app, !length_app, !Nat2Z.inj_add.
  rewrite (filter_agree (need off) (λ k, k < m) (seqZ 0 12)).
  2: { intros k Hk%elem_of_seqZ. rewrite need_direct by lia. lia. }
  rewrite (filter_agree (need off) (λ k, k < m + 1) (seqZ (0 + 12 + 1) 256)).
  2: { intros k Hk%elem_of_seqZ. rewrite need_entry by lia. lia. }
  rewrite !filter_below by lia. unfold nblk. fold m. destruct (Z.ltb_spec 12288 off).
  - rewrite filter_cons_True, filter_nil by (by apply need_indirect). cbn [length]. lia.
  - rewrite filter_cons_False, filter_nil by (rewrite need_indirect; lia). cbn [length]. lia.
Qed.

Definition owned (d : gmap Z (list Z)) (ip : inode) : list Z := slot d ip <$> filter (need (in_size ip)) (seqZ 0 NSLOT).
Lemma elem_of_owned d ip l b : file_ok d ip l → b ∈ owned d ip ↔ b ≠ 0 ∧ owns d ip b.
Proof.
  intros F. unfold owned, owns. rewrite list_elem_of_fmap. setoid_rewrite list_elem_of_filter. setoid_rewrite elem_of_seqZ. split.
  - intros (k & -> & Hn & Hk). split; [apply (fo_exact _ _ _ F k); [lia|done]|]. exists k. split; [lia|done].
  - intros [Hb (k & Hk & <-)]. exists k. split_and!; [done|by apply (fo_exact _ _ _ F k)|lia|lia].
Qed.
Lemma NoDup_owned d ip l : file_ok d ip l → NoDup (owned d ip).
Proof.
  intros F. apply NoDup_fmap_2_strong; [|apply NoDup_filter, NoDup_seqZ]. intros j k Hj Hk E.
  apply list_elem_of_filter in Hj as [Hn Hj%elem_of_seqZ], Hk as [_ Hk%elem_of_seqZ]. destruct (fo_fsys _ _ _ F) as (_ & _ & W).
  apply (iw_inj _ _ _ W); [lia|lia|apply (fo_exact _ _ _ F); [lia|done]|done].
Qed.
Lemma length_owned d ip l : file_ok d ip l → Z.of_nat (length (owned d ip)) = nblk (Z.of_nat (length l)).
Proof.
  intros F. unfold owned. rewrite length_fmap, (file_length _ _ _ F). apply count_need. pose proof (fo_size _ _ _ F) as Hz. exact Hz.
Qed.

Lemma length_all d (l : list node) :
  (∀ n, n ∈ l → file_ok d n.1 n.2) → Z.of_nat (length (l ≫= λ n, owned d n.1)) = blocks_of l.*2.
Proof.
  induction l as [|n l IH]; intros H; [done|]. rewrite bind_cons, length_app, Nat2Z.inj_add, fmap_cons. cbn [blocks_of].
  rewrite (length_owned d n.1 n.2) by (apply H; by left). rewrite IH; [done|]. intros m Hm. apply H. by right.
Qed.
Lemma NoDup_all s l : image s l → NoDup (l ≫= λ n, owned (view s) n.1).
Proof.
  intros H. assert (Hinj : ∀ i j n m, l !! i = Some n → l !! j = Some m → in_inum n.1 = in_inum m.1 → i = j).
  { intros i j n m Hn Hm. destruct (im_file _ _ H i n Hn) as (_ & -> & _), (im_file _ _ H j m Hm) as (_ & -> & _). lia. }
  apply NoDup_bind.
  - intros n m b [i Hi]%list_elem_of_lookup [j Hj]%list_elem_of_lookup Hn Hm. destruct (decide (i = j)) as [->|Hne]; [congruence|].
    destruct (im_file _ _ H i n Hi) as (Fn & _), (im_file _ _ H j m Hj) as (Fm & _).
    apply (elem_of_owned _ _ _ _ Fn) in Hn as [Hb Hn]. apply (elem_of_owned _ _ _ _ Fm) in Hm as [_ (k & Hk & E)].
    destruct (im_apart _ _ H i j n m Hne Hi Hj k Hk); by rewrite E.
  - intros n [i Hi]%list_elem_of_lookup. by eapply NoDup_owned, (im_file _ _ H i n).
  - apply NoDup_alt. intros i j n Hi Hj. by eapply Hinj.
Qed.
Lemma all_owned s l b : image s l → nmeta ≤ b < mk_freeblock s → ∃ i n, l !! i = Some n ∧ owns (view s) n.1 b.
Proof.
  intros H Hb. pose proof (im_sound _ _ H) as Hs. set (k := seqZ 46 (mk_freeblock s - 46)). rewrite nmeta_val in Hb.
  assert (Hp : (l ≫= λ n, owned (view s) n.1) ≡ₚ k).
  { apply submseteq_length_Permutation.
    - apply NoDup_submseteq; [by apply NoDup_all|]. intros b' (n & Hn & [i Hi]%list_elem_of_lookup)%list_elem_of_bind.
      destruct (im_file _ _ H i n Hi) as (F & _). apply (elem_of_owned _ _ _ _ F) in Hn as [Hb' (j & Hj & <-)].
      pose proof (slot_range s n.1 j Hs (fo_fsys _ _ _ F) Hj Hb'). apply elem_of_seqZ. lia.
    - unfold k. rewrite length_seqZ, (im_count _ _ H), nmeta_val. rewrite <-(length_all (view s)); [lia|].
      intros n [i Hi]%list_elem_of_lookup. by apply (im_file _ _ H i n). }
  assert (Hin : b ∈ (l ≫= λ n, owned (view s) n.1)) by (rewrite Hp; apply elem_of_seqZ; lia).
  apply list_elem_of_bind in Hin as (n & Hn & [i Hi]%list_elem_of_lookup). exists i, n. split; [done|].
  destruct (im_file _ _ H i n Hi) as (F & _). by apply (elem_of_owned _ _ _ _ F) in Hn as [_ ?].
Qed.

(** * The start of main *)

Lemma zero_sectors_ok l e s :
  zero_sectors l e s = Ret tt e (set_mk_disk (foldl (λ d i, <[i := zeroes]> d) (mk_disk s) l) s).
Proof.
  revert s. induction l as [|i l IH]; intros s; cbn [zero_sectors foldl]; [by destruct s|]. unfold wsect. mstep. by rewrite IH.
Qed.
Lemma lookup_zero l (d : gmap Z (list Z)) b :
  foldl (λ d i, <[i := zeroes]> d) d l !! b = if decide (b ∈ l) then Some zeroes else d !! b.
Proof.
  revert d. induction l as [|i l IH]; intros d; cbn [foldl]; [by rewrite decide_False by apply not_elem_of_nil|]. rewrite IH.
  destruct (decide (b ∈ l)); [by rewrite decide_True by (by right)|]. destruct (decide (b = i)) as [->|Hne].
  - rewrite decide_True by (by left). by rewrite lookup_insert_eq.
  - rewrite decide_False by (rewrite elem_of_cons; tauto). by rewrite lookup_insert_ne.
Qed.

(** The image before the root directory. *)
Definition blank : mkst := mkmkst (<[1 := sb_bytes sb]> (foldl (λ d i, <[i := zeroes]> d) ∅ (seqZ 0 FSSIZE))) 1 nmeta.
Lemma blank_lookup b : mk_disk blank !! b = if decide (b = 1) then Some (sb_bytes sb) else if decide (0 ≤ b < 1000) then Some zero_block else None.
Proof.
  unfold blank. cbn [mk_disk]. destruct (decide (b = 1)) as [->|Hne]; [by rewrite lookup_insert_eq|]. rewrite lookup_insert_ne, lookup_zero by done.
  rewrite lookup_empty. apply decide_ext. rewrite elem_of_seqZ. unfold FSSIZE. lia.
Qed.
Lemma blank_sound : sound blank.
Proof.
  split; [| |done|]; intros b Hb; unfold FSSIZE in *; rewrite blank_lookup.
  - destruct (decide (b = 1)); [by exists (sb_bytes sb)|]. rewrite decide_True by lia. by exists zero_block.
  - rewrite !decide_False by lia. done.
  - change (mk_freeblock blank) with 46 in Hb. rewrite decide_False, decide_True by lia. done.
Qed.
Lemma blank_block b : b < 45 → disk_block (view blank) b = if decide (b = 1) then sb_bytes sb else zero_block.
Proof. intros Hb. rewrite view_block, decide_False by lia. unfold disk_block. rewrite blank_lookup. repeat case_decide; done. Qed.
Lemma zero_get n o : blk_get n o zero_block = 0.
Proof. unfold blk_get, zero_block. rewrite drop_replicate, take_replicate. apply le_val_zero. Qed.
Lemma blank_image : image blank [].
Proof.
  split; [apply blank_sound|done|done|done|done| |intros b Hb; apply blank_block; lia].
  intros inum y Hi _. unfold dinode_at. rewrite inodestart_val. destruct (iblock_val _ Hi). rewrite blank_block, decide_False by lia.
  unfold get_dinode, d_type, loaded. cbn [zero_dinode in_type in_major in_minor in_nlink in_size in_addrs]. rewrite !zero_get. f_equal.
  apply (list_eq_Forall2 _ _). rewrite Forall2_fmap_l. cbn [seq replicate]. repeat (constructor; [apply zero_get|]). constructor.
Qed.

(** * The whole of main *)

Definition root_entries (files : list arg) : list Z := de 1 [46] ++ de 1 [46; 46] ++ entries 2 files.
Definition whole (n : Z) : Z := (n / BSIZE + 1) * BSIZE.
Definition root_dir (files : list arg) : list Z :=
  let x := root_entries files in x ++ replicate (Z.to_nat (whole (Z.of_nat (length x)) - Z.of_nat (length x))) 0.

(** A file system with the files [ds], whose inodes are [ips], from inode 1
    on.  The first is the root directory. *)
Record made (files : list arg) (d : gmap Z (list Z)) (ips : list inode) : Prop := mkmade {
  md_super : sb_of_block (disk_block d 1) = sb;
  md_log : ∀ b, sb_logstart sb ≤ b < sb_inodestart sb → disk_block d b = zero_block;
  md_length : length ips = S (length files);
  md_node : ∀ i ip, ips !! i = Some ip →
    fsys sb d ip ∧ size_ok ip ∧ in_inum ip = Z.of_nat i + 1 ∧ (∀ y, dinode_at sb d (in_inum ip) y = loaded ip y) ∧
    in_type ip = (if decide (i = 0%nat) then T_DIR else T_FILE) ∧ in_nlink ip = 1;
  md_data : filedata d <$> ips = root_dir files :: (file_bytes <$> files);
  md_solid : ∀ i ip, ips !! i = Some ip → solid d ip ↔ i ≠ 0%nat ∨ Z.of_nat (length (root_entries files)) mod BSIZE ≠ 0;
  md_apart : ∀ i j ip jp, i ≠ j → ips !! i = Some ip → ips !! j = Some jp → apart d ip jp;
  md_free : ∀ inum y, 0 ≤ inum < NINODES → inum = 0 ∨ Z.of_nat (length ips) < inum → in_type (dinode_at sb d inum y) = 0;
  md_used : ∀ b, dstart sb ≤ b < sb_size sb → used sb d b = true ↔ ∃ i ip, ips !! i = Some ip ∧ owns d ip b
}.

Lemma length_root files : Z.of_nat (length (root_entries files)) = 16 * (Z.of_nat (length files) + 2).
Proof. unfold root_entries. rewrite !length_app, !length_de, length_entries. lia. Qed.
Lemma whole_bounds n : 0 ≤ n → n < whole n ≤ n + 1024.
Proof. intros H. unfold whole. rewrite BSIZE_val. pose proof (Z.div_mod n 1024 ltac:(lia)). pose proof (Z.mod_pos_bound n 1024 ltac:(lia)). lia. Qed.

Section fix_root.
Context (s : mkst) (ip : inode) (x : list Z) (l : list node) (H : image s ((ip, x) :: l)) (Hmax : in_size ip + 1024 ≤ 274432).
Definition root2 : inode := set_in_size (whole (in_size ip)) ip.
Definition disk2 : gmap Z (list Z) := put_inode sb root2 (view s).

Lemma root_file : file_ok (view s) ip x ∧ in_inum ip = 1 ∧ in_type ip = 1 ∧ in_nlink ip = 1.
Proof. exact (im_file _ _ H 0%nat _ eq_refl). Qed.
Lemma root2_size : 0 ≤ in_size ip < whole (in_size ip) ∧ whole (in_size ip) ≤ 274432.
Proof. destruct root_file as ([_ _ [Hz _] _ _ _ _ _ _] & _). pose proof (whole_bounds _ Hz). lia. Qed.
Lemma root2_inum : 0 ≤ in_inum root2 < 208.
Proof. destruct root_file as (_ & E & _). cbn. lia. Qed.
Lemma root2_size_ok : size_ok root2.
Proof. pose proof root2_size. split; cbn; change (MAXFILE * BSIZE) with 274432; lia. Qed.
Lemma root2_same b : sb_bmapstart sb ≤ b → disk_block disk2 b = disk_block (view s) b.
Proof. intros Hb. apply put_inode_same; [|done]. apply inum_fits, root2_inum. Qed.
Lemma root2_fsys : fsys sb disk2 root2.
Proof.
  destruct root_file as (F & _). pose proof (fo_fsys _ _ _ F) as Hf. destruct (meta_fsys sb mk_layout (view s) disk2 root2_same ip) as (A & B & [W1 W2 W3 W4]);
    [apply put_inode_blocks, Hf|done|]. split_and!; [done|done|]. by split.
Qed.
Lemma root2_dinode : dinode_ok root2.
Proof.
  destruct root_file as (F & _). destruct root2_fsys as (_ & _ & W). apply (iwf_dinode sb mk_layout disk2); [done| |apply root2_size_ok].
  destruct (fo_short _ _ _ F). by split.
Qed.
Lemma root2_slot k : slot disk2 root2 k = slot (view s) ip k.
Proof. destruct root_file as (F & _). destruct (fo_fsys _ _ _ F) as (_ & _ & W). by apply (meta_slot sb mk_layout _ _ root2_same ip). Qed.
Lemma root2_data : filedata disk2 root2 = x ++ replicate (Z.to_nat (whole (in_size ip) - in_size ip)) 0.
Proof.
  destruct root_file as (F & _). pose proof (fo_fsys _ _ _ F) as (_ & _ & W). pose proof root2_size as Hz.
  transitivity (content (view s) ip 0 (whole (in_size ip))).
  { apply content_ext; [|lia|cbn; change (MAXFILE * BSIZE) with 274432; lia]. intros bn Hbn. by apply (meta_fblock sb mk_layout _ _ root2_same ip). }
  replace (whole (in_size ip)) with (in_size ip + (whole (in_size ip) - in_size ip)) at 1 by lia. rewrite content_app by lia.
  f_equal; [apply F|]. apply list_eq. intros i. rewrite lookup_content. destruct (decide (Z.of_nat i < whole (in_size ip) - in_size ip)) as [Hi|Hi].
  - rewrite (fo_tail _ _ _ F) by lia. symmetry. apply lookup_replicate. lia.
  - symmetry. apply lookup_replicate_None. lia.
Qed.
(** A directory that ends with a block gets one more, which is not there. *)
Lemma root2_solid : solid disk2 root2 ↔ in_size ip mod BSIZE ≠ 0.
Proof.
  destruct root_file as (F & _). pose proof root2_size as Hz. rewrite BSIZE_val.
  pose proof (Z.div_mod (in_size ip) 1024 ltac:(lia)) as Hd. pose proof (Z.mod_pos_bound (in_size ip) 1024 ltac:(lia)). split.
  - intros Hs Hm. destruct (fslot_range (in_size ip / 1024)) as [Hr _]; [change MAXFILE with 268; lia|].
    specialize (Hs (in_size ip / 1024) ltac:(lia)). rewrite root2_slot, BSIZE_val in Hs. apply (fo_exact _ _ _ F _ Hr) in Hs; [|cbn; lia].
    revert Hs. unfold fslot. change NDIRECT with 12. destruct (Z.ltb_spec (in_size ip / 1024) 12); [rewrite need_direct by done; lia|rewrite need_entry by lia; lia].
  - intros Hm bn Hbn Hb. rewrite root2_slot. apply (exact_solid _ _ (fo_size _ _ _ F) (fo_exact _ _ _ F)); [done|].
    cbn in Hb. unfold whole in Hb. rewrite BSIZE_val in *. lia.
Qed.
Lemma others2 i n : l !! i = Some n → file_ok disk2 n.1 n.2 ∧ ∀ k, 0 ≤ k < NSLOT → slot disk2 n.1 k = slot (view s) n.1 k.
Proof.
  intros Hn. destruct (im_file _ _ H (S i) n Hn) as (F & E & _). apply put_other; [done|apply root2_inum| |apply root2_dinode].
  destruct root_file as (_ & E1 & _). cbn. lia.
Qed.
Lemma fix_root_ok e :
  ∃ s', fix_root 1 e s = Ret tt e s' ∧ sound s' ∧ view s' = disk2 ∧ mk_freeblock s' = mk_freeblock s.
Proof.
  destruct root_file as (F & E & _). pose proof root2_size as Hz. pose proof (im_sound _ _ H) as Hs. unfold fix_root.
  assert (Ed : dinode_at sb (view s) 1 (zero_dinode 1) = ip) by (by rewrite <-E, (fo_disk _ _ _ F), (loaded_zero _ _ _ F)).
  mrun (rinode_ok s 1 e Hs ltac:(lia)). rewrite Ed, (xint_id (in_size ip)) by lia.
  fold (whole (in_size ip)). rewrite xint_id by lia. fold root2. destruct (winode_ok s root2 e Hs root2_inum) as (s' & Hr & Hs' & Hv & Hc & _).
  change (in_inum root2) with (in_inum ip) in Hr. rewrite E in Hr. by exists s'.
Qed.
End fix_root.

Section made.
Context (files : list arg) (s : mkst) (ip : inode) (l : list node) (H : image s ((ip, root_entries files) :: l)).
Context (Hl : l.*2 = file_bytes <$> files) (Hmax : in_size ip + 1024 ≤ 274432).
Abbreviation d := (disk2 s ip).
Abbreviation ips := (root2 ip :: l.*1).

Lemma other_node i jp : l.*1 !! i = Some jp → ∃ y, l !! i = Some (jp, y).
Proof. intros Hj. rewrite list_lookup_fmap in Hj. destruct (l !! i) as [[jp' y]|]; [|done]. injection Hj as <-. by exists y. Qed.
Lemma node_slot i jp k :
  ips !! i = Some jp → 0 ≤ k < NSLOT → ∃ n, ((ip, root_entries files) :: l) !! i = Some n ∧ slot d jp k = slot (view s) n.1 k.
Proof.
  intros Hj Hk. destruct i as [|i].
  - injection Hj as <-. exists (ip, root_entries files). split; [done|]. by eapply root2_slot.
  - destruct (other_node i jp Hj) as [y Hy]. exists (jp, y). split; [done|]. by eapply (others2 s ip _ l H Hmax i (jp, y) Hy).
Qed.
Lemma low_block b : b < 32 → disk_block d b = if decide (b = 1) then sb_bytes sb else zero_block.
Proof.
  intros Hb. destruct (root_file _ _ _ _ H) as (_ & E & _). unfold disk2, put_inode. rewrite disk_block_insert, decide_False; [by apply (im_meta _ _ H)|].
  unfold inode_blk. change (in_inum (root2 ip)) with (in_inum ip). rewrite E. change (32 ≠ b). lia.
Qed.
Lemma node_ok i jp : ips !! i = Some jp →
  fsys sb d jp ∧ size_ok jp ∧ in_inum jp = Z.of_nat i + 1 ∧ (∀ y, dinode_at sb d (in_inum jp) y = loaded jp y) ∧
  in_type jp = (if decide (i = 0%nat) then T_DIR else T_FILE) ∧ in_nlink jp = 1.
Proof.
  destruct (root_file _ _ _ _ H) as (F & E1 & E2 & E3). destruct i as [|i]; intros Hj.
  - injection Hj as <-. split_and!; [by eapply root2_fsys|by eapply root2_size_ok|done| |done|done]. intros y. unfold disk2.
    rewrite dinode_at_put; [by rewrite decide_True|by eapply inum_fits, root2_inum|cbn; lia|by eapply root2_dinode|by apply view_blocks, (im_sound _ _ H)].
  - destruct (other_node i jp Hj) as [y Hy]. destruct (others2 s ip _ l H Hmax i _ Hy) as [Fj _].
    destruct (im_file _ _ H (S i) _ Hy) as (_ & ? & ? & ?). split_and!; [apply Fj|apply Fj|done|apply Fj|done|done].
Qed.
Lemma node_data : filedata d <$> ips = root_dir files :: (file_bytes <$> files).
Proof.
  destruct (root_file _ _ _ _ H) as (F & _). rewrite fmap_cons. f_equal.
  - unfold root_dir. rewrite (file_length _ _ _ F). by eapply root2_data.
  - rewrite <-Hl. apply list_eq. intros i. rewrite !list_lookup_fmap. destruct (l !! i) as [[jp y]|] eqn:Hy; [|done]. cbn. f_equal.
    by apply (others2 s ip _ l H Hmax i _ Hy).
Qed.
Lemma node_solid i jp : ips !! i = Some jp → solid d jp ↔ i ≠ 0%nat ∨ Z.of_nat (length (root_entries files)) mod BSIZE ≠ 0.
Proof.
  destruct (root_file _ _ _ _ H) as (F & _). destruct i as [|i]; intros Hj.
  - injection Hj as <-. rewrite (root2_solid _ _ _ _ H Hmax), (file_length _ _ _ F). split; [by right|by intros [?|?]].
  - split; [by left|intros _]. destruct (other_node i jp Hj) as [y Hy]. destruct (others2 s ip _ l H Hmax i _ Hy) as [Fj _]. apply exact_solid; apply Fj.
Qed.
Lemma node_apart i j jp kp : i ≠ j → ips !! i = Some jp → ips !! j = Some kp → apart d jp kp.
Proof.
  intros Hij Hi Hj k Hk Hn0 (k2 & Hk2 & Eo). destruct (node_slot i jp k2 Hi Hk2) as (n & Hni & En), (node_slot j kp k Hj Hk) as (m & Hmj & Em).
  apply (im_apart _ _ H i j n m Hij Hni Hmj k Hk); [by rewrite <-Em|]. exists k2. split; [done|]. congruence.
Qed.
Lemma node_used b : dstart sb ≤ b < sb_size sb → used sb d b = true ↔ ∃ i jp, ips !! i = Some jp ∧ owns d jp b.
Proof.
  intros Hb. rewrite dstart_val, sb_size_val in Hb. pose proof (im_sound _ _ H) as Hs.
  rewrite (meta_used sb mk_layout (view s) d (root2_same _ _ _ _ H)) by (rewrite sb_size_val; lia).
  rewrite (view_used s Hs), bool_decide_eq_true by lia. split.
  - intros Hlt. destruct (all_owned s _ b H) as (i & n & Hni & (k & Hk & Eo)); [rewrite nmeta_val; lia|].
    assert (Hi : ∃ jp, ips !! i = Some jp).
    { destruct i as [|i]; [by eexists|]. exists n.1. change (l.*1 !! i = Some n.1). change (l !! i = Some n) in Hni. rewrite list_lookup_fmap. by setoid_rewrite Hni. }
    destruct Hi as [jp Hi]. exists i, jp. split; [done|]. exists k. split; [done|]. destruct (node_slot i jp k Hi Hk) as (n' & Hn' & ->). congruence.
  - intros (i & jp & Hi & (k & Hk & Eo)). destruct (node_slot i jp k Hi Hk) as (n & Hn & En). destruct (im_file _ _ H i n Hn) as (F & _).
    pose proof (slot_range s n.1 k Hs (fo_fsys _ _ _ F) Hk). lia.
Qed.
Lemma made_ok : made files d ips.
Proof.
  destruct (root_file _ _ _ _ H) as (_ & E1 & _). assert (Hlf : length l = length files) by (rewrite <-(length_fmap snd l), Hl; by rewrite length_fmap).
  split; [|..|exact node_apart| |exact node_used].
  - rewrite low_block by lia. vm_compute. reflexivity.
  - intros b Hb. change (2 ≤ b < 32) in Hb. rewrite low_block, decide_False by lia. done.
  - cbn [length]. by rewrite length_fmap, Hlf.
  - exact node_ok.
  - exact node_data.
  - exact node_solid.
  - intros inum y Hi Hf. cbn [length] in Hf. rewrite length_fmap in Hf. unfold NINODES in Hi. unfold disk2.
    rewrite dinode_at_put; [|by eapply inum_fits, root2_inum|lia|by eapply root2_dinode|by apply view_blocks, (im_sound _ _ H)].
    rewrite decide_False by (cbn; lia). rewrite (im_free _ _ H); [done|lia|cbn [length]; lia].
Qed.
End made.

Lemma main_blank img files e :
  is_Some img.2 → main (img :: files) e start =
    (rootino <- ialloc 1 ;;
     if negb (rootino =? ROOTINO) then panic "rootino == ROOTINO" else
     iappend rootino (de rootino [46]) ;;; iappend rootino (de rootino [46; 46]) ;;; main_files rootino files ;;; fix_root rootino ;;;
     used <- gets mk_freeblock ;; balloc used) e blank.
Proof. intros [c Ec]. unfold main. rewrite Ec. mstep. mrun (zero_sectors_ok (seqZ 0 FSSIZE) e (set_mk_freeblock nmeta start)). unfold wsect at 1. mstep. reflexivity. Qed.

Lemma main_image img files e :
  is_Some img.2 → Forall arg_ok files → Z.of_nat (length files) + 1 < NINODES →
  nmeta + blocks_of (root_entries files :: (file_bytes <$> files)) ≤ FSSIZE →
  ∃ s ips, main (img :: files) e start = Ret tt e s ∧ made files (mk_disk s) ips.
Proof.
  intros Hi Hok Hn Hc. unfold NINODES in Hn. rewrite main_blank by done. pose proof (length_root files) as Hlr.
  cbn [blocks_of] in Hc. pose proof (blocks_nonneg (file_bytes <$> files)). assert (H0 : holds blank []) by (exists []; split; [apply blank_image|done]).
  destruct (ialloc_ok blank [] e H0 ltac:(done)) as (s1 & Hr1 & H1). cbn [length app] in Hr1, H1. rewrite decide_True in Hr1 by done.
  change (Z.of_nat 0 + 1) with 1 in *. mrun Hr1. change (1 =? ROOTINO) with true. cbn [negb].
  pose proof (nblk_mono 16 (Z.of_nat (length (root_entries files))) ltac:(lia)) as Hm16.
  pose proof (nblk_mono 32 (Z.of_nat (length (root_entries files))) ltac:(lia)) as Hm32.
  destruct (append_ok s1 [[]] 0 [] (de 1 [46]) e H1 eq_refl) as (s2 & Hr2 & H2); [cbn [app]; rewrite length_de; done|..].
  { cbn [insert list_insert blocks_of app]. rewrite length_de. change (Z.of_nat 16) with 16. lia. }
  change (Z.of_nat 0 + 1) with 1 in Hr2. mrun Hr2. cbn [insert list_insert app] in H2.
  destruct (append_ok s2 [de 1 [46]] 0 _ (de 1 [46; 46]) e H2 eq_refl) as (s3 & Hr3 & H3); [rewrite length_app, !length_de; done|..].
  { cbn [insert list_insert blocks_of]. rewrite length_app, !length_de. change (Z.of_nat (16 + 16)) with 32. lia. }
  change (Z.of_nat 0 + 1) with 1 in Hr3. mrun Hr3. cbn [insert list_insert] in H3.
  destruct (main_files_ok s3 _ [] files e H3 Hok) as (s4 & Hr4 & H4); cbn [length]; [lia| | |].
  { rewrite <-app_assoc. change (Z.of_nat 1 + 1) with 2. fold (root_entries files). lia. } { rewrite <-app_assoc. change (Z.of_nat 1 + 1) with 2. fold (root_entries files). exact Hc. }
  mrun Hr4. rewrite <-app_assoc in H4. cbn [length] in H4. change (Z.of_nat 1 + 1) with 2 in H4. fold (root_entries files) in H4. cbn [app] in H4.
  destruct H4 as ([|[ip x] l] & H4 & El); [done|]. rewrite fmap_cons in El. injection El as -> El.
  destruct (root_file _ _ _ _ H4) as (F & _). pose proof (file_length _ _ _ F). assert (Hmax : in_size ip + 1024 ≤ 274432) by lia.
  destruct (fix_root_ok s4 ip _ l H4 Hmax e) as (s5 & Hr5 & Hs5 & Hv5 & Hc5). mrun Hr5. pose proof (so_range _ Hs5) as Hr. unfold FSSIZE in Hr.
  assert (Hlt : (mk_freeblock s5 <? BSIZE * 8) = true) by (change (BSIZE * 8) with 8192; apply Z.ltb_lt; lia).
  mstep. unfold balloc. rewrite Hlt. cbn [negb]. unfold wsect. mstep.
  eexists _, _. split; [done|]. cbn [mk_disk set_mk_disk]. fold (view s5). rewrite Hv5. by apply made_ok.
Qed.

(** C12: mkfs makes a file system.  When the image and the files can be opened,
    the names have no slash, each file fits an inode, the inodes suffice and the
    blocks of all files fit the disk, [main] ends without a failed assertion,
    and the image it wrote has the superblock the kernel expects, an empty log,
    the root directory with one entry per file, and each file with exactly its
    bytes; the inodes are on the disk, no two files share a block, the other
    inodes are free, and a data block is marked in use exactly when a file owns
    it.  Every block of a file is there, but for the last one of a root directory
    whose entries fill their blocks: its size is then a block too large. *)
Theorem mkfs_image img files :
  is_Some img.2 → Forall arg_ok files → Z.of_nat (length files) + 1 < NINODES →
  nmeta + blocks_of (root_entries files :: (file_bytes <$> files)) ≤ FSSIZE →
  ∃ s ips, main (img :: files) [] start = Ret tt [] s ∧ layout sb ∧ made files (mk_disk s) ips.
Proof.
  intros Hi Hok Hn Hc. destruct (main_image img files [] Hi Hok Hn Hc) as (s & ips & Hr & Hm). exists s, ips. split_and!; [done|apply mk_layout|done].
Qed.

(** Two files: user/_cat, of two chunks, and README, which is empty. *)
Definition two_files : list arg :=
  [([117; 115; 101; 114; 47; 95; 99; 97; 116], Some [replicate 1024 7; [8; 9]]); ([82; 69; 65; 68; 77; 69], Some [])].
Lemma mkfs_image_witness :
  Forall arg_ok two_files ∧
  ∃ s ips, main (([102; 115; 46; 105; 109; 103], Some []) :: two_files) [] start = Ret tt [] s ∧ layout sb ∧ made two_files (mk_disk s) ips.
Proof.
  assert (Hok : Forall arg_ok two_files).
  { apply Forall_cons; split; [|apply Forall_cons; split; [|constructor]]; (split; [apply (bool_decide_unpack _); vm_compute; exact Logic.I|]);
      (split; [eexists; reflexivity|vm_compute; discriminate]). }
  split; [exact Hok|]. apply (mkfs_image (_, Some []) two_files); [eexists; reflexivity|exact Hok|reflexivity|vm_compute; discriminate].
Defined.
End Mkimage.
