(* ===== verification/Console.v ===== *)
(** kernel/uart.c, kernel/printf.c, kernel/console.c and [procdump] of
    kernel/proc.c: the serial port, the kernel's own output, and line-edited
    console input.

    The device is the two byte streams of [k_uart] and its answers to whether
    it can take a byte; its other registers are in [k_mmio]. *)

From S2P Require Import Prelude Mem KString Params Print Kernel Spinlock Sched Virtio Vm Fs.

(** * kernel/uart.c *)

Definition RHR : Z := 0.
Definition THR : Z := 0.
Definition IER : Z := 1.
Definition FCR : Z := 2.
Definition LCR : Z := 3.
Definition IER_RX_ENABLE : Z := Z.shiftl 1 0.
Definition IER_TX_ENABLE : Z := Z.shiftl 1 1.
Definition FCR_FIFO_ENABLE : Z := Z.shiftl 1 0.
Definition FCR_FIFO_CLEAR : Z := Z.shiftl 3 1.
Definition LCR_EIGHT_BITS : Z := Z.shiftl 3 0.
Definition LCR_BAUD_LATCH : Z := Z.shiftl 1 7.
Definition LSR_RX_READY : Z := Z.shiftl 1 0.
Definition LSR_TX_IDLE : Z := Z.shiftl 1 5.
Definition UART_TX_BUF_SIZE : Z := 32.

Definition modify_uart (f : uartst → uartst) : K unit := modify (λ s, set_k_uart (f (k_uart s)) s).

(** [ReadReg(LSR)] *)
Definition read_lsr : K Z :=
  u <- gets k_uart ;;
  modify_uart (λ u, set_u_idle (tail (u_idle u)) u) ;;;
  ret (Z.lor (if bool_decide (u_in u = []) then 0 else LSR_RX_READY)
             (if hd true (u_idle u) then LSR_TX_IDLE else 0)).
(** [ReadReg(RHR)] *)
Definition read_rhr : K Z :=
  u <- gets k_uart ;;
  modify_uart (λ u, set_u_in (tail (u_in u)) u) ;;;
  ret (hd 0 (u_in u)).
(** [WriteReg(THR, c)] *)
Definition write_thr (c : Z) : K unit := modify_uart (λ u, set_u_out (u_out u ++ [u8 c]) u).
Definition write_reg (reg v : Z) : K unit :=
  modify (λ s, set_k_mmio (<[UART0 + reg := v]> (k_mmio s)) s).

Definition uartinit : K unit :=
  write_reg IER 0 ;;;
  write_reg LCR LCR_BAUD_LATCH ;;;
  write_reg 0 3 ;;;
  write_reg 1 0 ;;;
  write_reg LCR LCR_EIGHT_BITS ;;;
  write_reg FCR (Z.lor FCR_FIFO_ENABLE FCR_FIFO_CLEAR) ;;;
  write_reg IER (Z.lor IER_TX_ENABLE IER_RX_ENABLE) ;;;
  initlock L_uart "uart".

Definition uartstart_turn (_ : unit) : K (unit + unit) :=
  u <- gets k_uart ;;
  if u_tx_w u =? u_tx_r u then ret (inr tt) else
  lsr <- read_lsr ;;
  if Z.land lsr LSR_TX_IDLE =? 0 then ret (inr tt) else
  c <- deref (u_tx_buf u !! Z.to_nat (u_tx_r u mod UART_TX_BUF_SIZE)) ;;
  modify_uart (λ u, set_u_tx_r (u64 (u_tx_r u + 1)) u) ;;;
  wakeup Ch_uart_tx_r ;;;
  write_thr c ;;;
  ret (inl tt).
Definition uartstart : K unit := loop uartstart_turn tt.

(** [for(;;) ;] *)
Definition spin_forever {A} : K A := λ _ _, Diverge.

Definition uartputc_turn (c : Z) (_ : unit) : K (unit + unit) :=
  u <- gets k_uart ;;
  if u_tx_w u =? u64 (u_tx_r u + UART_TX_BUF_SIZE) then
    sleep Ch_uart_tx_r L_uart ;;;
    ret (inl tt)
  else
    modify_uart (λ u, set_u_tx_buf (<[Z.to_nat (u_tx_w u mod UART_TX_BUF_SIZE) := u8 c]> (u_tx_buf u)) u) ;;;
    modify_uart (λ u, set_u_tx_w (u64 (u_tx_w u + 1)) u) ;;;
    uartstart ;;;
    release L_uart ;;;
    ret (inr tt).
Definition uartputc (c : Z) : K unit :=
  acquire L_uart ;;;
  p <- gets k_panicked ;;
  if negb (p =? 0) then spin_forever else
  loop (uartputc_turn c) tt.

Definition uartputc_sync (c : Z) : K unit :=
  push_off ;;;
  p <- gets k_panicked ;;
  if negb (p =? 0) then spin_forever else
  loop (λ _, lsr <- read_lsr ;;
             ret (if Z.land lsr LSR_TX_IDLE =? 0 then inl tt else inr tt)) tt ;;;
  write_thr c ;;;
  pop_off.

Definition uartgetc : K Z :=
  lsr <- read_lsr ;;
  if negb (Z.land lsr 1 =? 0) then read_rhr else ret (-1).

(** * Output: kernel/printf.c and the output half of kernel/console.c *)

Definition BACKSPACE : Z := 0x100.
Definition consputc (c : Z) : K unit :=
  if c =? BACKSPACE then uartputc_sync 8 ;;; uartputc_sync 32 ;;; uartputc_sync 8
  else uartputc_sync c.
Fixpoint consputs (l : list Z) : K unit :=
  match l with [] => ret tt | c :: l' => consputc c ;;; consputs l' end.

(** [digits[]], lower case. *)
Definition kdigit (d : Z) : Z := if d <? 10 then 48 + d else 87 + d.

Definition kprintint_buf (xx base : Z) (sgn : bool) : list Z :=
  let neg := sgn && (xx <? 0) in
  let x := if neg then u32 (- xx) else u32 xx in
  int_digits kdigit x base ++ (if neg then [45] else []).
Definition kprintint (xx base : Z) (sgn : bool) : K unit :=
  let buf := kprintint_buf xx base sgn in
  if (16 <? length buf)%nat then stuck else consputs (reverse buf).

Fixpoint kprintptr_loop (n : nat) (x : Z) : K unit :=
  match n with
  | O => ret tt
  | S n' => consputc (kdigit (Z.shiftr x 60)) ;;; kprintptr_loop n' (u64 (Z.shiftl x 4))
  end.
Definition kprintptr (x : Z) : K unit :=
  consputc 48 ;;; consputc 120 ;;; kprintptr_loop 16 x.

Definition kconversion (c : Z) (ap : list varg) : K (list varg) :=
  if c =? 100 (* d *) then
    match ap with VA v :: ap' => kprintint (i32 v) 10 true ;;; ret ap' | _ => stuck end
  else if c =? 120 (* x *) then
    match ap with VA v :: ap' => kprintint (i32 v) 16 true ;;; ret ap' | _ => stuck end
  else if c =? 112 (* p *) then
    match ap with VA v :: ap' => kprintptr (u64 v) ;;; ret ap' | _ => stuck end
  else if c =? 115 (* s *) then
    match ap with VAs s :: ap' => consputs (cbytes (default null_str s)) ;;; ret ap' | _ => stuck end
  else if c =? 37 (* % *) then consputc 37 ;;; ret ap
  else consputc 37 ;;; consputc c ;;; ret ap.

Fixpoint kprintf_loop (fmt : list Z) (ap : list varg) : K unit :=
  match fmt with
  | [] => ret tt
  | c :: fmt' =>
      if c =? 0 then ret tt
      else if negb (c =? 37) then consputc c ;;; kprintf_loop fmt' ap
      else
        match fmt' with
        | [] => ret tt
        | c' :: fmt'' =>
            if c' =? 0 then ret tt
            else ap' <- kconversion c' ap ;; kprintf_loop fmt'' ap'
        end
  end.
(** A null format is [None]. *)
Definition kprintf (fmt : option (list Z)) (ap : list varg) : K unit :=
  locking <- gets k_locking ;;
  when (negb (locking =? 0)) (acquire L_pr) ;;;
  match fmt with
  | None => panic "null fmt"
  | Some fmt =>
      kprintf_loop fmt ap ;;;
      when (negb (locking =? 0)) (release L_pr)
  end.

(** A string literal. *)
Definition str (s : string) : list Z := (λ c, Z.of_nat (Ascii.nat_of_ascii c)) <$> String.list_ascii_of_string s.
Definition nl : list Z := [10].

(** What the [panic] outcome of the model stands for: the message is printed
    and the machine stops. *)
Definition panic_prints (msg : string) : K unit :=
  modify (set_k_locking 0) ;;;
  kprintf (Some (str "panic: ")) [] ;;;
  kprintf (Some (str msg)) [] ;;;
  kprintf (Some nl) [] ;;;
  modify (set_k_panicked 1) ;;;
  spin_forever.

Definition printfinit : K unit :=
  initlock L_pr "pr" ;;;
  modify (set_k_locking 1).

(** * kernel/proc.c: the process listing *)

Definition state_name (st : procstate) : list Z :=
  str match st with
      | UNUSED => "unused" | USED => "???" | SLEEPING => "sleep " | RUNNABLE => "runble"
      | RUNNING => "run   " | ZOMBIE => "zombie"
      end.
Definition procdump : K unit :=
  kprintf (Some nl) [] ;;;
  for_in (seq 0 nproc) (λ i,
    p <- proc_of i ;;
    when (bool_decide (p_state p ≠ UNUSED)) (
      kprintf (Some (str "%d %s %s")) [VA (p_pid p); VAs (Some (state_name (p_state p))); VAs (Some (p_name p))] ;;;
      kprintf (Some nl) []) ;;;
    ret (@None unit)) ;;;
  ret tt.

(** * kernel/console.c *)

Definition INPUT_BUF : Z := 128.
Definition ctrl (x : Z) : Z := x - 64.
Definition modify_cons (f : consst → consst) : K unit := modify (λ s, set_k_cons (f (k_cons s)) s).
(** [cons.buf[i % INPUT_BUF]] *)
Definition cons_at (i : Z) : K Z :=
  c <- gets k_cons ;; deref (cons_buf c !! Z.to_nat (i mod INPUT_BUF)).

Definition consolewrite_turn (src : place) (n i : Z) : K (Z + Z) :=
  if i <? n then
    r <- either_copyin (place_add src i) 1 ;;
    if r.1 =? -1 then ret (inr i)
    else uartputc (hd 0 r.2) ;;; ret (inl (i + 1))
  else ret (inr i).
Definition consolewrite (src : place) (n : Z) : K Z := loop (consolewrite_turn src n) 0.

(** Waiting for input; [inl] on [return -1]. *)
Definition consoleread_wait (_ : unit) : K (unit + (Z + unit)) :=
  c <- gets k_cons ;;
  if cons_r c =? cons_w c then
    p <- myproc ;;
    p <- deref p ;;
    pr <- proc_of p ;;
    if negb (p_killed pr =? 0) then
      release L_cons ;;;
      ret (inr (inl (-1)))
    else
      sleep Ch_cons_r L_cons ;;;
      ret (inl tt)
  else ret (inr (inr tt)).
(** [inr (inl v)] is [return v], [inr (inr n)] leaves the loop. *)
Definition consoleread_turn (target : Z) (st : place * Z) : K (place * Z + (Z + Z)) :=
  let '(dst, n) := st in
  if n >? 0 then
    r <- loop consoleread_wait tt ;;
    match r with
    | inl v => ret (inr (inl v))
    | inr _ =>
        cs <- gets k_cons ;;
        c <- cons_at (cons_r cs) ;;
        modify_cons (λ cs, set_cons_r (u32 (cons_r cs + 1)) cs) ;;;
        if c =? ctrl 68 (* D *) then
          when (n <? target) (modify_cons (λ cs, set_cons_r (u32 (cons_r cs - 1)) cs)) ;;;
          ret (inr (inr n))
        else
          r <- either_copyout dst [c] ;;
          if r =? -1 then ret (inr (inr n))
          else if c =? 10 then ret (inr (inr (n - 1)))
          else ret (inl (place_add dst 1, n - 1))
    end
  else ret (inr (inr n)).
Definition consoleread (dst : place) (n : Z) : K Z :=
  acquire L_cons ;;;
  r <- loop (consoleread_turn (u32 n)) (dst, n) ;;
  match r with
  | inl v => ret v
  | inr n' =>
      release L_cons ;;;
      ret (i32 (u32 n - n'))
  end.

Definition kill_line_turn (_ : unit) : K (unit + unit) :=
  c <- gets k_cons ;;
  if cons_e c =? cons_w c then ret (inr tt) else
  b <- cons_at (u32 (cons_e c - 1)) ;;
  if b =? 10 then ret (inr tt) else
  modify_cons (λ c, set_cons_e (u32 (cons_e c - 1)) c) ;;;
  consputc BACKSPACE ;;;
  ret (inl tt).

(** [cons.buf[cons.e++ % INPUT_BUF] = c] *)
Definition cons_put (c : Z) (cs : consst) : consst :=
  set_cons_e (u32 (cons_e cs + 1))
    (set_cons_buf (<[Z.to_nat (cons_e cs mod INPUT_BUF) := u8 c]> (cons_buf cs)) cs).

Definition consoleintr (c : Z) : K unit :=
  acquire L_cons ;;;
  (if c =? ctrl 80 (* P *) then procdump
   else if c =? ctrl 85 (* U *) then loop kill_line_turn tt
   else if (c =? ctrl 72 (* H *)) || (c =? 127) then
     cs <- gets k_cons ;;
     when (negb (cons_e cs =? cons_w cs)) (
       modify_cons (λ c, set_cons_e (u32 (cons_e c - 1)) c) ;;;
       consputc BACKSPACE)
   else
     cs <- gets k_cons ;;
     when (negb (c =? 0) && (u32 (cons_e cs - cons_r cs) <? INPUT_BUF)) (
       let c := if c =? 13 then 10 else c in
       consputc c ;;;
       modify_cons (cons_put c) ;;;
       cs <- gets k_cons ;;
       when ((c =? 10) || (c =? ctrl 68) || (cons_e cs =? u32 (cons_r cs + INPUT_BUF))) (
         modify_cons (λ cs, set_cons_w (cons_e cs) cs) ;;;
         wakeup Ch_cons_r))) ;;;
  release L_cons.

Definition CONSOLE : Z := 1.
Definition consoleinit : K unit :=
  initlock L_cons "cons" ;;;
  uartinit ;;;
  modify (λ s, set_k_devsw (<[Z.to_nat CONSOLE := Some Dev_console]> (k_devsw s)) s).

(** kernel/uart.c, the interrupt handler. *)
Definition uartintr_turn (_ : unit) : K (unit + unit) :=
  c <- uartgetc ;;
  if c =? -1 then ret (inr tt)
  else consoleintr c ;;; ret (inl tt).
Definition uartintr : K unit :=
  loop uartintr_turn tt ;;;
  acquire L_uart ;;;
  uartstart ;;;
  release L_uart.
