(* ===== verification/File.v ===== *)
(** kernel/file.c, and [pipealloc] of kernel/pipe.c. *)

From S2P Require Import Prelude Mem KString Params Kernel Spinlock Kalloc Sched Sleeplock Virtio Bio.
From S2P Require Import Log Vm Pipe Fs Console.

Definition nfile : nat := Z.to_nat NFILE.

Definition file_of (f : nat) : K file :=
  l <- gets k_files ;;
  deref (l !! f).
Definition modify_file (f : nat) (g : file → file) : K unit :=
  file_of f ;;;
  modify (λ s, set_k_files (alter g f (k_files s)) s).

Definition fileinit : K unit := initlock L_ftable "ftable".

Definition filealloc_turn (f : nat) : K (option nat) :=
  fl <- file_of f ;;
  if f_ref fl =? 0 then
    modify_file f (set_f_ref 1) ;;;
    release L_ftable ;;;
    ret (Some f)
  else ret None.
Definition filealloc : K (option nat) :=
  acquire L_ftable ;;;
  r <- for_in (seq 0 nfile) filealloc_turn ;;
  match r with
  | Some f => ret (Some f)
  | None => release L_ftable ;;; ret None
  end.

Definition filedup (f : nat) : K nat :=
  acquire L_ftable ;;;
  fl <- file_of f ;;
  if f_ref fl <? 1 then panic "filedup" else
  modify_file f (λ fl, set_f_ref (i32 (f_ref fl + 1)) fl) ;;;
  release L_ftable ;;;
  ret f.

(** [struct stat] as bytes: dev, ino, type, nlink, padding, size. *)
Definition stat_bytes (st : stat) : list Z :=
  le_bytes 4 (st_dev st) ++ le_bytes 4 (st_ino st) ++ le_bytes 2 (st_type st) ++
  le_bytes 2 (st_nlink st) ++ replicate 4 0 ++ le_bytes 8 (st_size st).

(** A device's functions. *)
Definition dev_read (d : devfn) (dst : place) (n : Z) : K Z :=
  match d with Dev_console => consoleread dst n end.
Definition dev_write (d : devfn) (src : place) (n : Z) : K Z :=
  match d with Dev_console => consolewrite src n end.
(** [devsw[major]], if it is in range and has functions. *)
Definition devsw_at (major : Z) : K (option devfn) :=
  l <- gets k_devsw ;;
  ret (if (major <? 0) || (NDEV <=? major) then None else mjoin (l !! Z.to_nat major)).

Section file.
Context {lnk : Linker} {dev : VirtioDev}.

Definition fileclose (f : nat) : K unit :=
  acquire L_ftable ;;;
  fl <- file_of f ;;
  if f_ref fl <? 1 then panic "fileclose" else
  modify_file f (λ fl, set_f_ref (i32 (f_ref fl - 1)) fl) ;;;
  fl <- file_of f ;;
  if f_ref fl >? 0 then release L_ftable else
  modify_file f (set_f_ref 0) ;;;
  modify_file f (set_f_type FD_NONE) ;;;
  release L_ftable ;;;
  match f_type fl with
  | FD_PIPE =>
      pi <- deref (f_pipe fl) ;;
      pipeclose pi (negb (f_writable fl =? 0))
  | FD_INODE | FD_DEVICE =>
      begin_op ;;;
      ip <- deref (f_ip fl) ;;
      iput ip ;;;
      end_op
  | FD_NONE => ret tt
  end.

Definition filestat (f : nat) (addr : Z) : K Z :=
  p <- myproc ;;
  fl <- file_of f ;;
  match f_type fl with
  | FD_INODE | FD_DEVICE =>
      ilock (f_ip fl) ;;;
      ip <- deref (f_ip fl) ;;
      st <- stati ip ;;
      iunlock (f_ip fl) ;;;
      p <- deref p ;;
      pr <- proc_of p ;;
      r <- copyout (p_pagetable pr) addr (stat_bytes st) ;;
      ret (if r <? 0 then -1 else 0)
  | _ => ret (-1)
  end.

Definition fileread (f : nat) (addr n : Z) : K Z :=
  fl <- file_of f ;;
  if f_readable fl =? 0 then ret (-1) else
  match f_type fl with
  | FD_PIPE =>
      pi <- deref (f_pipe fl) ;;
      piperead pi addr n
  | FD_DEVICE =>
      d <- devsw_at (f_major fl) ;;
      match d with None => ret (-1) | Some d => dev_read d (P_user addr) n end
  | FD_INODE =>
      ilock (f_ip fl) ;;;
      ip <- deref (f_ip fl) ;;
      fl' <- file_of f ;;
      r <- readi ip (P_user addr) (f_off fl') (u32 n) ;;
      when (r.1 >? 0) (modify_file f (λ fl, set_f_off (u32 (f_off fl + r.1)) fl)) ;;;
      iunlock (f_ip fl) ;;;
      ret r.1
  | FD_NONE => panic "fileread"
  end.

(** The bytes one transaction may write. *)
Definition filewrite_max : Z := (MAXOPBLOCKS - 1 - 1 - 2) / 2 * BSIZE.

Definition filewrite_turn (f : nat) (addr n i : Z) : K (Z + Z) :=
  if i <? n then
    let n1 := Z.min (n - i) filewrite_max in
    begin_op ;;;
    fl <- file_of f ;;
    ilock (f_ip fl) ;;;
    ip <- deref (f_ip fl) ;;
    fl <- file_of f ;;
    r <- writei ip (P_user (u64 (addr + i))) (f_off fl) n1 ;;
    when (r >? 0) (modify_file f (λ fl, set_f_off (u32 (f_off fl + r)) fl)) ;;;
    iunlock (f_ip fl) ;;;
    end_op ;;;
    if negb (r =? n1) then ret (inr i) else ret (inl (i + r))
  else ret (inr i).
Definition filewrite (f : nat) (addr n : Z) : K Z :=
  fl <- file_of f ;;
  if f_writable fl =? 0 then ret (-1) else
  match f_type fl with
  | FD_PIPE =>
      pi <- deref (f_pipe fl) ;;
      pipewrite pi addr n
  | FD_DEVICE =>
      d <- devsw_at (f_major fl) ;;
      match d with None => ret (-1) | Some d => dev_write d (P_user addr) n end
  | FD_INODE =>
      i <- loop (filewrite_turn f addr n) 0 ;;
      ret (if i =? n then n else -1)
  | FD_NONE => panic "filewrite"
  end.

(** ** kernel/pipe.c *)

(** The ring of a pipe in a fresh page follows the lock, at offset 24. *)
Definition fresh_pipe (pa : Z) (s : kstate) : pipe := mkpipe (read_bytes (k_mem s) (pa + 24) 512) 0 0 1 1.

(** The label [bad], reached before a page was allocated. *)
Definition pipealloc_bad (f0 f1 : option nat) : K (option (nat * nat)) :=
  match f0 with Some f => fileclose f | None => ret tt end ;;;
  match f1 with Some f => fileclose f | None => ret tt end ;;;
  ret None.
Definition as_pipe_end (pa rd wr : Z) (f : file) : file :=
  set_f_pipe (Some pa) (set_f_writable wr (set_f_readable rd (set_f_type FD_PIPE f))).
(** The two files on success. *)
Definition pipealloc : K (option (nat * nat)) :=
  f0 <- filealloc ;;
  match f0 with
  | None => pipealloc_bad None None
  | Some a =>
      f1 <- filealloc ;;
      match f1 with
      | None => pipealloc_bad f0 None
      | Some b =>
          pi <- kalloc ;;
          if pi =? 0 then pipealloc_bad f0 f1 else
          modify (λ s, set_k_pipes (<[pi := fresh_pipe pi s]> (k_pipes s)) s) ;;;
          initlock (L_pipe pi) "pipe" ;;;
          modify_file a (as_pipe_end pi 1 0) ;;;
          modify_file b (as_pipe_end pi 0 1) ;;;
          ret (Some (a, b))
      end
  end.
End file.
