(* ===== verification/Fsop.v ===== *)
(** Whole file operations: [begin_op] and [end_op] around a transaction, the
    lock of an inode, and [fileread] and [filewrite] of an inode, with what a
    crash during [filewrite] leaves on the disk. *)

From S2P Require Import Prelude Mem KString Params Kernel Spinlock Kalloc Sched Sleeplock Virtio Bio Bcache Log LogCrash.
From S2P Require Import Vm Uvm Ucopy Pipe Fs Fstx Fsblock Fsfile Fsio Fsinode Console File.

(** * A transaction *)

(** The log after [begin_op] of the only transaction. *)
Definition opened (R : kstate) : kstate := set_k_log (set_log_outstanding 1 (k_log R)) R.

Section txn.
Context {dev : VirtioDev} {ok : VirtioOk dev}.
Context (p : nat) (pid : Z) (ie : bool) (sb : superblock).
Implicit Types (hd : gmap Z nat) (h : gset Z) (d : gmap Z (list Z)) (w : list (Z * list Z)).

(** Between transactions the blocks are those of the disk. *)
Lemma tx_idle hd d w R s : fs p pid ie hd ∅ ∅ d w R s → log_ok [] (k_log R) → tx p pid ie d w hd ∅ [] d R s.
Proof.
  intros Hf Hl. split; [|done]. exists ∅, (k_log R). split_and!; [|done|done|].
  - by replace (set_k_log (k_log R) R) with R by (by destruct R).
  - intros b. rewrite lookup_empty. unfold refs.
    rewrite (decide_False (P := b ∈ [])), (decide_False (P := b ∈ ∅)); [done|apply not_elem_of_empty|apply not_elem_of_nil].
Qed.

Lemma begin_op_tx hd d w R s e :
  fs p pid ie hd ∅ ∅ d w R s → log_idle sb (k_log R) →
  ∃ s', begin_op e s = Ret tt e s' ∧ tx p pid ie d w hd ∅ [] d (opened R) s'.
Proof.
  intros Hf [L1 L2 L3 L4 L5]. pose proof (lo_n _ _ L1) as Hn. cbn in Hn.
  destruct (begin_op_ok p pid ie _ _ _ _ _ _ _ e Hf L3) as (s' & Hr & Hf').
  { rewrite L2. lia. } { rewrite L2, Hn. vm_compute. done. }
  exists s'. split; [done|]. rewrite L2 in Hf'. apply tx_idle; [done|]. by destruct L1.
Qed.

Lemma room_opened k R : log_idle sb (k_log R) → sb_nlog sb = LOGSIZE → (k ≤ 27)%nat → room k [] (k_log (opened R)).
Proof. intros [] Hn Hk. unfold room, opened. kproj. cbn [log_outstanding log_size set_log_outstanding length]. change LOGSIZE with 30 in *. lia. Qed.

(** The disk after the commit, and after a crash during it. *)
Record committed (d dn : gmap Z (list Z)) (ws : list (Z * list Z)) : Prop := {
  cm_home : home_eq (sb_logstart sb) (apply_writes d ws) dn;
  cm_hdr : hdr_of [] (disk_block d (sb_logstart sb)) → hdr_of [] (disk_block (apply_writes d ws) (sb_logstart sb));
  cm_crash : hdr_of [] (disk_block d (sb_logstart sb)) → ∀ ws1, ws1 `prefix_of` ws →
    recovers_to (sb_logstart sb) (apply_writes d ws1) d ∨ recovers_to (sb_logstart sb) (apply_writes d ws1) dn
}.

Lemma recovers_to_eq start d dn dn' : recovers_to start d dn → home_eq start dn dn' → recovers_to start d dn'.
Proof. intros (bs & H1 & H2 & H3) He. exists bs. split_and!; [done|done|]. by etrans. Qed.

Lemma txn_committed d dn bs xs ws :
  txn_blocks (sb_logstart sb) bs → length xs = length bs → txn_writes (sb_logstart sb) bs xs ws →
  home_eq (sb_logstart sb) (apply_writes d (zip bs xs)) dn → committed d dn ws.
Proof.
  intros Hb Hl Hw Hn. split.
  - destruct Hw as [[-> ->]|(y1 & y2 & _ & _ & ->)]; [done|]. etrans; [|exact Hn].
    pose proof (tb_len _ _ Hb) as Hle. unfold commit_writes. rewrite !apply_writes_app. cbn [apply_writes foldl fst snd].
    fold (apply_writes (<[sb_logstart sb := y1]> (apply_writes d (log_writes (sb_logstart sb) xs))) (zip bs xs)).
    intros b Hnb. assert (Hne : sb_logstart sb ≠ b) by (unfold in_log in Hnb; change LOGSIZE with 30 in *; lia).
    rewrite disk_block_insert, decide_False by done.
    apply (home_writes_again (sb_logstart sb) bs xs [] _ d Hb Hl); [set_solver| |done]. apply home_eq_log_writes. lia.
  - intros Hh. destruct Hw as [[-> ->]|(y1 & y2 & _ & Hy2 & ->)]; [done|]. unfold commit_writes.
    rewrite !app_assoc, apply_writes_snoc. cbn [fst snd]. by rewrite disk_block_insert, decide_True.
  - intros Hh ws1 Hp. destruct (crash_commit _ _ _ _ _ _ Hb Hl Hh Hw Hp) as [H|H]; [by left|right]. by eapply recovers_to_eq.
Qed.

Lemma end_op_tx hd bs d dn w R s n e :
  tx p pid ie d w hd ∅ bs dn R s → log_outstanding (k_log R) = 1 → log_committing (k_log R) = 0 →
  log_start (k_log R) = sb_logstart sb → log_size (k_log R) = sb_nlog sb → (length bs < nbuf)%nat → dev_env p (4 + 6 * length bs + n) e →
  ∃ ws hd' lg e' s', end_op e s = Ret tt e' s' ∧ dev_env p n e' ∧ log_idle sb lg ∧ committed d dn ws ∧
    fs p pid ie hd' ∅ ∅ (apply_writes d ws) (w ++ ws) (set_k_log lg R) s'.
Proof.
  intros [(m & lg & Hf & Hl & Hfix & Hm) Hrest] Ho Hc Hst Hsz Hbuf He.
  destruct (log_fixed_fields _ _ Hfix) as (F1 & F2 & F3 & F4 & _).
  assert (Hpin : ∀ b, b ∈ bs → m !! b = Some (1, disk_block dn b)).
  { intros b Hb. rewrite Hm. unfold refs. 
    by rewrite (decide_True (P := b ∈ bs)), (decide_False (P := b ∈ ∅)) by (done || apply not_elem_of_empty). }
  assert (Hdom : ∀ b, is_Some (m !! b) → b ∈ bs).
  { intros b [x Hx]. rewrite Hm in Hx. unfold refs in Hx. rewrite (decide_False (P := b ∈ ∅)) in Hx by apply not_elem_of_empty.
    destruct (decide (b ∈ bs)); done. }
  assert (Ht : in_txn bs m d dn lg) by (split; [done|done|done|]; intros b Hb; apply Hrest; set_solver).
  destruct (end_op_last p pid ie bs (disk_block dn <$> bs) _ _ _ _ _ s n e Hf) as (ws & hd' & e' & s' & Hr & He' & Hws & Hf').
  { done. } { kproj. congruence. } { kproj. congruence. }
  { apply Forall2_fmap_r, Forall_Forall2_diag, Forall_forall. done. } { done. }
  { pose proof (in_txn_size _ _ _ _ _ Ht). lia. } { done. }
  revert Hws Hf'. kproj. rewrite F1, Hst. intros Hws Hf'.
  exists ws, hd', (set_lh_n 0 (set_log_outstanding 0 lg)), e', s'. split_and!; [done|done| | |].
  - destruct Hl. split; [|done|cbn; congruence..]. split; try done. constructor. set_solver.
  - apply (txn_committed d dn bs (disk_block dn <$> bs)); [|by rewrite length_fmap|done|].
    + rewrite <-Hst, <-F1. by apply log_ok_blocks.
    + rewrite <-Hst, <-F1. by eapply in_txn_new.
  - by match type of Hf' with fs _ _ _ _ _ _ _ _ ?A _ =>
      replace (set_k_log (set_lh_n 0 (set_log_outstanding 0 lg)) R) with A by kstate_eq end.
Qed.
End txn.

(** * The lock of an inode and the file table *)

Section locks.
Context {dev : VirtioDev} {ok : VirtioOk dev}.
Context (p : nat) (pid : Z) (ie : bool).
Context (d : gmap Z (list Z)) (w : list (Z * list Z)).
Implicit Types (hd : gmap Z nat) (h : gset Z).

Abbreviation tx := (tx p pid ie d w).

Lemma tx_runs hd h bs dn R s : tx hd h bs dn R s → runs p pid ie [] s.
Proof. intros [(m & lg & Hf & _) _]. apply (fs_bio _ _ _ _ _ _ _ _ _ _ Hf). Qed.
Lemma tx_slock hd h bs dn R s i : tx hd h bs dn R s → slock_of s (SL_inode i) = slock_of R (SL_inode i).
Proof. intros [(m & lg & Hf & _) _]. apply (bf_slock _ _ (fs_frame _ _ _ _ _ _ _ _ _ _ Hf)). Qed.

Lemma tx_upd_slock f i hd h bs dn R s :
  tx hd h bs dn R s → tx hd h bs dn (upd_slock (SL_inode i) f R) (upd_slock (SL_inode i) f s).
Proof.
  intros H. pose proof (tx_slock _ _ _ _ _ _ i H) as Hsl.
  destruct H as [(m & lg & [B1 B2 B3 B4 [F1 F2 F3]] & Hl & Hfix & Hm) Hrest]. split; [|done].
  exists m, lg. split_and!; [|done..]. split; [|done|done|done|].
  - destruct B1 as [[] ? ? ? Hlk ? ?]. split; try done. intros j b Hb. rewrite slock_of_upd, decide_False by done. by apply Hlk.
  - split; [exact F1|exact F2|]. intros j. specialize (F3 j). rewrite slock_of_upd.
    change (slock_of (set_k_log lg (upd_slock (SL_inode i) f R)) (SL_inode j)) with (slock_of (upd_slock (SL_inode i) f R) (SL_inode j)).
    rewrite slock_of_upd, Hsl. case_decide; done.
Qed.

Lemma tx_woken ch hd h bs dn R s : tx hd h bs dn R s → tx hd h bs dn R (set_k_procs (woken (Some p) ch (k_procs s)) s).
Proof.
  intros [(m & lg & [B1 B2 B3 B4 [F1 F2 F3]] & Hl & Hfix & Hm) Hrest]. split; [|done].
  exists m, lg. split_and!; [|done..]. split; [|done|done|done|].
  - destruct B1 as [Hr ? ? ? ? ? ?]. split; try done. eapply runs_woken; [done|apply (rn_ctx _ _ _ _ _ Hr)|done].
  - split; [exact F1| |exact F3]. kproj. by rewrite pstatic_woken.
Qed.

(** The rest of the kernel as seen from another state that looks the same. *)
Lemma tx_anchor hd h bs dn R R' s : tx hd h bs dn R' s → bio_frame R R' → tx hd h bs dn R s.
Proof.
  intros [(m & lg & [B1 B2 B3 B4 F] & Hl & Hfix & Hm) Hrest] [G1 G2 G3]. split; [|done].
  exists m, lg. split_and!; [|done| |done].
  - split; [done..|]. etrans; [|exact F]. split; [exact (f_equal (set_k_log lg) G1)|exact G2|exact G3].
  - rewrite Hfix. f_equal. exact (f_equal k_log G1).
Qed.

Lemma tx_set_files l hd h bs dn R s : tx hd h bs dn R s → tx hd h bs dn (set_k_files l R) (set_k_files l s).
Proof.
  intros [(m & lg & [B1 B2 B3 B4 [F1 F2 F3]] & Hl & Hfix & Hm) Hrest]. split; [|done].
  exists m, lg. split_and!; [|done..]. split; [|done|done|done|].
  - destruct B1 as [[] ? ? ? ? ? ?]. split; try done.
  - split; [exact (f_equal (set_k_files l) F1)|exact F2|exact F3].
Qed.
Lemma tx_files hd h bs dn R s : tx hd h bs dn R s → k_files s = k_files R.
Proof. intros H. by apply (tx_frame p pid ie d w k_files _ _ _ _ _ _ H). Qed.
Lemma tx_file_of hd h bs dn R s f fl e :
  tx hd h bs dn R s → k_files R !! f = Some fl → file_of f e s = Ret fl e s.
Proof. intros H Hi. unfold file_of. mstep. by rewrite (tx_files _ _ _ _ _ _ H), Hi. Qed.
Lemma tx_modify_file g hd h bs dn R s f fl e :
  tx hd h bs dn R s → k_files R !! f = Some fl →
  ∃ s', modify_file f g e s = Ret tt e s' ∧ tx hd h bs dn (set_k_files (<[f := g fl]> (k_files R)) R) s'.
Proof.
  intros H Hi. unfold modify_file. mrun (tx_file_of _ _ _ _ _ _ f fl e H Hi). mstep.
  eexists. split; [reflexivity|]. rewrite (tx_files _ _ _ _ _ _ H).
  replace (alter g f (k_files R)) with (<[f := g fl]> (k_files R)); [by apply tx_set_files|].
  symmetry. apply list_eq. intros j. destruct (decide (f = j)) as [<-|Hne].
  - rewrite list_lookup_alter_eq, Hi, list_lookup_insert_eq by (by eapply lookup_lt_Some). done.
  - by rewrite list_lookup_alter_ne, list_lookup_insert_ne.
Qed.

(** An inode in use, read from the disk, with its lock free. *)
Record ready (R : kstate) (i : nat) (ip : inode) : Prop := {
  rd_inode : k_inodes R !! i = Some ip;
  rd_ref : 1 ≤ in_ref ip;
  rd_valid : in_valid ip ≠ 0;
  rd_free : sll_locked (slock_of R (SL_inode i)) = 0 ∧ sll_pid (slock_of R (SL_inode i)) = 0
}.

Definition locked (i : nat) (R : kstate) : kstate := upd_slock (SL_inode i) (slock_taken pid) R.

Lemma ilock_tx hd h bs dn R s i ip e :
  tx hd h bs dn R s → ready R i ip → ∃ s', ilock (Some i) e s = Ret tt e s' ∧ tx hd h bs dn (locked i R) s'.
Proof.
  intros H [R1 R2 R3 [R4 _]]. unfold ilock. mrun (tx_inode_of p pid ie d w _ _ _ _ _ _ i ip e H R1).
  rewrite (proj2 (Z.ltb_ge _ _)) by lia. pose proof (tx_runs _ _ _ _ _ _ H) as Hrn.
  destruct (runs_lookup _ _ _ _ _ Hrn) as (pr & Hp & Hpid). destruct (rn_ctx _ _ _ _ _ Hrn) as [hh Hc].
  destruct (acquiresleep_ok _ [] p pr (SL_inode i) e s Hc eq_refl Hp) as (c & Hr & Hc');
    [apply not_elem_of_nil|by rewrite (tx_slock _ _ _ _ _ _ i H)|]. mrun Hr. rewrite Hpid.
  assert (H1 : tx hd h bs dn (locked i R) (set_k_core c (upd_slock (SL_inode i) (slock_taken pid) s))).
  { eapply tx_core; [by apply tx_upd_slock|done]. }
  mrun (tx_inode_of p pid ie d w _ _ _ _ _ _ i ip e H1 R1). rewrite (proj2 (Z.eqb_neq _ _) R3). cbn [when].
  eexists. split; [reflexivity|exact H1].
Qed.

Lemma iunlock_tx hd h bs dn R s i ip e :
  tx hd h bs dn R s → k_inodes R !! i = Some ip → 1 ≤ in_ref ip →
  slock_of R (SL_inode i) = slock_taken pid (slock_of R (SL_inode i)) →
  ∃ s', iunlock (Some i) e s = Ret tt e s' ∧ tx hd h bs dn (upd_slock (SL_inode i) slock_released R) s'.
Proof.
  intros H R1 R2 R3. unfold iunlock. pose proof (tx_runs _ _ _ _ _ _ H) as Hrn.
  destruct (runs_lookup _ _ _ _ _ Hrn) as (pr & Hp & Hpid). destruct (rn_ctx _ _ _ _ _ Hrn) as [hh Hc].
  destruct (holdingsleep_ok _ [] p pr (SL_inode i) e s Hc eq_refl Hp) as (c & Hr & Hc'); [apply not_elem_of_nil|].
  mrun Hr. rewrite (tx_slock _ _ _ _ _ _ i H), R3, Hpid. cbn [slock_taken sll_locked sll_pid negb Z.eqb andb]. rewrite Z.eqb_refl. cbn [negb].
  pose proof (tx_core p pid ie d w _ _ _ _ _ _ c hh H Hc') as H1.
  mrun (tx_inode_of p pid ie d w _ _ _ _ _ _ i ip e H1 R1). rewrite (proj2 (Z.ltb_ge _ _)) by lia.
  destruct (releasesleep_ok (mkthread hh (Some p) ie) [] (SL_inode i) e (set_k_core c s)) as (c2 & Hr2 & Hc2).
  { done. } { apply (rn_len _ _ _ _ _ Hrn). } { intros j _. apply not_elem_of_nil. } { apply not_elem_of_nil. }
  rewrite Hr2. eexists. split; [reflexivity|]. eapply tx_core; [|done]. cbn [t_proc].
  apply (tx_woken (Ch_sleep (SL_inode i)) _ _ _ _ _ (upd_slock (SL_inode i) slock_released (set_k_core c s))).
  by apply tx_upd_slock.
Qed.
End locks.

(** * fileread *)

Lemma slock_cycle pid (l : sleeplock) : sll_locked l = 0 → sll_pid l = 0 → slock_released (slock_taken pid l) = l.
Proof. destruct l as [a b c]. cbn. by intros -> ->. Qed.

Section fileread.
Context {dev : VirtioDev} {ok : VirtioOk dev} {lnk : Linker} {lnk_ok : LinkerOk lnk}.
Context (p : nat) (pid : Z) (ie : bool).
Context (T : ptree) (sb : superblock) (Hla : layout sb).

(** A file of the table that is an inode. *)
Record inode_file (R : kstate) (f : nat) (fl : file) (i : nat) (ip : inode) : Prop := {
  if_file : k_files R !! f = Some fl;
  if_type : f_type fl = FD_INODE;
  if_ip : f_ip fl = Some i;
  if_off : 0 ≤ f_off fl ≤ in_size ip;
  if_ready : ready R i ip
}.
(** Its offset moved on. *)
Definition advance (f : nat) (fl : file) (n : Z) (R : kstate) : kstate :=
  set_k_files (<[f := set_f_off (f_off fl + n) fl]> (k_files R)) R.

Lemma advance_0 f fl R : k_files R !! f = Some fl → advance f fl 0 R = R.
Proof.
  intros H. unfold advance. rewrite Z.add_0_r. replace (set_f_off (f_off fl) fl) with fl by (by destruct fl).
  rewrite list_insert_id by done. by destruct R.
Qed.

(** The end of [fileread] and of a round of [filewrite]: the offset moves. *)
Lemma move_ok d w hd h bs dn R s f fl n e :
  tx p pid ie d w hd h bs dn R s → k_files R !! f = Some fl → 0 ≤ f_off fl → 0 ≤ n → f_off fl + n < 2 ^ 32 →
  ∃ s', when (n >? 0) (modify_file f (λ fl, set_f_off (u32 (f_off fl + n)) fl)) e s = Ret tt e s' ∧
    tx p pid ie d w hd h bs dn (advance f fl n R) s'.
Proof.
  intros H Hf Ho Hn Hlt. rewrite Z.gtb_ltb. destruct (Z.ltb_spec 0 n); cbn [when].
  - destruct (tx_modify_file p pid ie d w (λ fl, set_f_off (u32 (f_off fl + n)) fl) _ _ _ _ _ _ f fl e H Hf) as (s' & Hr & H').
    exists s'. split; [done|]. by rewrite u32_id in H' by lia.
  - assert (n = 0) as -> by lia. exists s. by rewrite advance_0.
Qed.

Lemma fileread_ok d w hd bs dn R s f fl i ip addr n k e :
  let l := take (Z.to_nat n) (drop (Z.to_nat (f_off fl)) (filedata dn ip)) in
  tx p pid ie d w hd ∅ bs dn R s → inode_file R f fl i ip → f_readable fl ≠ 0 → fsys sb dn ip → solid dn ip → size_ok ip →
  0 ≤ n < 2 ^ 31 → fits_at p T R (P_user addr) (Z.of_nat (length l)) → (length bs + 1 < nbuf)%nat →
  dev_env p (2 * nblocks (f_off fl) (Z.of_nat (length l)) + k) e →
  ∃ m hd' e' s', fileread f addr n e s = Ret (Z.of_nat (length l)) e' s' ∧ dev_env p k e' ∧
    stored T addr l (length l) (k_mem R) m ∧
    tx p pid ie d w hd' ∅ bs dn (advance f fl (Z.of_nat (length l)) (set_k_mem m R)) s'.
Proof.
  intros l H [F1 F2 F3 F4 F5] Hrd Hs Hso Hz Hn Hfit Hbuf He. unfold fileread.
  mrun (tx_file_of p pid ie d w _ _ _ _ _ _ f fl e H F1). rewrite (proj2 (Z.eqb_neq _ _) Hrd), F2, F3.
  pose proof F5 as [I1 I2 I3 [I4 I5]]. pose proof Hz as [_ Hz1]. change (MAXFILE * BSIZE) with 274432 in Hz1.
  destruct (ilock_tx p pid ie d w _ _ _ _ _ _ i ip e H F5) as (s1 & Hr1 & H1). mrun Hr1. mstep.
  mrun (tx_file_of p pid ie d w _ _ _ _ _ _ f fl e H1 F1). rewrite u32_id by lia.
  destruct (readi_ok p pid ie d w T sb Hla hd bs dn (locked pid i R) s1 i ip (f_off fl) n (P_user addr) k e)
    as (hd2 & R2 & e2 & s2 & Hr2 & He2 & H2 & m & -> & HS); try done; [lia|lia|lia|].
  fold l in Hr2, HS. mrun Hr2. cbn [fst].
  assert (Hl : Z.of_nat (length l) ≤ in_size ip - f_off fl).
  { unfold l. rewrite length_take, length_drop. unfold filedata. rewrite length_content. lia. }
  destruct (move_ok d w _ _ _ _ _ _ f fl (Z.of_nat (length l)) e2 H2) as (s3 & Hr3 & H3); [done|lia|lia|lia|]. mrun Hr3.
  destruct (iunlock_tx p pid ie d w _ _ _ _ _ _ i ip e2 H3) as (s4 & Hr4 & H4); [done|done| |].
  { change (slock_of (locked pid i R) (SL_inode i) = slock_taken pid (slock_of (locked pid i R) (SL_inode i))).
    unfold locked. rewrite slock_of_upd, decide_True by done. done. }
  mrun Hr4. exists m, hd2, e2, s4. split_and!; [done|done|done|].
  eapply tx_anchor; [exact H4|]. split; [reflexivity|reflexivity|]. intros j.
  rewrite slock_of_upd. change (slock_of (advance f fl (Z.of_nat (length l)) (set_k_mem m (locked pid i R))))
    with (slock_of (locked pid i R)). unfold locked. rewrite !slock_of_upd.
  change (slock_of (advance f fl (Z.of_nat (length l)) (set_k_mem m R))) with (slock_of R).
  destruct (decide (SL_inode i = SL_inode j)) as [E|E]; [|done]. rewrite decide_True, <-E by done. by rewrite slock_cycle.
Qed.
End fileread.

(** * filewrite *)

Section written.
Context (sb : superblock) (Hla : layout sb).

(** The inode on the disk is the one in memory. *)
Definition synced (d : gmap Z (list Z)) (ip : inode) : Prop := ∀ y, dinode_at sb d (in_inum ip) y = loaded ip y.

Lemma written_nil off d ip :
  fsys sb d ip → solid d ip → synced d ip → 0 ≤ off ≤ in_size ip → written sb off [] d ip d ip.
Proof.
  intros Hs Hso Hsy Ho. split; try done.
  - cbn [length]. lia.
  - by rewrite app_nil_l, Nat.add_0_r, take_drop.
  - exists (in_addrs ip). by destruct ip.
Qed.

Lemma written_ip off l d ip d' ip' : written sb off l d ip d' ip' → ∃ a z, ip' = set_in_size z (set_in_addrs a ip).
Proof. intros H. destruct (wt_inode _ _ _ _ _ _ _ H) as [a Ha]. eauto. Qed.
Lemma written_inum off l d ip d' ip' : written sb off l d ip d' ip' → in_inum ip' = in_inum ip.
Proof. intros (a & z & ->)%written_ip. done. Qed.

Lemma written_app off l1 l2 d ip d1 ip1 d2 ip2 :
  0 ≤ off ≤ in_size ip → written sb off l1 d ip d1 ip1 → written sb (off + Z.of_nat (length l1)) l2 d1 ip1 d2 ip2 →
  written sb off (l1 ++ l2) d ip d2 ip2.
Proof.
  intros Ho HA HB. pose proof (written_inum _ _ _ _ _ _ HA) as Hi. pose proof (written_ip _ _ _ _ _ _ HA) as (a1 & z1 & E1).
  destruct HA as [A1 A2 A3 A4 A5 A6 A7 A8 A9], HB as [B1 B2 B3 B4 B5 B6 B7 B8 B9]. split; try done.
  - rewrite B3, A3, length_app. lia.
  - rewrite B4, A4. set (f0 := filedata d ip).
    assert (Hf : length f0 = Z.to_nat (in_size ip)) by apply length_content.
    assert (Ht : length (take (Z.to_nat off) f0) = Z.to_nat off) by (rewrite length_take; lia).
    replace (Z.to_nat (off + Z.of_nat (length l1))) with (Z.to_nat off + length l1)%nat by lia.
    rewrite length_app, !app_assoc. f_equal.
    + f_equal. apply take_app_length'. rewrite length_app. lia.
    + rewrite <-drop_drop, drop_app_length' by (rewrite length_app; lia). rewrite drop_drop. f_equal. lia.
  - destruct B5 as [a2 B5]. exists a2. rewrite B5 at 1. rewrite E1. done.
  - intros y. by rewrite <-Hi.
  - intros inum y H1 H2 H3. rewrite B7, A7 by (done || congruence). done.
  - intros b Hb. by rewrite B8, A8.
  - intros ip3 H1 H2 H3. destruct (A9 ip3 H1 H2 H3) as (C1 & C2 & C3). destruct (B9 ip3 C1 C2 H3) as (D1 & D2 & D3).
    split_and!; [done|done|congruence].
Qed.

(** The same on a disk that differs only in the log. *)
Lemma home_same d d' b :
  home_eq (sb_logstart sb) d' d → sb_inodestart sb ≤ b → disk_block d' b = disk_block d b.
Proof. intros H Hb. apply H. unfold in_log. destruct Hla. change LOGSIZE with 30 in *. lia. Qed.
Lemma written_home off l d ip dn d' ip' :
  written sb off l d ip dn ip' → home_eq (sb_logstart sb) d' dn → blocks_ok d' → size_ok ip' → inum_ok sb ip → written sb off l d ip d' ip'.
Proof.
  intros [A1 A2 A3 A4 A5 A6 A7 A8 A9] He Hbl [Hz0 Hz1] Hin.
  assert (Hsame : ∀ b, sb_bmapstart sb ≤ b → disk_block d' b = disk_block dn b).
  { intros b Hb. apply home_same; [done|]. destruct Hla. lia. }
  assert (Hdi : ∀ inum y, 0 ≤ inum → dinode_at sb d' inum y = dinode_at sb dn inum y).
  { intros inum y Hi. unfold dinode_at. rewrite (home_same dn); [done|done|]. pose proof (Z.div_pos inum IPB Hi ltac:(done)). lia. }
  pose proof A1 as (_ & _ & W). split.
  - by apply (meta_fsys sb Hla dn).
  - intros bn H1 H2. rewrite (meta_slot sb Hla dn) by done. by apply A2.
  - done.
  - rewrite <-A4. apply content_ext; [|lia|lia]. intros bn Hbn. by apply (meta_fblock sb Hla dn).
  - done.
  - intros y. rewrite Hdi by apply Hin. apply A6.
  - intros inum y H1 H2 H3. rewrite Hdi by done. by apply A7.
  - intros b Hb. rewrite He by (unfold in_log; lia). by apply A8.
  - intros ip3 H1 H2 H3. destruct (A9 ip3 H1 H2 H3) as (C1 & C2 & C3). pose proof C1 as (_ & _ & W3). split_and!.
    + by apply (meta_fsys sb Hla dn).
    + intros k Hk. rewrite (meta_slot sb Hla dn) by done. intros Hn (j & Hj & E).
      rewrite (meta_slot sb Hla dn) in E by done. apply (C2 k Hk Hn). by exists j.
    + rewrite <-C3. destruct H3. apply content_ext; [|lia|lia]. intros bn Hbn. by apply (meta_fblock sb Hla dn).
Qed.
End written.

Section filewrite.
Context {dev : VirtioDev} {ok : VirtioOk dev} {lnk : Linker} {lnk_ok : LinkerOk lnk}.
Context (p : nat) (pid : Z) (ie : bool).
Context (T : ptree) (sb : superblock) (Hla : layout sb) (Hnlog : sb_nlog sb = LOGSIZE).

(** The file system is idle and file [f] is an inode that can be written. *)
Record wready (R : kstate) (d : gmap Z (list Z)) (f : nat) (fl : file) (i : nat) (ip : inode) : Prop := {
  wy_file : inode_file R f fl i ip;
  wy_fsys : fsys sb d ip;
  wy_solid : solid d ip;
  wy_size : size_ok ip;
  wy_inum : inum_ok sb ip;
  wy_shorts : shorts_ok ip;
  wy_synced : synced sb d ip;
  wy_sb : k_sb R = sb;
  wy_log : log_idle sb (k_log R);
  wy_hdr : hdr_of [] (disk_block d (sb_logstart sb))
}.

(** Schedule steps and free blocks one round may use. *)
Definition chunk_io : nat := (bmap_io sb + 1) * 4 + 1 + (4 + 6 * 25).

(** The kernel after a round. *)
Definition round_state (f : nat) (fl : file) (n : Z) (i : nat) (ip : inode) (lg : logst) (R : kstate) : kstate :=
  set_k_log lg (advance f fl n (set_ip i ip R)).

Lemma nblocks_chunk off n : 0 ≤ off → 0 ≤ n ≤ 3072 → (nblocks off n ≤ 4)%nat.
Proof.
  intros Ho Hn. unfold nblocks. rewrite BSIZE_val. destruct (Z.leb_spec n 0); [lia|].
  assert ((off + n - 1) / 1024 < off / 1024 + 4); [|lia].
  pose proof (Z.div_mod off 1024 ltac:(done)). pose proof (Z.mod_pos_bound off 1024 ltac:(done)).
  apply Z.div_lt_upper_bound; lia.
Qed.

Lemma fs_blocks hd d w R s : fs p pid ie hd ∅ ∅ d w R s → blocks_ok d.
Proof.
  intros Hf b. apply disk_block_len. rewrite <-(fs_disk _ _ _ _ _ _ _ _ _ _ Hf).
  apply (bi_disk _ _ _ _ _ _ (fs_bio _ _ _ _ _ _ _ _ _ _ Hf)).
Qed.

(** The inode's lock is free again. *)
Lemma unlocked_frame f fl n i ip R :
  sll_locked (slock_of R (SL_inode i)) = 0 → sll_pid (slock_of R (SL_inode i)) = 0 →
  bio_frame (advance f fl n (set_ip i ip R)) (upd_slock (SL_inode i) slock_released (advance f fl n (set_ip i ip (locked pid i R)))).
Proof.
  intros H1 H2. split; [reflexivity|reflexivity|]. intros j. rewrite slock_of_upd.
  change (slock_of (advance f fl n (set_ip i ip (locked pid i R)))) with (slock_of (locked pid i R)). unfold locked. rewrite !slock_of_upd.
  change (slock_of (advance f fl n (set_ip i ip R))) with (slock_of R).
  destruct (decide (SL_inode i = SL_inode j)) as [E|E]; [|done]. rewrite decide_True, <-E by done. by rewrite slock_cycle.
Qed.

(** What a round leaves behind. *)
Lemma round_ready f fl n i ip R d l d' ip' lg :
  wready R d f fl i ip → n = Z.of_nat (length l) → f_off fl + n ≤ MAXFILE * BSIZE → written sb (f_off fl) l d ip d' ip' →
  log_idle sb lg → hdr_of [] (disk_block d' (sb_logstart sb)) →
  wready (round_state f fl n i ip' lg R) d' f (set_f_off (f_off fl + n) fl) i ip'.
Proof.
  intros [[F1 F2 F3 F4 [I1 I2 I3 I4]] W1 W2 [W3 W3'] W4 [] W6 W7 W8 W9] Hn Hmax Hw Hlg Hh.
  destruct (written_ip _ _ _ _ _ _ _ Hw) as (a & z & E). pose proof (wt_size _ _ _ _ _ _ _ Hw) as Hz. split; try done.
  - split; [|done|done|cbn [f_off set_f_off]; lia|].
    + unfold round_state, advance. kproj. apply list_lookup_insert_eq. by eapply lookup_lt_Some.
    + split; [|by rewrite E|by rewrite E|done]. unfold round_state, advance, set_ip. kproj.
      apply list_lookup_insert_eq. by eapply lookup_lt_Some.
  - apply Hw.
  - apply Hw.
  - unfold size_ok. lia.
  - unfold inum_ok, inode_blk. rewrite (written_inum _ _ _ _ _ _ _ Hw). exact W4.
  - rewrite E. by split.
  - intros y. rewrite (written_inum _ _ _ _ _ _ _ Hw). apply (wt_disk _ _ _ _ _ _ _ Hw).
Qed.

(** One round of [filewrite] is one transaction. *)
Lemma filewrite_turn_ok hd d w R s f fl i ip addr n i0 l k e :
  fs p pid ie hd ∅ ∅ d w R s → wready R d f fl i ip → 0 ≤ i0 < n →
  let n1 := Z.of_nat (length l) in n1 = Z.min (n - i0) filewrite_max →
  holds_at p T R (P_user (u64 (addr + i0))) l → f_off fl + n1 ≤ MAXFILE * BSIZE → (8 ≤ nfree sb d)%nat →
  dev_env p (chunk_io + k) e →
  ∃ ws hd' lg ip' e' s', filewrite_turn f addr n i0 e s = Ret (inl (i0 + n1)) e' s' ∧ dev_env p k e' ∧
    let d' := apply_writes d ws in
    fs p pid ie hd' ∅ ∅ d' (w ++ ws) (round_state f fl n1 i ip' lg R) s' ∧
    wready (round_state f fl n1 i ip' lg R) d' f (set_f_off (f_off fl + n1) fl) i ip' ∧
    written sb (f_off fl) l d ip d' ip' ∧ (nfree sb d ≤ nfree sb d' + 8)%nat ∧
    ∀ ws1, ws1 `prefix_of` ws →
      recovers_to (sb_logstart sb) (apply_writes d ws1) d ∨ recovers_to (sb_logstart sb) (apply_writes d ws1) d'.
Proof.
  intros Hf Hw Hi0 n1 Hn1 Hat Hmax Hfree He. change filewrite_max with 3072 in *.
  pose proof Hw as [[F1 F2 F3 F4 F5] W1 W2 W3 W4 W5 W6 W7 W8 W9]. pose proof F5 as [I1 I2 I3 [I4 I5]].
  pose proof (nblocks_chunk (f_off fl) n1 ltac:(lia) ltac:(lia)) as Hnb. set (nb := nblocks (f_off fl) n1) in *.
  unfold filewrite_turn. change filewrite_max with 3072. rewrite (proj2 (Z.ltb_lt _ _)), <-Hn1 by lia. cbv zeta.
  destruct (begin_op_tx p pid ie sb _ _ _ _ _ e Hf W8) as (s1 & Hr1 & H1). mrun Hr1.
  mrun (tx_file_of p pid ie d w _ _ _ _ _ _ f fl e H1 F1). rewrite F3.
  destruct (ilock_tx p pid ie d w _ _ _ _ _ _ i ip e H1) as (s2 & Hr2 & H2); [by split|]. mrun Hr2. mstep.
  mrun (tx_file_of p pid ie d w _ _ _ _ _ _ f fl e H2 F1).
  destruct (writei_ok p pid ie d w T sb Hla hd [] d (locked pid i (opened R)) s2 i ip (f_off fl) (P_user (u64 (addr + i0))) l (154 + k) e)
    as (hd3 & bs3 & dn & ip' & e3 & s3 & Hr3 & He3 & H3 & Hwt & Hbs & Hnf); fold n1; fold nb; try done.
  { split; [done|]. exact (li_start _ _ W8). } { cbn. unfold u64. pose proof (Z.mod_pos_bound (addr + i0) (2 ^ 64) ltac:(done)). done. }
  { lia. } { apply (room_opened sb); [done|done|lia]. } { eapply dev_env_le; [exact He|]. unfold chunk_io. nia. }
  fold n1 in Hr3. mrun Hr3.
  destruct (move_ok p pid ie d w _ _ _ _ _ _ f fl n1 e3 H3) as (s4 & Hr4 & H4);
    [done|lia|lia|change (MAXFILE * BSIZE) with 274432 in Hmax; lia|]. mrun Hr4. rewrite F3.
  destruct (written_ip _ _ _ _ _ _ _ Hwt) as (a & z & Eip).
  destruct (iunlock_tx p pid ie d w _ _ _ _ _ _ i ip' e3 H4) as (s5 & Hr5 & H5).
  { unfold advance, set_ip. kproj. apply list_lookup_insert_eq. by eapply lookup_lt_Some. } { by rewrite Eip. }
  { change (slock_of (locked pid i R) (SL_inode i) = slock_taken pid (slock_of (locked pid i R) (SL_inode i))).
    unfold locked. rewrite slock_of_upd, decide_True by done. done. }
  mrun Hr5. apply tx_anchor with (R := advance f fl n1 (set_ip i ip' (opened R))) in H5; [|by apply unlocked_frame].
  cbn [length] in Hbs. change (nblocks (f_off fl) (Z.of_nat (length l))) with nb in *.
  destruct (end_op_tx p pid ie sb _ _ _ _ _ _ _ k e3 H5) as (ws & hd6 & lg & e6 & s6 & Hr6 & He6 & Hlg & Hcm & Hf6).
  { done. } { exact (li_com _ _ W8). } { exact (li_start _ _ W8). } { exact (li_size _ _ W8). }
  { change nbuf with 30%nat. lia. } { eapply dev_env_le; [exact He3|]. lia. }
  mrun Hr6. rewrite Z.eqb_refl. cbn [negb]. pose proof (fs_blocks _ _ _ _ _ Hf6) as Hbl6.
  assert (Hz' : size_ok ip').
  { pose proof (wt_size _ _ _ _ _ _ _ Hwt). unfold size_ok in *. unfold n1 in Hmax. lia. }
  pose proof (written_home sb Hla _ _ _ _ _ _ _ Hwt (cm_home _ _ _ _ Hcm) Hbl6 Hz' W4) as Hwd.
  eexists ws, hd6, lg, ip', e6, s6. split_and!; [reflexivity|done|exact Hf6| |done| |].
  - eapply round_ready; try done. by apply Hcm.
  - rewrite (meta_nfree sb Hla dn (apply_writes d ws)); [lia|]. intros b Hb. apply (home_same sb Hla); [apply Hcm|]. destruct Hla. lia.
  - intros ws1 Hp. destruct (cm_crash _ _ _ _ Hcm W9 ws1 Hp) as [Hc|Hc]; [by left|right].
    eapply recovers_to_eq; [exact Hc|]. symmetry. apply Hcm.
Qed.
(** ** All rounds *)

Definition nchunks (n : Z) : nat := Z.to_nat ((n + 3071) / 3072).
Lemma nchunks_step r : 0 < r → nchunks r = S (nchunks (r - Z.min r 3072)).
Proof.
  intros Hr. unfold nchunks. destruct (Z.leb_spec r 3072).
  - rewrite Z.min_l, Z.sub_diag by lia. replace ((r + 3071) / 3072) with 1; [done|]. apply (Z.div_unique _ _ _ (r - 1)); lia.
  - rewrite Z.min_r by lia. replace (r + 3071) with (r - 3072 + 3071 + 1 * 3072) by lia. rewrite Z.div_add by done.
    pose proof (Z.div_pos (r - 3072 + 3071) 3072 ltac:(lia) ltac:(done)). lia.
Qed.

Lemma round_state_twice f fl n n' i ip ip' lg lg' R :
  round_state f (set_f_off (f_off fl + n) fl) n' i ip' lg' (round_state f fl n i ip lg R) = round_state f fl (n + n') i ip' lg' R.
Proof.
  unfold round_state, advance, set_ip. kproj. cbn [f_off set_f_off]. rewrite !list_insert_insert_eq.
  replace (set_f_off (f_off fl + n + n') (set_f_off (f_off fl + n) fl)) with (set_f_off (f_off fl + (n + n')) fl); [kstate_eq|].
  unfold set_f_off. cbn. f_equal. lia.
Qed.
Lemma round_state_0 f fl i ip R :
  k_files R !! f = Some fl → k_inodes R !! i = Some ip → round_state f fl 0 i ip (k_log R) R = R.
Proof. intros H1 H2. unfold round_state. rewrite set_ip_same, advance_0 by done. by destruct R. Qed.

(** After a crash the file holds the first [j] bytes of the write. *)
Definition crash_ok (d : gmap Z (list Z)) (off : Z) (l : list Z) (ip : inode) (ws : list (Z * list Z)) : Prop :=
  ∀ ws1, ws1 `prefix_of` ws → ∃ (j : nat) dc ipc, written sb off (take j l) d ip dc ipc ∧ size_ok ipc ∧
    recovers_to (sb_logstart sb) (apply_writes d ws1) dc.

Lemma recovers_now d : hdr_of [] (disk_block d (sb_logstart sb)) → recovers_to (sb_logstart sb) d d.
Proof. intros H. exists []. split_and!; [apply txn_blocks_nil|done|done]. Qed.

Lemma crash_ok_app d off l ip ws d1 ip1 ws2 d2 ip2 (j j2 : nat) :
  let d1' := apply_writes d ws in
  crash_ok d off l ip ws → written sb off (take j l) d ip d1' ip1 → size_ok ip1 → size_ok ip2 → d1 = d1' →
  written sb off (take j2 l) d ip d2 ip2 →
  (∀ ws1, ws1 `prefix_of` ws2 → recovers_to (sb_logstart sb) (apply_writes d1 ws1) d1 ∨ recovers_to (sb_logstart sb) (apply_writes d1 ws1) d2) →
  crash_ok d off l ip (ws ++ ws2).
Proof.
  intros d1' Hc Hw1 Hz1 Hz2 -> Hw2 Hr ws1 Hp. apply prefix_app_cases in Hp as [Hp|(k & -> & Hp)]; [by apply Hc|].
  rewrite apply_writes_app. destruct (Hr k Hp) as [H|H]; [by exists j, d1', ip1|by exists j2, d2, ip2].
Qed.

Lemma holds_at_user R addr l (i n : nat) :
  holds_at p T R (P_user addr) l → (i + n ≤ length l)%nat →
  holds_at p T R (P_user (u64 (addr + Z.of_nat i))) (take n (drop i l)).
Proof.
  cbn. intros (Hm & Ha & Hlt & Hv) Hi. rewrite length_take, length_drop. rewrite u64_id by lia. split_and!; [done|lia|lia|].
  intros k Hk. rewrite lookup_take_lt, lookup_drop, <-Hv by lia. f_equal. lia.
Qed.

Lemma filewrite_loop_ok hd d w R s f fl i ip addr n l k e :
  fs p pid ie hd ∅ ∅ d w R s → wready R d f fl i ip → n = Z.of_nat (length l) →
  holds_at p T R (P_user addr) l → f_off fl + n ≤ MAXFILE * BSIZE → (8 * nchunks n ≤ nfree sb d)%nat →
  dev_env p (chunk_io * nchunks n + k) e →
  ∃ ws hd' lg ip' e' s', loop (filewrite_turn f addr n) 0 e s = Ret n e' s' ∧ dev_env p k e' ∧
    let d' := apply_writes d ws in
    fs p pid ie hd' ∅ ∅ d' (w ++ ws) (round_state f fl n i ip' lg R) s' ∧
    wready (round_state f fl n i ip' lg R) d' f (set_f_off (f_off fl + n) fl) i ip' ∧
    written sb (f_off fl) l d ip d' ip' ∧ crash_ok d (f_off fl) l ip ws.
Proof.
  intros Hf Hw Hn Hat Hmax Hfree He. change (MAXFILE * BSIZE) with 274432 in Hmax.
  pose proof Hw as [[F1 F2 F3 F4 [I1 _ _ _]] W1 W2 W3 W4 W5 W6 W7 W8 W9].
  set (I := λ (tot : Z) e s, ∃ ws hd' lg ip', let d' := apply_writes d ws in 0 ≤ tot ≤ n ∧
    dev_env p (chunk_io * nchunks (n - tot) + k) e ∧ fs p pid ie hd' ∅ ∅ d' (w ++ ws) (round_state f fl tot i ip' lg R) s ∧
    wready (round_state f fl tot i ip' lg R) d' f (set_f_off (f_off fl + tot) fl) i ip' ∧
    written sb (f_off fl) (take (Z.to_nat tot) l) d ip d' ip' ∧ (8 * nchunks (n - tot) ≤ nfree sb d')%nat ∧ crash_ok d (f_off fl) l ip ws).
  destruct (loop_measure (filewrite_turn f addr n) (λ tot _ _, n - tot) I (λ r e s, r = n ∧ I n e s) 0 e s)
    as (r & e' & s' & Hr & -> & ws & hd' & lg & ip' & _ & He' & Hf' & Hw' & Hwt & _ & Hc).
  - intros tot e1 s1 HI. pose proof HI as (ws & hd1 & lg & ip1 & Ht & He1 & Hf1 & Hw1 & Hwt & Hnf & Hc). split; [lia|].
    destruct (decide (tot < n)) as [Hlt|Hge].
    + rewrite nchunks_step in He1, Hnf by lia. set (m := Z.min (n - tot) 3072) in *.
      set (l1 := take (Z.to_nat m) (drop (Z.to_nat tot) l)).
      assert (Hl1 : Z.of_nat (length l1) = m) by (unfold l1; rewrite length_take, length_drop; lia).
      destruct (filewrite_turn_ok hd1 (apply_writes d ws) (w ++ ws) (round_state f fl tot i ip1 lg R) s1 f (set_f_off (f_off fl + tot) fl) i ip1 addr n tot l1
        (chunk_io * nchunks (n - tot - m) + k) e1) as (ws2 & hd2 & lg2 & ip2 & e2 & s2 & Hr2 & He2 & Hf2 & Hw2 & Hwt2 & Hnf2 & Hc2).
      * done.
      * done.
      * lia.
      * done.
      * replace tot with (Z.of_nat (Z.to_nat tot)) at 2 by lia. apply holds_at_user; [exact Hat|]. lia.
      * cbn [f_off set_f_off]. change (MAXFILE * BSIZE) with 274432. lia.
      * lia.
      * eapply dev_env_le; [exact He1|]. lia.
      * rewrite Hl1 in *. rewrite round_state_twice in Hf2, Hw2. cbn [f_off set_f_off] in *.
        replace (set_f_off (f_off fl + tot + m) (set_f_off (f_off fl + tot) fl)) with (set_f_off (f_off fl + (tot + m)) fl) in Hw2
          by (unfold set_f_off; cbn; f_equal; lia).
        rewrite <-apply_writes_app in *. rewrite <-app_assoc in Hf2.
        assert (Hlt2 : Z.of_nat (length (take (Z.to_nat tot) l)) = tot) by (rewrite length_take; lia).
        assert (Hwt3 : written sb (f_off fl) (take (Z.to_nat (tot + m)) l) d ip (apply_writes d (ws ++ ws2)) ip2).
        { replace (Z.to_nat (tot + m)) with (Z.to_nat tot + Z.to_nat m)%nat by lia. rewrite <-take_take_drop.
          eapply written_app; [done|exact Hwt|]. by rewrite Hlt2. }
        exists (inl (tot + m)), e2, s2. split; [exact Hr2|]. split; [|lia].
        exists (ws ++ ws2), hd2, lg2, ip2. replace (n - (tot + m)) with (n - tot - m) by lia.
        split_and!; [lia|lia|done|done|done|done|lia|].
        eapply crash_ok_app; [done|exact Hwt|apply Hw1|apply Hw2|reflexivity|exact Hwt3|exact Hc2].
    + assert (tot = n) as -> by lia. unfold filewrite_turn. rewrite (proj2 (Z.ltb_ge _ _)) by lia.
      eexists _, _, _. split; [reflexivity|]. done.
  - exists [], hd, (k_log R), ip. rewrite Z.sub_0_r, app_nil_r, Z.add_0_r, round_state_0 by done.
    replace (set_f_off (f_off fl) fl) with fl by (by destruct fl).
    split_and!; [lia|lia|done|done|done|by apply written_nil|done|].
    intros ws1 Hp. apply prefix_nil_inv in Hp as ->. exists 0%nat, d, ip. split_and!; [by apply written_nil|done|by apply recovers_now].
  - lia.
  - exists ws, hd', lg, ip', e', s'. rewrite Z.sub_diag in He'. rewrite take_ge in Hwt by lia.
    cbv zeta. split_and!; [done|eapply dev_env_le; [exact He'|lia]|done|done|done|done].
Qed.
End filewrite.
