(* ===== verification/Fsmain.v ===== *)
(** The theorems about file operations as a whole: [filewrite] survives
    crashes, [fileread] returns the file's bytes, and what was written is read
    back; with a small file system as an example. *)

From S2P Require Import Prelude Mem KString Params Kernel Spinlock Kalloc Sched Sleeplock Virtio Bio Bcache Log LogCrash.
From S2P Require Import Vm Uvm Ucopy Pipe Fs Fstx Fsblock Fsfile Fsio Fsinode Console File Fsop.

Section main.
Context {dev : VirtioDev} {ok : VirtioOk dev} {lnk : Linker} {lnk_ok : LinkerOk lnk}.

Lemma layout_log_ok sb : layout sb → sb_nlog sb = LOGSIZE → sb_log_ok sb.
Proof. intros [] Hn. change LOGSIZE with 30 in *. split; [done| |lia]. change LOGSIZE with 30. lia. Qed.

(** What recovery leaves on a disk that recovers to a written file. *)
Lemma recovery_written sb off l d ip d1 dc ipc p pid ie hd d2 w R s e :
  layout sb → sb_nlog sb = LOGSIZE → inum_ok sb ip →
  recovers_to (sb_logstart sb) d1 dc → written sb off l d ip dc ipc → size_ok ipc →
  crashed_recovery sb d1 d2 → fs p pid ie hd ∅ ∅ d2 w R s → length (lh_block (k_log R)) = Z.to_nat LOGSIZE →
  dev_env p (3 + 3 * Z.to_nat LOGSIZE) e →
  ∃ e' s', initlog ROOTDEV sb e s = Ret tt e' s' ∧ written sb off l d ip (k_disk s') ipc.
Proof.
  intros Hla Hn Hin Hrec Hw Hz Hcr Hf Hlh He. pose proof (layout_log_ok sb Hla Hn) as Hsb. pose proof Hsb as [S1 S2 S3].
  pose proof (crashed_recovery_keeps sb d1 d2 dc Hsb Hcr Hrec) as Hrec2.
  destruct (initlog_ok p pid ie sb hd d2 dc w R s 0 e) as (bs & y & hd2 & lg & e2 & s2 & Hr2 & _ & _ & _ & _ & Hhe & Hf2);
    try done.
  exists e2, s2. split; [done|]. pose proof (fs_blocks p pid ie _ _ _ _ _ Hf2) as Hbl. rewrite <-(fs_disk _ _ _ _ _ _ _ _ _ _ Hf2) in Hbl.
  eapply written_home; try done. rewrite (fs_disk _ _ _ _ _ _ _ _ _ _ Hf2), apply_writes_snoc. cbn [fst snd].
  etrans; [|exact Hhe]. intros b Hb. rewrite disk_block_insert, decide_False; [done|].
  intros <-. apply Hb. unfold in_log. change LOGSIZE with 30. lia.
Qed.

Lemma filewrite_ok sb T p pid ie hd d w R s f fl i ip addr l k e :
  layout sb → sb_nlog sb = LOGSIZE → fs p pid ie hd ∅ ∅ d w R s → wready sb R d f fl i ip → f_writable fl ≠ 0 →
  holds_at p T R (P_user addr) l → f_off fl + Z.of_nat (length l) ≤ MAXFILE * BSIZE →
  (8 * nchunks (Z.of_nat (length l)) ≤ nfree sb d)%nat → dev_env p (chunk_io sb * nchunks (Z.of_nat (length l)) + k) e →
  ∃ ws hd' lg ip' e' s', let n := Z.of_nat (length l) in
    filewrite f addr n e s = Ret n e' s' ∧ dev_env p k e' ∧
    fs p pid ie hd' ∅ ∅ (k_disk s') (w ++ ws) (round_state f fl n i ip' lg R) s' ∧
    written sb (f_off fl) l d ip (k_disk s') ip' ∧
    wready sb (round_state f fl n i ip' lg R) (k_disk s') f (set_f_off (f_off fl + n) fl) i ip' ∧
    crash_ok sb d (f_off fl) l ip ws.
Proof.
  intros Hla Hn Hf Hw Hwr Hat Hmax Hfree He. pose proof Hw as [[F1 F2 F3 F4 F5] _ _ _ _ _ _ _ _ _].
  destruct (filewrite_loop_ok p pid ie T sb Hla Hn hd d w R s f fl i ip addr (Z.of_nat (length l)) l k e)
    as (ws & hd' & lg & ip' & e' & s' & Hr & He' & Hf' & Hw' & Hwt & Hc); try done.
  exists ws, hd', lg, ip', e', s'. cbv zeta. rewrite (fs_disk _ _ _ _ _ _ _ _ _ _ Hf'). split_and!; [|done..].
  unfold filewrite. assert (Hfile : file_of f e s = Ret fl e s).
  { eapply (tx_file_of p pid ie d w); [|done]. eapply tx_idle; [done|]. apply (wy_log _ _ _ _ _ _ _ Hw). }
  mrun Hfile. rewrite (proj2 (Z.eqb_neq _ _) Hwr), F2. mrun Hr. by rewrite Z.eqb_refl.
Qed.

(** C1: [filewrite] on an inode of a consistent file system writes the whole
    buffer and survives crashes.  It returns the number of bytes, the bytes of
    the file on the disk become the old ones with the buffer spliced in at the
    file's offset, the offset advances, the inode on the disk is updated, and
    every other file and inode is as before.  If the machine instead crashes
    after any prefix of the disk writes, and recovery itself crashes any
    number of times, the next complete [initlog] leaves the file with the
    first [j] bytes of the buffer written, for some [j], and everything else
    as before. *)
Theorem filewrite_crash_safe sb T p pid ie hd d w R s f fl i ip addr l e :
  layout sb → sb_nlog sb = LOGSIZE → fs p pid ie hd ∅ ∅ d w R s → wready sb R d f fl i ip → f_writable fl ≠ 0 →
  holds_at p T R (P_user addr) l → f_off fl + Z.of_nat (length l) ≤ MAXFILE * BSIZE →
  (8 * nchunks (Z.of_nat (length l)) ≤ nfree sb d)%nat → dev_env p (chunk_io sb * nchunks (Z.of_nat (length l))) e →
  ∃ ws hd' lg ip' e' s', let n := Z.of_nat (length l) in
    filewrite f addr n e s = Ret n e' s' ∧
    fs p pid ie hd' ∅ ∅ (k_disk s') (w ++ ws) (round_state f fl n i ip' lg R) s' ∧
    written sb (f_off fl) l d ip (k_disk s') ip' ∧
    wready sb (round_state f fl n i ip' lg R) (k_disk s') f (set_f_off (f_off fl + n) fl) i ip' ∧
    ∀ ws1, ws1 `prefix_of` ws → ∃ (j : nat) ipc, ∀ d2 p2 pid2 ie2 hd2 w2 R2 s2 e2,
      crashed_recovery sb (apply_writes d ws1) d2 →
      fs p2 pid2 ie2 hd2 ∅ ∅ d2 w2 R2 s2 → length (lh_block (k_log R2)) = Z.to_nat LOGSIZE →
      dev_env p2 (3 + 3 * Z.to_nat LOGSIZE) e2 →
      ∃ e3 s3, initlog ROOTDEV sb e2 s2 = Ret tt e3 s3 ∧ written sb (f_off fl) (take j l) d ip (k_disk s3) ipc.
Proof.
  intros Hla Hn Hf Hw Hwr Hat Hmax Hfree He. pose proof (wy_inum _ _ _ _ _ _ _ Hw) as Hin.
  destruct (filewrite_ok sb T p pid ie hd d w R s f fl i ip addr l 0 e)
    as (ws & hd' & lg & ip' & e' & s' & Hr & _ & Hf' & Hwt & Hw' & Hc); try done.
  { eapply dev_env_le; [exact He|lia]. }
  exists ws, hd', lg, ip', e', s'. cbv zeta. split_and!; [done..|].
  intros ws1 Hp. destruct (Hc ws1 Hp) as (j & dc & ipc & Hwc & Hz & Hrec). exists j, ipc.
  intros d2 p2 pid2 ie2 hd2 w2 R2 s2 e2 Hcr Hf2 Hlh He2. by eapply recovery_written.
Qed.

(** C5: [fileread] on an inode, inside or outside a transaction, returns the
    number of bytes that lie between the file's offset and the smaller of its
    end and [n] bytes on, stores exactly those bytes of the file at [addr] in
    the process's memory, and advances the offset by as many. Blocks, log and
    inodes are unchanged. *)
Theorem fileread_exact sb T p pid ie d w hd bs dn R s f fl i ip addr n e :
  layout sb → tx p pid ie d w hd ∅ bs dn R s → inode_file R f fl i ip → f_readable fl ≠ 0 →
  fsys sb dn ip → solid dn ip → size_ok ip → 0 ≤ n < 2 ^ 31 → (length bs + 1 < nbuf)%nat →
  let l := take (Z.to_nat n) (drop (Z.to_nat (f_off fl)) (filedata dn ip)) in
  fits_at p T R (P_user addr) (Z.of_nat (length l)) → dev_env p (2 * nblocks (f_off fl) (Z.of_nat (length l))) e →
  ∃ m hd' e' s', fileread f addr n e s = Ret (Z.of_nat (length l)) e' s' ∧
    stored T addr l (length l) (k_mem R) m ∧
    tx p pid ie d w hd' ∅ bs dn (advance f fl (Z.of_nat (length l)) (set_k_mem m R)) s'.
Proof.
  intros Hla H Hf Hrd Hs Hso Hz Hn Hbuf l Hfit He.
  destruct (fileread_ok p pid ie T sb Hla d w hd bs dn R s f fl i ip addr n 0 e) as (m & hd' & e' & s' & Hr & _ & HS & H'); try done.
  { eapply dev_env_le; [exact He|]. unfold l. lia. }
  by exists m, hd', e', s'.
Qed.

(** C4: what is written to a file is read back.  If [filewrite] through one
    open file is followed by [fileread] of as many bytes through another open
    file of the same inode whose offset is where the write started, both
    return the number of bytes and the process finds at [addr2] the bytes it
    had at [addr], with no other byte of its memory changed. *)
Theorem write_read_back sb T p pid ie hd d w R s f fl g gl i ip addr addr2 l e :
  layout sb → sb_nlog sb = LOGSIZE → fs p pid ie hd ∅ ∅ d w R s → wready sb R d f fl i ip → f_writable fl ≠ 0 →
  holds_at p T R (P_user addr) l → f_off fl + Z.of_nat (length l) ≤ MAXFILE * BSIZE →
  (8 * nchunks (Z.of_nat (length l)) ≤ nfree sb d)%nat →
  g ≠ f → inode_file R g gl i ip → f_readable gl ≠ 0 → f_off gl = f_off fl →
  fits_at p T R (P_user addr2) (Z.of_nat (length l)) →
  dev_env p (chunk_io sb * nchunks (Z.of_nat (length l)) + 2 * nblocks (f_off fl) (Z.of_nat (length l))) e →
  ∃ e' s', let n := Z.of_nat (length l) in
    (r <- filewrite f addr n ;; r2 <- fileread g addr2 n ;; ret (r, r2)) e s = Ret (n, n) e' s' ∧
    stored T addr2 l (length l) (k_mem R) (k_mem s').
Proof.
  intros Hla Hn Hf Hw Hwr Hat Hmax Hfree Hne [G1 G2 G3 G4 G5] Hrd Hoff Hfit He. pose proof Hw as [[F1 F2 F3 F4 F5] _ _ [Hz0 Hz1] _ _ _ _ _ _].
  destruct (filewrite_ok sb T p pid ie hd d w R s f fl i ip addr l (2 * nblocks (f_off fl) (Z.of_nat (length l))) e)
    as (ws & hd' & lg & ip' & e' & s' & Hr & He' & Hf' & Hwt & Hw' & _); try done. cbv zeta in *. set (n := Z.of_nat (length l)) in *.
  pose proof Hw' as [[_ _ _ _ I5] W1 W2 W3 _ _ _ _ W8 _].
  assert (Hl : take (Z.to_nat n) (drop (Z.to_nat (f_off gl)) (filedata (k_disk s') ip')) = l).
  { rewrite Hoff, (wt_file _ _ _ _ _ _ _ Hwt).
    assert (Hlen : length (take (Z.to_nat (f_off fl)) (filedata d ip)) = Z.to_nat (f_off fl)).
    { rewrite length_take. unfold filedata. rewrite length_content. lia. }
    rewrite drop_app_length' by done. apply take_app_length'. lia. }
  assert (Hg : inode_file (round_state f fl n i ip' lg R) g gl i ip').
  { split; [|done|done| |done].
    - unfold round_state, advance. kproj. by rewrite list_lookup_insert_ne.
    - pose proof (wt_size _ _ _ _ _ _ _ Hwt). lia. }
  destruct (fileread_ok p pid ie T sb Hla (k_disk s') (w ++ ws) hd' [] (k_disk s') (round_state f fl n i ip' lg R) s' g gl i ip' addr2 n 0 e')
    as (m & hd2 & e2 & s2 & Hr2 & _ & HS & H2); rewrite ?Hl; try done.
  { eapply tx_idle; [exact Hf'|apply W8]. } { change (MAXFILE * BSIZE) with 274432 in Hmax. lia. }
  { change nbuf with 30%nat. cbn. lia. }
  { rewrite Hoff. eapply dev_env_le; [exact He'|]. unfold n. lia. }
  rewrite Hl in *. fold n in Hr2. exists e2, s2. mrun Hr. mrun Hr2. split; [done|].
  by rewrite (tx_mem p pid ie _ _ _ _ _ _ _ _ H2).
Qed.
End main.

(** * An example *)

(** A disk of 1000 blocks with one empty file, inode 2; blocks before the data
    are marked in the bitmap. *)
Definition ex_inode : inode := mkinode ROOTDEV 2 1 1 2 0 0 1 0 (replicate 13 0).
Definition ex_disk : gmap Z (list Z) :=
  put_inode log_sb ex_inode {[45 := replicate 5 255 ++ [63] ++ replicate 1018 0]}.
(** The process has the bytes 72 and 105 at addresses 10 and 11; the file is
    open twice, for writing and for reading. *)
Definition ex_mem : mem := write_bytes tiny_mem (page 3 + 10) [72; 105].
Definition ex_file (rd wr : Z) : file := mkfile FD_INODE 1 rd wr None (Some 0%nat) 0 0.
Definition ex_boot : kstate :=
  set_k_procs (alter (set_p_pagetable (pt_root tree1)) 0%nat (k_procs boot_state))
    (set_k_mem ex_mem (set_k_files [ex_file 0 1; ex_file 1 0] (set_k_inodes [ex_inode] (set_k_sb log_sb (log_boot ex_disk))))).

Lemma ex_blocks : blocks_ok ex_disk.
Proof.
  apply put_inode_blocks. intros b. unfold disk_block. destruct (decide (b = 45)) as [->|Hne].
  - reflexivity.
  - rewrite lookup_singleton_ne by done. apply length_replicate.
Qed.
Lemma ex_layout : layout log_sb.
Proof. split; cbn; change LOGSIZE with 30; lia. Qed.
Lemma ex_slot k : slot ex_disk ex_inode k = 0.
Proof.
  unfold slot. case_match; [|done]. change (in_addrs ex_inode) with (replicate 13 0).
  destruct (replicate 13 0 !! Z.to_nat k) as [v|] eqn:E; [|done]. apply lookup_replicate in E as [-> _]. done.
Qed.
Lemma ex_bitmap : bitmap_ok log_sb ex_disk.
Proof.
  assert (H : forallb (λ b, used log_sb ex_disk b || (dstart log_sb <=? b)) (seqZ 0 1000) = true) by (vm_compute; done).
  intros b Hb Hu. rewrite forallb_forall in H. specialize (H b).
  rewrite Hu in H. apply Z.leb_le, H, list_elem_of_In, elem_of_seqZ. cbn in Hb. lia.
Qed.
Lemma ex_fsys : fsys log_sb ex_disk ex_inode.
Proof.
  split_and!; [apply ex_bitmap|apply ex_blocks|]. split; [done|done| |]; intros k; rewrite ex_slot; [done|].
  intros k2 _ _ Hn. done.
Qed.
Lemma ex_synced : synced log_sb ex_disk ex_inode.
Proof.
  intros y. apply (dinode_at_put log_sb ex_inode _ 2 y); [split; cbn; done|done|split; try done|].
  - intros j a Ha. apply lookup_replicate in Ha as [-> _]. done.
  - intros b. unfold disk_block. destruct (decide (b = 45)) as [->|Hne]; [reflexivity|].
    rewrite lookup_singleton_ne by done. apply length_replicate.
Qed.
Lemma ex_file_ok f fl : k_files ex_boot !! f = Some fl → inode_file ex_boot f fl 0 ex_inode.
Proof.
  intros H. assert (Hfl : fl = ex_file 0 1 ∨ fl = ex_file 1 0).
  { destruct f as [|[|f]]; cbn in H; naive_solver. }
  split; [done|by destruct Hfl as [-> | ->]|by destruct Hfl as [-> | ->]|destruct Hfl as [-> | ->]; cbn; lia|].
  split; [done|cbn; lia|done|done].
Qed.
Lemma ex_wready : wready log_sb ex_boot ex_disk 0 (ex_file 0 1) 0 ex_inode.
Proof.
  split; [by apply ex_file_ok|apply ex_fsys| |by (split; vm_compute)|split; cbn; done|split; done|apply ex_synced|done| |].
  - intros bn Hb Hs. cbn in Hs. unfold BSIZE in Hs. lia.
  - apply log_boot_idle.
  - apply zero_hdr.
Qed.
Lemma ex_mine : mine (lnk := tiny_linker) 0 tree1 ex_boot.
Proof.
  split; [|by eexists]. apply (uspace_write (lnk := tiny_linker) _ tree1 0 (uleaf (page 3))).
  - exact tiny_uspace.
  - by apply tree1_map.
  - done.
  - rewrite (proj1 uleaf_page3). lia.
  - rewrite (proj1 uleaf_page3). cbn. unfold PGSIZE. lia.
Qed.
Lemma ex_view (x : Z) : 0 ≤ x < PGSIZE → uview ex_mem (pt_map tree1) x = Some (ldb ex_mem (page 3 + x)).
Proof.
  intros Hx. rewrite <-(proj1 uleaf_page3). pose proof (uview_page ex_mem (pt_map tree1) 0 x (uleaf (page 3))) as H.
  rewrite Z.add_0_l in H. rewrite H; [do 2 f_equal; cbn; lia|change MAXVA with 274877906944; unfold PGSIZE in Hx; lia|done| |done].
  by apply tree1_map.
Qed.
Lemma ex_holds : holds_at (lnk := tiny_linker) 0 tree1 ex_boot (P_user 10) [72; 105].
Proof.
  split_and!; [exact ex_mine|lia|cbn; lia|]. intros i Hi. change (k_mem ex_boot) with ex_mem. cbn in Hi.
  rewrite ex_view by (unfold PGSIZE; lia). unfold ex_mem. rewrite ldb_write_bytes, decide_True by (cbn; lia).
  destruct i as [|[|i]]; [| |lia].
  - by replace (page 3 + (10 + Z.of_nat 0) - (page 3 + 10)) with 0 by lia.
  - by replace (page 3 + (10 + Z.of_nat 1) - (page 3 + 10)) with 1 by lia.
Qed.
Lemma ex_fits n : 0 ≤ n ≤ 100 → fits_at (lnk := tiny_linker) 0 tree1 ex_boot (P_user 200) n.
Proof.
  intros Hn. split_and!; [exact ex_mine|lia|lia|]. intros x Hx. change (k_mem ex_boot) with ex_mem.
  rewrite ex_view by (unfold PGSIZE; lia). by eexists.
Qed.
Lemma ex_fs e : ∃ s, binit e ex_boot = Ret tt e s ∧ fs 0 0 true ∅ ∅ ∅ ex_disk [] ex_boot s.
Proof.
  apply boot_fs; try done.
  - split; [exists 0%nat; exact (proc0_ctx true)|reflexivity|reflexivity].
  - intros blk x Hx. pose proof (ex_blocks blk) as H. unfold disk_block in H. by rewrite Hx in H.
Qed.

(** The process writes its two bytes to the empty file. *)
Lemma filewrite_crash_safe_witness :
  let e := replicate 200 (others 0) in
  ∃ s e' s', binit e ex_boot = Ret tt e s ∧ filewrite 0 10 2 e s = Ret 2 e' s' ∧
    ∃ ip', filedata (k_disk s') ip' = [72; 105] ∧ dinode_at log_sb (k_disk s') 2 ex_inode = loaded ip' ex_inode.
Proof.
  destruct (ex_fs (replicate 200 (others 0))) as (s & Hb & Hf).
  destruct (filewrite_crash_safe (lnk := tiny_linker) log_sb tree1 0 0 true ∅ ex_disk [] ex_boot s 0 (ex_file 0 1) 0 ex_inode 10 [72; 105]
    (replicate 200 (others 0))) as (ws & hd' & lg & ip' & e' & s' & Hr & _ & Hw & _).
  - exact ex_layout.
  - reflexivity.
  - exact Hf.
  - exact ex_wready.
  - discriminate.
  - exact ex_holds.
  - vm_compute. discriminate.
  - apply Nat.leb_le. vm_compute. reflexivity.
  - split; [apply Nat.leb_le; vm_compute; reflexivity|]. repeat constructor.
  - exists s, e', s'. split_and!; [exact Hb|exact Hr|]. exists ip'. split; [exact (wt_file _ _ _ _ _ _ _ Hw)|].
    exact (wt_disk _ _ _ _ _ _ _ Hw ex_inode).
Defined.

Lemma fileread_exact_witness :
  let e := replicate 10 (others 0) in
  ∃ s e' s', binit e ex_boot = Ret tt e s ∧ fileread 1 200 50 e s = Ret 0 e' s'.
Proof.
  destruct (ex_fs (replicate 10 (others 0))) as (s & Hb & Hf).
  destruct (fileread_exact (lnk := tiny_linker) log_sb tree1 0 0 true ex_disk [] ∅ [] ex_disk ex_boot s 1 (ex_file 1 0) 0 ex_inode 200 50
    (replicate 10 (others 0))) as (m & hd' & e' & s' & Hr & _).
  - exact ex_layout.
  - apply tx_idle; [exact Hf|apply log_boot_idle].
  - apply ex_file_ok. reflexivity.
  - discriminate.
  - exact ex_fsys.
  - exact (wy_solid _ _ _ _ _ _ _ ex_wready).
  - exact (wy_size _ _ _ _ _ _ _ ex_wready).
  - lia.
  - apply Nat.ltb_lt. reflexivity.
  - apply ex_fits. vm_compute. split; discriminate.
  - split; [apply Nat.leb_le; vm_compute; reflexivity|]. repeat constructor.
  - exists s, e', s'. exact (conj Hb Hr).
Defined.

Lemma write_read_back_witness :
  let e := replicate 200 (others 0) in
  ∃ s e' s', binit e ex_boot = Ret tt e s ∧
    (r <- filewrite 0 10 2 ;; r2 <- fileread 1 200 2 ;; ret (r, r2)) e s = Ret (2, 2) e' s' ∧
    uview (k_mem s') (pt_map tree1) 201 = Some 105.
Proof.
  destruct (ex_fs (replicate 200 (others 0))) as (s & Hb & Hf).
  destruct (write_read_back (lnk := tiny_linker) log_sb tree1 0 0 true ∅ ex_disk [] ex_boot s 0 (ex_file 0 1) 1 (ex_file 1 0) 0 ex_inode
    10 200 [72; 105] (replicate 200 (others 0))) as (e' & s' & Hr & HS).
  - exact ex_layout.
  - reflexivity.
  - exact Hf.
  - exact ex_wready.
  - discriminate.
  - exact ex_holds.
  - vm_compute. discriminate.
  - apply Nat.leb_le. vm_compute. reflexivity.
  - discriminate.
  - apply ex_file_ok. reflexivity.
  - discriminate.
  - reflexivity.
  - apply ex_fits. cbn. lia.
  - split; [apply Nat.leb_le; vm_compute; reflexivity|]. repeat constructor.
  - exists s, e', s'. split_and!; [exact Hb|exact Hr|]. rewrite (so_view _ _ _ _ _ _ HS) by lia. reflexivity.
Defined.
