(* ===== verification/Proc.v ===== *)
(** kernel/proc.c: the life of a process, from [allocproc] to [wait]; the
    scheduler, [sleep] and [wakeup] are in Sched.v. *)

From S2P Require Import Prelude Mem KString Params Kernel Spinlock Kalloc Sched Sleeplock Virtio Bio.
From S2P Require Import Log Vm Fs Console File.

(** Offsets in [struct trapframe]. *)
Definition TF_kernel_satp : Z := 0.
Definition TF_kernel_sp : Z := 8.
Definition TF_kernel_trap : Z := 16.
Definition TF_epc : Z := 24.
Definition TF_kernel_hartid : Z := 32.
Definition TF_sp : Z := 48.
Definition TF_a (n : Z) : Z := 112 + 8 * n.
Definition TF_size : Z := 288.

Section proc.
Context {lnk : Linker} {dev : VirtioDev}.

Definition proc_mapstacks (kpgtbl : Z) : K unit :=
  for_in (seq 0 nproc) (λ i,
    pa <- kalloc ;;
    if pa =? 0 then panic "kalloc" else
    kvmmap kpgtbl (KSTACK (Z.of_nat i)) pa PGSIZE (Z.lor PTE_R PTE_W) ;;;
    ret (@None unit)) ;;;
  ret tt.

Definition procinit : K unit :=
  initlock L_pid "nextpid" ;;;
  initlock L_wait "wait_lock" ;;;
  for_in (seq 0 nproc) (λ i,
    initlock (L_proc i) "proc" ;;;
    modify_proc i (set_p_kstack (KSTACK (Z.of_nat i))) ;;;
    ret (@None unit)) ;;;
  ret tt.

Definition allocpid : K Z :=
  acquire L_pid ;;;
  pid <- gets k_nextpid ;;
  modify (λ s, set_k_nextpid (i32 (k_nextpid s + 1)) s) ;;;
  release L_pid ;;;
  ret pid.

Definition proc_freepagetable (pagetable sz : Z) : K unit :=
  uvmunmap pagetable TRAMPOLINE 1 false ;;;
  uvmunmap pagetable TRAPFRAME 1 false ;;;
  uvmfree pagetable sz.

Definition freeproc (p : nat) : K unit :=
  pr <- proc_of p ;;
  when (negb (p_trapframe pr =? 0)) (kfree (p_trapframe pr)) ;;;
  modify_proc p (set_p_trapframe 0) ;;;
  when (negb (p_pagetable pr =? 0)) (proc_freepagetable (p_pagetable pr) (p_sz pr)) ;;;
  modify_proc p (set_p_pagetable 0) ;;;
  modify_proc p (set_p_sz 0) ;;;
  modify_proc p (set_p_pid 0) ;;;
  modify_proc p (set_p_parent None) ;;;
  modify_proc p (λ pr, set_p_name (<[0%nat := 0]> (p_name pr)) pr) ;;;
  modify_proc p (set_p_chan None) ;;;
  modify_proc p (set_p_killed 0) ;;;
  modify_proc p (set_p_xstate 0) ;;;
  modify_proc p (set_p_state UNUSED).

Definition proc_pagetable (p : nat) : K Z :=
  pagetable <- uvmcreate ;;
  if pagetable =? 0 then ret 0 else
  r <- mappages pagetable TRAMPOLINE PGSIZE trampoline (Z.lor PTE_R PTE_X) ;;
  if r <? 0 then
    uvmfree pagetable 0 ;;;
    ret 0
  else
    pr <- proc_of p ;;
    r <- mappages pagetable TRAPFRAME PGSIZE (p_trapframe pr) (Z.lor PTE_R PTE_W) ;;
    if r <? 0 then
      uvmunmap pagetable TRAMPOLINE 1 false ;;;
      uvmfree pagetable 0 ;;;
      ret 0
    else ret pagetable.

(** The search for an unused slot, which is left locked. *)
Definition find_unused (i : nat) : K (option nat) :=
  acquire (L_proc i) ;;;
  pr <- proc_of i ;;
  if bool_decide (p_state pr = UNUSED) then ret (Some i)
  else release (L_proc i) ;;; ret None.
(** The label [found]. *)
Definition allocproc_found (p : nat) : K (option nat) :=
  pid <- allocpid ;;
  modify_proc p (set_p_pid pid) ;;;
  modify_proc p (set_p_state USED) ;;;
  tf <- kalloc ;;
  modify_proc p (set_p_trapframe tf) ;;;
  if tf =? 0 then
    freeproc p ;;;
    release (L_proc p) ;;;
    ret None
  else
    pt <- proc_pagetable p ;;
    modify_proc p (set_p_pagetable pt) ;;;
    if pt =? 0 then
      freeproc p ;;;
      release (L_proc p) ;;;
      ret None
    else
      modify_proc p (λ pr, set_p_context (mkcontext forkret_pc (u64 (p_kstack pr + PGSIZE)) (replicate 12 0)) pr) ;;;
      ret (Some p).
Definition allocproc : K (option nat) :=
  r <- for_in (seq 0 nproc) find_unused ;;
  match r with None => ret None | Some p => allocproc_found p end.

Definition initcode : list Z :=
  [0x17; 0x05; 0x00; 0x00; 0x13; 0x05; 0x45; 0x02;
   0x97; 0x05; 0x00; 0x00; 0x93; 0x85; 0x35; 0x02;
   0x93; 0x08; 0x70; 0x00; 0x73; 0x00; 0x00; 0x00;
   0x93; 0x08; 0x20; 0x00; 0x73; 0x00; 0x00; 0x00;
   0xef; 0xf0; 0x9f; 0xff; 0x2f; 0x69; 0x6e; 0x69;
   0x74; 0x00; 0x00; 0x24; 0x00; 0x00; 0x00; 0x00;
   0x00; 0x00; 0x00; 0x00].

(** [p->trapframe->field = v] *)
Definition tf_set (p : nat) (off v : Z) : K unit :=
  pr <- proc_of p ;;
  wr64 (p_trapframe pr + off) v.
Definition tf_get (p : nat) (off : Z) : K Z :=
  pr <- proc_of p ;;
  rd64 (p_trapframe pr + off).

Definition userinit : K unit :=
  p <- allocproc ;;
  modify (set_k_initproc p) ;;;
  p <- deref p ;;
  pr <- proc_of p ;;
  uvminit (p_pagetable pr) initcode (Z.of_nat (length initcode)) ;;;
  modify_proc p (set_p_sz PGSIZE) ;;;
  tf_set p TF_epc 0 ;;;
  tf_set p TF_sp PGSIZE ;;;
  modify_proc p (λ pr, set_p_name (safestrcpy (p_name pr) (str "initcode") 16) pr) ;;;
  cwd <- namei (str "/") ;;
  modify_proc p (set_p_cwd cwd) ;;;
  modify_proc p (set_p_state RUNNABLE) ;;;
  release (L_proc p).

(** [sz] is a 32-bit variable. *)
Definition growproc (n : Z) : K Z :=
  p <- myproc ;;
  p <- deref p ;;
  pr <- proc_of p ;;
  let sz := u32 (p_sz pr) in
  if n >? 0 then
    r <- uvmalloc (p_pagetable pr) sz (u32 (sz + n)) ;;
    if u32 r =? 0 then ret (-1) else
    modify_proc p (set_p_sz (u32 r)) ;;;
    ret 0
  else if n <? 0 then
    r <- uvmdealloc (p_pagetable pr) sz (u32 (sz + n)) ;;
    modify_proc p (set_p_sz (u32 r)) ;;;
    ret 0
  else
    modify_proc p (set_p_sz sz) ;;;
    ret 0.

Definition fork_file (p np fd : nat) : K unit :=
  pr <- proc_of p ;;
  match mjoin (p_ofile pr !! fd) with
  | Some f =>
      f <- filedup f ;;
      modify_proc np (λ pr, set_p_ofile (<[fd := Some f]> (p_ofile pr)) pr)
  | None => ret tt
  end.
Definition fork : K Z :=
  p <- myproc ;;
  p <- deref p ;;
  np <- allocproc ;;
  match np with
  | None => ret (-1)
  | Some np =>
      pr <- proc_of p ;;
      npr <- proc_of np ;;
      r <- uvmcopy (p_pagetable pr) (p_pagetable npr) (p_sz pr) ;;
      if r <? 0 then
        freeproc np ;;;
        release (L_proc np) ;;;
        ret (-1)
      else
        modify_proc np (set_p_sz (p_sz pr)) ;;;
        do_memmove (p_trapframe npr) (p_trapframe pr) TF_size ;;;
        tf_set np (TF_a 0) 0 ;;;
        for_in (seq 0 (Z.to_nat NOFILE)) (λ fd, fork_file p np fd ;;; ret (@None unit)) ;;;
        cwd <- deref (p_cwd pr) ;;
        cwd <- idup cwd ;;
        modify_proc np (set_p_cwd (Some cwd)) ;;;
        modify_proc np (λ npr, set_p_name (safestrcpy (p_name npr) (p_name pr) 16) npr) ;;;
        npr <- proc_of np ;;
        let pid := p_pid npr in
        release (L_proc np) ;;;
        acquire L_wait ;;;
        modify_proc np (set_p_parent (Some p)) ;;;
        release L_wait ;;;
        acquire (L_proc np) ;;;
        modify_proc np (set_p_state RUNNABLE) ;;;
        release (L_proc np) ;;;
        ret pid
  end.

Definition reparent (p : nat) : K unit :=
  for_in (seq 0 nproc) (λ i,
    pp <- proc_of i ;;
    when (bool_decide (p_parent pp = Some p)) (
      ip <- gets k_initproc ;;
      modify_proc i (set_p_parent ip) ;;;
      ip <- deref ip ;;
      wakeup (Ch_proc ip)) ;;;
    ret (@None unit)) ;;;
  ret tt.

Definition exit_close (p fd : nat) : K unit :=
  pr <- proc_of p ;;
  match mjoin (p_ofile pr !! fd) with
  | Some f =>
      fileclose f ;;;
      modify_proc p (λ pr, set_p_ofile (<[fd := None]> (p_ofile pr)) pr)
  | None => ret tt
  end.
Definition exit (status : Z) : K unit :=
  p <- myproc ;;
  p <- deref p ;;
  ip <- gets k_initproc ;;
  if bool_decide (ip = Some p) then panic "init exiting" else
  for_in (seq 0 (Z.to_nat NOFILE)) (λ fd, exit_close p fd ;;; ret (@None unit)) ;;;
  begin_op ;;;
  pr <- proc_of p ;;
  cwd <- deref (p_cwd pr) ;;
  iput cwd ;;;
  end_op ;;;
  modify_proc p (set_p_cwd None) ;;;
  acquire L_wait ;;;
  reparent p ;;;
  pr <- proc_of p ;;
  parent <- deref (p_parent pr) ;;
  wakeup (Ch_proc parent) ;;;
  acquire (L_proc p) ;;;
  modify_proc p (set_p_xstate status) ;;;
  modify_proc p (set_p_state ZOMBIE) ;;;
  release L_wait ;;;
  sched ;;;
  panic "zombie exit".

(** The scan for exited children: [inl v] is [return v], [inr] says whether
    there are any children. *)
Definition wait_turn (p : nat) (addr : Z) (st : nat * bool) : K (nat * bool + (Z + bool)) :=
  let '(i, havekids) := st in
  if decide (i < nproc)%nat then
    np <- proc_of i ;;
    if bool_decide (p_parent np = Some p) then
      acquire (L_proc i) ;;;
      np <- proc_of i ;;
      if bool_decide (p_state np = ZOMBIE) then
        let pid := p_pid np in
        bad <- (if negb (addr =? 0)
                then pr <- proc_of p ;;
                     r <- copyout (p_pagetable pr) addr (le_bytes 4 (p_xstate np)) ;;
                     ret (r <? 0)
                else ret false) ;;
        if (bad : bool) then
          release (L_proc i) ;;;
          release L_wait ;;;
          ret (inr (inl (-1)))
        else
          freeproc i ;;;
          release (L_proc i) ;;;
          release L_wait ;;;
          ret (inr (inl pid))
      else
        release (L_proc i) ;;;
        ret (inl (S i, true))
    else ret (inl (S i, havekids))
  else ret (inr (inr havekids)).
Definition wait_round (p : nat) (addr : Z) (_ : unit) : K (unit + Z) :=
  r <- loop (wait_turn p addr) (O, false) ;;
  match r with
  | inl v => ret (inr v)
  | inr havekids =>
      pr <- proc_of p ;;
      if negb havekids || negb (p_killed pr =? 0) then
        release L_wait ;;;
        ret (inr (-1))
      else
        sleep (Ch_proc p) L_wait ;;;
        ret (inl tt)
  end.
Definition wait (addr : Z) : K Z :=
  p <- myproc ;;
  p <- deref p ;;
  acquire L_wait ;;;
  loop (wait_round p addr) tt.
End proc.
