(* ===== verification/Exec.v ===== *)
(** kernel/exec.c: replacing a process's program.

    [elfhdr] and [proghdr] are read at their byte offsets. The argument
    strings are in pages of kernel memory, named by their addresses. *)

From S2P Require Import Prelude Mem KString Params Kernel Spinlock Kalloc Sched Sleeplock Virtio Bio.
From S2P Require Import Log Vm Fs Console File Proc.

(** * kernel/elf.h *)

Definition ELF_MAGIC : Z := 0x464C457F.
Definition ELF_PROG_LOAD : Z := 1.
Definition ELFHDR_SIZE : Z := 64.
Definition PROGHDR_SIZE : Z := 56.

Definition elf_magic (x : list Z) : Z := blk_get 4 0 x.
Definition elf_entry (x : list Z) : Z := blk_get 8 24 x.
Definition elf_phoff (x : list Z) : Z := blk_get 8 32 x.
Definition elf_phnum (x : list Z) : Z := blk_get 2 56 x.

Definition ph_type (x : list Z) : Z := blk_get 4 0 x.
Definition ph_off (x : list Z) : Z := blk_get 8 8 x.
Definition ph_vaddr (x : list Z) : Z := blk_get 8 16 x.
Definition ph_filesz (x : list Z) : Z := blk_get 8 32 x.
Definition ph_memsz (x : list Z) : Z := blk_get 8 40 x.

Section exec.
Context {lnk : Linker} {dev : VirtioDev}.

Definition loadseg_turn (pagetable va : Z) (ip : nat) (offset sz i : Z) : K (Z + Z) :=
  if i <? sz then
    pa <- walkaddr pagetable (u64 (va + i)) ;;
    if pa =? 0 then panic "loadseg: address should exist" else
    let n := if sz - i <? PGSIZE then sz - i else PGSIZE in
    r <- readi ip (P_kern pa) (u32 (offset + i)) n ;;
    if negb (u32 r.1 =? n) then ret (inr (-1)) else ret (inl (u32 (i + PGSIZE)))
  else ret (inr 0).
Definition loadseg (pagetable va : Z) (ip : nat) (offset sz : Z) : K Z :=
  if negb (va mod PGSIZE =? 0) then panic "loadseg: va must be page aligned" else
  loop (loadseg_turn pagetable va ip offset sz) 0.

(** The label [bad]. *)
Definition exec_bad (pagetable sz : Z) (ip : option nat) : K Z :=
  when (negb (pagetable =? 0)) (proc_freepagetable pagetable sz) ;;;
  match ip with
  | Some i => iunlockput i ;;; end_op
  | None => ret tt
  end ;;;
  ret (-1).

(** Loading the segments: the status (false is [goto bad]) and the size. *)
Definition exec_load_turn (pagetable : Z) (ip : nat) (phnum : Z) (st : Z * Z * Z) : K (Z * Z * Z + bool * Z) :=
  let '(i, off, sz) := st in
  if i <? phnum then
    r <- readi ip (P_local []) (u32 off) PROGHDR_SIZE ;;
    let ph := r.2 in
    let next sz := (i + 1, i32 (off + PROGHDR_SIZE), sz) in
    if negb (r.1 =? PROGHDR_SIZE) then ret (inr (false, sz)) else
    if negb (ph_type ph =? ELF_PROG_LOAD) then ret (inl (next sz)) else
    if ph_memsz ph <? ph_filesz ph then ret (inr (false, sz)) else
    if u64 (ph_vaddr ph + ph_memsz ph) <? ph_vaddr ph then ret (inr (false, sz)) else
    sz1 <- uvmalloc pagetable sz (u64 (ph_vaddr ph + ph_memsz ph)) ;;
    if sz1 =? 0 then ret (inr (false, sz)) else
    if negb (ph_vaddr ph mod PGSIZE =? 0) then ret (inr (false, sz1)) else
    r <- loadseg pagetable (ph_vaddr ph) ip (u32 (ph_off ph)) (u32 (ph_filesz ph)) ;;
    if r <? 0 then ret (inr (false, sz1)) else ret (inl (next sz1))
  else ret (inr (true, sz)).

(** The string in the page at [a]. *)
Definition kstr_at (a : Z) : K (list Z) := gets (λ s, read_bytes (k_mem s) a (Z.to_nat PGSIZE)).

(** Pushing the argument strings: [None] is [goto bad]; else [argc], [sp] and [ustack]. *)
Definition exec_push_turn (pagetable stackbase : Z) (argv : list Z) (st : nat * Z * list Z) :
    K (nat * Z * list Z + option (nat * Z * list Z)) :=
  let '(argc, sp, ustack) := st in
  a <- deref (argv !! argc) ;;
  if a =? 0 then ret (inr (Some (argc, sp, ustack))) else
  if MAXARG <=? Z.of_nat argc then ret (inr None) else
  s <- kstr_at a ;;
  let n := strlen s + 1 in
  let sp := u64 (sp - n) in
  let sp := sp - sp mod 16 in
  if sp <? stackbase then ret (inr None) else
  r <- copyout pagetable sp (take (Z.to_nat n) s) ;;
  if r <? 0 then ret (inr None) else
  ret (inl (S argc, sp, ustack ++ [sp])).

(** What follows the last slash. *)
Fixpoint last_elem (s last : list Z) : list Z :=
  match s with
  | [] => last
  | c :: s' => if c =? 0 then last else last_elem s' (if c =? slash then s' else last)
  end.

(** From the second half of [exec]: the program is loaded, the stack is next. *)
Definition exec_stack (path : list Z) (argv : list Z) (entry pagetable sz : Z) : K Z :=
  p <- myproc ;;
  p <- deref p ;;
  pr <- proc_of p ;;
  let oldsz := p_sz pr in
  let sz := PGROUNDUP sz in
  sz1 <- uvmalloc pagetable sz (u64 (sz + 2 * PGSIZE)) ;;
  if sz1 =? 0 then exec_bad pagetable sz None else
  let sz := sz1 in
  uvmclear pagetable (u64 (sz - 2 * PGSIZE)) ;;;
  let stackbase := u64 (sz - PGSIZE) in
  r <- loop (exec_push_turn pagetable stackbase argv) (O, sz, []) ;;
  match r with
  | None => exec_bad pagetable sz None
  | Some (argc, sp, ustack) =>
      let n := Z.of_nat argc in
      let sp := u64 (sp - (n + 1) * 8) in
      let sp := sp - sp mod 16 in
      if sp <? stackbase then exec_bad pagetable sz None else
      r <- copyout pagetable sp (concat (le_bytes 8 <$> (ustack ++ [0]))) ;;
      if r <? 0 then exec_bad pagetable sz None else
      tf_set p (TF_a 1) sp ;;;
      modify_proc p (λ pr, set_p_name (safestrcpy (p_name pr) (last_elem path path) 16) pr) ;;;
      pr <- proc_of p ;;
      let oldpagetable := p_pagetable pr in
      modify_proc p (set_p_pagetable pagetable) ;;;
      modify_proc p (set_p_sz sz) ;;;
      tf_set p TF_epc entry ;;;
      tf_set p TF_sp sp ;;;
      proc_freepagetable oldpagetable oldsz ;;;
      ret n
  end.

Definition exec (path : list Z) (argv : list Z) : K Z :=
  p <- myproc ;;
  p <- deref p ;;
  begin_op ;;;
  ip <- namei path ;;
  match ip with
  | None => end_op ;;; ret (-1)
  | Some i =>
      ilock (Some i) ;;;
      r <- readi i (P_local []) 0 ELFHDR_SIZE ;;
      if negb (r.1 =? ELFHDR_SIZE) then exec_bad 0 0 (Some i) else
      let elf := r.2 in
      if negb (elf_magic elf =? ELF_MAGIC) then exec_bad 0 0 (Some i) else
      pagetable <- proc_pagetable p ;;
      if pagetable =? 0 then exec_bad 0 0 (Some i) else
      r <- loop (exec_load_turn pagetable i (elf_phnum elf)) (0, i32 (elf_phoff elf), 0) ;;
      let '(ok, sz) := r in
      if negb ok then exec_bad pagetable sz (Some i) else
      iunlockput i ;;;
      end_op ;;;
      exec_stack path argv (elf_entry elf) pagetable sz
  end.
End exec.
