(* ===== verification/Syscall.v ===== *)
(** kernel/syscall.c, kernel/sysproc.c and kernel/sysfile.c: the system calls
    and their arguments.

    A C variable that a function fills through a pointer is part of its
    result. *)

From S2P Require Import Prelude Mem KString Params Print Kernel Spinlock Kalloc Sched Sleeplock Virtio Bio.
From S2P Require Import Log Vm Pipe Fs Console File Proc Exec.

(** * kernel/syscall.c: arguments *)

(** The current process. *)
Definition curproc : K nat := p <- myproc ;; deref p.

(** The value is meaningful when the status is 0. *)
Definition fetchaddr (addr : Z) : K (Z * Z) :=
  p <- curproc ;;
  pr <- proc_of p ;;
  if (p_sz pr <=? addr) || (u64 (addr + 8) >? p_sz pr) then ret (-1, 0) else
  r <- copyin (p_pagetable pr) addr 8 ;;
  if negb (r.1 =? 0) then ret (-1, 0) else ret (0, le_val r.2).

(** The status and the bytes that arrived in the buffer. *)
Definition fetchstr (addr max : Z) : K (Z * list Z) :=
  p <- curproc ;;
  pr <- proc_of p ;;
  r <- copyinstr (p_pagetable pr) addr max ;;
  if r.1 <? 0 then ret r else ret (strlen r.2, r.2).

Definition argraw (n : Z) : K Z :=
  p <- curproc ;;
  if (0 <=? n) && (n <=? 5) then tf_get p (TF_a n) else panic "argraw".
Definition argint (n : Z) : K Z := v <- argraw n ;; ret (i32 v).
Definition argaddr (n : Z) : K Z := argraw n.
Definition argstr (n max : Z) : K (Z * list Z) :=
  addr <- argaddr n ;;
  fetchstr addr max.

(** * kernel/sysproc.c *)

Section syscalls.
Context {lnk : Linker} {dev : VirtioDev}.

Definition sys_exit : K Z :=
  n <- argint 0 ;;
  exit n ;;;
  ret 0.

Definition sys_getpid : K Z :=
  p <- curproc ;;
  pr <- proc_of p ;;
  ret (p_pid pr).

Definition sys_fork : K Z := fork.

Definition sys_wait : K Z :=
  a <- argaddr 0 ;;
  wait a.

Definition sys_sbrk : K Z :=
  n <- argint 0 ;;
  p <- curproc ;;
  pr <- proc_of p ;;
  let addr := i32 (p_sz pr) in
  r <- growproc n ;;
  if r <? 0 then ret (-1) else ret addr.

(** [n] is compared as an unsigned number. *)
Definition sys_sleep_turn (ticks0 n : Z) (_ : unit) : K (unit + Z) :=
  ticks <- gets k_ticks ;;
  if u32 (ticks - ticks0) <? u32 n then
    p <- curproc ;;
    pr <- proc_of p ;;
    if negb (p_killed pr =? 0) then
      release L_ticks ;;;
      ret (inr (-1))
    else
      sleep Ch_ticks L_ticks ;;;
      ret (inl tt)
  else
    release L_ticks ;;;
    ret (inr 0).
Definition sys_sleep : K Z :=
  n <- argint 0 ;;
  acquire L_ticks ;;;
  ticks0 <- gets k_ticks ;;
  loop (sys_sleep_turn ticks0 n) tt.

Definition sys_kill : K Z :=
  pid <- argint 0 ;;
  kill pid.

Definition sys_uptime : K Z :=
  acquire L_ticks ;;;
  xticks <- gets k_ticks ;;
  release L_ticks ;;;
  ret xticks.

(** * kernel/sysfile.c *)

(** The descriptor and the file, or [None] for -1. *)
Definition argfd (n : Z) : K (option (nat * nat)) :=
  fd <- argint n ;;
  if (fd <? 0) || (NOFILE <=? fd) then ret None else
  p <- curproc ;;
  pr <- proc_of p ;;
  ret (match mjoin (p_ofile pr !! Z.to_nat fd) with Some f => Some (Z.to_nat fd, f) | None => None end).

Definition fdalloc_turn (p f fd : nat) : K (option nat) :=
  pr <- proc_of p ;;
  o <- deref (p_ofile pr !! fd) ;;
  match o with
  | None =>
      modify_proc p (λ pr, set_p_ofile (<[fd := Some f]> (p_ofile pr)) pr) ;;;
      ret (Some fd)
  | Some _ => ret None
  end.
(** [None] is -1. *)
Definition fdalloc (f : nat) : K (option nat) :=
  p <- curproc ;;
  for_in (seq 0 (Z.to_nat NOFILE)) (fdalloc_turn p f).
(** [p->ofile[fd] = 0] *)
Definition fdclear (fd : nat) : K unit :=
  p <- curproc ;;
  modify_proc p (λ pr, set_p_ofile (<[fd := None]> (p_ofile pr)) pr).

Definition sys_dup : K Z :=
  a <- argfd 0 ;;
  match a with
  | None => ret (-1)
  | Some (_, f) =>
      fd <- fdalloc f ;;
      match fd with
      | None => ret (-1)
      | Some fd => filedup f ;;; ret (Z.of_nat fd)
      end
  end.

Definition sys_read : K Z :=
  a <- argfd 0 ;;
  match a with
  | None => ret (-1)
  | Some (_, f) =>
      n <- argint 2 ;;
      p <- argaddr 1 ;;
      fileread f p n
  end.

Definition sys_write : K Z :=
  a <- argfd 0 ;;
  match a with
  | None => ret (-1)
  | Some (_, f) =>
      n <- argint 2 ;;
      p <- argaddr 1 ;;
      filewrite f p n
  end.

Definition sys_close : K Z :=
  a <- argfd 0 ;;
  match a with
  | None => ret (-1)
  | Some (fd, f) =>
      fdclear fd ;;;
      fileclose f ;;;
      ret 0
  end.

Definition sys_fstat : K Z :=
  a <- argfd 0 ;;
  match a with
  | None => ret (-1)
  | Some (_, f) =>
      st <- argaddr 1 ;;
      filestat f st
  end.

(** The label [bad] of [sys_link]. *)
Definition sys_link_bad (i : nat) : K Z :=
  ilock (Some i) ;;;
  modify_inode i (λ ip, set_in_nlink (i16 (in_nlink ip - 1)) ip) ;;;
  iupdate i ;;;
  iunlockput i ;;;
  end_op ;;;
  ret (-1).
Definition sys_link : K Z :=
  old <- argstr 0 MAXPATH ;;
  if old.1 <? 0 then ret (-1) else
  new <- argstr 1 MAXPATH ;;
  if new.1 <? 0 then ret (-1) else
  begin_op ;;;
  ip <- namei old.2 ;;
  match ip with
  | None => end_op ;;; ret (-1)
  | Some i =>
      ilock (Some i) ;;;
      ip <- inode_of i ;;
      if in_type ip =? T_DIR then
        iunlockput i ;;;
        end_op ;;;
        ret (-1)
      else
        modify_inode i (λ ip, set_in_nlink (i16 (in_nlink ip + 1)) ip) ;;;
        iupdate i ;;;
        iunlock (Some i) ;;;
        r <- nameiparent new.2 (replicate (Z.to_nat DIRSIZ) 0) ;;
        match r with
        | (None, _) => sys_link_bad i
        | (Some d, name) =>
            ilock (Some d) ;;;
            dp <- inode_of d ;;
            ip <- inode_of i ;;
            r <- (if negb (in_dev dp =? in_dev ip) then ret (-1) else dirlink d name (in_inum ip)) ;;
            if r <? 0 then
              iunlockput d ;;;
              sys_link_bad i
            else
              iunlockput d ;;;
              iput i ;;;
              end_op ;;;
              ret 0
        end
  end.

Definition isdirempty_turn (d : nat) (off : Z) : K (Z + bool) :=
  dp <- inode_of d ;;
  if off <? in_size dp then
    r <- readi d (P_local []) off DIRENT_SIZE ;;
    if negb (r.1 =? DIRENT_SIZE) then panic "isdirempty: readi" else
    if negb (de_inum r.2 =? 0) then ret (inr false) else ret (inl (off + DIRENT_SIZE))
  else ret (inr true).
Definition isdirempty (d : nat) : K bool := loop (isdirempty_turn d) (2 * DIRENT_SIZE).

(** The label [bad] of [sys_unlink]. *)
Definition sys_unlink_bad (d : nat) : K Z :=
  iunlockput d ;;;
  end_op ;;;
  ret (-1).
Definition sys_unlink : K Z :=
  path <- argstr 0 MAXPATH ;;
  if path.1 <? 0 then ret (-1) else
  begin_op ;;;
  r <- nameiparent path.2 (replicate (Z.to_nat DIRSIZ) 0) ;;
  match r with
  | (None, _) => end_op ;;; ret (-1)
  | (Some d, name) =>
      ilock (Some d) ;;;
      if (namecmp name (str ".") =? 0) || (namecmp name (str "..") =? 0) then sys_unlink_bad d else
      r <- dirlookup d name ;;
      match r with
      | None => sys_unlink_bad d
      | Some (i, off) =>
          ilock (Some i) ;;;
          ip <- inode_of i ;;
          if in_nlink ip <? 1 then panic "unlink: nlink < 1" else
          full <- (if in_type ip =? T_DIR then e <- isdirempty i ;; ret (negb e) else ret false) ;;
          if (full : bool) then
            iunlockput i ;;;
            sys_unlink_bad d
          else
            r <- writei d (P_local (replicate (Z.to_nat DIRENT_SIZE) 0)) off DIRENT_SIZE ;;
            if negb (r =? DIRENT_SIZE) then panic "unlink: writei" else
            ip <- inode_of i ;;
            when (in_type ip =? T_DIR) (
              modify_inode d (λ dp, set_in_nlink (i16 (in_nlink dp - 1)) dp) ;;;
              iupdate d) ;;;
            iunlockput d ;;;
            modify_inode i (λ ip, set_in_nlink (i16 (in_nlink ip - 1)) ip) ;;;
            iupdate i ;;;
            iunlockput i ;;;
            end_op ;;;
            ret 0
      end
  end.

Definition create (path : list Z) (type major minor : Z) : K (option nat) :=
  r <- nameiparent path (replicate (Z.to_nat DIRSIZ) 0) ;;
  match r with
  | (None, _) => ret None
  | (Some d, name) =>
      ilock (Some d) ;;;
      r <- dirlookup d name ;;
      match r with
      | Some (i, _) =>
          iunlockput d ;;;
          ilock (Some i) ;;;
          ip <- inode_of i ;;
          if (type =? T_FILE) && ((in_type ip =? T_FILE) || (in_type ip =? T_DEVICE)) then ret (Some i)
          else iunlockput i ;;; ret None
      | None =>
          dp <- inode_of d ;;
          i <- ialloc (in_dev dp) type ;;
          ilock (Some i) ;;;
          modify_inode i (set_in_major (i16 major)) ;;;
          modify_inode i (set_in_minor (i16 minor)) ;;;
          modify_inode i (set_in_nlink 1) ;;;
          iupdate i ;;;
          when (type =? T_DIR) (
            modify_inode d (λ dp, set_in_nlink (i16 (in_nlink dp + 1)) dp) ;;;
            iupdate d ;;;
            ip <- inode_of i ;;
            r <- dirlink i (str ".") (in_inum ip) ;;
            if r <? 0 then panic "create dots" else
            dp <- inode_of d ;;
            r <- dirlink i (str "..") (in_inum dp) ;;
            if r <? 0 then panic "create dots" else ret tt) ;;;
          ip <- inode_of i ;;
          r <- dirlink d name (in_inum ip) ;;
          if r <? 0 then panic "create: dirlink" else
          iunlockput d ;;;
          ret (Some i)
      end
  end.

(** The value of a condition in C. *)
Definition b2z (b : bool) : Z := if b then 1 else 0.

(** The inode to open, locked; [None] after the error path. *)
Definition open_inode (path : list Z) (omode : Z) : K (option nat) :=
  if has omode O_CREATE then
    i <- create path T_FILE 0 0 ;;
    match i with
    | None => end_op ;;; ret None
    | Some i => ret (Some i)
    end
  else
    i <- namei path ;;
    match i with
    | None => end_op ;;; ret None
    | Some i =>
        ilock (Some i) ;;;
        ip <- inode_of i ;;
        if (in_type ip =? T_DIR) && negb (omode =? O_RDONLY) then
          iunlockput i ;;;
          end_op ;;;
          ret None
        else ret (Some i)
    end.
(** No file or no descriptor. *)
Definition open_fail (f : option nat) (i : nat) : K Z :=
  match f with Some f => fileclose f | None => ret tt end ;;;
  iunlockput i ;;;
  end_op ;;;
  ret (-1).
Definition sys_open : K Z :=
  path <- argstr 0 MAXPATH ;;
  if path.1 <? 0 then ret (-1) else
  omode <- argint 1 ;;
  begin_op ;;;
  i <- open_inode path.2 omode ;;
  match i with
  | None => ret (-1)
  | Some i =>
      ip <- inode_of i ;;
      if (in_type ip =? T_DEVICE) && ((in_major ip <? 0) || (NDEV <=? in_major ip)) then
        iunlockput i ;;;
        end_op ;;;
        ret (-1)
      else
        f <- filealloc ;;
        match f with
        | None => open_fail None i
        | Some f =>
            fd <- fdalloc f ;;
            match fd with
            | None => open_fail (Some f) i
            | Some fd =>
                (if in_type ip =? T_DEVICE then
                   modify_file f (set_f_type FD_DEVICE) ;;;
                   modify_file f (set_f_major (in_major ip))
                 else
                   modify_file f (set_f_type FD_INODE) ;;;
                   modify_file f (set_f_off 0)) ;;;
                modify_file f (set_f_ip (Some i)) ;;;
                modify_file f (set_f_readable (b2z (negb (has omode O_WRONLY)))) ;;;
                modify_file f (set_f_writable (b2z (has omode O_WRONLY || has omode O_RDWR))) ;;;
                when (has omode O_TRUNC && (in_type ip =? T_FILE)) (itrunc i) ;;;
                iunlock (Some i) ;;;
                end_op ;;;
                ret (Z.of_nat fd)
            end
        end
  end.

Definition sys_mkdir : K Z :=
  begin_op ;;;
  path <- argstr 0 MAXPATH ;;
  i <- (if path.1 <? 0 then ret None else create path.2 T_DIR 0 0) ;;
  match i with
  | None => end_op ;;; ret (-1)
  | Some i => iunlockput i ;;; end_op ;;; ret 0
  end.

Definition sys_mknod : K Z :=
  begin_op ;;;
  path <- argstr 0 MAXPATH ;;
  i <- (if path.1 <? 0 then ret None else
        major <- argint 1 ;;
        minor <- argint 2 ;;
        create path.2 T_DEVICE (i16 major) (i16 minor)) ;;
  match i with
  | None => end_op ;;; ret (-1)
  | Some i => iunlockput i ;;; end_op ;;; ret 0
  end.

Definition sys_chdir : K Z :=
  p <- curproc ;;
  begin_op ;;;
  path <- argstr 0 MAXPATH ;;
  i <- (if path.1 <? 0 then ret None else namei path.2) ;;
  match i with
  | None => end_op ;;; ret (-1)
  | Some i =>
      ilock (Some i) ;;;
      ip <- inode_of i ;;
      if negb (in_type ip =? T_DIR) then
        iunlockput i ;;;
        end_op ;;;
        ret (-1)
      else
        iunlock (Some i) ;;;
        pr <- proc_of p ;;
        cwd <- deref (p_cwd pr) ;;
        iput cwd ;;;
        end_op ;;;
        modify_proc p (set_p_cwd (Some i)) ;;;
        ret 0
  end.

(** Fetching the arguments: the pages filled so far and whether all is well. *)
Definition sys_exec_turn (uargv : Z) (st : nat * list Z) : K (nat * list Z + bool * list Z) :=
  let '(i, argv) := st in
  if MAXARG <=? Z.of_nat i then ret (inr (false, argv)) else
  r <- fetchaddr (u64 (uargv + 8 * Z.of_nat i)) ;;
  if r.1 <? 0 then ret (inr (false, argv)) else
  let uarg := r.2 in
  if uarg =? 0 then ret (inr (true, argv)) else
  a <- kalloc ;;
  if a =? 0 then ret (inr (false, argv)) else
  r <- fetchstr uarg PGSIZE ;;
  modify (λ s, set_k_mem (write_bytes (k_mem s) a r.2) s) ;;;
  if r.1 <? 0 then ret (inr (false, argv ++ [a])) else
  ret (inl (S i, argv ++ [a])).
Definition free_args (argv : list Z) : K unit :=
  for_in argv (λ a, kfree a ;;; ret (@None unit)) ;;;
  ret tt.
Definition sys_exec : K Z :=
  path <- argstr 0 MAXPATH ;;
  if path.1 <? 0 then ret (-1) else
  uargv <- argaddr 1 ;;
  r <- loop (sys_exec_turn uargv) (O, []) ;;
  let '(ok, argv) := r in
  if negb ok then
    free_args argv ;;;
    ret (-1)
  else
    r <- exec path.2 (argv ++ replicate (Z.to_nat MAXARG - length argv) 0) ;;
    free_args argv ;;;
    ret r.

Definition sys_pipe_bad (rf wf : nat) : K Z :=
  fileclose rf ;;;
  fileclose wf ;;;
  ret (-1).
Definition sys_pipe : K Z :=
  p <- curproc ;;
  fdarray <- argaddr 0 ;;
  r <- pipealloc ;;
  match r with
  | None => ret (-1)
  | Some (rf, wf) =>
      fd0 <- fdalloc rf ;;
      match fd0 with
      | None => sys_pipe_bad rf wf
      | Some fd0 =>
          fd1 <- fdalloc wf ;;
          match fd1 with
          | None =>
              fdclear fd0 ;;;
              sys_pipe_bad rf wf
          | Some fd1 =>
              pr <- proc_of p ;;
              r <- copyout (p_pagetable pr) fdarray (le_bytes 4 (Z.of_nat fd0)) ;;
              r <- (if r <? 0 then ret r
                    else copyout (p_pagetable pr) (u64 (fdarray + 4)) (le_bytes 4 (Z.of_nat fd1))) ;;
              if r <? 0 then
                fdclear fd0 ;;;
                fdclear fd1 ;;;
                sys_pipe_bad rf wf
              else ret 0
          end
      end
  end.

(** * kernel/syscall.c: dispatch *)

Definition syscalls (num : Z) : option (K Z) :=
  match num with
  | 1 => Some sys_fork | 2 => Some sys_exit | 3 => Some sys_wait | 4 => Some sys_pipe
  | 5 => Some sys_read | 6 => Some sys_kill | 7 => Some sys_exec | 8 => Some sys_fstat
  | 9 => Some sys_chdir | 10 => Some sys_dup | 11 => Some sys_getpid | 12 => Some sys_sbrk
  | 13 => Some sys_sleep | 14 => Some sys_uptime | 15 => Some sys_open | 16 => Some sys_write
  | 17 => Some sys_mknod | 18 => Some sys_unlink | 19 => Some sys_link | 20 => Some sys_mkdir
  | 21 => Some sys_close
  | _ => None
  end.

Definition syscall : K unit :=
  p <- curproc ;;
  a7 <- tf_get p (TF_a 7) ;;
  let num := i32 a7 in
  match syscalls num with
  | Some f =>
      v <- f ;;
      tf_set p (TF_a 0) (u64 v)
  | None =>
      pr <- proc_of p ;;
      kprintf (Some (str "%d %s: unknown sys call %d" ++ nl))
        [VA (p_pid pr); VAs (Some (p_name pr)); VA num] ;;;
      tf_set p (TF_a 0) (u64 (-1))
  end.
End syscalls.
