(* ===== verification/Trap.v ===== *)
(** kernel/trap.c, kernel/plic.c, kernel/start.c, kernel/main.c, [forkret] of
    kernel/proc.c and [kvminithart] of kernel/vm.c: starting the machine, and
    entering and leaving the kernel.

    The control registers of the hart are in [k_csr], except that bit SIE of
    sstatus is the hart's interrupt flag. The registers of the interrupt
    controllers are in [k_mmio]: what a read of the claim register gives is
    what the controller has put there. A function that ends by leaving the
    kernel returns where it goes. *)

From S2P Require Import Prelude Mem KString Params Print Kernel Spinlock Kalloc Sched Sleeplock Virtio Bio.
From S2P Require Import Log Vm Pipe Fs Console File Proc Exec Syscall.

(** * Registers: kernel/riscv.h and kernel/memlayout.h *)

Definition SSTATUS_SPP : Z := Z.shiftl 1 8.
Definition SSTATUS_SPIE : Z := Z.shiftl 1 5.
Definition SSTATUS_SIE : Z := Z.shiftl 1 1.
Definition MSTATUS_MPP_MASK : Z := Z.shiftl 3 11.
Definition MSTATUS_MPP_S : Z := Z.shiftl 1 11.
Definition MSTATUS_MIE : Z := Z.shiftl 1 3.
Definition SIE_SEIE : Z := Z.shiftl 1 9.
Definition SIE_STIE : Z := Z.shiftl 1 5.
Definition SIE_SSIE : Z := Z.shiftl 1 1.
Definition MIE_MTIE : Z := Z.shiftl 1 7.
Definition SATP_SV39 : Z := Z.shiftl 8 60.
Definition MAKE_SATP (pagetable : Z) : Z := Z.lor SATP_SV39 (Z.shiftr pagetable 12).

Definition UART0_IRQ : Z := 10.
Definition VIRTIO0_IRQ : Z := 1.
Definition CLINT : Z := 0x2000000.
Definition CLINT_MTIMECMP (hartid : Z) : Z := CLINT + 0x4000 + 8 * hartid.
Definition CLINT_MTIME : Z := CLINT + 0xBFF8.
Definition PLIC_SENABLE (hart : Z) : Z := PLIC + 0x2080 + hart * 0x100.
Definition PLIC_SPRIORITY (hart : Z) : Z := PLIC + 0x201000 + hart * 0x2000.
Definition PLIC_SCLAIM (hart : Z) : Z := PLIC + 0x201004 + hart * 0x2000.

Definition csr (r : string) (s : kstate) : Z := default 0 (k_csr s !! r).
Definition r_csr (r : string) : K Z := gets (csr r).
Definition w_csr (r : string) (v : Z) : K unit := modify (λ s, set_k_csr (<[r := v]> (k_csr s)) s).

Definition r_sstatus : K Z :=
  gets (λ s, Z.lor (Z.ldiff (csr "sstatus" s) SSTATUS_SIE) (if intr (k_core s) then SSTATUS_SIE else 0)).
Definition w_sstatus (x : Z) : K unit :=
  w_csr "sstatus" x ;;;
  modify_core (set_intr (Z.testbit x 1)).
Definition r_tp : K Z := h <- cpuid ;; ret (Z.of_nat h).
Definition w_tp (x : Z) : K unit := modify_core (set_hart (Z.to_nat x)).

Definition read_mmio (a : Z) : K Z := gets (λ s, default 0 (k_mmio s !! a)).
Definition write_mmio (a v : Z) : K unit := modify (λ s, set_k_mmio (<[a := v]> (k_mmio s)) s).

(** * kernel/plic.c *)

Definition plicinit : K unit :=
  write_mmio (PLIC + UART0_IRQ * 4) 1 ;;;
  write_mmio (PLIC + VIRTIO0_IRQ * 4) 1.

Definition plicinithart : K unit :=
  hart <- cpuid ;;
  write_mmio (PLIC_SENABLE (Z.of_nat hart)) (Z.lor (Z.shiftl 1 UART0_IRQ) (Z.shiftl 1 VIRTIO0_IRQ)) ;;;
  write_mmio (PLIC_SPRIORITY (Z.of_nat hart)) 0.

Definition plic_claim : K Z :=
  hart <- cpuid ;;
  v <- read_mmio (PLIC_SCLAIM (Z.of_nat hart)) ;;
  ret (i32 v).

Definition plic_complete (irq : Z) : K unit :=
  hart <- cpuid ;;
  write_mmio (PLIC_SCLAIM (Z.of_nat hart)) (u32 irq).

(** * kernel/start.c *)

Section machine.
Context {lnk : Linker} {dev : VirtioDev}.

Definition timerinit : K unit :=
  id <- r_csr "mhartid" ;;
  let id := i32 id in
  let interval := 1000000 in
  t <- read_mmio CLINT_MTIME ;;
  write_mmio (CLINT_MTIMECMP id) (u64 (t + interval)) ;;;
  let scratch := timer_scratch + id * (5 * 8) in
  wr64 (scratch + 3 * 8) (CLINT_MTIMECMP id) ;;;
  wr64 (scratch + 4 * 8) interval ;;;
  w_csr "mscratch" scratch ;;;
  w_csr "mtvec" timervec ;;;
  x <- r_csr "mstatus" ;;
  w_csr "mstatus" (Z.lor x MSTATUS_MIE) ;;;
  x <- r_csr "mie" ;;
  w_csr "mie" (Z.lor x MIE_MTIE).

(** [mret] jumps to the address in mepc, in the mode in mstatus. *)
Definition start : K Z :=
  x <- r_csr "mstatus" ;;
  let x := Z.ldiff x MSTATUS_MPP_MASK in
  let x := Z.lor x MSTATUS_MPP_S in
  w_csr "mstatus" x ;;;
  w_csr "mepc" main_pc ;;;
  w_csr "satp" 0 ;;;
  w_csr "medeleg" 0xffff ;;;
  w_csr "mideleg" 0xffff ;;;
  x <- r_csr "sie" ;;
  w_csr "sie" (Z.lor (Z.lor (Z.lor x SIE_SEIE) SIE_STIE) SIE_SSIE) ;;;
  timerinit ;;;
  id <- r_csr "mhartid" ;;
  w_tp (i32 id) ;;;
  r_csr "mepc".

(** * kernel/trap.c *)

Definition trapinit : K unit := initlock L_ticks "time".

Definition trapinithart : K unit := w_csr "stvec" kernelvec.

Definition clockintr : K unit :=
  acquire L_ticks ;;;
  modify (λ s, set_k_ticks (u32 (k_ticks s + 1)) s) ;;;
  wakeup Ch_ticks ;;;
  release L_ticks.

Definition devintr : K Z :=
  scause <- r_csr "scause" ;;
  if negb (Z.land scause 0x8000000000000000 =? 0) && (Z.land scause 0xff =? 9) then
    irq <- plic_claim ;;
    (if irq =? UART0_IRQ then uartintr
     else if irq =? VIRTIO0_IRQ then virtio_disk_intr
     else when (negb (irq =? 0)) (kprintf (Some (str "unexpected interrupt irq=%d" ++ nl)) [VA irq])) ;;;
    when (negb (irq =? 0)) (plic_complete irq) ;;;
    ret 1
  else if scause =? 0x8000000000000001 then
    h <- cpuid ;;
    when (h =? 0)%nat clockintr ;;;
    x <- r_csr "sip" ;;
    w_csr "sip" (Z.ldiff x 2) ;;;
    ret 2
  else ret 0.

(** Where the jump to the trampoline goes, and its two arguments. *)
Definition usertrapret : K (Z * Z * Z) :=
  p <- curproc ;;
  intr_off ;;;
  w_csr "stvec" (u64 (TRAMPOLINE + (uservec - trampoline))) ;;;
  x <- r_csr "satp" ;;
  tf_set p TF_kernel_satp x ;;;
  pr <- proc_of p ;;
  tf_set p TF_kernel_sp (u64 (p_kstack pr + PGSIZE)) ;;;
  tf_set p TF_kernel_trap usertrap_pc ;;;
  x <- r_tp ;;
  tf_set p TF_kernel_hartid x ;;;
  x <- r_sstatus ;;
  let x := Z.ldiff x SSTATUS_SPP in
  let x := Z.lor x SSTATUS_SPIE in
  w_sstatus x ;;;
  x <- tf_get p TF_epc ;;
  w_csr "sepc" x ;;;
  pr <- proc_of p ;;
  let satp := MAKE_SATP (p_pagetable pr) in
  let fn := u64 (TRAMPOLINE + (userret - trampoline)) in
  ret (fn, TRAPFRAME, satp).

(** The system call, or the device: its number. *)
Definition usertrap_cause (p : nat) : K Z :=
  scause <- r_csr "scause" ;;
  if scause =? 8 then
    pr <- proc_of p ;;
    when (negb (p_killed pr =? 0)) (exit (-1)) ;;;
    x <- tf_get p TF_epc ;;
    tf_set p TF_epc (u64 (x + 4)) ;;;
    intr_on ;;;
    syscall ;;;
    ret 0
  else
    which_dev <- devintr ;;
    if negb (which_dev =? 0) then ret which_dev else
    scause <- r_csr "scause" ;;
    pr <- proc_of p ;;
    kprintf (Some (str "usertrap(): unexpected scause %p pid=%d" ++ nl)) [VA scause; VA (p_pid pr)] ;;;
    sepc <- r_csr "sepc" ;;
    stval <- r_csr "stval" ;;
    kprintf (Some (str "            sepc=%p stval=%p" ++ nl)) [VA sepc; VA stval] ;;;
    modify_proc p (set_p_killed 1) ;;;
    ret 0.
Definition usertrap : K (Z * Z * Z) :=
  x <- r_sstatus ;;
  if negb (Z.land x SSTATUS_SPP =? 0) then panic "usertrap: not from user mode" else
  w_csr "stvec" kernelvec ;;;
  p <- curproc ;;
  x <- r_csr "sepc" ;;
  tf_set p TF_epc x ;;;
  which_dev <- usertrap_cause p ;;
  pr <- proc_of p ;;
  when (negb (p_killed pr =? 0)) (exit (-1)) ;;;
  when (which_dev =? 2) yield ;;;
  usertrapret.

Definition kerneltrap : K unit :=
  sepc <- r_csr "sepc" ;;
  sstatus <- r_sstatus ;;
  scause <- r_csr "scause" ;;
  if Z.land sstatus SSTATUS_SPP =? 0 then panic "kerneltrap: not from supervisor mode" else
  i <- intr_get ;;
  if (i : bool) then panic "kerneltrap: interrupts enabled" else
  which_dev <- devintr ;;
  if which_dev =? 0 then
    kprintf (Some (str "scause %p" ++ nl)) [VA scause] ;;;
    sepc <- r_csr "sepc" ;;
    stval <- r_csr "stval" ;;
    kprintf (Some (str "sepc=%p stval=%p" ++ nl)) [VA sepc; VA stval] ;;;
    panic "kerneltrap"
  else
    (if which_dev =? 2 then
       p <- myproc ;;
       match p with
       | Some p =>
           pr <- proc_of p ;;
           when (bool_decide (p_state pr = RUNNING)) yield
       | None => ret tt
       end
     else ret tt) ;;;
    w_csr "sepc" sepc ;;;
    w_sstatus sstatus.

(** * kernel/proc.c: forkret *)

Definition forkret : K (Z * Z * Z) :=
  p <- curproc ;;
  release (L_proc p) ;;;
  first <- gets k_first ;;
  when (negb (first =? 0)) (
    modify (set_k_first 0) ;;;
    fsinit ROOTDEV) ;;;
  usertrapret.

(** * kernel/main.c *)

(** kernel/vm.c; the barriers order the hardware's own accesses. *)
Definition kvminithart : K unit :=
  kpt <- gets k_kpt ;;
  w_csr "satp" (MAKE_SATP kpt).

(** [while(started == 0) ;] *)
Definition await_started : K unit :=
  loop (λ _, st <- gets k_started ;;
             if st =? 0 then wait_env ;;; ret (inl tt) else ret (inr tt)) tt.

(** [scheduler] does not return: [n] is how many of its rounds to run. *)
Definition main (n : nat) : K unit :=
  h <- cpuid ;;
  (if (h =? 0)%nat then
     consoleinit ;;;
     printfinit ;;;
     kprintf (Some nl) [] ;;;
     kprintf (Some (str "xv6 kernel is booting" ++ nl)) [] ;;;
     kprintf (Some nl) [] ;;;
     kinit ;;;
     kvminit proc_mapstacks ;;;
     kvminithart ;;;
     procinit ;;;
     trapinit ;;;
     trapinithart ;;;
     plicinit ;;;
     plicinithart ;;;
     binit ;;;
     iinit ;;;
     fileinit ;;;
     virtio_disk_init disk_pages ;;;
     userinit ;;;
     modify (set_k_started 1)
   else
     await_started ;;;
     h <- cpuid ;;
     kprintf (Some (str "hart %d starting" ++ nl)) [VA (Z.of_nat h)] ;;;
     kvminithart ;;;
     trapinithart ;;;
     plicinithart) ;;;
  scheduler n.
End machine.
